(** * Li (2002) bounding-surface sand model: [org/k_nl.py]

    A shallow embedding of the classes [StateParameters] and [Li2002] and of
    the properties stated about them.

    Numbers.  The program computes with numpy [float64].  The embedding
    idealises them as real numbers: [+ - * /] are the field operations of
    [R], [np.sqrt], [np.exp], [np.sin], [np.arcsin], [np.abs] are
    [sqrt], [exp], [sin], [asin], [Rabs], and a comparison is the order of
    [R].  Rounding, overflow, infinities and NaN are therefore outside that
    model; a statement over [R] is a statement about the exact-arithmetic
    reading of the code.  Where rounding decides the outcome, near the branch
    boundary of the shape function, the two branches are also given on
    binary64 numbers (module [Float64]) and the statement is made there.

    Exceptions.  A Python exception is a value [Raise e] of the result type
    [res]; it propagates through [bind].

    Arrays.  A numpy array of shape (3,) is an [arr3], of shape (3,3) a
    [mat3], of shape (3,3,3,3) a [ten4]; [flatten] and [reshape] are the
    row-major conversions to and from lists. *)

From Stdlib Require Import String ZArith Reals Lra Lia Bool Psatz List.
From Corelib Require PrimFloat.
Import ListNotations.
Open Scope R_scope.

Set Implicit Arguments.

(* ------------------------------------------------------------------ *)
(** ** Exceptions *)

Inductive pyexn : Type :=
| AttributeError (attr : string)
| TypeError
| ValueError
| ZeroDivisionError
| IndexError
| LinAlgError.

Inductive res (A : Type) : Type :=
| Ok (a : A)
| Raise (e : pyexn).

Arguments Ok {A} a.
Arguments Raise {A} e.

Definition bind {A B : Type} (c : res A) (k : A -> res B) : res B :=
  match c with
  | Ok a => k a
  | Raise e => Raise e
  end.

Notation "x <- c ;; k" := (bind c (fun x => k))
  (at level 61, c at next level, right associativity).
Notation "' p <- c ;; k" := (bind c (fun x => match x with p => k end))
  (at level 61, p pattern, c at next level, right associativity).

(* ------------------------------------------------------------------ *)
(** ** Comparisons of floats, as booleans *)

Definition Rltb (x y : R) : bool := if Rlt_dec x y then true else false.
Definition Rleb (x y : R) : bool := if Rle_dec x y then true else false.
Definition Reqb (x y : R) : bool := if Req_dec_T x y then true else false.

(** Python's [max(a, b)] and [min(a, b)] return [a] unless [b] is strictly
    better. *)
Definition py_max (a b : R) : R := if Rltb a b then b else a.
Definition py_min (a b : R) : R := if Rltb b a then b else a.

(** [x ** y] for a float exponent; the program only takes it at a base
    that is positive ([Rpower]) or zero. *)
Definition np_power (x y : R) : R :=
  if Reqb x 0 then (if Reqb y 0 then 1 else 0) else Rpower x y.

(* ------------------------------------------------------------------ *)
(** ** Arrays of shape (3,), (3,3) and (3,3,3,3) *)

Inductive ix : Type := I0 | I1 | I2.

Record arr3 (A : Type) : Type := Arr3 { a0 : A; a1 : A; a2 : A }.

Definition at3 {A} (v : arr3 A) (i : ix) : A :=
  match i with I0 => a0 v | I1 => a1 v | I2 => a2 v end.

Definition tab3 {A} (f : ix -> A) : arr3 A := Arr3 (f I0) (f I1) (f I2).

Definition mat (A : Type) : Type := arr3 (arr3 A).
Definition mat3 : Type := mat R.
Definition ten4 : Type := mat mat3.

Definition mget {A} (m : mat A) (i j : ix) : A := at3 (at3 m i) j.
Definition mtab {A} (f : ix -> ix -> A) : mat A := tab3 (fun i => tab3 (f i)).

Notation "m .[ i , j ]" := (mget m i j) (at level 1, format "m .[ i , j ]").

Definition sum3 (f : ix -> R) : R := f I0 + f I1 + f I2.
Definition sum33 (f : ix -> ix -> R) : R := sum3 (fun i => sum3 (f i)).

Definition zeros33 : mat3 := mtab (fun _ _ => 0).
Definition eye3 : mat3 :=
  mtab (fun i j => match i, j with I0, I0 | I1, I1 | I2, I2 => 1 | _, _ => 0 end).

Definition madd (a b : mat3) : mat3 := mtab (fun i j => a.[i,j] + b.[i,j]).
Definition msub (a b : mat3) : mat3 := mtab (fun i j => a.[i,j] - b.[i,j]).
Definition mscale (k : R) (a : mat3) : mat3 := mtab (fun i j => k * a.[i,j]).
Definition mdiv (a : mat3) (k : R) : mat3 := mtab (fun i j => a.[i,j] / k).

(** [np.power(a,2).sum()] *)
Definition sumsq (a : mat3) : R := sum33 (fun i j => a.[i,j] * a.[i,j]).
(** [np.linalg.norm(a)]: the Frobenius norm. *)
Definition norm (a : mat3) : R := sqrt (sumsq a).
(** [np.einsum("ij,ij", a, b)] *)
Definition ddot (a b : mat3) : R := sum33 (fun i j => a.[i,j] * b.[i,j]).
(** [np.trace(a)] *)
Definition trace (a : mat3) : R := a.[I0,I0] + a.[I1,I1] + a.[I2,I2].
(** [np.linalg.det(a)] of a 3x3 array. *)
Definition det (a : mat3) : R :=
  a.[I0,I0] * (a.[I1,I1] * a.[I2,I2] - a.[I1,I2] * a.[I2,I1])
  - a.[I0,I1] * (a.[I1,I0] * a.[I2,I2] - a.[I1,I2] * a.[I2,I0])
  + a.[I0,I2] * (a.[I1,I0] * a.[I2,I1] - a.[I1,I1] * a.[I2,I0]).

(** [np.einsum('pq,kl->pqkl', a, b)] and the difference of two
    (3,3,3,3) arrays. *)
Definition outer (a b : mat3) : ten4 :=
  mtab (fun p q => mtab (fun k l => a.[p,q] * b.[k,l])).
Definition tsub (x y : ten4) : ten4 :=
  mtab (fun p q => msub x.[p,q] y.[p,q]).

(** [a.flatten()] and [np.reshape(l, (3,3))], row-major. *)
Definition flatten3 {A} (v : arr3 A) : list A := [a0 v; a1 v; a2 v].
Definition flatten {A} (m : mat A) : list A :=
  flatten3 (a0 m) ++ flatten3 (a1 m) ++ flatten3 (a2 m).

Definition reshape33 (l : list R) : mat3 :=
  Arr3 (Arr3 (nth 0 l 0) (nth 1 l 0) (nth 2 l 0))
       (Arr3 (nth 3 l 0) (nth 4 l 0) (nth 5 l 0))
       (Arr3 (nth 6 l 0) (nth 7 l 0) (nth 8 l 0)).

(** [np.reshape(E, (9,9))]: row [3i+j], column [3k+l] holds [E[i,j,k,l]]. *)
Definition reshape99 (E : ten4) : list (list R) := map (@flatten R) (flatten E).

(** The double contraction [E : x], [(E:x)[i,j] = sum_kl E[i,j,k,l] x[k,l]]. *)
Definition contract (E : ten4) (x : mat3) : mat3 :=
  mtab (fun i j => ddot E.[i,j] x).

(* ------------------------------------------------------------------ *)
(** ** numpy on flat arrays: [np.dot], boolean masks, [np.linalg.solve] *)

Fixpoint dot (u v : list R) : R :=
  match u, v with
  | a :: u', b :: v' => a * b + dot u' v'
  | _, _ => 0
  end.

(** [np.dot(A, x)] for a 2-d [A] and a 1-d [x]. *)
Definition np_dot (A : list (list R)) (x : list R) : list R :=
  map (fun row => dot row x) A.

(** [l[d]] for a boolean mask [d]. *)
Fixpoint mask_select {A} (d : list bool) (l : list A) : list A :=
  match d, l with
  | true :: d', a :: l' => a :: mask_select d' l'
  | false :: d', _ :: l' => mask_select d' l'
  | _, _ => []
  end.

(** [l[d] = v] for a scalar [v]. *)
Fixpoint mask_fill (d : list bool) (l : list R) (v : R) : list R :=
  match d, l with
  | true :: d', _ :: l' => v :: mask_fill d' l' v
  | false :: d', a :: l' => a :: mask_fill d' l' v
  | _, _ => l
  end.

(** [l[d] = vals] for an array [vals]: numpy raises [ValueError] unless
    [vals] has one value for each [True] of the mask. *)
Fixpoint mask_assign (d : list bool) (l vals : list R) : res (list R) :=
  match d, l with
  | true :: d', _ :: l' =>
      match vals with
      | v :: vals' => r <- mask_assign d' l' vals' ;; Ok (v :: r)
      | [] => Raise ValueError
      end
  | false :: d', a :: l' => r <- mask_assign d' l' vals ;; Ok (a :: r)
  | _, _ => match vals with [] => Ok l | _ :: _ => Raise ValueError end
  end.

(** [np.linalg.solve(A, b)] is LAPACK's [gesv]: elimination with partial
    pivoting, [LinAlgError] when a pivot is exactly zero (singular matrix).
    A row of the system carries its right-hand side.  The rows left after
    a pivot is taken are kept in a list; LAPACK swaps in place, which orders
    them differently, and in exact arithmetic the solution does not depend
    on that order. *)
Definition eqn : Type := (list R * R)%type.

Definition lead (r : eqn) : R := hd 0 (fst r).

Fixpoint select_pivot (r : eqn) (rest : list eqn) : eqn * list eqn :=
  match rest with
  | [] => (r, [])
  | r' :: rest' =>
      let (p, others) := select_pivot r' rest' in
      if Rltb (Rabs (lead r)) (Rabs (lead p)) then (p, r :: others)
      else (r, p :: others)
  end.

Definition axpy (f : R) (u v : list R) : list R :=
  map (fun ab => fst ab - f * snd ab) (combine u v).

Definition eliminate (p r : eqn) : eqn :=
  let f := lead r / lead p in
  (axpy f (tl (fst r)) (tl (fst p)), snd r - f * snd p).

Fixpoint gauss (n : nat) (sys : list eqn) : res (list R) :=
  match n with
  | O => Ok []
  | S n' =>
      match sys with
      | [] => Raise LinAlgError
      | r :: rest =>
          let (p, others) := select_pivot r rest in
          if Reqb (lead p) 0 then Raise LinAlgError
          else
            x' <- gauss n' (map (eliminate p) others) ;;
            Ok ((snd p - dot (tl (fst p)) x') / lead p :: x')
      end
  end.

Definition linalg_solve (A : list (list R)) (b : list R) : res (list R) :=
  gauss (length b) (combine A b).

(* ------------------------------------------------------------------ *)
(** ** Instance dictionaries

    An attribute that [__init__] does not assign exists only once some
    method has assigned it; reading it earlier raises [AttributeError]. *)

Definition attrs (A : Type) : Type := list (string * A).

Fixpoint lookup {A} (name : string) (d : attrs A) : option A :=
  match d with
  | [] => None
  | (k, v) :: d' => if String.eqb name k then Some v else lookup name d'
  end.

Definition getattr {A} (name : string) (d : attrs A) : res A :=
  match lookup name d with
  | Some v => Ok v
  | None => Raise (AttributeError name)
  end.

Definition setattr {A} (name : string) (v : A) (d : attrs A) : attrs A :=
  (name, v) :: d.

Open Scope string_scope.
Open Scope list_scope.
Open Scope R_scope.

(* ------------------------------------------------------------------ *)
(** ** class StateParameters *)

Module StateParameters.

(** The attributes of a snapshot.  [R_] is the attribute [R] (the name of
    the type of reals is taken); [nums] and [mats] hold the scalar and the
    3x3 attributes assigned after construction ([rij_bar], [R_bar],
    [g_bar], [rho1_ratio], [p_bar], [rho2_ratio], [Ge], [Ke], [psi], [g],
    [h], [Kp1], [Kp1_b], [D1], [Kp2], [Kp2_b], [D2], [nij], [mij], [B],
    [Tij], [Zij]) and [Ep] the tangent stiffness. *)
Record t : Type := Make {
  strain : mat3;
  stress : mat3;
  dstress : mat3;
  dstrain : mat3;
  pmin : R;
  p : R;
  sij : mat3;
  rij : mat3;
  R_ : R;
  dp : R;
  elastic_flag1 : bool;
  elastic_flag2 : bool;
  nums : attrs R;
  mats : attrs mat3;
  Ep : option ten4
}.

Definition set_stress_variable (self : t) : t :=
  let p' := ((stress self).[I0,I0] + (stress self).[I1,I1] + (stress self).[I2,I2]) / 3 in
  let sij' := msub (stress self) (mscale p' eye3) in
  let rij' := mdiv sij' (py_max p' (pmin self)) in
  let R' := sqrt (1.5 * sumsq rij') in
  Make (strain self) (stress self) (dstress self) (dstrain self) (pmin self)
       p' sij' rij' R' (dp self)
       (elastic_flag1 self) (elastic_flag2 self) (nums self) (mats self) (Ep self).

Definition set_stress_increment (self : t) : t :=
  let stress' := madd (stress self) (dstress self) in
  let p' := (stress'.[I0,I0] + stress'.[I1,I1] + stress'.[I2,I2]) / 3 in
  Make (strain self) (stress self) (dstress self) (dstrain self) (pmin self)
       (p self) (sij self) (rij self) (R_ self) (p' - p self)
       (elastic_flag1 self) (elastic_flag2 self) (nums self) (mats self) (Ep self).

(** [StateParameters(strain, stress, dstrain, dstress, ef1, ef2)].  The
    arguments are copied ([np.copy]), so the snapshot holds values of its
    own; [p], [sij], [rij], [R] and [dp] are zero only until the two
    calls that assign them. *)
Definition init (strain0 stress0 dstrain0 dstress0 : mat3) (ef1 ef2 : bool) : t :=
  let self :=
    Make strain0 stress0 dstress0 dstrain0 1.0
         0 zeros33 zeros33 0 0 false false [] [] None in
  let self := set_stress_variable self in
  let self := set_stress_increment self in
  Make (strain self) (stress self) (dstress self) (dstrain self) (pmin self)
       (p self) (sij self) (rij self) (R_ self) (dp self)
       ef1 ef2 (nums self) (mats self) (Ep self).

(** Assignments to the attributes that methods of [Li2002] write. *)
Definition set_elastic_flag1 (b : bool) (self : t) : t :=
  Make (strain self) (stress self) (dstress self) (dstrain self) (pmin self)
       (p self) (sij self) (rij self) (R_ self) (dp self)
       b (elastic_flag2 self) (nums self) (mats self) (Ep self).

Definition set_elastic_flag2 (b : bool) (self : t) : t :=
  Make (strain self) (stress self) (dstress self) (dstrain self) (pmin self)
       (p self) (sij self) (rij self) (R_ self) (dp self)
       (elastic_flag1 self) b (nums self) (mats self) (Ep self).

Definition set_num (name : string) (v : R) (self : t) : t :=
  Make (strain self) (stress self) (dstress self) (dstrain self) (pmin self)
       (p self) (sij self) (rij self) (R_ self) (dp self)
       (elastic_flag1 self) (elastic_flag2 self)
       (setattr name v (nums self)) (mats self) (Ep self).

Definition set_mat (name : string) (v : mat3) (self : t) : t :=
  Make (strain self) (stress self) (dstress self) (dstrain self) (pmin self)
       (p self) (sij self) (rij self) (R_ self) (dp self)
       (elastic_flag1 self) (elastic_flag2 self)
       (nums self) (setattr name v (mats self)) (Ep self).

Definition set_Ep (v : ten4) (self : t) : t :=
  Make (strain self) (stress self) (dstress self) (dstrain self) (pmin self)
       (p self) (sij self) (rij self) (R_ self) (dp self)
       (elastic_flag1 self) (elastic_flag2 self)
       (nums self) (mats self) (Some v).

Definition num (name : string) (self : t) : res R := getattr name (nums self).
Definition matr (name : string) (self : t) : res mat3 := getattr name (mats self).

End StateParameters.

(* ------------------------------------------------------------------ *)
(** ** class Li2002 *)

Module Li2002.

(** The material constants, assigned once by [__init__]. *)
Record params : Type := Params {
  G0 : R; nu : R;
  M : R; c : R; eg : R; rlambdac : R; xi : R;
  d1 : R; m : R; h1 : R; h2 : R; h3 : R; n : R;
  d2 : R; h4 : R;
  a : R; b1 : R; b2 : R; b3 : R;
  eps : R;
  pr : R;
  pmin : R
}.

(** The model object.  [e] and [e0] are assigned by the drivers only. *)
Record t : Type := Make {
  par :> params;
  stress : mat3;
  strain : mat3;
  alpha : mat3;
  beta : R;
  H1 : R;
  H2 : R;
  L1 : R;
  e : option R;
  e0 : option R
}.

(** [Li2002(G0, nu, M, c, eg, rlambdac, xi, d1, m, h1, h2, h3, n, d2, h4,
    a, b1, b2, b3)] *)
Definition init (G0 nu M c eg rlambdac xi d1 m h1 h2 h3 n d2 h4 a b1 b2 b3 : R) : t :=
  Make (Params G0 nu M c eg rlambdac xi d1 m h1 h2 h3 n d2 h4 a b1 b2 b3
               1e-6 101e3 100.0)
       zeros33 zeros33 zeros33 0.0 0.0 0.0 0.0 None None.

(** [Li2002()]: the default parameters, for Toyoura sand. *)
Definition default : t :=
  init 125 0.25 1.25 0.75 0.934 0.019 0.7
       0.41 3.5 3.15 3.05 2.2 1.1
       1 3.5 1 0.005 2 0.01.

Definition set_stress (v : mat3) (self : t) : t :=
  Make self v (strain self) (alpha self) (beta self) (H1 self) (H2 self) (L1 self)
       (e self) (e0 self).
Definition set_strain (v : mat3) (self : t) : t :=
  Make self (stress self) v (alpha self) (beta self) (H1 self) (H2 self) (L1 self)
       (e self) (e0 self).
Definition set_alpha (v : mat3) (self : t) : t :=
  Make self (stress self) (strain self) v (beta self) (H1 self) (H2 self) (L1 self)
       (e self) (e0 self).
Definition set_beta (v : R) (self : t) : t :=
  Make self (stress self) (strain self) (alpha self) v (H1 self) (H2 self) (L1 self)
       (e self) (e0 self).
Definition set_H1 (v : R) (self : t) : t :=
  Make self (stress self) (strain self) (alpha self) (beta self) v (H2 self) (L1 self)
       (e self) (e0 self).
Definition set_H2 (v : R) (self : t) : t :=
  Make self (stress self) (strain self) (alpha self) (beta self) (H1 self) v (L1 self)
       (e self) (e0 self).
Definition set_L1 (v : R) (self : t) : t :=
  Make self (stress self) (strain self) (alpha self) (beta self) (H1 self) (H2 self) v
       (e self) (e0 self).
Definition set_e (v : R) (self : t) : t :=
  Make self (stress self) (strain self) (alpha self) (beta self) (H1 self) (H2 self)
       (L1 self) (Some v) (e0 self).
Definition set_e0 (v : R) (self : t) : t :=
  Make self (stress self) (strain self) (alpha self) (beta self) (H1 self) (H2 self)
       (L1 self) (e self) (Some v).

Definition get_e (self : t) : res R :=
  match e self with Some v => Ok v | None => Raise (AttributeError "e") end.
Definition get_e0 (self : t) : res R :=
  match e0 self with Some v => Ok v | None => Raise (AttributeError "e0") end.

(* -------------------------------------------------------------- *)
(** [vec[5]] is read, so a sequence of fewer than six elements raises
    [IndexError]; elements after the sixth are not looked at. *)
Definition vector_to_matrix {A} (vec : list A) : res (mat A) :=
  match vec with
  | v0 :: v1 :: v2 :: v3 :: v4 :: v5 :: _ =>
      Ok (Arr3 (Arr3 v0 v3 v5)
               (Arr3 v3 v1 v4)
               (Arr3 v5 v4 v2))
  | _ => Raise IndexError
  end.

Definition matrix_to_vector (mat : mat3) : list R :=
  [mat.[I0,I0]; mat.[I1,I1]; mat.[I2,I2]; mat.[I0,I1]; mat.[I1,I2]; mat.[I2,I0]].

Definition clear_strain (self : t) : t := set_strain zeros33 self.

(* -------------------------------------------------------------- *)
Definition set_strain_variable (strain_mat : mat3) : R * R :=
  let ev := strain_mat.[I0,I0] + strain_mat.[I1,I1] + strain_mat.[I2,I2] in
  let dev_strain := msub strain_mat (mscale (ev / 3) eye3) in
  let gamma := sqrt (2 / 3 * sumsq dev_strain) in
  (ev, gamma).

(* -------------------------------------------------------------- *)
Definition set_stress_variable (self : t) (stress : mat3) : R * R :=
  let p := (stress.[I0,I0] + stress.[I1,I1] + stress.[I2,I2]) / 3 in
  let dev_stress := msub stress (mscale p eye3) in
  let r_stress := mdiv dev_stress (py_max p (pmin self)) in
  let R' := sqrt (1.5 * sumsq r_stress) in
  (p, R').

(* -------------------------------------------------------------- *)
Definition Lode_angle (dev_stress : mat3) : R :=
  let J2 := 0.5 * sumsq dev_stress in
  let J3 := - det dev_stress in
  let s3 :=
    if Reqb J2 0 then 0
    else
      let s3 := J3 / 2 * np_power (3 / J2) 1.5 in
      let s3 := py_max s3 (-1) in
      py_min s3 1 in
  asin s3 / 3.

(** Eq.(7) *)
Definition g_theta (self : t) (dev_stress : mat3) : R :=
  let theta := Lode_angle dev_stress in
  let st := sin (3 * theta) in
  let '(g1, g2) :=
    if Reqb st 0 then
      (c self * (1 + c self), 1 + (c self) ^ 2)
    else
      (sqrt ((1 + (c self) ^ 2) ^ 2 + 4 * c self * (1 - (c self) ^ 2) * st)
         - (1 + (c self) ^ 2),
       2 * (1 - c self) * st) in
  g1 / g2.

(** Eq.(45) *)
Definition dg_theta (self : t) (theta : R) : R :=
  let st := sin (3 * theta) in
  if Reqb st 0 then
    let g1 := - (c self) ^ 2 * (1 - c self) * (1 + c self) ^ 2 in
    let g2 := (1 + (c self) ^ 2) ^ 3 in
    g1 / g2
  else
    let g11 := c self * (1 + c self) in
    let g12 := st * sqrt ((1 + (c self) ^ 2) ^ 2 + 4 * c self * (1 - (c self) ^ 2) * st) in
    let g21 := sqrt ((1 + (c self) ^ 2) ^ 2 + 4 * c self * (1 - (c self) ^ 2) * st)
               - (1 + (c self) ^ 2) in
    let g22 := 2 * (1 - c self) * st * st in
    g11 / g12 - g21 / g22.

(* -------------------------------------------------------------- *)
(** Eq.(18) *)
Definition state_parameter (self : t) (e p : R) : R :=
  e - (eg self - rlambdac self * np_power (py_max p (pmin self) / pr self) (xi self)).

(* -------------------------------------------------------------- *)
(** Eq.(16), Eq.(17) *)
Definition elastic_modulus (self : t) (e p : R) : R * R :=
  let G := G0 self * (2.97 - e) ^ 2 / (1 + e) * sqrt (py_max p (pmin self) * pr self) in
  let K := G * 2 * (1 + nu self) / (3 * (1 - 2 * nu self)) in
  (G, K).

Definition elastic_stiffness (self : t) (G : R) : ten4 :=
  let mu := G in
  let rlambda := 2 * G * nu self / (1 - 2 * nu self) in
  mtab (fun i j => mtab (fun k l =>
    rlambda * (eye3.[i,j] * eye3.[k,l]) + 2 * mu * (eye3.[i,k] * eye3.[j,l]))).

(** Elastic + Eq.(29) *)
Definition isotropic_compression_stiffness (self : t) (e p : R) : ten4 :=
  let '(G, K) := elastic_modulus self e p in
  let fn := 2 * (1 + nu self) / (3 * (1 - 2 * nu self)) in
  let K2 := G * fn * h4 self / (h4 self + sqrt (2 / 3) * fn * d2 self) in
  let G2 := K2 / fn in
  elastic_stiffness self G2.

Module SP := StateParameters.

Section Scipy.

(** [scipy.optimize.brentq(f, a, b)]: the bracketing root finder, which
    raises when it cannot return a root.  Nothing is assumed of it. *)
Variable brentq : (R -> R) -> R -> R -> res R.

(* -------------------------------------------------------------- *)
Definition mapping_r (self : t) (t0 : R) (rij alpha : mat3) : mat3 * R * R :=
  let rij_bar := madd alpha (mscale t0 (msub rij alpha)) in
  let g_bar := g_theta self rij_bar in
  let R_bar := sqrt (1.5 * sumsq rij_bar) in
  (rij_bar, R_bar, g_bar).

(** Eq.(6) *)
Definition F1_boundary_surface (self : t) (t0 : R) (rij alpha : mat3) : R :=
  let '(_, R_bar, g_bar) := mapping_r self t0 rij alpha in
  R_bar - H1 self * g_bar.

Definition set_mapping_stress (self : t) (sp : SP.t) : res (t * SP.t) :=
  let self := if SP.elastic_flag1 sp then set_alpha (SP.rij sp) self else self in
  let self := if SP.elastic_flag2 sp then set_beta (SP.p sp) self else self in
  ' (self, sp) <-
    (if Rltb (norm (msub (SP.rij sp) (alpha self))) 1e-6 then
       (* Elastic behavior *)
       Ok (self, SP.set_elastic_flag1 true sp)
     else if Rltb 0.0 (F1_boundary_surface self 1.0 (SP.rij sp) (alpha self)) then
       let '(rij_bar, R_bar, g_bar) := mapping_r self 1.0 (SP.rij sp) (alpha self) in
       let sp := SP.set_mat "rij_bar" rij_bar sp in
       let sp := SP.set_num "R_bar" R_bar sp in
       let sp := SP.set_num "g_bar" g_bar sp in
       let self := set_H1 (R_bar / g_bar) self in
       Ok (self, SP.set_num "rho1_ratio" 1.0 sp)
     else
       t0 <- brentq (fun t0 => F1_boundary_surface self t0 (SP.rij sp) (alpha self))
                    1.0 1e6 ;;
       let '(rij_bar, R_bar, g_bar) := mapping_r self t0 (SP.rij sp) (alpha self) in
       let sp := SP.set_mat "rij_bar" rij_bar sp in
       let sp := SP.set_num "R_bar" R_bar sp in
       let sp := SP.set_num "g_bar" g_bar sp in
       (* rho1_ratio = rho1_bar / rho1 *)
       Ok (self, SP.set_num "rho1_ratio" t0 sp)) ;;
  if Reqb (Rabs (SP.p sp - beta self)) 0.0 then
    (* Elastic behavior *)
    Ok (self, SP.set_elastic_flag2 true sp)
  else
    let self := if Rltb (H2 self) (SP.p sp) then set_H2 (SP.p sp) self else self in
    let mapped (p_bar : R) : res (t * SP.t) :=
      let sp := SP.set_num "p_bar" p_bar sp in
      let rho2 := Rabs (SP.p sp - beta self) in
      let rho2_b := Rabs (p_bar - beta self) in
      Ok (self, SP.set_num "rho2_ratio" (rho2_b / rho2) sp) in
    if Rltb 0.0 (SP.dp sp) then
      if Rleb (SP.p sp) (beta self) then Ok (self, SP.set_elastic_flag2 true sp)
      else mapped (H2 self)
    else if Rltb (SP.dp sp) 0.0 then
      if Rleb (beta self) (SP.p sp) then Ok (self, SP.set_elastic_flag2 true sp)
      else mapped (pmin self)
    else Ok (self, SP.set_elastic_flag2 true sp).

(* -------------------------------------------------------------- *)
(** Eq.(22) *)
Definition accumulated_load_index (self : t) (L1 : R) : R :=
  (1 - b3 self) / sqrt ((1 - L1 / b1 self) ^ 2 + (L1 / b1 self) / (b2 self) ^ 2)
  + b3 self.

(** Eq.(21); the body reads [self.e], not its argument [e]. *)
Definition scaling_factor (self : t) (e rho1_ratio : R) : res R :=
  let fL := accumulated_load_index self (L1 self) in
  let r1 := (1.0 / rho1_ratio) ^ 10 in
  self_e <- get_e self ;;
  Ok ((h1 self - h2 self * self_e) * (r1 + h3 self * fL * (1 - r1))).

(** Eq.(19) *)
Definition plastic_modulus1 (self : t) (G R_bar g_bar rho1_ratio h psi : R) : R * R :=
  let Mg_R := M self * g_bar * exp (- n self * psi) / R_bar in
  let Kp1 := G * h * (Mg_R * rho1_ratio - 1) in
  let Kp1_b := G * h * (Mg_R - 1) in
  (Kp1, Kp1_b).

(** Eq.(23) *)
Definition dilatancy1 (self : t) (R' g rho1_ratio psi : R) : R :=
  let R_Mg := R' / (M self * g) in
  d1 self * (exp (m self * psi) * sqrt rho1_ratio - R_Mg).

(** Eq.(25) *)
Definition plastic_modulus2 (self : t) (G Mg_R rho2_ratio sign : R) : R * R :=
  let Kp2 := G * h4 self * Mg_R * np_power rho2_ratio (a self) * sign in
  let Kp2_b := if Reqb rho2_ratio 1.0 && Rltb 0.0 sign then Kp2 else 0.0 in
  (Kp2, Kp2_b).

(** Eq.(27) *)
Definition dilatancy2 (self : t) (Mg_R sign : R) : R :=
  if Rleb 1.0 Mg_R then d2 self * (Mg_R - 1.0) * sign else 0.0.

Definition set_parameters (self : t) (sp : SP.t) : res SP.t :=
  self_e <- get_e self ;;
  let '(Ge, Ke) := elastic_modulus self self_e (SP.p sp) in
  let sp := SP.set_num "Ke" Ke (SP.set_num "Ge" Ge sp) in
  let psi := state_parameter self self_e (SP.p sp) in
  let sp := SP.set_num "psi" psi sp in
  let g := g_theta self (SP.sij sp) in
  let sp := SP.set_num "g" g sp in
  sp <-
    (if SP.elastic_flag1 sp then Ok (SP.set_num "Kp1_b" 0.0 sp)
     else
       rho1_ratio <- SP.num "rho1_ratio" sp ;;
       h <- scaling_factor self self_e rho1_ratio ;;
       let sp := SP.set_num "h" h sp in
       R_bar <- SP.num "R_bar" sp ;;
       g_bar <- SP.num "g_bar" sp ;;
       let '(Kp1, Kp1_b) := plastic_modulus1 self Ge R_bar g_bar rho1_ratio h psi in
       let sp := SP.set_num "Kp1_b" Kp1_b (SP.set_num "Kp1" Kp1 sp) in
       Ok (SP.set_num "D1" (dilatancy1 self (SP.R_ sp) g rho1_ratio psi) sp)) ;;
  if SP.elastic_flag2 sp || Reqb (SP.R_ sp) 0.0 then Ok (SP.set_num "Kp2_b" 0.0 sp)
  else
    let sign := SP.dp sp / Rabs (SP.dp sp) in
    let Mg_R := M self * g / SP.R_ sp in
    rho2_ratio <- SP.num "rho2_ratio" sp ;;
    let '(Kp2, Kp2_b) := plastic_modulus2 self Ge Mg_R rho2_ratio sign in
    let sp := SP.set_num "Kp2_b" Kp2_b (SP.set_num "Kp2" Kp2 sp) in
    Ok (SP.set_num "D2" (dilatancy2 self Mg_R sign) sp).

(* -------------------------------------------------------------- *)
Definition dF1_r (self : t) (r_bar : mat3) (R_bar theta_bar g_bar dg_bar : R) : mat3 :=
  if Rltb (Rabs R_bar) (eps self) then zeros33
  else
    let st_bar := sin (3 * theta_bar) in
    let a := R_bar * g_bar + 3 * R_bar * st_bar * dg_bar in
    let b := 9 * dg_bar in
    let c := 1.5 / (R_bar * g_bar) ^ 2 in
    let rr_bar := mtab (fun i j => sum3 (fun k => r_bar.[i,k] * r_bar.[j,k])) in
    mscale c (madd (mscale a r_bar) (mscale b rr_bar)).

Definition set_parameter_nm (self : t) (sp : SP.t) : res SP.t :=
  sp <-
    (if negb (SP.elastic_flag1 sp) then
       let theta_bar := Lode_angle (SP.sij sp) in
       let dg_bar := dg_theta self theta_bar in
       rij_bar <- SP.matr "rij_bar" sp ;;
       R_bar <- SP.num "R_bar" sp ;;
       g_bar <- SP.num "g_bar" sp ;;
       let dF1 := dF1_r self rij_bar R_bar theta_bar g_bar dg_bar in
       let dF1_tr := trace dF1 in
       let nij := msub dF1 (mdiv (mscale dF1_tr eye3) 3.0) in
       Ok (SP.set_mat "nij" (mdiv nij (norm nij)) sp)
     else Ok sp) ;;
  let r_abs := norm (SP.rij sp) in
  if Reqb r_abs 0.0 then Ok (SP.set_mat "mij" zeros33 sp)
  else Ok (SP.set_mat "mij" (mdiv (SP.rij sp) r_abs) sp).   (* mij = rij/|rij| *)

(* -------------------------------------------------------------- *)
Definition set_parameter_TZ (self : t) (sp : SP.t) : res SP.t :=
  sp <-
    (if SP.elastic_flag1 sp || SP.elastic_flag2 sp || Reqb (SP.R_ sp) 0.0 then
       Ok (SP.set_num "B" 0.0 sp)
     else
       nij <- SP.matr "nij" sp ;;
       mij <- SP.matr "mij" sp ;;
       let nm := ddot nij mij in
       let nr := ddot nij (SP.rij sp) in
       Ge <- SP.num "Ge" sp ;;
       Ke <- SP.num "Ke" sp ;;
       D2 <- SP.num "D2" sp ;;
       let Bu := 2 * Ge * nm - sqrt (2 / 3) * Ke * D2 * nr in
       Kp2 <- SP.num "Kp2" sp ;;
       let Bd := sqrt (2 / 3) * Ke * D2 + Kp2 in
       Ok (SP.set_num "B" (Bu / Bd) sp)) ;;
  sp <-
    (if SP.elastic_flag1 sp then Ok (SP.set_mat "Tij" zeros33 sp)
     else
       nij <- SP.matr "nij" sp ;;
       let nr := ddot nij (SP.rij sp) in
       Ge <- SP.num "Ge" sp ;;
       Ke <- SP.num "Ke" sp ;;
       B <- SP.num "B" sp ;;
       let Tu := msub (mscale (2 * Ge) nij) (mscale (Ke * (nr + B)) eye3) in
       D1 <- SP.num "D1" sp ;;
       Kp1 <- SP.num "Kp1" sp ;;
       let Td := 2 * Ge - sqrt (2 / 3) * Ke * D1 * (nr + B) + Kp1 in
       Ok (SP.set_mat "Tij" (mdiv Tu Td) sp)) ;;
  if SP.elastic_flag2 sp then Ok (SP.set_mat "Zij" zeros33 sp)
  else
    Ke <- SP.num "Ke" sp ;;
    D1 <- SP.num "D1" sp ;;
    Tij <- SP.matr "Tij" sp ;;
    let Zu := msub (mscale Ke eye3) (mscale (sqrt (2 / 3) * Ke * D1) Tij) in
    Zd <-
      (if Reqb (SP.R_ sp) 0.0 then
         Ge <- SP.num "Ge" sp ;;
         rho2_ratio <- SP.num "rho2_ratio" sp ;;
         let Kp2_D2 := Ge * h4 self / d2 self * np_power rho2_ratio (a self) in
         Ok (sqrt (2 / 3) * Ke + Kp2_D2)
       else
         D2 <- SP.num "D2" sp ;;
         Kp2 <- SP.num "Kp2" sp ;;
         Ok (sqrt (2 / 3) * Ke * D2 + Kp2)) ;;
    Ok (SP.set_mat "Zij" (mdiv Zu Zd) sp).

(* -------------------------------------------------------------- *)
Definition set_tensor_Ep (self : t) (sp : SP.t) : res SP.t :=
  let Lm0 : ten4 := mtab (fun p q => mtab (fun k l => eye3.[p,k] * eye3.[q,l])) in
  Lm1 <-
    (if SP.elastic_flag1 sp then Ok (outer zeros33 zeros33)
     else
       nij <- SP.matr "nij" sp ;;
       D1 <- SP.num "D1" sp ;;
       let nD := madd nij (mscale (sqrt (2 / 27) * D1) eye3) in
       Tij <- SP.matr "Tij" sp ;;
       Ok (outer nD Tij)) ;;
  Lm2 <-
    (if SP.elastic_flag2 sp then Ok (outer zeros33 zeros33)
     else if Reqb (SP.R_ sp) 0 then
       let mD := mscale (sqrt (2 / 27)) eye3 in
       Zij <- SP.matr "Zij" sp ;;
       Ok (outer mD Zij)
     else
       mij <- SP.matr "mij" sp ;;
       D2 <- SP.num "D2" sp ;;
       let mD := madd mij (mscale (sqrt (2 / 27) * D2) eye3) in
       Zij <- SP.matr "Zij" sp ;;
       Ok (outer mD Zij)) ;;
  let Lm := tsub (tsub Lm0 Lm1) Lm2 in
  Ge <- SP.num "Ge" sp ;;
  let Ee := elastic_stiffness self Ge in
  Ok (SP.set_Ep
        (mtab (fun i j => mtab (fun k l =>
           sum33 (fun p q => Ee.[i,j].[p,q] * Lm.[p,q].[k,l]))))
        sp).

(* -------------------------------------------------------------- *)
(** The four calls that open [check_unload], [update_parameters] and
    [plastic_stiffness]. *)
Definition evaluate (self : t) (sp : SP.t) : res (t * SP.t) :=
  ' (self, sp) <- set_mapping_stress self sp ;;
  sp <- set_parameters self sp ;;
  sp <- set_parameter_nm self sp ;;
  sp <- set_parameter_TZ self sp ;;
  Ok (self, sp).

(** Returns the model, the snapshot as the call leaves it, and the pair
    [(elastic_flag1, elastic_flag2)]; the [print] is not modelled. *)
Definition check_unload (self : t) (sp : SP.t) : res (t * SP.t * (bool * bool)) :=
  ' (self, sp) <- evaluate self sp ;;
  Tij <- SP.matr "Tij" sp ;;
  let dL1 := ddot Tij (SP.dstrain sp) in
  let '(elastic_flag1, self) :=
    if Rltb dL1 0.0 then (true, set_alpha (SP.rij sp) self) else (false, self) in
  Zij <- SP.matr "Zij" sp ;;
  let dL2 := ddot Zij (SP.dstrain sp) in
  let '(elastic_flag2, self) :=
    if Rltb dL2 0.0 then (true, set_beta (SP.p sp) self) else (false, self) in
  Ok (self, sp, (elastic_flag1, elastic_flag2)).

(* -------------------------------------------------------------- *)
Definition update_parameters (self : t) (sp : SP.t) : res (t * SP.t) :=
  ' (self, sp) <- evaluate self sp ;;
  Tij <- SP.matr "Tij" sp ;;
  let dL1 := ddot Tij (SP.dstrain sp) in
  Zij <- SP.matr "Zij" sp ;;
  let dL2 := ddot Zij (SP.dstrain sp) in
  self <-
    (if negb (SP.elastic_flag1 sp) then
       let self := set_L1 (L1 self + dL1) self in
       Kp1_b <- SP.num "Kp1_b" sp ;;
       Ok (set_H1 (H1 self + Kp1_b * dL1 / SP.p sp) self)
     else Ok self) ;;
  self <-
    (if negb (SP.elastic_flag2 sp) then
       Kp2_b <- SP.num "Kp2_b" sp ;;
       Ok (set_H2 (H2 self + Kp2_b * dL2) self)
     else Ok self) ;;
  Ok (self, sp).

(* -------------------------------------------------------------- *)
Definition plastic_stiffness (self : t) (sp : SP.t) : res (t * SP.t * ten4) :=
  ' (self, sp) <- evaluate self sp ;;
  sp <- set_tensor_Ep self sp ;;
  match SP.Ep sp with
  | Some Ep => Ok (self, sp, Ep)
  | None => Raise (AttributeError "Ep")
  end.

(* -------------------------------------------------------------- *)
Definition solve_strain (stress_mat : mat3) (E : ten4) : res mat3 :=
  let b := flatten stress_mat in
  let A := reshape99 E in
  x <- linalg_solve A b ;;
  Ok (reshape33 x).

(** deformation: True => deform (stress given), False => constrain (strain given) *)
Definition solve_strain_with_consttain
    (strain_given stress_given : mat3) (E : ten4) (deformation : mat bool)
    : res (mat3 * mat3) :=
  let d := flatten deformation in
  let A := reshape99 E in
  let strain := flatten strain_given in
  let strain := mask_fill d strain 0.0 in        (* [0.0,0.0,given,...] *)
  let stress_constrain := np_dot A strain in
  let stress := map (fun ab => fst ab - snd ab)
                    (combine (flatten stress_given) stress_constrain) in
  let stress_mask := mask_select d stress in
  let A_mask := map (mask_select d) (mask_select d A) in
  strain_mask <- linalg_solve A_mask stress_mask ;;
  strain <- mask_assign d strain strain_mask ;;
  let stress := np_dot A strain in
  Ok (reshape33 strain, reshape33 stress).

(* -------------------------------------------------------------- *)
Definition elastic_deformation
    (self : t) (dstrain dstress : mat3) (Ge : R) (deformation : mat bool)
    : res (mat3 * mat3) :=
  let Ee := elastic_stiffness self Ge in
  solve_strain_with_consttain dstrain dstress Ee deformation.

Definition plastic_deformation
    (self : t) (dstrain_given dstress_given : mat3) (deformation : mat bool)
    (sp0 : SP.t) : res (t * (mat3 * mat3 * SP.t)) :=
  ' (self, _, (ef1, ef2)) <- check_unload self sp0 ;;
  let sp := SP.init (strain self) (stress self) dstrain_given dstress_given ef1 ef2 in
  ' (self, _, Ep) <- plastic_stiffness self sp ;;
  ' (dstrain_ep, dstress_ep) <-
      solve_strain_with_consttain dstrain_given dstress_given Ep deformation ;;
  let sp2 := SP.init (strain self) (stress self) dstrain_ep dstress_ep false false in
  ' (self, sp2) <- update_parameters self sp2 ;;
  let dstrain := dstrain_ep in
  let dstress := dstress_ep in
  Ok (self, (dstrain, dstress, sp2)).

(* -------------------------------------------------------------- *)
(** One pass of the [for] loop of [isotropic_compression]. *)
Definition isotropic_compression_step (e0 : R) (dstress : mat3) (self : t) : res t :=
  self_e <- get_e self ;;
  let '(p, _) := set_stress_variable self (stress self) in
  let E := isotropic_compression_stiffness self self_e p in
  dstrain <- solve_strain dstress E ;;
  let self := set_stress (madd (stress self) dstress) self in
  let self := set_strain (madd (strain self) dstrain) self in
  let '(ev, _) := set_strain_variable (strain self) in
  Ok (set_e (e0 - ev * (1 + e0)) self).

Fixpoint isotropic_compression_loop
    (k : nat) (e0 : R) (dstress : mat3) (self : t) : res t :=
  match k with
  | O => Ok self
  | S k' =>
      self <- isotropic_compression_step e0 dstress self ;;
      isotropic_compression_loop k' e0 dstress self
  end.

(** [nstep] is a Python [int]: zero makes the first division raise, and for
    a negative one [range(0, nstep)] is empty and the loop has no pass. *)
Definition isotropic_compression
    (self : t) (e0 compression_stress : R) (nstep : Z) : res t :=
  if Z.eqb nstep 0 then Raise ZeroDivisionError
  else
    let dcp := compression_stress / IZR nstep in
    let self := set_e e0 self in
    let dstress_vec := [dcp; dcp * 2; dcp; 0; 0; 0] in
    dstress <- vector_to_matrix dstress_vec ;;
    self <- isotropic_compression_loop (Z.to_nat nstep) e0 dstress self ;;
    Ok (clear_strain self).

(* -------------------------------------------------------------- *)
(** One pass of the [for] loop of [triaxial_compression].  The call
    [self.plastic_deformation(dstrain_input, dstress_input, deformation)]
    gives three arguments to a method of four ([sp0] is missing), which
    Python answers with [TypeError] before the method body runs. *)
Definition triaxial_compression_step
    (dstrain_input dstress_input : mat3) (deformation : mat bool)
    (state : t * (list R * list R * list R))
    : res (t * (list R * list R * list R)) :=
  let '(self, (gamma_list, R_list, ev_list)) := state in
  let '(p, R') := set_stress_variable self (stress self) in
  ' (dstrain, dstress) <- (Raise TypeError : res (mat3 * mat3)) ;;
  let self := set_stress (madd (stress self) dstress) self in
  let self := set_strain (madd (strain self) dstrain) self in
  let '(ev, gamma) := set_strain_variable (strain self) in
  self_e0 <- get_e0 self ;;
  let self := set_e (self_e0 - ev * (1 + self_e0)) self in
  Ok (self, (gamma_list ++ [gamma], R_list ++ [R'], ev_list ++ [ev])).

Fixpoint repeat_steps {S : Type} (k : nat) (step : S -> res S) (s : S) : res S :=
  match k with
  | O => Ok s
  | S k' => s' <- step s ;; repeat_steps k' step s'
  end.

(** Python's [int(x)] as a number of loop passes: [range(0, int(x))] is
    empty when [x < 1]. *)
Definition int_range (x : R) : nat := Z.to_nat (Int_part x).

(** Returns the model with [gamma_list], [R_list] and [ev_list]; printing
    and plotting are not modelled.  [emax/de] is a division of Python floats,
    which raises [ZeroDivisionError] for [de = 0]. *)
Definition triaxial_compression
    (self : t) (e0 compression_stress de emax : R)
    : res (t * (list R * list R * list R)) :=
  self <- isotropic_compression self e0 compression_stress 1000 ;;
  let self := set_e0 e0 self in
  let self := set_e e0 self in
  let '(p, _) := set_stress_variable self (stress self) in
  let self := set_H2 p (set_beta p self) in
  if Reqb de 0 then Raise ZeroDivisionError
  else
    let nstep := int_range (emax / de) in
    let dstrain_vec := [0.0; 0.0; de; 0.0; 0.0; 0.0] in
    dstrain_input <- vector_to_matrix dstrain_vec ;;
    let dstress_vec := [0.0; 0.0; 0.0; 0.0; 0.0; 0.0] in
    dstress_input <- vector_to_matrix dstress_vec ;;
    let deformation_vec := [true; true; false; true; true; true] in
    deformation <- vector_to_matrix deformation_vec ;;
    repeat_steps nstep
      (triaxial_compression_step dstrain_input dstress_input deformation)
      (self, ([], [], [])).

(* -------------------------------------------------------------- *)
Definition cycle_load (nstep : nat) (amp : R) (i : nat) : R :=
  let tau := amp * sin ((INR i + 1) / INR nstep * 2 * PI * 2) in
  let tau0 := amp * sin ((INR i + 0) / INR nstep * 2 * PI * 2) in
  tau - tau0.

(** One pass of the inner [for] loop of [cyclic_shear_test], for cycle
    [ic] and step [i]; the state is the model and the snapshot [sp0] that
    the previous pass returned. *)
Definition cyclic_shear_step
    (nstep : nat) (dstrain_input : mat3) (deformation : mat bool) (ic i : nat)
    (state : t * SP.t) : res (t * SP.t) :=
  let '(self, sp0) := state in
  let dtau := cycle_load nstep 15000 i in
  let dtau :=
    if Nat.ltb ic 5 then dtau * ((INR i + INR ic * INR nstep) / INR nstep * 2 / 10)
    else if Nat.ltb 15 ic then
      dtau * ((20000 - (INR i + INR ic * INR nstep)) / INR nstep * 2 / 10)
    else dtau in
  let dstress_vec := [0.0; 0.0; 0.0; dtau; 0.0; 0] in
  dstress_input <- vector_to_matrix dstress_vec ;;
  let sp := SP.init (strain self) (stress self) (SP.dstrain sp0) dstress_input
                    false false in
  let '(p, R') := set_stress_variable self (stress self) in
  ' (self, (dstrain, dstress, sp0)) <-
      plastic_deformation self dstrain_input dstress_input deformation sp ;;
  let self := set_stress (madd (stress self) dstress) self in
  let self := set_strain (madd (strain self) dstrain) self in
  let '(ev, gamma) := set_strain_variable (strain self) in
  self_e0 <- get_e0 self ;;
  let self := set_e (self_e0 - ev * (1 + self_e0)) self in
  Ok (self, sp0).

Fixpoint cyclic_inner
    (k : nat) (nstep : nat) (dstrain_input : mat3) (deformation : mat bool)
    (ic i : nat) (state : t * SP.t) : res (t * SP.t) :=
  match k with
  | O => Ok state
  | S k' =>
      state <- cyclic_shear_step nstep dstrain_input deformation ic i state ;;
      cyclic_inner k' nstep dstrain_input deformation ic (S i) state
  end.

Fixpoint cyclic_outer
    (k : nat) (nstep : nat) (dstrain_input : mat3) (deformation : mat bool)
    (ic : nat) (state : t * SP.t) : res (t * SP.t) :=
  match k with
  | O => Ok state
  | S k' =>
      state <- cyclic_inner nstep nstep dstrain_input deformation ic 0 state ;;
      cyclic_outer k' nstep dstrain_input deformation (S ic) state
  end.

(** Returns the model; the recorded lists, printing and plotting are not
    modelled. *)
Definition cyclic_shear_test (self : t) (e0 compression_stress : R) : res t :=
  self <- isotropic_compression self e0 compression_stress 1000 ;;
  let self := set_e0 e0 self in
  let self := set_e e0 self in
  let '(p0, _) := set_stress_variable self (stress self) in
  let self := set_H2 p0 (set_beta p0 self) in
  let nstep := 1000%nat in
  let ncycle := 10%nat in
  let dstrain_vec := [0.0; 0.0; 0.0; 0.0; 0.0; 0.0] in
  dstrain_input <- vector_to_matrix dstrain_vec ;;
  let dstress_vec := [0.0; 0.0; 0.0; 0.0; 0.0; 0.0] in
  dstress_input <- vector_to_matrix dstress_vec ;;
  let deformation_vec := [false; false; false; true; true; true] in
  deformation <- vector_to_matrix deformation_vec ;;
  let sp0 := SP.init (strain self) (stress self) dstrain_input dstress_input
                     false false in
  ' (self, _) <- cyclic_outer ncycle nstep dstrain_input deformation 0 (self, sp0) ;;
  Ok self.

End Scipy.

End Li2002.

Coercion Li2002.par : Li2002.t >-> Li2002.params.

(* ================================================================== *)
(** * The shape function in binary64

    The bodies of [g_theta] (after [st = np.sin(3*theta)]) and of [dg_theta]
    as numpy evaluates them: on IEEE binary64 numbers, every [+ - * /] and
    [np.sqrt] rounded to nearest.  The arguments are [self.c] and the value
    [st] that [np.sin] returned.  [x**2] and [x**3] are written as products;
    at [c = 0.75] and [c = 1], where the functions are evaluated below, those
    powers are exact. *)

Module Float64.
Import PrimFloat.
Local Open Scope float_scope.

(** Eq.(7) *)
Definition g_theta (c st : float) : float :=
  let '(g1, g2) :=
    if st =? 0 then
      (c * (1 + c), 1 + c * c)
    else
      (sqrt ((1 + c * c) * (1 + c * c) + 4 * c * (1 - c * c) * st) - (1 + c * c),
       2 * (1 - c) * st) in
  g1 / g2.

(** Eq.(45) *)
Definition dg_theta (c st : float) : float :=
  if st =? 0 then
    let g1 := - (c * c) * (1 - c) * ((1 + c) * (1 + c)) in
    let g2 := (1 + c * c) * (1 + c * c) * (1 + c * c) in
    g1 / g2
  else
    let g11 := c * (1 + c) in
    let g12 := st * sqrt ((1 + c * c) * (1 + c * c) + 4 * c * (1 - c * c) * st) in
    let g21 := sqrt ((1 + c * c) * (1 + c * c) + 4 * c * (1 - c * c) * st)
               - (1 + c * c) in
    let g22 := 2 * (1 - c) * st * st in
    g11 / g12 - g21 / g22.

End Float64.

(* ================================================================== *)
(** * Arrays as objects: [np.copy] in [StateParameters.__init__]

    Everywhere else a 3x3 array is a value.  Here it is an object at an
    address, so that two attributes can name the same array and an
    in-place write through one is seen through the other. *)

Definition ref : Type := nat.

Definition heap : Type := list mat3.

Definition heap_read (h : heap) (r : ref) : mat3 := nth r h zeros33.

Definition heap_alloc (h : heap) (v : mat3) : heap * ref := (h ++ [v], length h).

(** [np.copy(a)]: a new array with the contents of [a]. *)
Definition np_copy (h : heap) (r : ref) : heap * ref := heap_alloc h (heap_read h r).

(** An in-place write [a[...] = v]. *)
Fixpoint heap_write (h : heap) (r : ref) (v : mat3) : heap :=
  match h, r with
  | [], _ => []
  | _ :: h', O => v :: h'
  | a :: h', S r' => a :: heap_write h' r' v
  end.

(** The array-valued attributes that [StateParameters.__init__] assigns. *)
Record snapshot_refs : Type := SnapshotRefs {
  strain_ref : ref;
  stress_ref : ref;
  dstress_ref : ref;
  dstrain_ref : ref;
  sij_ref : ref;
  rij_ref : ref
}.

Definition snapshot_arrays (sp : snapshot_refs) : list ref :=
  [strain_ref sp; stress_ref sp; dstress_ref sp; dstrain_ref sp; sij_ref sp; rij_ref sp].

(** [StateParameters(strain, stress, dstrain, dstress)] on array objects:
    four copies, then the two arrays that [set_stress_variable] builds. *)
Definition StateParameters_new (h : heap) (strain stress dstrain dstress : ref)
  : heap * snapshot_refs :=
  let '(h, r_strain) := np_copy h strain in
  let '(h, r_stress) := np_copy h stress in
  let '(h, r_dstress) := np_copy h dstress in
  let '(h, r_dstrain) := np_copy h dstrain in
  let sp := StateParameters.init (heap_read h r_strain) (heap_read h r_stress)
              (heap_read h r_dstrain) (heap_read h r_dstress) false false in
  let '(h, r_sij) := heap_alloc h (StateParameters.sij sp) in
  let '(h, r_rij) := heap_alloc h (StateParameters.rij sp) in
  (h, SnapshotRefs r_strain r_stress r_dstress r_dstrain r_sij r_rij).

(* ================================================================== *)
(** * Vocabulary of the statements *)

(** ** Linear systems and masks *)

Definition well_formed (n : nat) (sys : list eqn) : Prop :=
  length sys = n /\ forall r, In r sys -> length (fst r) = n.

(** A stiffness tensor is invertible when its contraction maps no
    non-zero increment to zero. *)
Definition nonsingular (E : ten4) : Prop :=
  forall x : mat3, contract E x = zeros33 -> x = zeros33.

Definition all_mask (b : bool) : mat bool := mtab (fun _ _ => b).

(** ** Elastic moduli *)

Definition rlambda_of (self : Li2002.t) (G : R) : R :=
  2 * G * Li2002.nu self / (1 - 2 * Li2002.nu self).

(** The elastic stiffness of the default sand at unit shear modulus. *)
Definition Ee_unit : ten4 := Li2002.elastic_stiffness Li2002.default 1.

(** The shear modulus that [isotropic_compression_stiffness] passes to
    [elastic_stiffness]. *)
Definition G2_of (self : Li2002.t) (e p : R) : R :=
  let G := fst (Li2002.elastic_modulus self e p) in
  let fn := 2 * (1 + Li2002.nu self) / (3 * (1 - 2 * Li2002.nu self)) in
  G * fn * Li2002.h4 self / (Li2002.h4 self + sqrt (2 / 3) * fn * Li2002.d2 self) / fn.

(** ** What the methods assign *)

(** The attributes of a snapshot that [__init__] assigns, flags apart. *)
Definition same_core (sp sp' : StateParameters.t) : Prop :=
  StateParameters.strain sp' = StateParameters.strain sp
  /\ StateParameters.stress sp' = StateParameters.stress sp
  /\ StateParameters.dstress sp' = StateParameters.dstress sp
  /\ StateParameters.dstrain sp' = StateParameters.dstrain sp
  /\ StateParameters.pmin sp' = StateParameters.pmin sp
  /\ StateParameters.p sp' = StateParameters.p sp
  /\ StateParameters.sij sp' = StateParameters.sij sp
  /\ StateParameters.rij sp' = StateParameters.rij sp
  /\ StateParameters.R_ sp' = StateParameters.R_ sp
  /\ StateParameters.dp sp' = StateParameters.dp sp.

(** The attributes of the model that only the drivers assign. *)
Definition same_driver_state (self self' : Li2002.t) : Prop :=
  Li2002.par self' = Li2002.par self
  /\ Li2002.stress self' = Li2002.stress self
  /\ Li2002.strain self' = Li2002.strain self
  /\ Li2002.e self' = Li2002.e self
  /\ Li2002.e0 self' = Li2002.e0 self.

(** The model after the two conditional assignments that open
    [set_mapping_stress]. *)
Definition recentred (self : Li2002.t) (sp : StateParameters.t) : Li2002.t :=
  let self :=
    if StateParameters.elastic_flag1 sp
    then Li2002.set_alpha (StateParameters.rij sp) self else self in
  if StateParameters.elastic_flag2 sp
  then Li2002.set_beta (StateParameters.p sp) self else self.

(** The attributes that [set_parameters] assigns when both flags are set. *)
Definition elastic_parameters (self : Li2002.t) (ec : R) (sp : StateParameters.t)
  : StateParameters.t :=
  let '(Ge, Ke) := Li2002.elastic_modulus self ec (StateParameters.p sp) in
  StateParameters.set_num "Kp2_b" 0.0
    (StateParameters.set_num "Kp1_b" 0.0
       (StateParameters.set_num "g" (Li2002.g_theta self (StateParameters.sij sp))
          (StateParameters.set_num "psi"
             (Li2002.state_parameter self ec (StateParameters.p sp))
             (StateParameters.set_num "Ke" Ke
                (StateParameters.set_num "Ge" Ge sp))))).

(** The flow direction [nij] that [set_parameter_nm] assigns. *)
Definition flow_direction
    (self : Li2002.t) (sij rij_bar : mat3) (R_bar g_bar : R) : mat3 :=
  let theta_bar := Li2002.Lode_angle sij in
  let dg_bar := Li2002.dg_theta self theta_bar in
  let dF1 := Li2002.dF1_r self rij_bar R_bar theta_bar g_bar dg_bar in
  let dF1_tr := trace dF1 in
  let nij := msub dF1 (mdiv (mscale dF1_tr eye3) 3.0) in
  mdiv nij (norm nij).

(** The tensor [Tij] that [set_parameter_TZ] assigns when mechanism 1 is
    plastic and mechanism 2 elastic ([B = 0.0]). *)
Definition Tij_plastic1 (nij rij : mat3) (Ge Ke D1 Kp1 : R) : mat3 :=
  let nr := ddot nij rij in
  let Tu := msub (mscale (2 * Ge) nij) (mscale (Ke * (nr + 0.0)) eye3) in
  let Td := 2 * Ge - sqrt (2 / 3) * Ke * D1 * (nr + 0.0) + Kp1 in
  mdiv Tu Td.

(** The attributes that [set_parameter_TZ] assigns when both mechanisms are
    plastic and [R] is not zero. *)
Definition B_plastic12 (nij mij rij : mat3) (Ge Ke D2 Kp2 : R) : R :=
  let nm := ddot nij mij in
  let nr := ddot nij rij in
  let Bu := 2 * Ge * nm - sqrt (2 / 3) * Ke * D2 * nr in
  let Bd := sqrt (2 / 3) * Ke * D2 + Kp2 in
  Bu / Bd.

Definition Tij_plastic12 (nij rij : mat3) (Ge Ke D1 Kp1 B : R) : mat3 :=
  let nr := ddot nij rij in
  let Tu := msub (mscale (2 * Ge) nij) (mscale (Ke * (nr + B)) eye3) in
  let Td := 2 * Ge - sqrt (2 / 3) * Ke * D1 * (nr + B) + Kp1 in
  mdiv Tu Td.

Definition Zij_plastic12 (Tij : mat3) (Ke D1 D2 Kp2 : R) : mat3 :=
  let Zu := msub (mscale Ke eye3) (mscale (sqrt (2 / 3) * Ke * D1) Tij) in
  let Zd := sqrt (2 / 3) * Ke * D2 + Kp2 in
  mdiv Zu Zd.

(** The state of the run after [k] passes of the loop, for the example
    [e0 = 0.75]. *)
Definition compression_invariant (dstress : mat3) (k : nat) (self : Li2002.t) : Prop :=
  Li2002.par self = Li2002.par Li2002.default
  /\ Li2002.stress self = mscale (INR k) dstress
  /\ 0 <= trace (Li2002.strain self) <= INR k / 2000
  /\ ((0 < k)%nat -> 0 < trace (Li2002.strain self))
  /\ Li2002.e self = Some (0.75 - trace (Li2002.strain self) * (1 + 0.75)).

(** ** The two branches of the shape function *)

(** The closed forms of the degenerate branches. *)
Definition g_degenerate (c : R) : R := c * (1 + c) / (1 + c ^ 2).

Definition dg_degenerate (c : R) : R :=
  - c ^ 2 * (1 - c) * (1 + c) ^ 2 / (1 + c ^ 2) ^ 3.

(** The expressions of the regular branches, as functions of
    [st = sin(3 theta)]. *)
Definition g_regular (c st : R) : R :=
  (sqrt ((1 + c ^ 2) ^ 2 + 4 * c * (1 - c ^ 2) * st) - (1 + c ^ 2))
  / (2 * (1 - c) * st).

Definition dg_regular (c st : R) : R :=
  c * (1 + c) / (st * sqrt ((1 + c ^ 2) ^ 2 + 4 * c * (1 - c ^ 2) * st))
  - (sqrt ((1 + c ^ 2) ^ 2 + 4 * c * (1 - c ^ 2) * st) - (1 + c ^ 2))
    / (2 * (1 - c) * st * st).

(** The same two functions with the removable singularity at [st = 0]
    removed. *)
Definition g_smooth (c st : R) : R :=
  4 * c * (1 - c ^ 2)
  / (2 * (1 - c) * (sqrt ((1 + c ^ 2) ^ 2 + 4 * c * (1 - c ^ 2) * st) + (1 + c ^ 2))).

Definition dg_smooth (c st : R) : R :=
  - (c * (1 + c)) * (4 * c * (1 - c ^ 2))
  / (sqrt ((1 + c ^ 2) ^ 2 + 4 * c * (1 - c ^ 2) * st)
     * ((sqrt ((1 + c ^ 2) ^ 2 + 4 * c * (1 - c ^ 2) * st) + (1 + c ^ 2))
        * (sqrt ((1 + c ^ 2) ^ 2 + 4 * c * (1 - c ^ 2) * st) + (1 + c ^ 2)))).

(** ** Concrete inputs *)

(** A root finder that always raises: a run that returns with it has not
    called [brentq]. *)
Definition no_root : (R -> R) -> R -> R -> res R := fun _ _ _ => Raise ValueError.

(** The default sand at void ratio 0.75, at rest. *)
Definition sand_at_rest : Li2002.t := Li2002.set_e 0.75 Li2002.default.

(** A snapshot of the unstressed state with a unit strain increment. *)
Definition snapshot_at_rest : StateParameters.t :=
  StateParameters.init zeros33 zeros33 eye3 zeros33 false false.

(** The stress [diag(200, 100, 0)], of mean 100, seen by a snapshot that is
    constructed with [ef1=True], and a model whose [beta] is that mean. *)
Definition sheared_stress : mat3 :=
  Arr3 (Arr3 200 0 0) (Arr3 0 100 0) (Arr3 0 0 0).

Definition flagged_snapshot : StateParameters.t :=
  StateParameters.init zeros33 sheared_stress eye3 zeros33 true false.

Definition sand_at_100 : Li2002.t := Li2002.set_beta 100 sand_at_rest.

(** The stress and the void ratio that the example run ends with. *)
Definition compressed_stress : mat3 :=
  Arr3 (Arr3 20000 0 0) (Arr3 0 40000 0) (Arr3 0 0 20000).

(** A model whose persistent strain and stress are the arrays at addresses
    0 and 1, and two increments at addresses 2 and 3. *)
Definition example_heap : heap := [zeros33; compressed_stress; eye3; zeros33].

(** A stress of mean 40, between the floor of the snapshot (1) and the
    floor of the model (100). *)
Definition low_stress : mat3 :=
  Arr3 (Arr3 30 0 0) (Arr3 0 60 0) (Arr3 0 0 30).

(** [x] on the two shear components [01] and [10]. *)
Definition pure_shear (x : R) : mat3 :=
  Arr3 (Arr3 0 x 0) (Arr3 x 0 0) (Arr3 0 0 0).

(** A deviator with shear [X] and the axial parts [D, D, -2D]. *)
Definition shear_form (D X : R) : mat3 :=
  Arr3 (Arr3 D X 0) (Arr3 X D 0) (Arr3 0 0 (-2 * D)).

(** Mean stress 101 kPa (the reference pressure) with a shear stress of a tenth
    of it. *)
Definition shear_stress : mat3 :=
  Arr3 (Arr3 101000 10100 0) (Arr3 10100 101000 0) (Arr3 0 0 101000).

(** The default sand at void ratio 0.75 whose mechanism-2 centre [beta] is the
    current mean stress, as [cyclic_shear_test] sets it before shearing. *)
Definition loaded_sand : Li2002.t := Li2002.set_beta 101000 sand_at_rest.

(** [StateParameters(zeros, shear_stress, eye(3), zeros)]: a unit volumetric
    strain increment at that stress. *)
Definition reversal_snapshot : StateParameters.t :=
  StateParameters.init zeros33 shear_stress eye3 zeros33 false false.

(** The default sand at void ratio 0.75 under [shear_stress], with [beta] and
    [H2] at the mean stress, where [cyclic_shear_test] puts them before
    shearing. *)
Definition sheared_sand : Li2002.t :=
  Li2002.set_stress shear_stress (Li2002.set_H2 101000 loaded_sand).

(** Snapshots of that model as the drivers build them, from the model's own
    strain and stress, after a volumetric strain increment: [eye(3)] and
    [-eye(3)]. *)
Definition unloading_snapshot : StateParameters.t :=
  StateParameters.init (Li2002.strain sheared_sand) (Li2002.stress sheared_sand)
    eye3 zeros33 false false.

Definition loading_snapshot : StateParameters.t :=
  StateParameters.init (Li2002.strain sheared_sand) (Li2002.stress sheared_sand)
    (mscale (-1) eye3) zeros33 false false.

(** What the evaluation assigns at that stress: the image ratio is the ratio
    itself ([rho1_ratio = 1.0]), [H1] becomes [sheared_H1] and the flow tensor
    [Tij] is [sheared_Tij]. *)
Definition sheared_H1 : R :=
  sqrt (1.5 * sumsq (pure_shear 0.1)) / Li2002.g_theta sheared_sand (pure_shear 0.1).

Definition sheared_Tij : mat3 :=
  let self := sheared_sand in
  let Ge := fst (Li2002.elastic_modulus self 0.75 101000) in
  let Ke := snd (Li2002.elastic_modulus self 0.75 101000) in
  let psi := Li2002.state_parameter self 0.75 101000 in
  let g := Li2002.g_theta self (pure_shear 10100) in
  let R_bar := sqrt (1.5 * sumsq (pure_shear 0.1)) in
  let g_bar := Li2002.g_theta self (pure_shear 0.1) in
  let h := (Li2002.h1 self - Li2002.h2 self * 0.75)
           * ((1.0 / 1.0) ^ 10
              + Li2002.h3 self * Li2002.accumulated_load_index self (Li2002.L1 self)
                * (1 - (1.0 / 1.0) ^ 10)) in
  let Kp := Li2002.plastic_modulus1 self Ge R_bar g_bar 1.0 h psi in
  let D1 := Li2002.dilatancy1 self R_bar g 1.0 psi in
  let nij := flow_direction self (pure_shear 10100) (pure_shear 0.1) R_bar g_bar in
  Tij_plastic1 nij (pure_shear 0.1) Ge Ke D1 (fst Kp).

(** The sheared sand with [beta] below the mean stress and [H2] at it: the
    state after a compression from 100 kPa to 101 kPa followed by shear. *)
Definition yielding_sand : Li2002.t := Li2002.set_beta 100000 sheared_sand.

(** Snapshots of that model with a rising mean stress ([dstress = eye(3)]),
    for a volumetric strain increment [eye(3)] and [-eye(3)]. *)
Definition compressing_snapshot : StateParameters.t :=
  StateParameters.init (Li2002.strain yielding_sand) (Li2002.stress yielding_sand)
    eye3 eye3 false false.

Definition swelling_snapshot : StateParameters.t :=
  StateParameters.init (Li2002.strain yielding_sand) (Li2002.stress yielding_sand)
    (mscale (-1) eye3) eye3 false false.

(** ** Further vocabulary *)

(** A 3x3 array equal to its transpose. *)
Definition symmetric (m : mat3) : Prop := forall i j : ix, m.[i,j] = m.[j,i].

(** The number of [True] entries of a mask. *)
Definition ntrue (d : list bool) : nat := length (filter (fun b => b) d).

(** The position of component [(i, j)] in a flattened 3x3 array. *)
Definition pos (i j : ix) : nat :=
  match i, j with
  | I0, I0 => 0 | I0, I1 => 1 | I0, I2 => 2
  | I1, I0 => 3 | I1, I1 => 4 | I1, I2 => 5
  | I2, I0 => 6 | I2, I1 => 7 | I2, I2 => 8
  end.

(** A mask that lets the shear component [(0, 1)] deform and constrains the
    eight others. *)
Definition shear01_mask : mat bool :=
  mtab (fun i j => match i, j with I0, I1 => true | _, _ => false end).

(** The sum of the load increments of the steps [a], ..., [a + k - 1]. *)
Definition accumulated_load (nstep : nat) (amp : R) (a k : nat) : R :=
  fold_right Rplus 0 (map (Li2002.cycle_load nstep amp) (seq a k)).

(** The bounding-surface state of the model: the mapping centres, the sizes
    of the two surfaces and the loading index. *)
Definition same_surfaces (self self' : Li2002.t) : Prop :=
  Li2002.alpha self' = Li2002.alpha self
  /\ Li2002.beta self' = Li2002.beta self
  /\ Li2002.H1 self' = Li2002.H1 self
  /\ Li2002.H2 self' = Li2002.H2 self
  /\ Li2002.L1 self' = Li2002.L1 self.

(** The two halves of [set_mapping_stress], after the two conditional
    assignments that open it: the mapping of mechanism 1, which may call the
    root finder, and the mapping of mechanism 2. *)
Definition mapping_mechanism1
    (brentq : (R -> R) -> R -> R -> res R) (s : Li2002.t) (sp : StateParameters.t)
  : res (Li2002.t * StateParameters.t) :=
  if Rltb (norm (msub (StateParameters.rij sp) (Li2002.alpha s))) 1e-6 then
    Ok (s, StateParameters.set_elastic_flag1 true sp)
  else if Rltb 0.0 (Li2002.F1_boundary_surface s 1.0 (StateParameters.rij sp)
                      (Li2002.alpha s)) then
    let '(rij_bar, R_bar, g_bar) :=
      Li2002.mapping_r s 1.0 (StateParameters.rij sp) (Li2002.alpha s) in
    let sp := StateParameters.set_mat "rij_bar" rij_bar sp in
    let sp := StateParameters.set_num "R_bar" R_bar sp in
    let sp := StateParameters.set_num "g_bar" g_bar sp in
    let self := Li2002.set_H1 (R_bar / g_bar) s in
    Ok (self, StateParameters.set_num "rho1_ratio" 1.0 sp)
  else
    t0 <- brentq (fun t0 => Li2002.F1_boundary_surface s t0 (StateParameters.rij sp)
                              (Li2002.alpha s)) 1.0 1e6 ;;
    let '(rij_bar, R_bar, g_bar) :=
      Li2002.mapping_r s t0 (StateParameters.rij sp) (Li2002.alpha s) in
    let sp := StateParameters.set_mat "rij_bar" rij_bar sp in
    let sp := StateParameters.set_num "R_bar" R_bar sp in
    let sp := StateParameters.set_num "g_bar" g_bar sp in
    Ok (s, StateParameters.set_num "rho1_ratio" t0 sp).

Definition mapping_mechanism2 (self : Li2002.t) (sp : StateParameters.t)
  : res (Li2002.t * StateParameters.t) :=
  if Reqb (Rabs (StateParameters.p sp - Li2002.beta self)) 0.0 then
    Ok (self, StateParameters.set_elastic_flag2 true sp)
  else
    let self := if Rltb (Li2002.H2 self) (StateParameters.p sp)
                then Li2002.set_H2 (StateParameters.p sp) self else self in
    let mapped (p_bar : R) : res (Li2002.t * StateParameters.t) :=
      let sp := StateParameters.set_num "p_bar" p_bar sp in
      let rho2 := Rabs (StateParameters.p sp - Li2002.beta self) in
      let rho2_b := Rabs (p_bar - Li2002.beta self) in
      Ok (self, StateParameters.set_num "rho2_ratio" (rho2_b / rho2) sp) in
    if Rltb 0.0 (StateParameters.dp sp) then
      if Rleb (StateParameters.p sp) (Li2002.beta self)
      then Ok (self, StateParameters.set_elastic_flag2 true sp)
      else mapped (Li2002.H2 self)
    else if Rltb (StateParameters.dp sp) 0.0 then
      if Rleb (Li2002.beta self) (StateParameters.p sp)
      then Ok (self, StateParameters.set_elastic_flag2 true sp)
      else mapped (Li2002.pmin self)
    else Ok (self, StateParameters.set_elastic_flag2 true sp).

(** [StateParameters(zeros, diag(200, 200, 200), zeros, eye(3))]: an isotropic
    stress with a compressive stress increment. *)
Definition isotropic_snapshot : StateParameters.t :=
  StateParameters.init zeros33 (mscale 200 eye3) zeros33 eye3 false false.

(** [np.einsum('ijpq,pqkl->ijkl', E, L)]: the product of two (3,3,3,3)
    arrays. *)
Definition compose (E L : ten4) : ten4 :=
  mtab (fun i j => mtab (fun k l => sum33 (fun p q => E.[i,j].[p,q] * L.[p,q].[k,l]))).

(** [np.einsum('pk,ql->pqkl', eye(3), eye(3))]: the identity on 3x3 arrays. *)
Definition identity4 : ten4 :=
  mtab (fun p q => mtab (fun k l => eye3.[p,k] * eye3.[q,l])).

(** A snapshot whose first mechanism is plastic, with the attributes that
    [set_tensor_Ep] reads: [Ge = 1], [D1 = 1], [nij = Tij = I]. *)
Definition plastic1_snapshot : StateParameters.t :=
  StateParameters.set_mat "Tij" eye3
    (StateParameters.set_mat "nij" eye3
       (StateParameters.set_num "D1" 1
          (StateParameters.set_num "Ge" 1
             (StateParameters.init zeros33 sheared_stress eye3 zeros33 false true)))).

(* ================================================================== *)
(** * Properties *)

(** ** Comparisons and decimal constants *)

Lemma Rltb_true (x y : R) : x < y -> Rltb x y = true.
Proof. intros H. unfold Rltb. destruct (Rlt_dec x y); [reflexivity | contradiction]. Qed.

Lemma Rltb_false (x y : R) : y <= x -> Rltb x y = false.
Proof. intros H. unfold Rltb. destruct (Rlt_dec x y); [lra | reflexivity]. Qed.

Lemma Rltb_spec (x y : R) : Rltb x y = true <-> x < y.
Proof. unfold Rltb. destruct (Rlt_dec x y); split; intros; try easy. Qed.

Lemma Rleb_true (x y : R) : x <= y -> Rleb x y = true.
Proof. intros H. unfold Rleb. destruct (Rle_dec x y); [reflexivity | contradiction]. Qed.

Lemma Rleb_false (x y : R) : y < x -> Rleb x y = false.
Proof. intros H. unfold Rleb. destruct (Rle_dec x y); [lra | reflexivity]. Qed.

Lemma Reqb_true (x y : R) : x = y -> Reqb x y = true.
Proof. intros H. unfold Reqb. destruct (Req_dec_T x y); [reflexivity | contradiction]. Qed.

Lemma Reqb_false (x y : R) : x <> y -> Reqb x y = false.
Proof. intros H. unfold Reqb. destruct (Req_dec_T x y); [contradiction | reflexivity]. Qed.

Lemma Reqb_spec (x y : R) : Reqb x y = true <-> x = y.
Proof. unfold Reqb. destruct (Req_dec_T x y); split; intros; try easy. Qed.

Lemma py_max_Rmax (a b : R) : py_max a b = Rmax a b.
Proof.
  unfold py_max, Rltb, Rmax.
  destruct (Rlt_dec a b), (Rle_dec a b); try reflexivity; lra.
Qed.

Lemma py_max_lower (a b : R) : b <= py_max a b.
Proof. rewrite py_max_Rmax. apply Rmax_r. Qed.

(** Unfolding of the array operations down to their components. *)
Ltac mat_compute :=
  cbv [contract outer tsub madd msub mscale mdiv sumsq norm ddot trace det
       zeros33 eye3 mtab tab3 mget at3 sum33 sum3 a0 a1 a2].
Ltac mat_compute_in H :=
  cbv [contract outer tsub madd msub mscale mdiv sumsq norm ddot trace det
       zeros33 eye3 mtab tab3 mget at3 sum33 sum3 a0 a1 a2] in H.

(** Equality of arrays, component by component. *)
Ltac arr_eq :=
  repeat match goal with
         | |- @Arr3 _ _ _ _ = @Arr3 _ _ _ _ => apply f_equal3
         end.

(** ** Flat arrays *)

Lemma flatten_length {A} (m : mat A) : length (flatten m) = 9%nat.
Proof. reflexivity. Qed.

Lemma reshape33_flatten (x : mat3) : reshape33 (flatten x) = x.
Proof. destruct x as [[? ? ?] [? ? ?] [? ? ?]]. reflexivity. Qed.

Lemma flatten_reshape33 (l : list R) : length l = 9%nat -> flatten (reshape33 l) = l.
Proof.
  intros H.
  do 9 (destruct l as [|? l]; [discriminate H|]).
  destruct l; [reflexivity | discriminate H].
Qed.

Lemma reshape99_shape (E : ten4) :
  length (reshape99 E) = 9%nat /\
  Forall (fun row => length row = 9%nat) (reshape99 E).
Proof.
  split; [reflexivity|].
  unfold reshape99. apply Forall_forall. intros row H.
  apply in_map_iff in H. destruct H as [x [<- _]]. reflexivity.
Qed.

Lemma dot_flatten (a b : mat3) : dot (flatten a) (flatten b) = ddot a b.
Proof.
  destruct a as [[? ? ?] [? ? ?] [? ? ?]], b as [[? ? ?] [? ? ?] [? ? ?]].
  unfold ddot, sum33, sum3. simpl. ring.
Qed.

(** [np.dot] on the reshaped operator is the double contraction. *)
Lemma np_dot_contract (E : ten4) (x : mat3) :
  np_dot (reshape99 E) (flatten x) = flatten (contract E x).
Proof.
  transitivity (map (fun e => ddot e x) (flatten E)).
  - unfold np_dot, reshape99. rewrite map_map.
    apply map_ext. intros e. apply dot_flatten.
  - destruct E as [[? ? ?] [? ? ?] [? ? ?]]. reflexivity.
Qed.

Lemma dot_zeros_r (u : list R) (k : nat) : dot u (repeat 0 k) = 0.
Proof.
  revert k. induction u as [|a u IH]; intros [|k]; simpl; try reflexivity.
  rewrite IH. ring.
Qed.

Lemma dot_axpy (f : R) (u v x : list R) :
  length u = length v ->
  dot (axpy f u v) x = dot u x - f * dot v x.
Proof.
  revert v x. induction u as [|a u IH]; intros [|b v] x H; try discriminate H.
  - simpl. ring.
  - destruct x as [|c x]; simpl; [ring|].
    unfold axpy in IH. rewrite IH by (simpl in H; lia). ring.
Qed.

Lemma axpy_length (f : R) (u v : list R) :
  length u = length v -> length (axpy f u v) = length u.
Proof.
  intros H. unfold axpy. rewrite length_map, length_combine. lia.
Qed.

(** ** [np.linalg.solve]: what elimination returns *)

Lemma select_pivot_spec (rest : list eqn) :
  forall r p others,
    select_pivot r rest = (p, others) ->
    (forall y, In y (r :: rest) <-> In y (p :: others)) /\
    length others = length rest /\
    (forall y, In y (r :: rest) -> Rabs (lead y) <= Rabs (lead p)).
Proof.
  induction rest as [|r' rest IH]; intros r p others H; simpl in H.
  - inversion H; subst. repeat split; try tauto.
    intros y [-> | []]. lra.
  - destruct (select_pivot r' rest) as [p' others'] eqn:E.
    destruct (IH _ _ _ E) as [Hin [Hlen Hmax]].
    unfold Rltb in H.
    destruct (Rlt_dec (Rabs (lead r)) (Rabs (lead p'))) as [Hlt | Hge];
      inversion H; subst; clear H.
    + repeat split.
      * intros [-> | Hy]; [right; left; reflexivity|].
        apply Hin in Hy. destruct Hy as [-> | Hy]; [left | right; right]; easy.
      * intros [-> | [-> | Hy]]; [right; apply Hin; left | left | right; apply Hin; right];
          easy.
      * simpl. lia.
      * intros y [-> | Hy]; [lra | apply Hmax; exact Hy].
    + repeat split.
      * intros [-> | Hy]; [left; reflexivity|].
        right. apply Hin in Hy. exact Hy.
      * intros [-> | Hy]; [left; reflexivity|].
        right. apply Hin. exact Hy.
      * simpl. lia.
      * intros y [-> | Hy]; [lra|].
        apply Rle_trans with (Rabs (lead p')); [apply Hmax; exact Hy | lra].
Qed.

Lemma eliminate_well_formed (n : nat) (p : eqn) (others : list eqn) :
  length (fst p) = S n ->
  length others = n ->
  (forall r, In r others -> length (fst r) = S n) ->
  well_formed n (map (eliminate p) others).
Proof.
  intros Hp Hlen Hrows. split.
  - rewrite length_map. exact Hlen.
  - intros r Hr. apply in_map_iff in Hr. destruct Hr as [r0 [<- Hr0]].
    specialize (Hrows _ Hr0). simpl.
    destruct (fst r0) as [|a u]; [discriminate|].
    destruct (fst p) as [|b v]; [discriminate|]. simpl.
    rewrite axpy_length; simpl in *; lia.
Qed.

(** A row of the reduced system holds for [x'] exactly when the row it
    came from holds for [x0 :: x'], [x0] being the value the pivot row
    gives. *)
Lemma eliminate_row (n : nat) (p r : eqn) (x' : list R) (bp : R) :
  length (fst p) = S n -> length (fst r) = S n -> lead p <> 0 ->
  dot (fst r) ((bp - dot (tl (fst p)) x') / lead p :: x') - snd r =
  dot (fst (eliminate p r)) x' - (snd r - lead r / lead p * bp).
Proof.
  intros Hp Hr Hlead. unfold eliminate, lead in *. simpl.
  destruct (fst p) as [|lp tp]; [discriminate|].
  destruct (fst r) as [|lr tr]; [discriminate|].
  simpl in *. rewrite dot_axpy by lia. field. exact Hlead.
Qed.

Lemma pivot_row (n : nat) (p : eqn) (x' : list R) (bp : R) :
  length (fst p) = S n -> lead p <> 0 ->
  dot (fst p) ((bp - dot (tl (fst p)) x') / lead p :: x') = bp.
Proof.
  intros Hp Hlead. unfold lead in *.
  destruct (fst p) as [|lp tp]; [discriminate|]. simpl in *. field. exact Hlead.
Qed.

Lemma gauss_sound (n : nat) :
  forall sys x,
    well_formed n sys -> gauss n sys = Ok x ->
    length x = n /\ forall r, In r sys -> dot (fst r) x = snd r.
Proof.
  induction n as [|n IH]; intros sys x [Hlen Hrows] H; simpl in H.
  - inversion H; subst. split; [reflexivity|].
    destruct sys; [intros r []| discriminate Hlen].
  - destruct sys as [|r rest]; [discriminate H|].
    destruct (select_pivot r rest) as [p others] eqn:E.
    destruct (select_pivot_spec _ _ E) as [Hin [Hlo _]].
    destruct (Reqb (lead p) 0) eqn:Hz; [discriminate H|].
    assert (Hlead : lead p <> 0).
    { intros Heq. rewrite (Reqb_true Heq) in Hz. discriminate Hz. }
    destruct (gauss n (map (eliminate p) others)) as [x'|] eqn:G; [|discriminate H].
    simpl in H. inversion H; subst x; clear H.
    assert (Hp : length (fst p) = S n) by (apply Hrows, Hin; left; reflexivity).
    assert (Ho : forall r0, In r0 others -> length (fst r0) = S n)
      by (intros r0 H0; apply Hrows, Hin; right; exact H0).
    assert (Hwf : well_formed n (map (eliminate p) others)).
    { apply eliminate_well_formed; auto. simpl in Hlen. lia. }
    destruct (IH _ _ Hwf G) as [Hx' Hsol].
    split; [simpl; lia|].
    intros r0 Hr0. apply Hin in Hr0. destruct Hr0 as [<- | Hr0].
    + apply pivot_row with (n := n); assumption.
    + pose proof (eliminate_row (n := n) p r0 x' (snd p) Hp (Ho _ Hr0) Hlead) as Hrow.
      assert (Hred : dot (fst (eliminate p r0)) x' = snd (eliminate p r0))
        by (apply Hsol, in_map; exact Hr0).
      change (snd (eliminate p r0)) with (snd r0 - lead r0 / lead p * snd p) in Hred.
      rewrite Hred in Hrow. lra.
Qed.

(** Elimination fails only on a singular system: when no non-zero vector
    satisfies all homogeneous equations, it returns. *)
Lemma gauss_complete (n : nat) :
  forall sys,
    well_formed n sys ->
    (forall x, length x = n ->
               (forall r, In r sys -> dot (fst r) x = 0) -> x = repeat 0 n) ->
    exists x, gauss n sys = Ok x.
Proof.
  induction n as [|n IH]; intros sys [Hlen Hrows] Hker; simpl.
  - exists []. reflexivity.
  - destruct sys as [|r rest]; [discriminate Hlen|].
    destruct (select_pivot r rest) as [p others] eqn:E.
    destruct (select_pivot_spec _ _ E) as [Hin [Hlo Hmax]].
    assert (Hp : length (fst p) = S n) by (apply Hrows, Hin; left; reflexivity).
    assert (Ho : forall r0, In r0 others -> length (fst r0) = S n)
      by (intros r0 H0; apply Hrows, Hin; right; exact H0).
    destruct (Reqb (lead p) 0) eqn:Hz.
    + (* every leading coefficient is zero: the first unit vector is in the kernel *)
      exfalso. apply Reqb_spec in Hz.
      assert (Hall : forall y, In y (r :: rest) -> lead y = 0).
      { intros y Hy. specialize (Hmax _ Hy). rewrite Hz, Rabs_R0 in Hmax.
        destruct (Req_dec_T (lead y) 0) as [|Hne]; [assumption|].
        apply Rabs_pos_lt in Hne. lra. }
      assert (Hk : 1 :: repeat 0 n = repeat 0 (S n)).
      { apply Hker; [simpl; rewrite repeat_length; reflexivity|].
        intros y Hy. specialize (Hall _ Hy). specialize (Hrows _ Hy).
        unfold lead in Hall. destruct (fst y) as [|ly ty]; [discriminate|].
        simpl in *. rewrite dot_zeros_r, Hall. ring. }
      simpl in Hk. inversion Hk. lra.
    + assert (Hlead : lead p <> 0).
      { intros Heq. rewrite (Reqb_true Heq) in Hz. discriminate Hz. }
      assert (Hwf : well_formed n (map (eliminate p) others)).
      { apply eliminate_well_formed; auto. simpl in Hlen. lia. }
      destruct (IH _ Hwf) as [x' G].
      * intros x' Hx' Hsol.
        assert (Hk : (0 - dot (tl (fst p)) x') / lead p :: x' = repeat 0 (S n)).
        { apply Hker; [simpl; lia|].
          intros r0 Hr0. apply Hin in Hr0. destruct Hr0 as [<- | Hr0].
          - apply pivot_row with (n := n); assumption.
          - pose proof (eliminate_row (n := n) p r0 x' 0 Hp (Ho _ Hr0) Hlead) as Hrow.
            assert (Hred : dot (fst (eliminate p r0)) x' = 0)
              by (apply Hsol, in_map; exact Hr0).
            rewrite Hred in Hrow. lra. }
        simpl in Hk. injection Hk as _ Hk. exact Hk.
      * exists ((snd p - dot (tl (fst p)) x') / lead p :: x'). rewrite G. reflexivity.
Qed.

(** ** The solver on 3x3 increments *)

Lemma flatten_inj (x y : mat3) : flatten x = flatten y -> x = y.
Proof.
  intros H. rewrite <- (reshape33_flatten x), <- (reshape33_flatten y), H. reflexivity.
Qed.

Lemma rows_np_dot (x : list R) :
  forall (A : list (list R)) (b : list R),
    length A = length b ->
    (forall r, In r (combine A b) -> dot (fst r) x = snd r) ->
    np_dot A x = b.
Proof.
  induction A as [|row A IH]; intros [|v b] Hlen H; try discriminate Hlen.
  - reflexivity.
  - simpl. f_equal.
    + apply (H (row, v)). left. reflexivity.
    + apply IH; [simpl in Hlen; lia|]. intros r Hr. apply H. right. exact Hr.
Qed.

Lemma rows_homogeneous (x : list R) :
  forall (A : list (list R)) (b : list R),
    length A = length b ->
    (forall r, In r (combine A b) -> dot (fst r) x = 0) ->
    np_dot A x = repeat 0 (length A).
Proof.
  induction A as [|row A IH]; intros [|v b] Hlen H; try discriminate Hlen.
  - reflexivity.
  - simpl. f_equal.
    + apply (H (row, v)). left. reflexivity.
    + apply IH with (b := b); [simpl in Hlen; lia|].
      intros r Hr. apply H. right. exact Hr.
Qed.

Lemma combine_well_formed (E : ten4) (b : mat3) :
  well_formed 9 (combine (reshape99 E) (flatten b)).
Proof.
  destruct (reshape99_shape E) as [Hlen Hrows]. split.
  - reflexivity.
  - intros [row v] Hr. apply in_combine_l in Hr.
    rewrite Forall_forall in Hrows. apply Hrows. exact Hr.
Qed.

Lemma linalg_solve_sound (E : ten4) (b : mat3) (x : list R) :
  linalg_solve (reshape99 E) (flatten b) = Ok x ->
  length x = 9%nat /\ contract E (reshape33 x) = b.
Proof.
  intros H. unfold linalg_solve in H. rewrite flatten_length in H.
  destruct (gauss_sound (combine_well_formed E b) H) as [Hlen Hsol].
  split; [exact Hlen|].
  apply flatten_inj. rewrite <- np_dot_contract, flatten_reshape33 by exact Hlen.
  apply rows_np_dot; [reflexivity | exact Hsol].
Qed.

Lemma linalg_solve_complete (E : ten4) (b : mat3) :
  nonsingular E -> exists x, linalg_solve (reshape99 E) (flatten b) = Ok x.
Proof.
  intros Hns. unfold linalg_solve. rewrite flatten_length.
  apply gauss_complete; [apply combine_well_formed|].
  intros x Hlen Hsol.
  assert (Hz : np_dot (reshape99 E) x = flatten zeros33).
  { change (flatten zeros33) with (repeat 0 (length (reshape99 E))).
    apply rows_homogeneous with (b := flatten b); [reflexivity | exact Hsol]. }
  rewrite <- (flatten_reshape33 x Hlen) in Hz. rewrite np_dot_contract in Hz.
  apply flatten_inj, Hns in Hz.
  rewrite <- (flatten_reshape33 x Hlen), Hz. reflexivity.
Qed.

Lemma mask_select_all_true {A} (l : list A) :
  mask_select (repeat true (length l)) l = l.
Proof. induction l as [|a l IH]; simpl; [reflexivity | rewrite IH; reflexivity]. Qed.

Lemma mask_select_all_false {A} (l : list A) (k : nat) :
  mask_select (repeat false k) l = [].
Proof.
  revert k. induction l as [|a l IH]; intros [|k]; simpl; try reflexivity. apply IH.
Qed.

Lemma mask_fill_all_true (l : list R) (v : R) :
  mask_fill (repeat true (length l)) l v = repeat v (length l).
Proof. induction l as [|a l IH]; simpl; [reflexivity | rewrite IH; reflexivity]. Qed.

Lemma mask_fill_all_false (l : list R) (v : R) (k : nat) :
  mask_fill (repeat false k) l v = l.
Proof.
  revert k. induction l as [|a l IH]; intros [|k]; simpl; try reflexivity.
  rewrite IH. reflexivity.
Qed.

Lemma mask_assign_all_true (l : list R) :
  forall vals, length vals = length l ->
               mask_assign (repeat true (length l)) l vals = Ok vals.
Proof.
  induction l as [|a l IH]; intros [|v vals] H; try discriminate H; simpl.
  - reflexivity.
  - rewrite IH by (simpl in H; lia). reflexivity.
Qed.

Lemma mask_assign_all_false (l : list R) (k : nat) :
  mask_assign (repeat false k) l [] = Ok l.
Proof.
  revert k. induction l as [|a l IH]; intros [|k]; simpl; try reflexivity.
  rewrite IH. reflexivity.
Qed.

Lemma flatten_all_mask (b : bool) : flatten (all_mask b) = repeat b 9.
Proof. reflexivity. Qed.

Lemma np_dot_zeros (A : list (list R)) (k : nat) :
  np_dot A (repeat 0 k) = repeat 0 (length A).
Proof.
  induction A as [|row A IH]; simpl; [reflexivity|].
  rewrite dot_zeros_r. f_equal. exact IH.
Qed.

Lemma sub_zeros (l : list R) :
  map (fun ab => fst ab - snd ab) (combine l (repeat 0 (length l))) = l.
Proof.
  induction l as [|a l IH]; simpl; [reflexivity|].
  rewrite IH. f_equal. ring.
Qed.

(** With every component strain-prescribed the reduced system is empty. *)
Lemma solve_all_strain_prescribed (strain_given stress_given : mat3) (E : ten4) :
  Li2002.solve_strain_with_consttain strain_given stress_given E (all_mask false)
  = Ok (strain_given, contract E strain_given).
Proof.
  unfold Li2002.solve_strain_with_consttain.
  rewrite flatten_all_mask, mask_fill_all_false, !mask_select_all_false.
  unfold linalg_solve. simpl gauss. unfold bind at 1.
  rewrite mask_assign_all_false. unfold bind.
  rewrite np_dot_contract, !reshape33_flatten. reflexivity.
Qed.

(** With every component stress-prescribed the reduced system is the full
    one, whatever strain was given. *)
Lemma solve_all_stress_prescribed (strain_given stress_given : mat3) (E : ten4) :
  Li2002.solve_strain_with_consttain strain_given stress_given E (all_mask true)
  = (x <- Li2002.solve_strain stress_given E ;; Ok (x, contract E x)).
Proof.
  unfold Li2002.solve_strain_with_consttain, Li2002.solve_strain.
  rewrite flatten_all_mask.
  destruct (reshape99_shape E) as [HlenE HrowsE].
  replace (mask_fill (repeat true 9) (flatten strain_given) 0.0) with (repeat 0 9)
    by (simpl; repeat f_equal; lra).
  rewrite np_dot_zeros, HlenE.
  pose proof (sub_zeros (flatten stress_given)) as Hsub.
  change (length (flatten stress_given)) with 9%nat in Hsub. rewrite Hsub.
  pose proof (mask_select_all_true (flatten stress_given)) as Hsel.
  change (length (flatten stress_given)) with 9%nat in Hsel. rewrite Hsel.
  pose proof (mask_select_all_true (reshape99 E)) as HselE.
  rewrite HlenE in HselE. rewrite HselE.
  assert (Hrows : map (mask_select (repeat true 9)) (reshape99 E) = reshape99 E).
  { rewrite <- (map_id (reshape99 E)) at 2. apply map_ext_in.
    intros row Hrow. rewrite Forall_forall in HrowsE.
    rewrite <- (HrowsE _ Hrow). apply mask_select_all_true. }
  rewrite Hrows.
  destruct (linalg_solve (reshape99 E) (flatten stress_given)) as [x|err] eqn:Hs;
    [|reflexivity].
  destruct (linalg_solve_sound _ _ Hs) as [Hlen _].
  unfold bind at 1. unfold bind at 2.
  assert (Ha : mask_assign (repeat true 9) (repeat 0 9) x = Ok x).
  { rewrite <- (repeat_length 0 9) at 1.
    apply mask_assign_all_true. rewrite repeat_length. exact Hlen. }
  rewrite Ha. unfold bind.
  rewrite <- (flatten_reshape33 x Hlen) at 2.
  rewrite np_dot_contract, reshape33_flatten. reflexivity.
Qed.

(** ** The isotropic elastic stiffness *)

Lemma elastic_stiffness_contract (self : Li2002.t) (G : R) (x : mat3) :
  contract (Li2002.elastic_stiffness self G) x
  = madd (mscale (rlambda_of self G * trace x) eye3) (mscale (2 * G) x).
Proof.
  destruct x as [[x00 x01 x02] [x10 x11 x12] [x20 x21 x22]].
  unfold Li2002.elastic_stiffness, rlambda_of. mat_compute.
  arr_eq; ring.
Qed.

Lemma elastic_stiffness_nonsingular (self : Li2002.t) (G : R) :
  G <> 0 -> 2 * G + 3 * rlambda_of self G <> 0 ->
  nonsingular (Li2002.elastic_stiffness self G).
Proof.
  intros HG Hsum x Hx. rewrite elastic_stiffness_contract in Hx.
  set (l := rlambda_of self G) in *.
  destruct x as [[x00 x01 x02] [x10 x11 x12] [x20 x21 x22]].
  mat_compute_in Hx.
  injection Hx as H00 H01 H02 H10 H11 H12 H20 H21 H22.
  assert (Ht : x00 + x11 + x22 = 0).
  { assert (Hm : (2 * G + 3 * l) * (x00 + x11 + x22) = 0) by lra.
    apply Rmult_integral in Hm. destruct Hm; [contradiction | assumption]. }
  rewrite Ht in *.
  assert (Hz : forall v, l * 0 * 0 + 2 * G * v = 0 -> v = 0).
  { intros v Hv. assert (Hm : G * v = 0) by lra.
    apply Rmult_integral in Hm. destruct Hm; [contradiction | assumption]. }
  assert (Hd : forall v, l * 0 * 1 + 2 * G * v = 0 -> v = 0).
  { intros v Hv. assert (Hm : G * v = 0) by lra.
    apply Rmult_integral in Hm. destruct Hm; [contradiction | assumption]. }
  rewrite (Hd _ H00), (Hd _ H11), (Hd _ H22), (Hz _ H01), (Hz _ H02), (Hz _ H10),
    (Hz _ H12), (Hz _ H20), (Hz _ H21).
  reflexivity.
Qed.

Lemma Ee_unit_nonsingular : nonsingular Ee_unit.
Proof.
  apply elastic_stiffness_nonsingular; unfold rlambda_of; simpl; lra.
Qed.

(** ** C7: the round-trip law of the mixed-control solver *)

(** C7.  For an invertible stiffness tensor [E] and any pair of given
    increments: with every component strain-prescribed (mask all [False])
    [solve_strain_with_consttain] returns the given strain itself and the
    stress [E : strain]; with every component stress-prescribed (mask all
    [True]) it returns a strain to which [E] applied gives the given stress
    back (in exact arithmetic, so with no rounding residue), and the stress
    it returns is that stress. *)
Theorem solve_strain_with_consttain_round_trip
    (E : ten4) (strain_given stress_given : mat3) :
  nonsingular E ->
  Li2002.solve_strain_with_consttain strain_given stress_given E (all_mask false)
    = Ok (strain_given, contract E strain_given)
  /\ exists strain : mat3,
       Li2002.solve_strain_with_consttain strain_given stress_given E (all_mask true)
         = Ok (strain, stress_given)
       /\ contract E strain = stress_given.
Proof.
  intros Hns. split; [apply solve_all_strain_prescribed|].
  rewrite solve_all_stress_prescribed. unfold Li2002.solve_strain.
  destruct (linalg_solve_complete stress_given Hns) as [x Hx].
  destruct (linalg_solve_sound _ _ Hx) as [_ Hsol].
  exists (reshape33 x). rewrite Hx. unfold bind. rewrite Hsol. split; reflexivity.
Qed.

Lemma solve_strain_with_consttain_round_trip_witness :
  nonsingular Ee_unit /\
  (Li2002.solve_strain_with_consttain eye3 zeros33 Ee_unit (all_mask false)
     = Ok (eye3, contract Ee_unit eye3)
   /\ exists strain : mat3,
        Li2002.solve_strain_with_consttain eye3 zeros33 Ee_unit (all_mask true)
          = Ok (strain, zeros33)
        /\ contract Ee_unit strain = zeros33).
Proof.
  split; [exact Ee_unit_nonsingular|].
  exact (solve_strain_with_consttain_round_trip eye3 zeros33 Ee_unit_nonsingular).
Defined.

(** ** C9: the constrained solver with nothing constrained *)

(** C9.  For a stress matrix [b] and an invertible stiffness tensor [E],
    [solve_strain_with_consttain] with the mask all [True] and a zero given
    strain returns the strain that [solve_strain(b, E)] returns, together
    with the stress [E : strain], which is [b]. *)
Theorem solve_strain_with_consttain_all_deform (b : mat3) (E : ten4) :
  nonsingular E ->
  exists x : mat3,
    Li2002.solve_strain b E = Ok x
    /\ Li2002.solve_strain_with_consttain zeros33 b E (all_mask true)
       = Ok (x, contract E x)
    /\ contract E x = b.
Proof.
  intros Hns. rewrite solve_all_stress_prescribed. unfold Li2002.solve_strain.
  destruct (linalg_solve_complete b Hns) as [x Hx].
  destruct (linalg_solve_sound _ _ Hx) as [_ Hsol].
  exists (reshape33 x). rewrite Hx. unfold bind. auto.
Qed.

Lemma solve_strain_with_consttain_all_deform_witness :
  nonsingular Ee_unit /\
  exists x : mat3,
    Li2002.solve_strain eye3 Ee_unit = Ok x
    /\ Li2002.solve_strain_with_consttain zeros33 eye3 Ee_unit (all_mask true)
       = Ok (x, contract Ee_unit x)
    /\ contract Ee_unit x = eye3.
Proof.
  split; [exact Ee_unit_nonsingular|].
  exact (solve_strain_with_consttain_all_deform eye3 Ee_unit_nonsingular).
Defined.

(** ** C1: the isotropic-compression example *)

Lemma div_lower (a b c : R) : 0 < b -> c * b <= a -> c <= a / b.
Proof.
  intros Hb H. unfold Rdiv. apply Rmult_le_reg_r with b; [exact Hb|].
  rewrite Rmult_assoc, Rinv_l by lra. lra.
Qed.

Lemma div_upper (a b c : R) : 0 < b -> a <= c * b -> a / b <= c.
Proof.
  intros Hb H. unfold Rdiv. apply Rmult_le_reg_r with b; [exact Hb|].
  rewrite Rmult_assoc, Rinv_l by lra. lra.
Qed.

Lemma sqrt_two_thirds : 0 <= sqrt (2 / 3) <= 1.
Proof.
  split; [apply sqrt_pos|].
  rewrite <- sqrt_1. apply sqrt_le_1_alt. lra.
Qed.

Lemma trace_elastic (self : Li2002.t) (G : R) (x : mat3) :
  trace (contract (Li2002.elastic_stiffness self G) x)
  = (3 * rlambda_of self G + 2 * G) * trace x.
Proof.
  rewrite elastic_stiffness_contract.
  destruct x as [[x00 x01 x02] [x10 x11 x12] [x20 x21 x22]].
  mat_compute. ring.
Qed.

Lemma isotropic_compression_stiffness_eq (self : Li2002.t) (e p : R) :
  Li2002.isotropic_compression_stiffness self e p
  = Li2002.elastic_stiffness self (G2_of self e p).
Proof. reflexivity. Qed.

(** For the default sand and a void ratio between -1/2 and 3/4 that shear
    modulus is at least 375000, whatever the mean stress. *)
Lemma G2_of_default_lower (self : Li2002.t) (e p : R) :
  Li2002.par self = Li2002.par Li2002.default ->
  -1 / 2 <= e <= 3 / 4 ->
  375000 <= G2_of self e p.
Proof.
  intros Hpar He. unfold G2_of, Li2002.elastic_modulus. rewrite Hpar.
  cbn [fst Li2002.default Li2002.init Li2002.par Li2002.G0 Li2002.nu Li2002.h4
       Li2002.d2 Li2002.pmin Li2002.pr].
  set (S := sqrt (py_max p 100.0 * 101e3)).
  set (s := sqrt (2 / 3)).
  assert (Hs : 0 <= s <= 1) by apply sqrt_two_thirds.
  assert (HS : 3000 <= S).
  { unfold S. replace 3000 with (sqrt (3000 * 3000)) by (apply sqrt_square; lra).
    apply sqrt_le_1_alt. pose proof (py_max_lower p 100.0). nra. }
  set (A := 125 * (2.97 - e) ^ 2 / (1 + e)).
  assert (HA : 250 <= A).
  { unfold A. apply div_lower; [lra|]. nra. }
  assert (HG : 750000 <= A * S) by nra.
  set (fn := 2 * (1 + 0.25) / (3 * (1 - 2 * 0.25))).
  assert (Hfn : fn = 5 / 3) by (unfold fn; lra).
  apply div_lower; [lra|].
  apply div_lower; [nra|].
  rewrite Hfn. nra.
Qed.

(** What one pass of the loop does to a default-sand model whose void
    ratio lies between -1/2 and 3/4, for an increment of trace 80: it
    returns, adds the increment to the stress and a strain of positive
    trace at most 1/2000 to the strain. *)
Lemma isotropic_compression_step_spec (self : Li2002.t) (e0 ec : R) (dstress : mat3) :
  Li2002.par self = Li2002.par Li2002.default ->
  Li2002.e self = Some ec ->
  -1 / 2 <= ec <= 3 / 4 ->
  trace dstress = 80 ->
  exists (self' : Li2002.t) (dstrain : mat3),
    Li2002.isotropic_compression_step e0 dstress self = Ok self'
    /\ 0 < trace dstrain <= 1 / 2000
    /\ Li2002.par self' = Li2002.par self
    /\ Li2002.stress self' = madd (Li2002.stress self) dstress
    /\ Li2002.strain self' = madd (Li2002.strain self) dstrain
    /\ Li2002.e self' = Some (e0 - trace (Li2002.strain self') * (1 + e0)).
Proof.
  intros Hpar He Hec Htr.
  unfold Li2002.isotropic_compression_step, Li2002.get_e. rewrite He.
  unfold bind at 1.
  destruct (Li2002.set_stress_variable self (Li2002.stress self)) as [p R'] eqn:Hp.
  rewrite isotropic_compression_stiffness_eq.
  pose proof (G2_of_default_lower self p Hpar Hec) as HG2.
  set (G2 := G2_of self ec p) in *.
  assert (Hl : rlambda_of self G2 = G2).
  { unfold rlambda_of. rewrite Hpar. simpl. lra. }
  assert (Hns : nonsingular (Li2002.elastic_stiffness self G2)).
  { apply elastic_stiffness_nonsingular; rewrite ?Hl; lra. }
  unfold Li2002.solve_strain.
  destruct (linalg_solve_complete dstress Hns) as [x Hx].
  destruct (linalg_solve_sound _ _ Hx) as [_ Hsol].
  rewrite Hx. unfold bind.
  exists (Li2002.set_e
            (e0 - trace (madd (Li2002.strain self) (reshape33 x)) * (1 + e0))
            (Li2002.set_strain (madd (Li2002.strain self) (reshape33 x))
               (Li2002.set_stress (madd (Li2002.stress self) dstress) self))),
         (reshape33 x).
  split; [reflexivity|].
  split; [|repeat split; reflexivity].
  assert (Ht : (3 * G2 + 2 * G2) * trace (reshape33 x) = 80).
  { rewrite <- Htr, <- Hsol, trace_elastic, Hl. reflexivity. }
  split; nra.
Qed.

Lemma trace_madd (a b : mat3) : trace (madd a b) = trace a + trace b.
Proof.
  destruct a as [[? ? ?] [? ? ?] [? ? ?]], b as [[? ? ?] [? ? ?] [? ? ?]].
  mat_compute. ring.
Qed.

Lemma mscale_succ (k : nat) (d : mat3) :
  madd (mscale (INR k) d) d = mscale (INR (S k)) d.
Proof.
  rewrite S_INR. destruct d as [[? ? ?] [? ? ?] [? ? ?]].
  mat_compute. arr_eq; ring.
Qed.

Lemma isotropic_compression_loop_spec (dstress : mat3) :
  trace dstress = 80 ->
  forall (j k : nat) (self : Li2002.t),
    (k + j <= 1000)%nat ->
    compression_invariant dstress k self ->
    exists self' : Li2002.t,
      Li2002.isotropic_compression_loop j 0.75 dstress self = Ok self'
      /\ compression_invariant dstress (k + j) self'.
Proof.
  intros Htr. induction j as [|j IH]; intros k self Hk Hinv.
  - exists self. rewrite Nat.add_0_r. split; [reflexivity | exact Hinv].
  - destruct Hinv as [Hpar [Hstress [Hev [Hpos He]]]].
    assert (HkR : INR k <= 999).
    { replace 999 with (INR 999) by (rewrite INR_IZR_INZ; reflexivity).
      apply le_INR. lia. }
    assert (Hec : -1 / 2 <= 0.75 - trace (Li2002.strain self) * (1 + 0.75) <= 3 / 4)
      by lra.
    destruct (@isotropic_compression_step_spec self 0.75 _ dstress Hpar He Hec Htr)
      as [self1 [dstrain [Hstep [Hd [Hpar1 [Hstress1 [Hstrain1 He1]]]]]]].
    destruct (IH (S k) self1) as [self' [Hloop Hinv']]; [lia| |].
    + unfold compression_invariant. rewrite Hstrain1 in *. rewrite trace_madd in *.
      rewrite S_INR.
      repeat split; try lra.
      * congruence.
      * rewrite Hstress1, Hstress, <- S_INR. apply mscale_succ.
      * exact He1.
    + exists self'. split.
      * cbn [Li2002.isotropic_compression_loop]. rewrite Hstep. exact Hloop.
      * replace (k + S j)%nat with (S k + j)%nat by lia. exact Hinv'.
Qed.

Lemma isotropic_compression_run :
  exists self' : Li2002.t,
    Li2002.isotropic_compression Li2002.default 0.75 20000 1000 = Ok self'
    /\ Li2002.par self' = Li2002.par Li2002.default
    /\ Li2002.stress self' = compressed_stress
    /\ Li2002.strain self' = zeros33
    /\ (exists e', Li2002.e self' = Some e' /\ e' < 0.75).
Proof.
  unfold Li2002.isotropic_compression.
  change (Z.eqb 1000 0) with false. cbv iota.
  change (Z.to_nat 1000) with 1000%nat.
  assert (HN : INR 1000 = 1000) by (rewrite INR_IZR_INZ; reflexivity).
  cbn [Li2002.vector_to_matrix bind].
  set (dstress := Arr3 _ _ _).
  assert (Htr : trace dstress = 80) by (unfold dstress; mat_compute; simpl; lra).
  destruct (@isotropic_compression_loop_spec dstress Htr 1000 0
              (Li2002.set_e 0.75 Li2002.default)) as [self1 [Hloop Hinv]]; [lia| |].
  - unfold compression_invariant. simpl. repeat split; try (mat_compute; lra).
    + mat_compute. arr_eq; ring.
    + intros H. lia.
    + f_equal. mat_compute. lra.
  - rewrite Hloop. unfold bind.
    destruct Hinv as [Hpar [Hstress [Hev [Hpos He]]]].
    exists (Li2002.clear_strain self1).
    split; [reflexivity|]. split; [exact Hpar|]. split; [|split; [reflexivity|]].
    + cbn [Li2002.clear_strain Li2002.set_strain Li2002.stress].
      rewrite Hstress. change (0 + 1000)%nat with 1000%nat. rewrite HN.
      unfold dstress, compressed_stress. mat_compute. simpl. arr_eq; lra.
    + eexists. split; [exact He|].
      assert (0 < trace (Li2002.strain self1)) by (apply Hpos; lia). lra.
Qed.

(** C1 (amended).  [Li2002().isotropic_compression(e0=0.75,
    compression_stress=20000, nstep=1000)] returns; it leaves a void ratio
    [self.e] strictly below [e0], the stress [diag(20000, 40000, 20000)],
    and so the mean stress [p = 80000/3] (about 26666.7), computed from
    [self.stress] by [set_stress_variable]. *)
Theorem isotropic_compression_example :
  exists self' : Li2002.t,
    Li2002.isotropic_compression Li2002.default 0.75 20000 1000 = Ok self'
    /\ (exists e', Li2002.e self' = Some e' /\ e' < 0.75)
    /\ Li2002.stress self' = compressed_stress
    /\ fst (Li2002.set_stress_variable self' (Li2002.stress self')) = 80000 / 3.
Proof.
  destruct isotropic_compression_run as [self' [Hrun [_ [Hstress [_ He]]]]].
  exists self'. repeat split; try assumption.
  rewrite Hstress. unfold Li2002.set_stress_variable, compressed_stress.
  cbn [fst]. mat_compute. lra.
Qed.

(** C1 as stated fails: the run does not end with a mean stress within
    6666 of 20000. *)
Lemma isotropic_compression_mean_stress_off :
  ~ exists self' : Li2002.t,
      Li2002.isotropic_compression Li2002.default 0.75 20000 1000 = Ok self'
      /\ Rabs (fst (Li2002.set_stress_variable self' (Li2002.stress self')) - 20000)
         <= 6666.
Proof.
  intros [self' [Hrun Hp]].
  destruct isotropic_compression_run as [self1 [Hrun1 [_ [Hstress _]]]].
  rewrite Hrun in Hrun1. injection Hrun1 as <-.
  rewrite Hstress in Hp.
  replace (fst (Li2002.set_stress_variable self' compressed_stress)) with (80000 / 3)
    in Hp
    by (unfold Li2002.set_stress_variable, compressed_stress; cbn [fst];
        mat_compute; lra).
  rewrite Rabs_right in Hp; lra.
Qed.

(** ** C2: the triaxial-compression driver *)

Lemma int_range_positive (x : R) : 1 <= x -> exists k, Li2002.int_range x = S k.
Proof.
  intros Hx. unfold Li2002.int_range.
  destruct (base_Int_part x) as [_ Hlow].
  assert (Hz : (1 <= Int_part x)%Z).
  { apply Z.lt_pred_le. apply lt_IZR. simpl. lra. }
  exists (Z.to_nat (Int_part x - 1)). lia.
Qed.

(** The first pass of the loop raises, whatever state it starts from. *)
Lemma triaxial_compression_step_raises
    (dstrain_input dstress_input : mat3) (deformation : mat bool)
    (state : Li2002.t * (list R * list R * list R)) :
  Li2002.triaxial_compression_step dstrain_input dstress_input deformation state
  = Raise TypeError.
Proof.
  destruct state as [self [[gamma_list R_list] ev_list]].
  unfold Li2002.triaxial_compression_step.
  destruct (Li2002.set_stress_variable self (Li2002.stress self)). reflexivity.
Qed.

(** C2 (the code at the example input).  [Li2002().triaxial_compression(
    e0=0.75, compression_stress=20000)] with the default step sizes
    [de=0.0001], [emax=0.20] finishes the isotropic consolidation and then
    raises [TypeError] in the first pass of its integration loop: no value
    of [R] is ever recorded. *)
Theorem triaxial_compression_raises :
  Li2002.triaxial_compression Li2002.default 0.75 20000 0.0001 0.20
  = Raise TypeError.
Proof.
  unfold Li2002.triaxial_compression.
  destruct isotropic_compression_run as [self' [Hrun _]].
  rewrite Hrun. unfold bind at 1.
  destruct (Li2002.set_stress_variable _ _) as [p R'].
  rewrite (@Reqb_false 0.0001 0) by lra.
  cbn [Li2002.vector_to_matrix bind].
  destruct (@int_range_positive (0.20 / 0.0001)) as [k Hk]; [lra|].
  rewrite Hk. cbn [Li2002.repeat_steps].
  rewrite triaxial_compression_step_raises. reflexivity.
Qed.

(** ** What the evaluation methods leave unchanged *)

Lemma same_core_refl (sp : StateParameters.t) : same_core sp sp.
Proof. repeat split. Qed.

Lemma same_core_trans (sp1 sp2 sp3 : StateParameters.t) :
  same_core sp1 sp2 -> same_core sp2 sp3 -> same_core sp1 sp3.
Proof. unfold same_core. intuition congruence. Qed.

Lemma same_driver_state_trans (s1 s2 s3 : Li2002.t) :
  same_driver_state s1 s2 -> same_driver_state s2 s3 -> same_driver_state s1 s3.
Proof. unfold same_driver_state. intuition congruence. Qed.

(** Reading attributes through the assignments made so far. *)
Ltac sp_simpl :=
  cbn [bind fst snd negb orb andb
       StateParameters.strain StateParameters.stress StateParameters.dstress
       StateParameters.dstrain StateParameters.pmin StateParameters.p
       StateParameters.sij StateParameters.rij StateParameters.R_
       StateParameters.dp StateParameters.elastic_flag1
       StateParameters.elastic_flag2 StateParameters.nums StateParameters.mats
       StateParameters.Ep
       StateParameters.set_elastic_flag1 StateParameters.set_elastic_flag2
       StateParameters.set_num StateParameters.set_mat StateParameters.set_Ep
       StateParameters.num StateParameters.matr
       getattr setattr lookup String.eqb Ascii.eqb Bool.eqb
       Li2002.par Li2002.stress Li2002.strain Li2002.alpha Li2002.beta
       Li2002.H1 Li2002.H2 Li2002.L1 Li2002.e Li2002.e0
       Li2002.set_stress Li2002.set_strain Li2002.set_alpha Li2002.set_beta
       Li2002.set_H1 Li2002.set_H2 Li2002.set_L1 Li2002.set_e Li2002.set_e0].

Ltac sp_simpl_in H :=
  cbn [bind fst snd negb orb andb
       StateParameters.strain StateParameters.stress StateParameters.dstress
       StateParameters.dstrain StateParameters.pmin StateParameters.p
       StateParameters.sij StateParameters.rij StateParameters.R_
       StateParameters.dp StateParameters.elastic_flag1
       StateParameters.elastic_flag2 StateParameters.nums StateParameters.mats
       StateParameters.Ep
       StateParameters.set_elastic_flag1 StateParameters.set_elastic_flag2
       StateParameters.set_num StateParameters.set_mat StateParameters.set_Ep
       StateParameters.num StateParameters.matr
       getattr setattr lookup String.eqb Ascii.eqb Bool.eqb
       Li2002.par Li2002.stress Li2002.strain Li2002.alpha Li2002.beta
       Li2002.H1 Li2002.H2 Li2002.L1 Li2002.e Li2002.e0
       Li2002.set_stress Li2002.set_strain Li2002.set_alpha Li2002.set_beta
       Li2002.set_H1 Li2002.set_H2 Li2002.set_L1 Li2002.set_e Li2002.set_e0] in H.

(** Case analysis of a computation of type [res] that is known to return:
    every [bind], conditional and pattern at the head is split, and the
    branches that raise are closed. *)
Ltac crunch H :=
  cbv beta iota zeta in H;
  lazymatch type of H with
  | Ok _ = Ok _ => injection H; clear H; intros; subst
  | Raise _ = Ok _ => discriminate H
  | bind ?c _ = Ok _ =>
      let E := fresh "E" in
      destruct c eqn:E; cbn [bind] in H; [crunch E; crunch H | discriminate H]
  | (if ?b then _ else _) = Ok _ =>
      let B := fresh "B" in destruct b eqn:B; crunch H
  | (let '(_, _) := ?x in _) = Ok _ =>
      let P := fresh "P" in destruct x eqn:P; crunch H
  | match ?x with Some _ => _ | None => _ end = Ok _ =>
      let O := fresh "O" in destruct x eqn:O; crunch H
  | _ => idtac
  end.

Section Frames.
Variable brentq : (R -> R) -> R -> R -> res R.

Lemma recentred_alpha (self : Li2002.t) (sp : StateParameters.t) :
  Li2002.alpha (recentred self sp)
  = if StateParameters.elastic_flag1 sp then StateParameters.rij sp
    else Li2002.alpha self.
Proof.
  unfold recentred.
  destruct (StateParameters.elastic_flag1 sp), (StateParameters.elastic_flag2 sp);
    reflexivity.
Qed.

Lemma recentred_beta (self : Li2002.t) (sp : StateParameters.t) :
  Li2002.beta (recentred self sp)
  = if StateParameters.elastic_flag2 sp then StateParameters.p sp
    else Li2002.beta self.
Proof.
  unfold recentred.
  destruct (StateParameters.elastic_flag1 sp), (StateParameters.elastic_flag2 sp);
    reflexivity.
Qed.

Lemma recentred_rest (self : Li2002.t) (sp : StateParameters.t) :
  same_driver_state self (recentred self sp)
  /\ Li2002.H1 (recentred self sp) = Li2002.H1 self
  /\ Li2002.H2 (recentred self sp) = Li2002.H2 self
  /\ Li2002.L1 (recentred self sp) = Li2002.L1 self.
Proof.
  unfold recentred, same_driver_state.
  destruct (StateParameters.elastic_flag1 sp), (StateParameters.elastic_flag2 sp);
    repeat split.
Qed.

Lemma set_mapping_stress_frame (self self' : Li2002.t) (sp sp' : StateParameters.t) :
  Li2002.set_mapping_stress brentq self sp = Ok (self', sp') ->
  Li2002.alpha self' = Li2002.alpha (recentred self sp)
  /\ Li2002.beta self' = Li2002.beta (recentred self sp)
  /\ Li2002.L1 self' = Li2002.L1 self
  /\ Li2002.H2 self <= Li2002.H2 self'
  /\ same_driver_state self self'
  /\ same_core sp sp'.
Proof.
  intros H. unfold Li2002.set_mapping_stress in H.
  fold (recentred self sp) in H.
  destruct (recentred_rest self sp) as [[Hp [Hs [Hn [He He0]]]] [_ [HH2 HL1]]].
  set (s := recentred self sp) in *. clearbody s.
  crunch H;
    repeat match goal with
           | |- context [if Rltb ?a ?b then _ else _] =>
               let B := fresh "B" in destruct (Rltb a b) eqn:B
           | B : Rltb _ _ = true |- _ => apply Rltb_spec in B
           end;
    unfold same_driver_state, same_core; sp_simpl;
    repeat split; try assumption; try lra.
Qed.

Lemma set_parameters_frame (self : Li2002.t) (sp sp' : StateParameters.t) :
  Li2002.set_parameters self sp = Ok sp' ->
  same_core sp sp'
  /\ StateParameters.elastic_flag1 sp' = StateParameters.elastic_flag1 sp
  /\ StateParameters.elastic_flag2 sp' = StateParameters.elastic_flag2 sp.
Proof.
  intros H. unfold Li2002.set_parameters in H.
  crunch H; repeat split.
Qed.

Lemma set_parameter_nm_frame (self : Li2002.t) (sp sp' : StateParameters.t) :
  Li2002.set_parameter_nm self sp = Ok sp' ->
  same_core sp sp'
  /\ StateParameters.elastic_flag1 sp' = StateParameters.elastic_flag1 sp
  /\ StateParameters.elastic_flag2 sp' = StateParameters.elastic_flag2 sp.
Proof.
  intros H. unfold Li2002.set_parameter_nm in H.
  crunch H; repeat split.
Qed.

Lemma set_parameter_TZ_frame (self : Li2002.t) (sp sp' : StateParameters.t) :
  Li2002.set_parameter_TZ self sp = Ok sp' ->
  same_core sp sp'
  /\ StateParameters.elastic_flag1 sp' = StateParameters.elastic_flag1 sp
  /\ StateParameters.elastic_flag2 sp' = StateParameters.elastic_flag2 sp.
Proof.
  intros H. unfold Li2002.set_parameter_TZ in H.
  crunch H; repeat split.
Qed.

(** The evaluation writes [alpha] and [beta] only through the two
    assignments that open [set_mapping_stress], never writes [L1] and never
    lowers [H2]. *)
Lemma evaluate_frame (self self' : Li2002.t) (sp sp' : StateParameters.t) :
  Li2002.evaluate brentq self sp = Ok (self', sp') ->
  Li2002.alpha self' = Li2002.alpha (recentred self sp)
  /\ Li2002.beta self' = Li2002.beta (recentred self sp)
  /\ Li2002.L1 self' = Li2002.L1 self
  /\ Li2002.H2 self <= Li2002.H2 self'
  /\ same_driver_state self self'
  /\ same_core sp sp'.
Proof.
  intros H. unfold Li2002.evaluate in H.
  destruct (Li2002.set_mapping_stress brentq self sp) as [[self1 sp1]|] eqn:E1;
    [|discriminate H].
  cbn [bind] in H.
  destruct (Li2002.set_parameters self1 sp1) as [sp2|] eqn:E2; [|discriminate H].
  cbn [bind] in H.
  destruct (Li2002.set_parameter_nm self1 sp2) as [sp3|] eqn:E3; [|discriminate H].
  cbn [bind] in H.
  destruct (Li2002.set_parameter_TZ self1 sp3) as [sp4|] eqn:E4; [|discriminate H].
  cbn [bind] in H. injection H as <- <-.
  destruct (@set_mapping_stress_frame _ _ _ _ E1) as [Ha [Hb [HL [HH [Hd Hc1]]]]].
  destruct (@set_parameters_frame _ _ _ E2) as [Hc2 _].
  destruct (@set_parameter_nm_frame _ _ _ E3) as [Hc3 _].
  destruct (@set_parameter_TZ_frame _ _ _ E4) as [Hc4 _].
  repeat split; try assumption; try apply Hd.
  all: unfold same_core in *; intuition congruence.
Qed.
End Frames.

(** ** C5: the unload check of mechanism 1 *)

Section Unload.

Variable brentq : (R -> R) -> R -> R -> res R.

(** What [check_unload] returns, in terms of the evaluated snapshot. *)
Lemma check_unload_inv
    (self self' : Li2002.t) (sp sp' : StateParameters.t) (ef1 ef2 : bool) :
  Li2002.check_unload brentq self sp = Ok (self', sp', (ef1, ef2)) ->
  exists (self1 : Li2002.t) (Tij Zij : mat3),
    Li2002.evaluate brentq self sp = Ok (self1, sp')
    /\ StateParameters.matr "Tij" sp' = Ok Tij
    /\ StateParameters.matr "Zij" sp' = Ok Zij
    /\ ef1 = Rltb (ddot Tij (StateParameters.dstrain sp')) 0.0
    /\ ef2 = Rltb (ddot Zij (StateParameters.dstrain sp')) 0.0
    /\ self' =
       (let s := if ef1 then Li2002.set_alpha (StateParameters.rij sp') self1
                 else self1 in
        if ef2 then Li2002.set_beta (StateParameters.p sp') s else s).
Proof.
  intros H. unfold Li2002.check_unload in H.
  destruct (Li2002.evaluate brentq self sp) as [[self1 sp1]|] eqn:E; [|discriminate H].
  cbn [bind] in H.
  destruct (StateParameters.matr "Tij" sp1) as [Tij|] eqn:ET; [|discriminate H].
  cbn [bind] in H.
  destruct (Rltb (ddot Tij (StateParameters.dstrain sp1)) 0.0) eqn:B1;
    destruct (StateParameters.matr "Zij" sp1) as [Zij|] eqn:EZ; try discriminate H;
    cbn [bind] in H;
    destruct (Rltb (ddot Zij (StateParameters.dstrain sp1)) 0.0) eqn:B2;
    injection H as <- <- <- <-;
    exists self1, Tij, Zij; rewrite ?B1, ?B2; repeat split; assumption.
Qed.

(** C5.  For a snapshot that enters [check_unload] with
    [elastic_flag1 = False] (every snapshot that reaches [check_unload] is
    built by [cyclic_shear_test] with the default flags) and a call that
    returns: if the projected loading index [Tij:dstrain] is
    negative, the call returns [elastic_flag1 = True] and leaves [alpha]
    equal to the snapshot's [rij]; if it is non-negative, the call returns
    [elastic_flag1 = False] and leaves [alpha] as it was. *)
Theorem check_unload_mechanism1
    (self self' : Li2002.t) (sp sp' : StateParameters.t) (ef1 ef2 : bool) :
  StateParameters.elastic_flag1 sp = false ->
  Li2002.check_unload brentq self sp = Ok (self', sp', (ef1, ef2)) ->
  exists Tij : mat3,
    StateParameters.matr "Tij" sp' = Ok Tij
    /\ (ddot Tij (StateParameters.dstrain sp) < 0 ->
        ef1 = true /\ Li2002.alpha self' = StateParameters.rij sp)
    /\ (0 <= ddot Tij (StateParameters.dstrain sp) ->
        ef1 = false /\ Li2002.alpha self' = Li2002.alpha self).
Proof.
  intros Hflag H.
  destruct (@check_unload_inv _ _ _ _ _ _ H) as [self1 [Tij [Zij [E [ET [EZ [H1 [H2 Hs]]]]]]]].
  destruct (@evaluate_frame _ _ _ _ _ E) as [Ha [_ [_ [_ [_ Hc]]]]].
  rewrite recentred_alpha, Hflag in Ha.
  destruct Hc as [_ [_ [_ [Hds [_ [_ [_ [Hr _]]]]]]]].
  rewrite Hds, Hr in *.
  exists Tij. split; [exact ET|].
  replace 0.0 with 0 in H1 by lra.
  split; intros Hd.
  - rewrite (@Rltb_true _ _ Hd) in H1. subst ef1 self'. split; [reflexivity|].
    cbv zeta. destruct ef2; reflexivity.
  - rewrite (@Rltb_false _ _ Hd) in H1. subst ef1 self'. split; [reflexivity|].
    cbv zeta. destruct ef2; exact Ha.
Qed.

Lemma ddot_zeros_l (d : mat3) : ddot zeros33 d = 0.
Proof. destruct d as [[? ? ?] [? ? ?] [? ? ?]]. mat_compute. ring. Qed.

Lemma norm_msub_self (a : mat3) : norm (msub a a) = 0.
Proof.
  destruct a as [[? ? ?] [? ? ?] [? ? ?]]. mat_compute.
  rewrite <- sqrt_0. f_equal. ring.
Qed.

(** The evaluation when both mechanisms are found elastic: nothing is
    asked of the root finder, and both flow tensors are zero. *)

Lemma set_mapping_stress_elastic (self : Li2002.t) (sp : StateParameters.t) :
  norm (msub (StateParameters.rij sp) (Li2002.alpha (recentred self sp))) < 1e-6 ->
  Rabs (StateParameters.p sp - Li2002.beta (recentred self sp)) = 0 ->
  Li2002.set_mapping_stress brentq self sp
  = Ok (recentred self sp,
        StateParameters.set_elastic_flag2 true
          (StateParameters.set_elastic_flag1 true sp)).
Proof.
  intros H1 H2.
  unfold Li2002.set_mapping_stress.
  fold (recentred self sp).
  rewrite (@Rltb_true _ _ H1). cbn [bind].
  change (StateParameters.p (StateParameters.set_elastic_flag1 true sp))
    with (StateParameters.p sp).
  rewrite (@Reqb_true _ 0.0) by lra. reflexivity.
Qed.

Lemma set_parameters_elastic (self : Li2002.t) (sp : StateParameters.t) (ec : R) :
  Li2002.e self = Some ec ->
  StateParameters.elastic_flag1 sp = true ->
  StateParameters.elastic_flag2 sp = true ->
  Li2002.set_parameters self sp = Ok (elastic_parameters self ec sp).
Proof.
  intros He H1 H2.
  unfold Li2002.set_parameters, Li2002.get_e, elastic_parameters. rewrite He.
  cbn [bind].
  destruct (Li2002.elastic_modulus self ec (StateParameters.p sp)) as [Ge Ke].
  sp_simpl. rewrite H1. cbn [bind]. sp_simpl. rewrite H2. reflexivity.
Qed.

Lemma set_parameter_nm_elastic (self : Li2002.t) (sp : StateParameters.t) :
  StateParameters.elastic_flag1 sp = true ->
  exists mij : mat3,
    Li2002.set_parameter_nm self sp = Ok (StateParameters.set_mat "mij" mij sp).
Proof.
  intros H1. unfold Li2002.set_parameter_nm. rewrite H1. cbn [negb bind].
  destruct (Reqb (norm (StateParameters.rij sp)) 0.0); eexists; reflexivity.
Qed.

Lemma set_parameter_TZ_elastic (self : Li2002.t) (sp : StateParameters.t) :
  StateParameters.elastic_flag1 sp = true ->
  StateParameters.elastic_flag2 sp = true ->
  Li2002.set_parameter_TZ self sp
  = Ok (StateParameters.set_mat "Zij" zeros33
          (StateParameters.set_mat "Tij" zeros33
             (StateParameters.set_num "B" 0.0 sp))).
Proof.
  intros H1 H2. unfold Li2002.set_parameter_TZ. rewrite H1. cbn [orb bind].
  sp_simpl. rewrite H1. cbn [bind]. sp_simpl. rewrite H2. reflexivity.
Qed.

Lemma elastic_parameters_frame (self : Li2002.t) (ec : R) (sp : StateParameters.t) :
  same_core sp (elastic_parameters self ec sp)
  /\ StateParameters.elastic_flag1 (elastic_parameters self ec sp)
     = StateParameters.elastic_flag1 sp
  /\ StateParameters.elastic_flag2 (elastic_parameters self ec sp)
     = StateParameters.elastic_flag2 sp
  /\ StateParameters.num "Ge" (elastic_parameters self ec sp)
     = Ok (fst (Li2002.elastic_modulus self ec (StateParameters.p sp))).
Proof.
  unfold elastic_parameters.
  destruct (Li2002.elastic_modulus self ec (StateParameters.p sp)) as [Ge Ke].
  repeat split.
Qed.

(** The evaluation when both mechanisms are found elastic: nothing is
    asked of the root finder, and both flow tensors are zero. *)
Lemma evaluate_elastic (self : Li2002.t) (sp : StateParameters.t) (ec : R) :
  Li2002.e self = Some ec ->
  norm (msub (StateParameters.rij sp) (Li2002.alpha (recentred self sp))) < 1e-6 ->
  Rabs (StateParameters.p sp - Li2002.beta (recentred self sp)) = 0 ->
  exists sp' : StateParameters.t,
    Li2002.evaluate brentq self sp = Ok (recentred self sp, sp')
    /\ same_core sp sp'
    /\ StateParameters.elastic_flag1 sp' = true
    /\ StateParameters.elastic_flag2 sp' = true
    /\ StateParameters.matr "Tij" sp' = Ok zeros33
    /\ StateParameters.matr "Zij" sp' = Ok zeros33
    /\ StateParameters.num "Ge" sp'
       = Ok (fst (Li2002.elastic_modulus (recentred self sp) ec (StateParameters.p sp))).
Proof.
  intros He H1 H2.
  assert (He' : Li2002.e (recentred self sp) = Some ec).
  { destruct (recentred_rest self sp) as [[_ [_ [_ [-> _]]]] _]. exact He. }
  pose proof (@set_mapping_stress_elastic self sp H1 H2) as Hmap.
  remember (StateParameters.set_elastic_flag2 true
              (StateParameters.set_elastic_flag1 true sp)) as sp1 eqn:Hsp1.
  assert (Hc1 : same_core sp sp1) by (subst sp1; repeat split).
  assert (Hf11 : StateParameters.elastic_flag1 sp1 = true) by (subst sp1; reflexivity).
  assert (Hf21 : StateParameters.elastic_flag2 sp1 = true) by (subst sp1; reflexivity).
  clear Hsp1.
  pose proof (@set_parameters_elastic (recentred self sp) sp1 ec He' Hf11 Hf21) as Hpar.
  destruct (@elastic_parameters_frame (recentred self sp) ec sp1)
    as [Hc2 [Hf12 [Hf22 HGe]]].
  remember (elastic_parameters (recentred self sp) ec sp1) as sp2 eqn:Hsp2.
  clear Hsp2. rewrite Hf11 in Hf12. rewrite Hf21 in Hf22.
  destruct (@set_parameter_nm_elastic (recentred self sp) sp2 Hf12) as [mij Hnm].
  remember (StateParameters.set_mat "mij" mij sp2) as sp3 eqn:Hsp3.
  assert (Hc3 : same_core sp2 sp3) by (subst sp3; repeat split).
  assert (Hf13 : StateParameters.elastic_flag1 sp3 = true) by (subst sp3; exact Hf12).
  assert (Hf23 : StateParameters.elastic_flag2 sp3 = true) by (subst sp3; exact Hf22).
  assert (HGe3 : StateParameters.num "Ge" sp3 = StateParameters.num "Ge" sp2)
    by (subst sp3; reflexivity).
  clear Hsp3.
  pose proof (@set_parameter_TZ_elastic (recentred self sp) sp3 Hf13 Hf23) as HTZ.
  exists (StateParameters.set_mat "Zij" zeros33
            (StateParameters.set_mat "Tij" zeros33
               (StateParameters.set_num "B" 0.0 sp3))).
  split.
  { unfold Li2002.evaluate. rewrite Hmap. cbn [bind]. rewrite Hpar. cbn [bind].
    rewrite Hnm. cbn [bind]. rewrite HTZ. reflexivity. }
  split.
  { apply same_core_trans with sp3; [|repeat split].
    apply same_core_trans with sp2; [|exact Hc3].
    apply same_core_trans with sp1; assumption. }
  split; [exact Hf13|]. split; [exact Hf23|].
  split; [reflexivity|]. split; [reflexivity|].
  destruct Hc1 as [_ [_ [_ [_ [_ [Hp _]]]]]].
  rewrite <- Hp, <- HGe, <- HGe3. reflexivity.
Qed.

Lemma check_unload_elastic (self : Li2002.t) (sp : StateParameters.t) (ec : R) :
  Li2002.e self = Some ec ->
  norm (msub (StateParameters.rij sp) (Li2002.alpha (recentred self sp))) < 1e-6 ->
  Rabs (StateParameters.p sp - Li2002.beta (recentred self sp)) = 0 ->
  exists sp' : StateParameters.t,
    Li2002.check_unload brentq self sp = Ok (recentred self sp, sp', (false, false))
    /\ StateParameters.matr "Tij" sp' = Ok zeros33.
Proof.
  intros He H1 H2.
  destruct (@evaluate_elastic self sp ec He H1 H2)
    as [sp' [E [_ [_ [_ [HT [HZ _]]]]]]].
  exists sp'. split; [|exact HT].
  unfold Li2002.check_unload. rewrite E. cbn [bind]. rewrite HT. cbn [bind].
  rewrite HZ. cbn [bind]. rewrite !ddot_zeros_l.
  rewrite (@Rltb_false 0 0.0) by lra. reflexivity.
Qed.
End Unload.

(** The snapshots of the examples, computed. *)
Lemma snapshot_at_rest_rij : StateParameters.rij snapshot_at_rest = zeros33.
Proof.
  unfold snapshot_at_rest, StateParameters.init, StateParameters.set_stress_increment,
    StateParameters.set_stress_variable.
  sp_simpl. mat_compute. unfold Rdiv. arr_eq; ring.
Qed.

Lemma snapshot_at_rest_p : StateParameters.p snapshot_at_rest = 0.
Proof.
  unfold snapshot_at_rest, StateParameters.init, StateParameters.set_stress_increment,
    StateParameters.set_stress_variable.
  sp_simpl. mat_compute. lra.
Qed.

Lemma flagged_snapshot_p : StateParameters.p flagged_snapshot = 100.
Proof.
  unfold flagged_snapshot, StateParameters.init, StateParameters.set_stress_increment,
    StateParameters.set_stress_variable.
  sp_simpl. unfold sheared_stress. mat_compute. lra.
Qed.

Lemma flagged_snapshot_rij :
  (StateParameters.rij flagged_snapshot).[I0,I0] = 1.
Proof.
  unfold flagged_snapshot, StateParameters.init, StateParameters.set_stress_increment,
    StateParameters.set_stress_variable.
  sp_simpl. unfold sheared_stress. mat_compute.
  replace ((200 + 100 + 0) / 3) with 100 by lra.
  unfold py_max. rewrite (@Rltb_false 100 1.0) by lra. lra.
Qed.

(** ** C6: what a step writes to the persistent state *)

Section Steps.

Variable brentq : (R -> R) -> R -> R -> res R.

Lemma recentred_unflagged (self : Li2002.t) (sp : StateParameters.t) :
  StateParameters.elastic_flag1 sp = false ->
  StateParameters.elastic_flag2 sp = false ->
  recentred self sp = self.
Proof. intros H1 H2. unfold recentred. rewrite H1, H2. reflexivity. Qed.

Lemma set_tensor_Ep_frame (self : Li2002.t) (sp sp' : StateParameters.t) :
  Li2002.set_tensor_Ep self sp = Ok sp' -> same_core sp sp'.
Proof.
  intros H. unfold Li2002.set_tensor_Ep in H.
  crunch H; repeat split.
Qed.

Lemma plastic_stiffness_frame
    (self self' : Li2002.t) (sp sp' : StateParameters.t) (Ep : ten4) :
  Li2002.plastic_stiffness brentq self sp = Ok (self', sp', Ep) ->
  Li2002.alpha self' = Li2002.alpha (recentred self sp)
  /\ Li2002.beta self' = Li2002.beta (recentred self sp)
  /\ Li2002.L1 self' = Li2002.L1 self
  /\ Li2002.H2 self <= Li2002.H2 self'
  /\ same_driver_state self self'.
Proof.
  intros H. unfold Li2002.plastic_stiffness in H.
  destruct (Li2002.evaluate brentq self sp) as [[self1 sp1]|] eqn:E; [|discriminate H].
  cbn [bind] in H.
  destruct (Li2002.set_tensor_Ep self1 sp1) as [sp2|]; [|discriminate H].
  cbn [bind] in H.
  destruct (StateParameters.Ep sp2); [|discriminate H].
  injection H as <- <- <-.
  pose proof E as HX; apply evaluate_frame in HX; destruct HX as [Ha [Hb [HL [HH [Hd _]]]]].
  repeat split; try assumption; apply Hd.
Qed.

(** What [update_parameters] does after the evaluation. *)
Lemma update_parameters_inv (self self' : Li2002.t) (sp sp' : StateParameters.t) :
  Li2002.update_parameters brentq self sp = Ok (self', sp') ->
  exists (self1 : Li2002.t) (Tij Zij : mat3),
    Li2002.evaluate brentq self sp = Ok (self1, sp')
    /\ StateParameters.matr "Tij" sp' = Ok Tij
    /\ StateParameters.matr "Zij" sp' = Ok Zij
    /\ Li2002.alpha self' = Li2002.alpha self1
    /\ Li2002.beta self' = Li2002.beta self1
    /\ same_driver_state self1 self'
    /\ Li2002.L1 self'
       = (if StateParameters.elastic_flag1 sp' then Li2002.L1 self1
          else Li2002.L1 self1 + ddot Tij (StateParameters.dstrain sp'))
    /\ (if StateParameters.elastic_flag1 sp' then Li2002.H1 self' = Li2002.H1 self1
        else exists Kp1_b : R,
            StateParameters.num "Kp1_b" sp' = Ok Kp1_b
            /\ Li2002.H1 self'
               = Li2002.H1 self1
                 + Kp1_b * ddot Tij (StateParameters.dstrain sp') / StateParameters.p sp')
    /\ (if StateParameters.elastic_flag2 sp' then Li2002.H2 self' = Li2002.H2 self1
        else exists Kp2_b : R,
            StateParameters.num "Kp2_b" sp' = Ok Kp2_b
            /\ Li2002.H2 self'
               = Li2002.H2 self1 + Kp2_b * ddot Zij (StateParameters.dstrain sp')).
Proof.
  intros H. unfold Li2002.update_parameters in H.
  destruct (Li2002.evaluate brentq self sp) as [[self1 sp1]|] eqn:E; [|discriminate H].
  cbn [bind] in H.
  destruct (StateParameters.matr "Tij" sp1) as [Tij|] eqn:ET; [|discriminate H].
  cbn [bind] in H.
  destruct (StateParameters.matr "Zij" sp1) as [Zij|] eqn:EZ; [|discriminate H].
  cbn [bind] in H.
  exists self1, Tij, Zij.
  destruct (StateParameters.elastic_flag1 sp1) eqn:F1;
    destruct (StateParameters.elastic_flag2 sp1) eqn:F2;
    cbn [negb bind] in H;
    repeat match type of H with
           | context [StateParameters.num ?k sp1] =>
               let K := fresh "K" in
               destruct (StateParameters.num k sp1) eqn:K; [|discriminate H];
               cbn [bind] in H
           end;
    injection H as <- <-; rewrite ?F1, ?F2;
    unfold same_driver_state; sp_simpl;
    repeat split; try assumption; eauto.
Qed.

(** C6.  In a step of the engine ([plastic_deformation]) on a snapshot
    that enters with both flags [False], as the drivers build it: the
    mapping centre [alpha] is written only when the unload check of that
    step finds mechanism 1 unloading ([Tij:dstrain < 0], [ef1]), and then
    holds the current deviatoric ratio [rij]; [beta] is written only when
    the check finds mechanism 2 unloading ([Zij:dstrain < 0], [ef2]), and
    then holds the current mean stress [p].  In every other step the
    evaluations and the update leave both as they were. *)
Theorem mapping_centers_move_only_on_unload
    (self self' : Li2002.t) (dstrain_given dstress_given : mat3)
    (deformation : mat bool) (sp0 : StateParameters.t)
    (out : mat3 * mat3 * StateParameters.t) :
  StateParameters.elastic_flag1 sp0 = false ->
  StateParameters.elastic_flag2 sp0 = false ->
  Li2002.plastic_deformation brentq self dstrain_given dstress_given deformation sp0
    = Ok (self', out) ->
  exists (self1 : Li2002.t) (sp1 : StateParameters.t) (Tij Zij : mat3) (ef1 ef2 : bool),
    Li2002.check_unload brentq self sp0 = Ok (self1, sp1, (ef1, ef2))
    /\ StateParameters.matr "Tij" sp1 = Ok Tij
    /\ StateParameters.matr "Zij" sp1 = Ok Zij
    /\ ef1 = Rltb (ddot Tij (StateParameters.dstrain sp0)) 0
    /\ ef2 = Rltb (ddot Zij (StateParameters.dstrain sp0)) 0
    /\ Li2002.alpha self'
       = (if ef1
          then StateParameters.rij
                 (StateParameters.init (Li2002.strain self) (Li2002.stress self)
                    dstrain_given dstress_given ef1 ef2)
          else Li2002.alpha self)
    /\ Li2002.beta self'
       = (if ef2
          then StateParameters.p
                 (StateParameters.init (Li2002.strain self) (Li2002.stress self)
                    dstrain_given dstress_given ef1 ef2)
          else Li2002.beta self).
Proof.
  intros Hf1 Hf2 H. unfold Li2002.plastic_deformation in H.
  destruct (Li2002.check_unload brentq self sp0) as [[[self1 sp1] [ef1 ef2]]|] eqn:EC;
    [|discriminate H].
  cbn [bind] in H.
  pose proof EC as HX; apply check_unload_inv in HX; destruct HX
    as [selfe [Tij [Zij [EE [ET [EZ [H1 [H2 Hs]]]]]]]].
  pose proof EE as HX; apply evaluate_frame in HX; destruct HX as [Ha [Hb [_ [_ [Hd Hc]]]]].
  rewrite (@recentred_unflagged self sp0 Hf1 Hf2) in Ha, Hb.
  assert (Hd1 : same_driver_state self self1).
  { subst self1. cbv zeta. destruct ef1, ef2; exact Hd. }
  assert (Ha1 : Li2002.alpha self1
                = if ef1 then StateParameters.rij sp1 else Li2002.alpha self).
  { subst self1. cbv zeta. destruct ef1, ef2; sp_simpl; try reflexivity; exact Ha. }
  assert (Hb1 : Li2002.beta self1
                = if ef2 then StateParameters.p sp1 else Li2002.beta self).
  { subst self1. cbv zeta. destruct ef1, ef2; sp_simpl; try reflexivity; exact Hb. }
  clear Hs.
  destruct Hd1 as [_ [Hstress [Hstrain _]]]. rewrite Hstress, Hstrain in H.
  remember (StateParameters.init (Li2002.strain self) (Li2002.stress self)
              dstrain_given dstress_given ef1 ef2) as sp eqn:Hsp.
  assert (Hspf1 : StateParameters.elastic_flag1 sp = ef1) by (subst sp; reflexivity).
  assert (Hspf2 : StateParameters.elastic_flag2 sp = ef2) by (subst sp; reflexivity).
  destruct (Li2002.plastic_stiffness brentq self1 sp) as [[[self2 sp'] Ep]|] eqn:EP;
    [|discriminate H].
  cbn [bind] in H.
  pose proof EP as HX; apply plastic_stiffness_frame in HX; destruct HX as [Ha2 [Hb2 [_ [_ Hd2]]]].
  rewrite recentred_alpha, Hspf1 in Ha2. rewrite recentred_beta, Hspf2 in Hb2.
  destruct (Li2002.solve_strain_with_consttain dstrain_given dstress_given Ep deformation)
    as [[dstrain_ep dstress_ep]|]; [|discriminate H].
  cbn [bind] in H.
  remember (StateParameters.init (Li2002.strain self2) (Li2002.stress self2)
              dstrain_ep dstress_ep false false) as sp2 eqn:Hsp2.
  assert (Hs2f1 : StateParameters.elastic_flag1 sp2 = false) by (subst sp2; reflexivity).
  assert (Hs2f2 : StateParameters.elastic_flag2 sp2 = false) by (subst sp2; reflexivity).
  clear Hsp2.
  destruct (Li2002.update_parameters brentq self2 sp2) as [[self3 sp2']|] eqn:EU;
    [|discriminate H].
  cbn [bind] in H. injection H as <- _.
  pose proof EU as HX; apply update_parameters_inv in HX; destruct HX
    as [selfu [_ [_ [EE2 [_ [_ [Ha3 [Hb3 _]]]]]]]].
  pose proof EE2 as HX; apply evaluate_frame in HX; destruct HX as [Ha4 [Hb4 _]].
  rewrite (@recentred_unflagged self2 sp2 Hs2f1 Hs2f2) in Ha4, Hb4.
  destruct Hc as [_ [_ [_ [Hds _]]]].
  exists self1, sp1, Tij, Zij, ef1, ef2.
  replace 0.0 with 0 in H1, H2 by lra. rewrite Hds in H1, H2.
  split; [reflexivity|]. split; [exact ET|]. split; [exact EZ|].
  split; [exact H1|]. split; [exact H2|].
  rewrite Ha3, Ha4, Ha2, Hb3, Hb4, Hb2, Ha1, Hb1, <- Hsp.
  destruct ef1, ef2; split; reflexivity.
Qed.

(** X26.  What one call of [update_parameters] writes to [L1] and [H2].  The
    evaluation never lowers [H2] and never writes [L1]; the call then adds the
    signed loading index [Tij:dstrain] to [L1] when mechanism 1 is plastic,
    and [Kp2_b * (Zij:dstrain)] to [H2] when mechanism 2 is plastic, and
    changes them in no other way.  So [L1] is not lowered by the call exactly
    when mechanism 1 is elastic or [Tij:dstrain] is not negative. *)
Theorem persistent_scalars_updates
    (self self' : Li2002.t) (sp sp' : StateParameters.t) :
  Li2002.update_parameters brentq self sp = Ok (self', sp') ->
  exists (self1 : Li2002.t) (Tij Zij : mat3),
    Li2002.evaluate brentq self sp = Ok (self1, sp')
    /\ Li2002.L1 self1 = Li2002.L1 self
    /\ Li2002.H2 self <= Li2002.H2 self1
    /\ StateParameters.matr "Tij" sp' = Ok Tij
    /\ StateParameters.matr "Zij" sp' = Ok Zij
    /\ Li2002.L1 self'
       = (if StateParameters.elastic_flag1 sp' then Li2002.L1 self
          else Li2002.L1 self + ddot Tij (StateParameters.dstrain sp))
    /\ (Li2002.L1 self <= Li2002.L1 self' <->
        StateParameters.elastic_flag1 sp' = true
        \/ 0 <= ddot Tij (StateParameters.dstrain sp))
    /\ (if StateParameters.elastic_flag2 sp' then Li2002.H2 self' = Li2002.H2 self1
        else exists Kp2_b : R,
            StateParameters.num "Kp2_b" sp' = Ok Kp2_b
            /\ Li2002.H2 self'
               = Li2002.H2 self1 + Kp2_b * ddot Zij (StateParameters.dstrain sp)).
Proof.
  intros H.
  pose proof H as HX; apply update_parameters_inv in HX; destruct HX
    as [self1 [Tij [Zij [EE [ET [EZ [_ [_ [_ [HL [_ HH]]]]]]]]]]].
  pose proof EE as HX; apply evaluate_frame in HX; destruct HX as [_ [_ [HL1 [HH2 [_ Hc]]]]].
  destruct Hc as [_ [_ [_ [Hds _]]]]. rewrite Hds, HL1 in *.
  exists self1, Tij, Zij.
  split; [exact EE|]. split; [exact HL1|]. split; [exact HH2|].
  split; [exact ET|]. split; [exact EZ|]. split; [exact HL|]. split; [|exact HH].
  rewrite HL. destruct (StateParameters.elastic_flag1 sp').
  - split; [left; reflexivity | intros _; lra].
  - split; [intros Hle; right; lra | intros [Hf | Hd]; [discriminate Hf | lra]].
Qed.

(** The mapping alone: [H2] is never lowered and [L1] is not written. *)
Lemma set_mapping_stress_H2_L1
    (self self' : Li2002.t) (sp sp' : StateParameters.t) :
  Li2002.set_mapping_stress brentq self sp = Ok (self', sp') ->
  Li2002.H2 self <= Li2002.H2 self' /\ Li2002.L1 self' = Li2002.L1 self.
Proof.
  intros H.
  pose proof H as HX; apply set_mapping_stress_frame in HX; destruct HX as [_ [_ [HL [HH _]]]].
  split; assumption.
Qed.

End Steps.

(** ** A step of the engine on the unstressed sand *)

Lemma init_zero_stress (strain dstrain dstress : mat3) (f1 f2 : bool) :
  StateParameters.rij (StateParameters.init strain zeros33 dstrain dstress f1 f2)
  = zeros33
  /\ StateParameters.p (StateParameters.init strain zeros33 dstrain dstress f1 f2) = 0.
Proof.
  unfold StateParameters.init, StateParameters.set_stress_increment,
    StateParameters.set_stress_variable.
  sp_simpl. mat_compute. unfold Rdiv. split; [arr_eq; ring | ring].
Qed.

Section AtRest.

Variable brentq : (R -> R) -> R -> R -> res R.

Lemma update_parameters_elastic (self : Li2002.t) (sp : StateParameters.t) (ec : R) :
  Li2002.e self = Some ec ->
  norm (msub (StateParameters.rij sp) (Li2002.alpha (recentred self sp))) < 1e-6 ->
  Rabs (StateParameters.p sp - Li2002.beta (recentred self sp)) = 0 ->
  exists sp' : StateParameters.t,
    Li2002.update_parameters brentq self sp = Ok (recentred self sp, sp').
Proof.
  intros He H1 H2.
  destruct (@evaluate_elastic brentq self sp ec He H1 H2)
    as [sp' [E [_ [Hf1 [Hf2 [HT [HZ _]]]]]]].
  exists sp'. unfold Li2002.update_parameters.
  rewrite E. cbn [bind]. rewrite HT. cbn [bind]. rewrite HZ. cbn [bind].
  rewrite Hf1, Hf2. reflexivity.
Qed.

Lemma set_tensor_Ep_elastic (self : Li2002.t) (sp : StateParameters.t) (Ge : R) :
  StateParameters.elastic_flag1 sp = true ->
  StateParameters.elastic_flag2 sp = true ->
  StateParameters.num "Ge" sp = Ok Ge ->
  exists Ep : ten4,
    Li2002.set_tensor_Ep self sp = Ok (StateParameters.set_Ep Ep sp).
Proof.
  intros H1 H2 HG. unfold Li2002.set_tensor_Ep.
  rewrite H1, H2. cbn [bind]. rewrite HG. cbn [bind].
  eexists. reflexivity.
Qed.

Lemma plastic_stiffness_elastic (self : Li2002.t) (sp : StateParameters.t) (ec : R) :
  Li2002.e self = Some ec ->
  norm (msub (StateParameters.rij sp) (Li2002.alpha (recentred self sp))) < 1e-6 ->
  Rabs (StateParameters.p sp - Li2002.beta (recentred self sp)) = 0 ->
  exists (sp' : StateParameters.t) (Ep : ten4),
    Li2002.plastic_stiffness brentq self sp = Ok (recentred self sp, sp', Ep).
Proof.
  intros He H1 H2.
  destruct (@evaluate_elastic brentq self sp ec He H1 H2)
    as [sp' [E [_ [Hf1 [Hf2 [_ [_ HG]]]]]]].
  destruct (@set_tensor_Ep_elastic (recentred self sp) sp' _ Hf1 Hf2 HG) as [Ep HEp].
  exists (StateParameters.set_Ep Ep sp'), Ep.
  unfold Li2002.plastic_stiffness. rewrite E. cbn [bind]. rewrite HEp. reflexivity.
Qed.

(** On a model whose stress is zero and whose mapping centres are at the
    origin, a step with every component strain-prescribed returns and
    leaves the model as it was. *)
Lemma plastic_deformation_at_rest
    (self : Li2002.t) (dstrain_given dstress_given : mat3)
    (sp0 : StateParameters.t) (ec : R) :
  Li2002.e self = Some ec ->
  Li2002.stress self = zeros33 ->
  Li2002.alpha self = zeros33 ->
  Li2002.beta self = 0 ->
  StateParameters.elastic_flag1 sp0 = false ->
  StateParameters.elastic_flag2 sp0 = false ->
  StateParameters.rij sp0 = zeros33 ->
  StateParameters.p sp0 = 0 ->
  exists out : mat3 * mat3 * StateParameters.t,
    Li2002.plastic_deformation brentq self dstrain_given dstress_given
      (all_mask false) sp0 = Ok (self, out).
Proof.
  intros He Hs Ha Hb Hf1 Hf2 Hr Hp.
  assert (Hel : forall sp : StateParameters.t,
             StateParameters.elastic_flag1 sp = false ->
             StateParameters.elastic_flag2 sp = false ->
             StateParameters.rij sp = zeros33 ->
             StateParameters.p sp = 0 ->
             recentred self sp = self
             /\ norm (msub (StateParameters.rij sp) (Li2002.alpha (recentred self sp)))
                < 1e-6
             /\ Rabs (StateParameters.p sp - Li2002.beta (recentred self sp)) = 0).
  { intros sp G1 G2 G3 G4. rewrite (@recentred_unflagged self sp G1 G2).
    split; [reflexivity|]. rewrite G3, G4, Ha, Hb, norm_msub_self.
    split; [lra|]. replace (0 - 0) with 0 by lra. apply Rabs_R0. }
  unfold Li2002.plastic_deformation.
  destruct (Hel sp0 Hf1 Hf2 Hr Hp) as [Hre [Hn Hab]].
  destruct (@check_unload_elastic brentq self sp0 ec He Hn Hab) as [sp1 [HC _]].
  rewrite Hre in HC. rewrite HC. cbn [bind]. rewrite Hs.
  destruct (init_zero_stress (Li2002.strain self) dstrain_given dstress_given
              false false) as [Hr2 Hp2].
  remember (StateParameters.init (Li2002.strain self) zeros33 dstrain_given
              dstress_given false false) as sp eqn:Hsp.
  assert (Hg1 : StateParameters.elastic_flag1 sp = false) by (subst sp; reflexivity).
  assert (Hg2 : StateParameters.elastic_flag2 sp = false) by (subst sp; reflexivity).
  clear Hsp.
  destruct (Hel sp Hg1 Hg2 Hr2 Hp2) as [Hre2 [Hn2 Hab2]].
  destruct (@plastic_stiffness_elastic self sp ec He Hn2 Hab2) as [sp' [Ep HP]].
  rewrite Hre2 in HP. rewrite HP. cbn [bind].
  rewrite solve_all_strain_prescribed. cbn [bind]. rewrite Hs.
  destruct (init_zero_stress (Li2002.strain self) dstrain_given
              (contract Ep dstrain_given) false false) as [Hr3 Hp3].
  remember (StateParameters.init (Li2002.strain self) zeros33 dstrain_given
              (contract Ep dstrain_given) false false) as sp2 eqn:Hsp2.
  assert (Hk1 : StateParameters.elastic_flag1 sp2 = false) by (subst sp2; reflexivity).
  assert (Hk2 : StateParameters.elastic_flag2 sp2 = false) by (subst sp2; reflexivity).
  clear Hsp2.
  destruct (Hel sp2 Hk1 Hk2 Hr3 Hp3) as [Hre3 [Hn3 Hab3]].
  destruct (@update_parameters_elastic self sp2 ec He Hn3 Hab3) as [sp2' HU].
  rewrite Hre3 in HU. rewrite HU. cbn [bind].
  eexists. reflexivity.
Qed.

End AtRest.

(** ** Mechanism 1 plastic, mechanism 2 elastic *)

(** Reading an attribute through an assignment. *)
Lemma num_set_num_same (k : string) (v : R) (sp : StateParameters.t) :
  StateParameters.num k (StateParameters.set_num k v sp) = Ok v.
Proof.
  unfold StateParameters.num, StateParameters.set_num, getattr, setattr.
  cbn [StateParameters.nums lookup]. rewrite String.eqb_refl. reflexivity.
Qed.

Lemma num_set_num_other (k k' : string) (v : R) (sp : StateParameters.t) :
  String.eqb k k' = false ->
  StateParameters.num k (StateParameters.set_num k' v sp) = StateParameters.num k sp.
Proof.
  intros H. unfold StateParameters.num, StateParameters.set_num, getattr, setattr.
  cbn [StateParameters.nums lookup]. rewrite H. reflexivity.
Qed.

Lemma matr_set_mat_same (k : string) (v : mat3) (sp : StateParameters.t) :
  StateParameters.matr k (StateParameters.set_mat k v sp) = Ok v.
Proof.
  unfold StateParameters.matr, StateParameters.set_mat, getattr, setattr.
  cbn [StateParameters.mats lookup]. rewrite String.eqb_refl. reflexivity.
Qed.

Lemma matr_set_mat_other (k k' : string) (v : mat3) (sp : StateParameters.t) :
  String.eqb k k' = false ->
  StateParameters.matr k (StateParameters.set_mat k' v sp) = StateParameters.matr k sp.
Proof.
  intros H. unfold StateParameters.matr, StateParameters.set_mat, getattr, setattr.
  cbn [StateParameters.mats lookup]. rewrite H. reflexivity.
Qed.

Lemma num_set_mat (k k' : string) (v : mat3) (sp : StateParameters.t) :
  StateParameters.num k (StateParameters.set_mat k' v sp) = StateParameters.num k sp.
Proof. reflexivity. Qed.

Lemma matr_set_num (k k' : string) (v : R) (sp : StateParameters.t) :
  StateParameters.matr k (StateParameters.set_num k' v sp) = StateParameters.matr k sp.
Proof. reflexivity. Qed.

Lemma num_set_flag2 (k : string) (b : bool) (sp : StateParameters.t) :
  StateParameters.num k (StateParameters.set_elastic_flag2 b sp)
  = StateParameters.num k sp.
Proof. reflexivity. Qed.

Lemma matr_set_flag2 (k : string) (b : bool) (sp : StateParameters.t) :
  StateParameters.matr k (StateParameters.set_elastic_flag2 b sp)
  = StateParameters.matr k sp.
Proof. reflexivity. Qed.

Ltac attr_simpl :=
  repeat first
    [ rewrite num_set_num_same
    | rewrite matr_set_mat_same
    | rewrite num_set_mat
    | rewrite matr_set_num
    | rewrite num_set_flag2
    | rewrite matr_set_flag2
    | rewrite num_set_num_other by reflexivity
    | rewrite matr_set_mat_other by reflexivity ].

(** Reading an attribute of [__init__] through later assignments. *)
Ltac proj_simpl :=
  cbn [bind fst snd negb orb andb
       StateParameters.strain StateParameters.stress StateParameters.dstress
       StateParameters.dstrain StateParameters.pmin StateParameters.p
       StateParameters.sij StateParameters.rij StateParameters.R_
       StateParameters.dp StateParameters.elastic_flag1
       StateParameters.elastic_flag2
       StateParameters.set_elastic_flag1 StateParameters.set_elastic_flag2
       StateParameters.set_num StateParameters.set_mat StateParameters.set_Ep
       Li2002.par Li2002.stress Li2002.strain Li2002.alpha Li2002.beta
       Li2002.H1 Li2002.H2 Li2002.L1 Li2002.e Li2002.e0
       Li2002.set_stress Li2002.set_strain Li2002.set_alpha Li2002.set_beta
       Li2002.set_H1 Li2002.set_H2 Li2002.set_L1 Li2002.set_e Li2002.set_e0].

Section Plastic1.

Variable brentq : (R -> R) -> R -> R -> res R.

(** The mapping when mechanism 1 is plastic with the current ratio outside
    the surface ([F1 > 0] at [t = 1]) and mechanism 2 is elastic because
    [p] equals [beta]. *)
Lemma set_mapping_stress_plastic1
    (self : Li2002.t) (sp : StateParameters.t) (rij_bar : mat3) (R_bar g_bar : R) :
  StateParameters.elastic_flag1 sp = false ->
  StateParameters.elastic_flag2 sp = false ->
  1e-6 <= norm (msub (StateParameters.rij sp) (Li2002.alpha self)) ->
  Li2002.mapping_r self 1.0 (StateParameters.rij sp) (Li2002.alpha self)
  = (rij_bar, R_bar, g_bar) ->
  0 < R_bar - Li2002.H1 self * g_bar ->
  Rabs (StateParameters.p sp - Li2002.beta self) = 0 ->
  Li2002.set_mapping_stress brentq self sp
  = Ok (Li2002.set_H1 (R_bar / g_bar) self,
        StateParameters.set_elastic_flag2 true
          (StateParameters.set_num "rho1_ratio" 1.0
             (StateParameters.set_num "g_bar" g_bar
                (StateParameters.set_num "R_bar" R_bar
                   (StateParameters.set_mat "rij_bar" rij_bar sp))))).
Proof.
  intros Hf1 Hf2 Hn Hm HF Hp.
  unfold Li2002.set_mapping_stress. rewrite Hf1, Hf2.
  rewrite (@Rltb_false _ 1e-6 Hn).
  unfold Li2002.F1_boundary_surface. rewrite Hm.
  rewrite (@Rltb_true 0.0 _) by lra.
  cbn [bind]. sp_simpl.
  rewrite (@Reqb_true _ 0.0) by lra. reflexivity.
Qed.

Lemma set_parameters_plastic1
    (self : Li2002.t) (sp : StateParameters.t) (ec rho1_ratio R_bar g_bar : R) :
  Li2002.e self = Some ec ->
  StateParameters.elastic_flag1 sp = false ->
  StateParameters.elastic_flag2 sp = true ->
  StateParameters.num "rho1_ratio" sp = Ok rho1_ratio ->
  StateParameters.num "R_bar" sp = Ok R_bar ->
  StateParameters.num "g_bar" sp = Ok g_bar ->
  let Ge := fst (Li2002.elastic_modulus self ec (StateParameters.p sp)) in
  let Ke := snd (Li2002.elastic_modulus self ec (StateParameters.p sp)) in
  let psi := Li2002.state_parameter self ec (StateParameters.p sp) in
  let g := Li2002.g_theta self (StateParameters.sij sp) in
  let h := (Li2002.h1 self - Li2002.h2 self * ec)
           * ((1.0 / rho1_ratio) ^ 10
              + Li2002.h3 self * Li2002.accumulated_load_index self (Li2002.L1 self)
                * (1 - (1.0 / rho1_ratio) ^ 10)) in
  let Kp := Li2002.plastic_modulus1 self Ge R_bar g_bar rho1_ratio h psi in
  let D1 := Li2002.dilatancy1 self (StateParameters.R_ sp) g rho1_ratio psi in
  Li2002.set_parameters self sp
  = Ok (StateParameters.set_num "Kp2_b" 0.0
          (StateParameters.set_num "D1" D1
             (StateParameters.set_num "Kp1_b" (snd Kp)
                (StateParameters.set_num "Kp1" (fst Kp)
                   (StateParameters.set_num "h" h
                      (StateParameters.set_num "g" g
                         (StateParameters.set_num "psi" psi
                            (StateParameters.set_num "Ke" Ke
                               (StateParameters.set_num "Ge" Ge sp))))))))).
Proof.
  intros He Hf1 Hf2 Hrho HR Hg Ge Ke psi g h Kp D1.
  unfold Li2002.set_parameters, Li2002.get_e. rewrite He. cbn [bind].
  subst Ge Ke.
  destruct (Li2002.elastic_modulus self ec (StateParameters.p sp)) as [Ge Ke].
  cbn [fst snd] in *.
  change (StateParameters.elastic_flag1 (StateParameters.set_num "g" _ _))
    with (StateParameters.elastic_flag1 sp).
  change (StateParameters.p (StateParameters.set_num "Ke" _ _))
    with (StateParameters.p sp).
  change (StateParameters.sij (StateParameters.set_num "psi" _ _))
    with (StateParameters.sij sp).
  fold psi. fold g.
  rewrite Hf1. attr_simpl. rewrite Hrho. cbn [bind].
  unfold Li2002.scaling_factor, Li2002.get_e. rewrite He. cbn [bind].
  attr_simpl. rewrite HR. cbn [bind]. attr_simpl. rewrite Hg. cbn [bind].
  fold h. fold Kp.
  destruct Kp as [Kp1 Kp1_b] eqn:HKp.
  cbn [bind fst snd].
  change (StateParameters.R_ (StateParameters.set_num "Kp1_b" _ _))
    with (StateParameters.R_ sp).
  fold D1.
  change (StateParameters.elastic_flag2 (StateParameters.set_num "D1" _ _))
    with (StateParameters.elastic_flag2 sp).
  rewrite Hf2. reflexivity.
Qed.

Lemma set_parameter_nm_plastic1
    (self : Li2002.t) (sp : StateParameters.t) (rij_bar : mat3) (R_bar g_bar : R) :
  StateParameters.elastic_flag1 sp = false ->
  StateParameters.matr "rij_bar" sp = Ok rij_bar ->
  StateParameters.num "R_bar" sp = Ok R_bar ->
  StateParameters.num "g_bar" sp = Ok g_bar ->
  exists mij : mat3,
    Li2002.set_parameter_nm self sp
    = Ok (StateParameters.set_mat "mij" mij
            (StateParameters.set_mat "nij"
               (flow_direction self (StateParameters.sij sp) rij_bar R_bar g_bar) sp)).
Proof.
  intros Hf1 Hr HR Hg. unfold Li2002.set_parameter_nm.
  rewrite Hf1. cbn [negb]. rewrite Hr. cbn [bind]. rewrite HR. cbn [bind].
  rewrite Hg. cbn [bind].
  fold (flow_direction self (StateParameters.sij sp) rij_bar R_bar g_bar).
  change (StateParameters.rij (StateParameters.set_mat "nij" _ sp))
    with (StateParameters.rij sp).
  destruct (Reqb (norm (StateParameters.rij sp)) 0.0); eexists; reflexivity.
Qed.

Lemma set_parameter_TZ_plastic1
    (self : Li2002.t) (sp : StateParameters.t) (nij : mat3) (Ge Ke D1 Kp1 : R) :
  StateParameters.elastic_flag1 sp = false ->
  StateParameters.elastic_flag2 sp = true ->
  StateParameters.matr "nij" sp = Ok nij ->
  StateParameters.num "Ge" sp = Ok Ge ->
  StateParameters.num "Ke" sp = Ok Ke ->
  StateParameters.num "D1" sp = Ok D1 ->
  StateParameters.num "Kp1" sp = Ok Kp1 ->
  Li2002.set_parameter_TZ self sp
  = Ok (StateParameters.set_mat "Zij" zeros33
          (StateParameters.set_mat "Tij"
             (Tij_plastic1 nij (StateParameters.rij sp) Ge Ke D1 Kp1)
             (StateParameters.set_num "B" 0.0 sp))).
Proof.
  intros Hf1 Hf2 Hn HGe HKe HD1 HKp1. unfold Li2002.set_parameter_TZ.
  rewrite Hf1, Hf2. cbn [orb bind].
  change (StateParameters.elastic_flag1 (StateParameters.set_num "B" 0.0 sp))
    with (StateParameters.elastic_flag1 sp).
  rewrite Hf1. attr_simpl. rewrite Hn. cbn [bind]. rewrite HGe. cbn [bind].
  rewrite HKe. cbn [bind].
  rewrite HD1. cbn [bind]. rewrite HKp1. cbn [bind].
  change (StateParameters.rij (StateParameters.set_num "B" 0.0 sp))
    with (StateParameters.rij sp).
  change (StateParameters.elastic_flag2 (StateParameters.set_mat "Tij" _ _))
    with (StateParameters.elastic_flag2 sp).
  rewrite Hf2. reflexivity.
Qed.

(** The evaluation in that regime: [H1] is raised to [R_bar / g_bar], the
    flow tensor [Tij] is [Tij_plastic1] and [Zij] is zero. *)
Lemma evaluate_plastic1
    (self : Li2002.t) (sp : StateParameters.t) (ec : R)
    (rij_bar : mat3) (R_bar g_bar : R) :
  Li2002.e self = Some ec ->
  StateParameters.elastic_flag1 sp = false ->
  StateParameters.elastic_flag2 sp = false ->
  1e-6 <= norm (msub (StateParameters.rij sp) (Li2002.alpha self)) ->
  Li2002.mapping_r self 1.0 (StateParameters.rij sp) (Li2002.alpha self)
  = (rij_bar, R_bar, g_bar) ->
  0 < R_bar - Li2002.H1 self * g_bar ->
  Rabs (StateParameters.p sp - Li2002.beta self) = 0 ->
  let Ge := fst (Li2002.elastic_modulus self ec (StateParameters.p sp)) in
  let Ke := snd (Li2002.elastic_modulus self ec (StateParameters.p sp)) in
  let psi := Li2002.state_parameter self ec (StateParameters.p sp) in
  let g := Li2002.g_theta self (StateParameters.sij sp) in
  let h := (Li2002.h1 self - Li2002.h2 self * ec)
           * ((1.0 / 1.0) ^ 10
              + Li2002.h3 self * Li2002.accumulated_load_index self (Li2002.L1 self)
                * (1 - (1.0 / 1.0) ^ 10)) in
  let Kp := Li2002.plastic_modulus1 self Ge R_bar g_bar 1.0 h psi in
  let D1 := Li2002.dilatancy1 self (StateParameters.R_ sp) g 1.0 psi in
  let nij := flow_direction self (StateParameters.sij sp) rij_bar R_bar g_bar in
  let Tij := Tij_plastic1 nij (StateParameters.rij sp) Ge Ke D1 (fst Kp) in
  exists sp' : StateParameters.t,
    Li2002.evaluate brentq self sp = Ok (Li2002.set_H1 (R_bar / g_bar) self, sp')
    /\ same_core sp sp'
    /\ StateParameters.elastic_flag1 sp' = false
    /\ StateParameters.elastic_flag2 sp' = true
    /\ StateParameters.matr "Tij" sp' = Ok Tij
    /\ StateParameters.matr "Zij" sp' = Ok zeros33
    /\ StateParameters.num "Kp1_b" sp' = Ok (snd Kp).
Proof.
  intros He Hf1 Hf2 Hn Hm HF Hp Ge Ke psi g h Kp D1 nij Tij.
  unfold Li2002.evaluate.
  rewrite (@set_mapping_stress_plastic1 self sp rij_bar R_bar g_bar Hf1 Hf2 Hn Hm HF Hp).
  cbn [bind].
  remember (Li2002.set_H1 (R_bar / g_bar) self) as self1 eqn:Hself1.
  assert (He1 : Li2002.e self1 = Some ec) by (subst self1; exact He).
  assert (HL1 : Li2002.L1 self1 = Li2002.L1 self) by (subst self1; reflexivity).
  assert (Hpar : Li2002.par self1 = Li2002.par self) by (subst self1; reflexivity).
  remember (StateParameters.set_elastic_flag2 true _) as sp1 eqn:Hsp1.
  assert (H1f1 : StateParameters.elastic_flag1 sp1 = false)
    by (subst sp1; exact Hf1).
  assert (H1f2 : StateParameters.elastic_flag2 sp1 = true)
    by (subst sp1; reflexivity).
  assert (H1rho : StateParameters.num "rho1_ratio" sp1 = Ok 1.0)
    by (subst sp1; reflexivity).
  assert (H1R : StateParameters.num "R_bar" sp1 = Ok R_bar)
    by (subst sp1; reflexivity).
  assert (H1g : StateParameters.num "g_bar" sp1 = Ok g_bar)
    by (subst sp1; reflexivity).
  assert (H1r : StateParameters.matr "rij_bar" sp1 = Ok rij_bar)
    by (subst sp1; reflexivity).
  assert (H1p : StateParameters.p sp1 = StateParameters.p sp)
    by (subst sp1; reflexivity).
  assert (H1s : StateParameters.sij sp1 = StateParameters.sij sp)
    by (subst sp1; reflexivity).
  assert (H1rij : StateParameters.rij sp1 = StateParameters.rij sp)
    by (subst sp1; reflexivity).
  assert (H1R_ : StateParameters.R_ sp1 = StateParameters.R_ sp)
    by (subst sp1; reflexivity).
  assert (H1d : StateParameters.dstrain sp1 = StateParameters.dstrain sp)
    by (subst sp1; reflexivity).
  assert (Hc1 : same_core sp sp1) by (subst sp1; repeat split).
  clear Hsp1.
  rewrite (@set_parameters_plastic1 self1 sp1 ec 1.0 R_bar g_bar He1 H1f1 H1f2 H1rho H1R H1g).
  cbn [bind].
  rewrite H1p, H1s, H1R_.
  replace (Li2002.elastic_modulus self1 ec (StateParameters.p sp))
    with (Li2002.elastic_modulus self ec (StateParameters.p sp))
    by (unfold Li2002.elastic_modulus; rewrite Hpar; reflexivity).
  replace (Li2002.state_parameter self1 ec (StateParameters.p sp))
    with (Li2002.state_parameter self ec (StateParameters.p sp))
    by (unfold Li2002.state_parameter; rewrite Hpar; reflexivity).
  replace (Li2002.g_theta self1 (StateParameters.sij sp))
    with (Li2002.g_theta self (StateParameters.sij sp))
    by (unfold Li2002.g_theta; rewrite Hpar; reflexivity).
  replace (Li2002.accumulated_load_index self1 (Li2002.L1 self1))
    with (Li2002.accumulated_load_index self (Li2002.L1 self))
    by (unfold Li2002.accumulated_load_index; rewrite Hpar, HL1; reflexivity).
  rewrite Hpar.
  fold Ge Ke psi g. fold h.
  replace (Li2002.plastic_modulus1 self1 Ge R_bar g_bar 1.0 h psi) with Kp
    by (unfold Kp, Li2002.plastic_modulus1; rewrite Hpar; reflexivity).
  replace (Li2002.dilatancy1 self1 (StateParameters.R_ sp) g 1.0 psi) with D1
    by (unfold D1, Li2002.dilatancy1; rewrite Hpar; reflexivity).
  remember (StateParameters.set_num "Kp2_b" 0.0 _) as sp2 eqn:Hsp2.
  assert (H2f1 : StateParameters.elastic_flag1 sp2 = false)
    by (subst sp2; exact H1f1).
  assert (H2f2 : StateParameters.elastic_flag2 sp2 = true)
    by (subst sp2; exact H1f2).
  assert (H2R : StateParameters.num "R_bar" sp2 = Ok R_bar)
    by (subst sp2; attr_simpl; exact H1R).
  assert (H2g : StateParameters.num "g_bar" sp2 = Ok g_bar)
    by (subst sp2; attr_simpl; exact H1g).
  assert (H2r : StateParameters.matr "rij_bar" sp2 = Ok rij_bar)
    by (subst sp2; attr_simpl; exact H1r).
  assert (H2Ge : StateParameters.num "Ge" sp2 = Ok Ge)
    by (subst sp2; attr_simpl; reflexivity).
  assert (H2Ke : StateParameters.num "Ke" sp2 = Ok Ke)
    by (subst sp2; attr_simpl; reflexivity).
  assert (H2D1 : StateParameters.num "D1" sp2 = Ok D1)
    by (subst sp2; attr_simpl; reflexivity).
  assert (H2Kp1 : StateParameters.num "Kp1" sp2 = Ok (fst Kp))
    by (subst sp2; attr_simpl; reflexivity).
  assert (H2Kp1b : StateParameters.num "Kp1_b" sp2 = Ok (snd Kp))
    by (subst sp2; attr_simpl; reflexivity).
  assert (H2p : StateParameters.p sp2 = StateParameters.p sp)
    by (subst sp2; exact H1p).
  assert (H2s : StateParameters.sij sp2 = StateParameters.sij sp)
    by (subst sp2; exact H1s).
  assert (H2rij : StateParameters.rij sp2 = StateParameters.rij sp)
    by (subst sp2; exact H1rij).
  assert (H2d : StateParameters.dstrain sp2 = StateParameters.dstrain sp)
    by (subst sp2; exact H1d).
  assert (Hc2 : same_core sp1 sp2) by (subst sp2; repeat split).
  clear Hsp2.
  destruct (@set_parameter_nm_plastic1 self1 sp2 rij_bar R_bar g_bar H2f1 H2r H2R H2g)
    as [mij Hnm].
  rewrite Hnm. clear Hnm. cbn [bind]. rewrite H2s.
  replace (flow_direction self1 (StateParameters.sij sp) rij_bar R_bar g_bar) with nij
    by (unfold nij, flow_direction, Li2002.dg_theta, Li2002.dF1_r;
        rewrite Hpar; reflexivity).
  remember (StateParameters.set_mat "mij" mij _) as sp3 eqn:Hsp3.
  assert (H3f1 : StateParameters.elastic_flag1 sp3 = false)
    by (subst sp3; exact H2f1).
  assert (H3f2 : StateParameters.elastic_flag2 sp3 = true)
    by (subst sp3; exact H2f2).
  assert (H3n : StateParameters.matr "nij" sp3 = Ok nij)
    by (subst sp3; attr_simpl; reflexivity).
  assert (H3Ge : StateParameters.num "Ge" sp3 = Ok Ge)
    by (subst sp3; attr_simpl; exact H2Ge).
  assert (H3Ke : StateParameters.num "Ke" sp3 = Ok Ke)
    by (subst sp3; attr_simpl; exact H2Ke).
  assert (H3D1 : StateParameters.num "D1" sp3 = Ok D1)
    by (subst sp3; attr_simpl; exact H2D1).
  assert (H3Kp1 : StateParameters.num "Kp1" sp3 = Ok (fst Kp))
    by (subst sp3; attr_simpl; exact H2Kp1).
  assert (H3Kp1b : StateParameters.num "Kp1_b" sp3 = Ok (snd Kp))
    by (subst sp3; attr_simpl; exact H2Kp1b).
  assert (H3p : StateParameters.p sp3 = StateParameters.p sp)
    by (subst sp3; exact H2p).
  assert (H3rij : StateParameters.rij sp3 = StateParameters.rij sp)
    by (subst sp3; exact H2rij).
  assert (H3d : StateParameters.dstrain sp3 = StateParameters.dstrain sp)
    by (subst sp3; exact H2d).
  assert (Hc3 : same_core sp2 sp3) by (subst sp3; repeat split).
  clear Hsp3.
  rewrite (@set_parameter_TZ_plastic1 self1 sp3 nij Ge Ke D1 (fst Kp)
             H3f1 H3f2 H3n H3Ge H3Ke H3D1 H3Kp1).
  cbn [bind]. rewrite H3rij. fold Tij.
  remember (StateParameters.set_mat "Zij" zeros33 _) as sp4 eqn:Hsp4.
  assert (H4f1 : StateParameters.elastic_flag1 sp4 = false)
    by (subst sp4; exact H3f1).
  assert (H4f2 : StateParameters.elastic_flag2 sp4 = true)
    by (subst sp4; exact H3f2).
  assert (H4T : StateParameters.matr "Tij" sp4 = Ok Tij)
    by (subst sp4; attr_simpl; reflexivity).
  assert (H4Z : StateParameters.matr "Zij" sp4 = Ok zeros33)
    by (subst sp4; attr_simpl; reflexivity).
  assert (H4Kp1b : StateParameters.num "Kp1_b" sp4 = Ok (snd Kp))
    by (subst sp4; attr_simpl; exact H3Kp1b).
  assert (Hc4 : same_core sp3 sp4) by (subst sp4; repeat split).
  clear Hsp4.
  exists sp4. subst self1.
  split; [reflexivity|].
  split.
  { apply same_core_trans with sp3; [|exact Hc4].
    apply same_core_trans with sp2; [|exact Hc3].
    apply same_core_trans with sp1; assumption. }
  repeat split; assumption.
Qed.

(** One call of [update_parameters] in that regime: [L1] receives the signed
    increment [ddot Tij dstrain]. *)
Lemma update_parameters_plastic1
    (self : Li2002.t) (sp : StateParameters.t) (ec : R)
    (rij_bar : mat3) (R_bar g_bar : R) :
  Li2002.e self = Some ec ->
  StateParameters.elastic_flag1 sp = false ->
  StateParameters.elastic_flag2 sp = false ->
  1e-6 <= norm (msub (StateParameters.rij sp) (Li2002.alpha self)) ->
  Li2002.mapping_r self 1.0 (StateParameters.rij sp) (Li2002.alpha self)
  = (rij_bar, R_bar, g_bar) ->
  0 < R_bar - Li2002.H1 self * g_bar ->
  Rabs (StateParameters.p sp - Li2002.beta self) = 0 ->
  let Ge := fst (Li2002.elastic_modulus self ec (StateParameters.p sp)) in
  let Ke := snd (Li2002.elastic_modulus self ec (StateParameters.p sp)) in
  let psi := Li2002.state_parameter self ec (StateParameters.p sp) in
  let g := Li2002.g_theta self (StateParameters.sij sp) in
  let h := (Li2002.h1 self - Li2002.h2 self * ec)
           * ((1.0 / 1.0) ^ 10
              + Li2002.h3 self * Li2002.accumulated_load_index self (Li2002.L1 self)
                * (1 - (1.0 / 1.0) ^ 10)) in
  let Kp := Li2002.plastic_modulus1 self Ge R_bar g_bar 1.0 h psi in
  let D1 := Li2002.dilatancy1 self (StateParameters.R_ sp) g 1.0 psi in
  let nij := flow_direction self (StateParameters.sij sp) rij_bar R_bar g_bar in
  let Tij := Tij_plastic1 nij (StateParameters.rij sp) Ge Ke D1 (fst Kp) in
  exists (self' : Li2002.t) (sp' : StateParameters.t),
    Li2002.update_parameters brentq self sp = Ok (self', sp')
    /\ Li2002.L1 self' = Li2002.L1 self + ddot Tij (StateParameters.dstrain sp).
Proof.
  intros He Hf1 Hf2 Hn Hm HF Hp Ge Ke psi g h Kp D1 nij Tij.
  destruct (@evaluate_plastic1 self sp ec rij_bar R_bar g_bar He Hf1 Hf2 Hn Hm HF Hp)
    as [sp' [E [Hc [G1 [G2 [HT [HZ HK]]]]]]].
  fold Ge Ke psi g h Kp D1 nij Tij in HT, HK.
  unfold Li2002.update_parameters. rewrite E. cbn [bind].
  rewrite HT. cbn [bind]. rewrite HZ. cbn [bind].
  rewrite G1, G2. cbn [negb bind]. rewrite HK. cbn [bind].
  do 2 eexists. split; [reflexivity|].
  destruct Hc as [_ [_ [_ [Hd _]]]].
  cbn [Li2002.L1 Li2002.set_H1 Li2002.set_L1]. rewrite Hd. reflexivity.
Qed.

End Plastic1.

(** ** A plastic state in simple shear *)

Lemma reversal_snapshot_p : StateParameters.p reversal_snapshot = 101000.
Proof.
  unfold reversal_snapshot, StateParameters.init, StateParameters.set_stress_increment,
    StateParameters.set_stress_variable.
  sp_simpl. unfold shear_stress. mat_compute. lra.
Qed.

Lemma reversal_snapshot_sij : StateParameters.sij reversal_snapshot = pure_shear 10100.
Proof.
  unfold reversal_snapshot, StateParameters.init, StateParameters.set_stress_increment,
    StateParameters.set_stress_variable.
  sp_simpl. unfold shear_stress, pure_shear. mat_compute. arr_eq; lra.
Qed.

Lemma reversal_snapshot_rij : StateParameters.rij reversal_snapshot = pure_shear 0.1.
Proof.
  unfold reversal_snapshot, StateParameters.init, StateParameters.set_stress_increment,
    StateParameters.set_stress_variable.
  sp_simpl. unfold shear_stress, pure_shear. mat_compute.
  replace ((101000 + 101000 + 101000) / 3) with 101000 by lra.
  unfold py_max. rewrite (@Rltb_false 101000 1.0) by lra.
  arr_eq; lra.
Qed.

Lemma reversal_snapshot_dstrain : StateParameters.dstrain reversal_snapshot = eye3.
Proof. reflexivity. Qed.

Lemma Lode_angle_pure_shear (x : R) : Li2002.Lode_angle (pure_shear x) = 0.
Proof.
  unfold Li2002.Lode_angle.
  replace (det (pure_shear x)) with 0 by (unfold pure_shear; mat_compute; ring).
  destruct (Reqb (0.5 * sumsq (pure_shear x)) 0).
  - rewrite asin_0. lra.
  - replace (- 0 / 2 * np_power (3 / (0.5 * sumsq (pure_shear x))) 1.5) with 0
      by (unfold Rdiv; ring).
    unfold py_max, py_min.
    rewrite (@Rltb_false 0 (-1)) by lra. rewrite (@Rltb_false 1 0) by lra.
    rewrite asin_0. lra.
Qed.

Lemma g_theta_pure_shear (self : Li2002.t) (x : R) :
  Li2002.g_theta self (pure_shear x)
  = Li2002.c self * (1 + Li2002.c self) / (1 + (Li2002.c self) ^ 2).
Proof.
  unfold Li2002.g_theta. rewrite Lode_angle_pure_shear, Rmult_0_r, sin_0.
  rewrite (@Reqb_true 0 0) by reflexivity. reflexivity.
Qed.

Lemma dg_theta_zero (self : Li2002.t) :
  Li2002.dg_theta self 0
  = - (Li2002.c self) ^ 2 * (1 - Li2002.c self) * (1 + Li2002.c self) ^ 2
    / (1 + (Li2002.c self) ^ 2) ^ 3.
Proof.
  unfold Li2002.dg_theta. rewrite Rmult_0_r, sin_0.
  rewrite (@Reqb_true 0 0) by reflexivity. reflexivity.
Qed.

(** With a pure-shear image ratio at Lode angle zero the flow direction is a
    normalised [shear_form]. *)
Lemma flow_direction_pure_shear
    (self : Li2002.t) (sij : mat3) (x R_bar g_bar : R) :
  Li2002.Lode_angle sij = 0 ->
  Li2002.eps self <= Rabs R_bar ->
  exists D : R,
    flow_direction self sij (pure_shear x) R_bar g_bar
    = mdiv (shear_form D (1.5 / (R_bar * g_bar) ^ 2 * (R_bar * g_bar * x)))
           (norm (shear_form D (1.5 / (R_bar * g_bar) ^ 2 * (R_bar * g_bar * x)))).
Proof.
  intros HL He. unfold flow_direction. rewrite HL.
  generalize (Li2002.dg_theta self 0). intros dg.
  unfold Li2002.dF1_r. rewrite (@Rltb_false _ _ He).
  rewrite Rmult_0_r, sin_0.
  generalize (1.5 / (R_bar * g_bar) ^ 2). intros k.
  exists (3 * k * dg * x * x).
  match goal with
  | |- mdiv ?a (norm ?a) = mdiv ?b (norm ?b) =>
      assert (E : a = b); [| rewrite E; reflexivity]
  end.
  unfold pure_shear, shear_form. mat_compute.
  replace 3.0 with 3 by lra.
  arr_eq; field.
Qed.

(** The normalised [shear_form D X] is traceless, and for [X > 0] its product
    with a positive pure shear [rho] lies in [(0, 2 rho]]. *)
Lemma shear_form_direction (D X rho : R) :
  0 < X -> 0 < rho ->
  let nij := mdiv (shear_form D X) (norm (shear_form D X)) in
  trace nij = 0 /\ 0 < ddot nij (pure_shear rho) <= 2 * rho.
Proof.
  intros HX Hr nij. subst nij.
  assert (HN : X <= norm (shear_form D X)).
  { unfold norm. rewrite <- (sqrt_square X) at 1 by lra.
    apply sqrt_le_1_alt. unfold shear_form. mat_compute. nra. }
  set (N := norm (shear_form D X)) in *. clearbody N.
  assert (HNpos : 0 < N) by lra.
  assert (Hinv : 0 < / N) by (apply Rinv_0_lt_compat; exact HNpos).
  assert (HXN : X * / N <= 1).
  { apply (Rmult_le_reg_r N); [exact HNpos|].
    rewrite Rmult_assoc, Rinv_l by lra. lra. }
  assert (HXNpos : 0 < X * / N) by (apply Rmult_lt_0_compat; assumption).
  unfold shear_form, pure_shear. mat_compute. unfold Rdiv.
  split; [ring|]. split; nra.
Qed.

(** The loading index of [Tij_plastic1] for a volumetric increment: with a
    traceless flow direction only the bulk term is left, and it is negative
    when the direction has a positive product with the stress ratio. *)
Lemma Tij_plastic1_unloads (nij rij : mat3) (Ge Ke D1 Kp1 : R) :
  trace nij = 0 ->
  0 < Ke ->
  0 < ddot nij rij ->
  0 < 2 * Ge - sqrt (2 / 3) * Ke * D1 * (ddot nij rij + 0.0) + Kp1 ->
  ddot (Tij_plastic1 nij rij Ge Ke D1 Kp1) eye3 < 0.
Proof.
  intros Htr HK Hnr HTd. unfold Tij_plastic1. cbv zeta.
  set (nr := ddot nij rij) in *. clearbody nr.
  set (Td := 2 * Ge - sqrt (2 / 3) * Ke * D1 * (nr + 0.0) + Kp1) in *. clearbody Td.
  destruct nij as [[n00 n01 n02] [n10 n11 n12] [n20 n21 n22]].
  mat_compute_in Htr. mat_compute.
  assert (Hinv : 0 < / Td) by (apply Rinv_0_lt_compat; exact HTd).
  replace ((2 * Ge * n00 - Ke * (nr + 0.0) * 1) / Td * 1
           + (2 * Ge * n01 - Ke * (nr + 0.0) * 0) / Td * 0
           + (2 * Ge * n02 - Ke * (nr + 0.0) * 0) / Td * 0
           + ((2 * Ge * n10 - Ke * (nr + 0.0) * 0) / Td * 0
              + (2 * Ge * n11 - Ke * (nr + 0.0) * 1) / Td * 1
              + (2 * Ge * n12 - Ke * (nr + 0.0) * 0) / Td * 0)
           + ((2 * Ge * n20 - Ke * (nr + 0.0) * 0) / Td * 0
              + (2 * Ge * n21 - Ke * (nr + 0.0) * 0) / Td * 0
              + (2 * Ge * n22 - Ke * (nr + 0.0) * 1) / Td * 1))
    with ((2 * Ge * (n00 + n11 + n22) - 3 * (Ke * (nr + 0.0))) * / Td)
    by (unfold Rdiv; ring).
  rewrite Htr.
  assert (0 < Ke * (nr + 0.0)) by (apply Rmult_lt_0_compat; lra).
  nra.
Qed.

Lemma default_moduli (self : Li2002.t) (ec p : R) :
  Li2002.par self = Li2002.par Li2002.default ->
  -1 < ec < 2.97 ->
  0 < fst (Li2002.elastic_modulus self ec p)
  /\ snd (Li2002.elastic_modulus self ec p)
     = fst (Li2002.elastic_modulus self ec p) * (5 / 3).
Proof.
  intros Hpar He. unfold Li2002.elastic_modulus. rewrite Hpar.
  cbn [fst snd Li2002.default Li2002.init Li2002.par Li2002.G0 Li2002.nu
       Li2002.pmin Li2002.pr].
  set (S := sqrt (py_max p 100.0 * 101e3)).
  assert (HS : 0 < S).
  { unfold S. apply sqrt_lt_R0. pose proof (py_max_lower p 100.0). nra. }
  set (A := 125 * (2.97 - ec) ^ 2 / (1 + ec)).
  assert (HA : 0 < A).
  { unfold A. apply Rdiv_lt_0_compat; [|lra].
    assert (0 < (2.97 - ec) ^ 2) by (apply pow_lt; lra). lra. }
  split; [apply Rmult_lt_0_compat; assumption | lra].
Qed.

Lemma state_parameter_at_reference (self : Li2002.t) :
  Li2002.par self = Li2002.par Li2002.default ->
  Li2002.state_parameter self 0.75 101000 = -0.165.
Proof.
  intros Hpar. unfold Li2002.state_parameter. rewrite Hpar.
  cbn [Li2002.default Li2002.init Li2002.par Li2002.eg Li2002.rlambdac Li2002.xi
       Li2002.pmin Li2002.pr].
  unfold py_max. rewrite (@Rltb_false 101000 100.0) by lra.
  replace (101000 / 101e3) with 1 by lra.
  unfold np_power. rewrite (@Reqb_false 1 0) by lra.
  unfold Rpower. rewrite ln_1, Rmult_0_r, exp_0. lra.
Qed.

Lemma plastic_modulus1_lower (self : Li2002.t) (Ge R_bar g_bar h psi : R) :
  0 < Li2002.M self -> 0 <= g_bar -> 0 < R_bar -> 0 <= Ge -> 0 <= h ->
  - (Ge * h) <= fst (Li2002.plastic_modulus1 self Ge R_bar g_bar 1.0 h psi).
Proof.
  intros HM Hg HR HG Hh. unfold Li2002.plastic_modulus1. cbn [fst].
  set (E := exp (- Li2002.n self * psi)).
  assert (HE : 0 < E) by apply exp_pos.
  assert (HMg : 0 <= Li2002.M self * g_bar * E / R_bar).
  { apply Rmult_le_pos; [| left; apply Rinv_0_lt_compat; exact HR].
    apply Rmult_le_pos; [apply Rmult_le_pos|]; lra. }
  set (Q := Li2002.M self * g_bar * E / R_bar) in *. clearbody Q.
  assert (0 <= Ge * h) by (apply Rmult_le_pos; assumption).
  nra.
Qed.

Lemma dilatancy1_upper (self : Li2002.t) (R' g psi : R) :
  Li2002.par self = Li2002.par Li2002.default ->
  0 <= R' -> 0 < g -> psi <= 0 ->
  Li2002.dilatancy1 self R' g 1.0 psi <= 0.41.
Proof.
  intros Hpar HR Hg Hpsi. unfold Li2002.dilatancy1. rewrite Hpar.
  cbn [Li2002.default Li2002.init Li2002.par Li2002.d1 Li2002.m Li2002.M].
  replace 1.0 with 1 by lra. rewrite sqrt_1.
  assert (HE : exp (3.5 * psi) <= 1).
  { rewrite <- exp_0. destruct (Req_dec psi 0) as [-> | Hne].
    - rewrite Rmult_0_r. lra.
    - left. apply exp_increasing. lra. }
  assert (HQ : 0 <= R' / (1.25 * g)).
  { apply Rmult_le_pos; [exact HR|]. left. apply Rinv_0_lt_compat. lra. }
  lra.
Qed.

(** The denominator [Td] of [Tij] stays positive under these bounds. *)
Lemma Td_positive (Ge Ke D1 Kp1 nr : R) :
  0 < Ge -> Ke = Ge * (5 / 3) -> 0 < nr <= 0.2 -> D1 <= 0.41 ->
  - (Ge * 0.8625) <= Kp1 ->
  0 < 2 * Ge - sqrt (2 / 3) * Ke * D1 * (nr + 0.0) + Kp1.
Proof.
  intros HG HK Hnr HD HKp.
  pose proof sqrt_two_thirds as Hs.
  set (s := sqrt (2 / 3)) in *. clearbody s.
  replace (nr + 0.0) with nr by lra.
  assert (Ht : 0 <= s * Ke * nr <= Ke * 0.2).
  { assert (0 < Ke) by lra. split.
    - apply Rmult_le_pos; [apply Rmult_le_pos|]; lra.
    - assert (s * Ke <= Ke) by nra. assert (0 <= s * Ke) by nra. nra. }
  replace (s * Ke * D1 * nr) with (D1 * (s * Ke * nr)) by ring.
  set (t := s * Ke * nr) in *. clearbody t.
  assert (D1 * t <= 0.41 * t) by (apply Rmult_le_compat_r; lra).
  subst Ke. lra.
Qed.

Lemma sumsq_pure_shear (x : R) : sumsq (pure_shear x) = 2 * (x * x).
Proof. unfold pure_shear. mat_compute. ring. Qed.

Lemma R_bar_pure_shear : 0.1 <= sqrt (1.5 * sumsq (pure_shear 0.1)).
Proof.
  rewrite sumsq_pure_shear.
  rewrite <- (sqrt_square 0.1) at 1 by lra.
  apply sqrt_le_1_alt. lra.
Qed.

Lemma loaded_sand_par : Li2002.par loaded_sand = Li2002.par Li2002.default.
Proof. reflexivity. Qed.

Lemma g_bar_loaded_sand (x : R) : 0 < Li2002.g_theta loaded_sand (pure_shear x).
Proof.
  rewrite g_theta_pure_shear.
  change (Li2002.c loaded_sand) with 0.75.
  apply Rdiv_lt_0_compat; [lra|]. apply Rplus_lt_le_0_compat; [lra|].
  apply pow_le. lra.
Qed.

(** A call of [update_parameters] by hand, outside any driver run, that
    lowers [L1]: on the default sand at void ratio 0.75 with [beta = 101000],
    for the snapshot [StateParameters(zeros, shear_stress, eye(3), zeros)],
    it returns with [L1] strictly below its value before the call.
    Mechanism 1 is plastic, the loading index [Tij:dstrain] is negative, and
    it is added to [L1] as it is. *)
Lemma update_parameters_lowers_L1 :
  exists (self' : Li2002.t) (sp' : StateParameters.t),
    Li2002.update_parameters no_root loaded_sand reversal_snapshot = Ok (self', sp')
    /\ Li2002.L1 self' < Li2002.L1 loaded_sand.
Proof.
  pose proof R_bar_pure_shear as HRb.
  pose proof (g_bar_loaded_sand 0.1) as Hgb.
  pose proof (g_bar_loaded_sand 10100) as Hg.
  set (R_bar := sqrt (1.5 * sumsq (pure_shear 0.1))) in *.
  set (g_bar := Li2002.g_theta loaded_sand (pure_shear 0.1)) in *.
  destruct (@update_parameters_plastic1 no_root loaded_sand reversal_snapshot 0.75
              (pure_shear 0.1) R_bar g_bar)
    as [self' [sp' [Hrun HL]]].
  - reflexivity.
  - reflexivity.
  - reflexivity.
  - rewrite reversal_snapshot_rij. change (Li2002.alpha loaded_sand) with zeros33.
    replace (msub (pure_shear 0.1) zeros33) with (pure_shear 0.1)
      by (unfold pure_shear; mat_compute; arr_eq; lra).
    unfold norm. rewrite sumsq_pure_shear.
    replace 1e-6 with (sqrt (1e-6 * 1e-6)) by (apply sqrt_square; lra).
    apply sqrt_le_1_alt. lra.
  - rewrite reversal_snapshot_rij. change (Li2002.alpha loaded_sand) with zeros33.
    unfold Li2002.mapping_r.
    replace (madd zeros33 (mscale 1.0 (msub (pure_shear 0.1) zeros33)))
      with (pure_shear 0.1)
      by (unfold pure_shear; mat_compute; arr_eq; lra).
    reflexivity.
  - change (Li2002.H1 loaded_sand) with 0.0. lra.
  - rewrite reversal_snapshot_p. change (Li2002.beta loaded_sand) with 101000.
    replace (101000 - 101000) with 0 by lra. apply Rabs_R0.
  - exists self', sp'. split; [exact Hrun|].
    rewrite HL. clear HL Hrun.
    rewrite reversal_snapshot_dstrain, reversal_snapshot_p, reversal_snapshot_sij,
      reversal_snapshot_rij.
    destruct (@default_moduli loaded_sand 0.75 101000 loaded_sand_par) as [HGe HKe];
      [lra|].
    set (Ge := fst (Li2002.elastic_modulus loaded_sand 0.75 101000)) in *.
    set (Ke := snd (Li2002.elastic_modulus loaded_sand 0.75 101000)) in *.
    clearbody Ge Ke.
    rewrite (@state_parameter_at_reference loaded_sand loaded_sand_par).
    set (g := Li2002.g_theta loaded_sand (pure_shear 10100)) in *. clearbody g.
    destruct (@flow_direction_pure_shear loaded_sand (pure_shear 10100) 0.1 R_bar g_bar)
      as [D HD].
    { apply Lode_angle_pure_shear. }
    { change (Li2002.eps loaded_sand) with 1e-6. rewrite Rabs_pos_eq; lra. }
    rewrite HD. clear HD.
    set (X := 1.5 / (R_bar * g_bar) ^ 2 * (R_bar * g_bar * 0.1)).
    assert (HX : 0 < X).
    { unfold X. apply Rmult_lt_0_compat.
      - apply Rdiv_lt_0_compat; [lra|]. apply pow_lt. apply Rmult_lt_0_compat; lra.
      - apply Rmult_lt_0_compat; [apply Rmult_lt_0_compat|]; lra. }
    clearbody X g_bar R_bar.
    destruct (@shear_form_direction D X 0.1 HX) as [Htr Hnr]; [lra|].
    set (nij := mdiv (shear_form D X) (norm (shear_form D X))) in *. clearbody nij.
    set (h := (Li2002.h1 loaded_sand - Li2002.h2 loaded_sand * 0.75)
              * ((1.0 / 1.0) ^ 10
                 + Li2002.h3 loaded_sand
                   * Li2002.accumulated_load_index loaded_sand (Li2002.L1 loaded_sand)
                   * (1 - (1.0 / 1.0) ^ 10))).
    assert (Hh : h = 0.8625).
    { unfold h. replace (1.0 / 1.0) with 1 by lra. rewrite pow1.
      change (Li2002.h1 loaded_sand) with 3.15.
      change (Li2002.h2 loaded_sand) with 3.05. lra. }
    clearbody h. subst h.
    set (R0 := StateParameters.R_ reversal_snapshot).
    assert (HR0 : 0 <= R0) by (apply sqrt_pos).
    clearbody R0.
    pose proof (@plastic_modulus1_lower loaded_sand Ge R_bar g_bar 0.8625 (-0.165)) as HKp.
    pose proof (@dilatancy1_upper loaded_sand R0 g (-0.165) loaded_sand_par HR0 Hg) as HD1.
    set (Kp := Li2002.plastic_modulus1 loaded_sand Ge R_bar g_bar 1.0 0.8625 (-0.165)) in *.
    set (D1 := Li2002.dilatancy1 loaded_sand R0 g 1.0 (-0.165)) in *.
    clearbody Kp D1.
    assert (HKp' : - (Ge * 0.8625) <= fst Kp).
    { apply HKp; try lra. change (Li2002.M loaded_sand) with 1.25. lra. }
    assert (HD1' : D1 <= 0.41) by (apply HD1; lra).
    assert (HLL : ddot (Tij_plastic1 nij (pure_shear 0.1) Ge Ke D1 (fst Kp)) eye3 < 0).
    { apply Tij_plastic1_unloads; [exact Htr | lra | lra |].
      apply Td_positive; [exact HGe | exact HKe | lra | exact HD1' | exact HKp']. }
    lra.
Qed.

(** A snapshot of [shear_stress], whatever the strain, the increments and the
    flags it is built with. *)
Lemma init_shear_stress (strain dstrain dstress : mat3) (f1 f2 : bool) :
  let sp := StateParameters.init strain shear_stress dstrain dstress f1 f2 in
  StateParameters.p sp = 101000
  /\ StateParameters.sij sp = pure_shear 10100
  /\ StateParameters.rij sp = pure_shear 0.1
  /\ StateParameters.R_ sp = sqrt (1.5 * sumsq (pure_shear 0.1)).
Proof.
  intros sp.
  assert (Hp : StateParameters.p sp = 101000).
  { unfold sp, StateParameters.init, StateParameters.set_stress_increment,
      StateParameters.set_stress_variable.
    sp_simpl. unfold shear_stress. mat_compute. lra. }
  assert (Hs : StateParameters.sij sp = pure_shear 10100).
  { unfold sp, StateParameters.init, StateParameters.set_stress_increment,
      StateParameters.set_stress_variable.
    sp_simpl. unfold shear_stress, pure_shear. mat_compute. arr_eq; lra. }
  assert (Hr : StateParameters.rij sp = pure_shear 0.1).
  { unfold sp, StateParameters.init, StateParameters.set_stress_increment,
      StateParameters.set_stress_variable.
    sp_simpl. unfold shear_stress, pure_shear. mat_compute.
    replace ((101000 + 101000 + 101000) / 3) with 101000 by lra.
    unfold py_max. rewrite (@Rltb_false 101000 1.0) by lra.
    arr_eq; lra. }
  repeat split; try assumption.
  change (StateParameters.R_ sp) with (sqrt (1.5 * sumsq (StateParameters.rij sp))).
  rewrite Hr. reflexivity.
Qed.

(** The loading index of a volumetric expansion is negative at that state. *)
Lemma sheared_Tij_volumetric : ddot sheared_Tij eye3 < 0.
Proof.
  unfold sheared_Tij. cbv zeta.
  pose proof R_bar_pure_shear as HRb.
  pose proof (g_bar_loaded_sand 0.1) as Hgb.
  pose proof (g_bar_loaded_sand 10100) as Hg.
  change (Li2002.g_theta sheared_sand) with (Li2002.g_theta loaded_sand).
  set (R_bar := sqrt (1.5 * sumsq (pure_shear 0.1))) in *.
  set (g_bar := Li2002.g_theta loaded_sand (pure_shear 0.1)) in *.
  assert (Hpar : Li2002.par sheared_sand = Li2002.par Li2002.default) by reflexivity.
  destruct (@default_moduli sheared_sand 0.75 101000 Hpar) as [HGe HKe]; [lra|].
  set (Ge := fst (Li2002.elastic_modulus sheared_sand 0.75 101000)) in *.
  set (Ke := snd (Li2002.elastic_modulus sheared_sand 0.75 101000)) in *.
  clearbody Ge Ke.
  rewrite (@state_parameter_at_reference sheared_sand Hpar).
  set (g := Li2002.g_theta loaded_sand (pure_shear 10100)) in *. clearbody g.
  destruct (@flow_direction_pure_shear sheared_sand (pure_shear 10100) 0.1 R_bar g_bar)
    as [D HD].
  { apply Lode_angle_pure_shear. }
  { change (Li2002.eps sheared_sand) with 1e-6. rewrite Rabs_pos_eq; lra. }
  rewrite HD. clear HD.
  set (X := 1.5 / (R_bar * g_bar) ^ 2 * (R_bar * g_bar * 0.1)).
  assert (HX : 0 < X).
  { unfold X. apply Rmult_lt_0_compat.
    - apply Rdiv_lt_0_compat; [lra|]. apply pow_lt. apply Rmult_lt_0_compat; lra.
    - apply Rmult_lt_0_compat; [apply Rmult_lt_0_compat|]; lra. }
  assert (HR0 : 0 <= R_bar) by (apply sqrt_pos).
  clearbody X g_bar R_bar.
  destruct (@shear_form_direction D X 0.1 HX) as [Htr Hnr]; [lra|].
  set (nij := mdiv (shear_form D X) (norm (shear_form D X))) in *. clearbody nij.
  set (h := (Li2002.h1 sheared_sand - Li2002.h2 sheared_sand * 0.75)
            * ((1.0 / 1.0) ^ 10
               + Li2002.h3 sheared_sand
                 * Li2002.accumulated_load_index sheared_sand (Li2002.L1 sheared_sand)
                 * (1 - (1.0 / 1.0) ^ 10))).
  assert (Hh : h = 0.8625).
  { unfold h. replace (1.0 / 1.0) with 1 by lra. rewrite pow1.
    change (Li2002.h1 sheared_sand) with 3.15.
    change (Li2002.h2 sheared_sand) with 3.05. lra. }
  clearbody h. subst h.
  pose proof (@plastic_modulus1_lower sheared_sand Ge R_bar g_bar 0.8625 (-0.165)) as HKp.
  pose proof (@dilatancy1_upper sheared_sand R_bar g (-0.165) Hpar HR0 Hg) as HD1.
  set (Kp := Li2002.plastic_modulus1 sheared_sand Ge R_bar g_bar 1.0 0.8625 (-0.165)) in *.
  set (D1 := Li2002.dilatancy1 sheared_sand R_bar g 1.0 (-0.165)) in *.
  clearbody Kp D1.
  assert (HKp' : - (Ge * 0.8625) <= fst Kp).
  { apply HKp; try lra. change (Li2002.M sheared_sand) with 1.25. lra. }
  assert (HD1' : D1 <= 0.41) by (apply HD1; lra).
  apply Tij_plastic1_unloads; [exact Htr | lra | lra |].
  apply Td_positive; [exact HGe | exact HKe | lra | exact HD1' | exact HKp'].
Qed.

Lemma ddot_mscale_r (k : R) (a b : mat3) : ddot a (mscale k b) = k * ddot a b.
Proof.
  destruct a as [[? ? ?] [? ? ?] [? ? ?]], b as [[? ? ?] [? ? ?] [? ? ?]].
  mat_compute. ring.
Qed.

(** The ratio [rij] of that state is not the centre [alpha] of the model. *)
Lemma pure_shear_not_zeros : pure_shear 0.1 <> zeros33.
Proof.
  intros H.
  assert (H01 : (pure_shear 0.1).[I0,I1] = zeros33.[I0,I1]) by (rewrite H; reflexivity).
  unfold pure_shear in H01. mat_compute_in H01. lra.
Qed.

Section ShearedSand.

Variable brentq : (R -> R) -> R -> R -> res R.

(** The evaluation of a fresh snapshot of the sheared sand: mechanism 1 is
    plastic, outside the surface (its size [H1] is still 0), and mechanism 2
    is elastic because the mean stress is [beta].  The root finder is not
    called. *)
Lemma evaluate_sheared_sand (dstrain dstress : mat3) :
  let sp := StateParameters.init (Li2002.strain sheared_sand) (Li2002.stress sheared_sand)
              dstrain dstress false false in
  exists sp' : StateParameters.t,
    Li2002.evaluate brentq sheared_sand sp
    = Ok (Li2002.set_H1 sheared_H1 sheared_sand, sp')
    /\ same_core sp sp'
    /\ StateParameters.elastic_flag1 sp' = false
    /\ StateParameters.elastic_flag2 sp' = true
    /\ StateParameters.matr "Tij" sp' = Ok sheared_Tij
    /\ StateParameters.matr "Zij" sp' = Ok zeros33
    /\ exists Kp1_b : R, StateParameters.num "Kp1_b" sp' = Ok Kp1_b.
Proof.
  intros sp.
  change (Li2002.strain sheared_sand) with zeros33 in sp.
  change (Li2002.stress sheared_sand) with shear_stress in sp.
  destruct (init_shear_stress zeros33 dstrain dstress false false)
    as [Hp [Hs [Hr HR]]].
  fold sp in Hp, Hs, Hr, HR.
  pose proof R_bar_pure_shear as HRb.
  pose proof (g_bar_loaded_sand 0.1) as Hgb.
  destruct (@evaluate_plastic1 brentq sheared_sand sp 0.75 (pure_shear 0.1)
              (sqrt (1.5 * sumsq (pure_shear 0.1)))
              (Li2002.g_theta sheared_sand (pure_shear 0.1)))
    as [sp' [E [Hc [G1 [G2 [HT [HZ HK]]]]]]].
  - reflexivity.
  - reflexivity.
  - reflexivity.
  - rewrite Hr. change (Li2002.alpha sheared_sand) with zeros33.
    replace (msub (pure_shear 0.1) zeros33) with (pure_shear 0.1)
      by (unfold pure_shear; mat_compute; arr_eq; lra).
    unfold norm. rewrite sumsq_pure_shear.
    replace 1e-6 with (sqrt (1e-6 * 1e-6)) by (apply sqrt_square; lra).
    apply sqrt_le_1_alt. lra.
  - rewrite Hr. change (Li2002.alpha sheared_sand) with zeros33.
    unfold Li2002.mapping_r.
    replace (madd zeros33 (mscale 1.0 (msub (pure_shear 0.1) zeros33)))
      with (pure_shear 0.1)
      by (unfold pure_shear; mat_compute; arr_eq; lra).
    reflexivity.
  - change (Li2002.H1 sheared_sand) with 0.0.
    change (Li2002.g_theta sheared_sand (pure_shear 0.1))
      with (Li2002.g_theta loaded_sand (pure_shear 0.1)).
    lra.
  - rewrite Hp. change (Li2002.beta sheared_sand) with 101000.
    replace (101000 - 101000) with 0 by lra. apply Rabs_R0.
  - exists sp'. rewrite Hp, Hs, Hr, HR in HT.
    split; [exact E|]. split; [exact Hc|]. split; [exact G1|]. split; [exact G2|].
    split; [exact HT|]. split; [exact HZ|]. eexists. exact HK.
Qed.

(** The unload check after an expansion: mechanism 1 unloads and [alpha]
    moves to the current ratio. *)
Lemma check_unload_sheared_sand_unloads :
  exists sp' : StateParameters.t,
    Li2002.check_unload brentq sheared_sand unloading_snapshot
    = Ok (Li2002.set_alpha (pure_shear 0.1) (Li2002.set_H1 sheared_H1 sheared_sand),
          sp', (true, false))
    /\ StateParameters.matr "Tij" sp' = Ok sheared_Tij.
Proof.
  destruct (evaluate_sheared_sand eye3 zeros33)
    as [sp' [E [Hc [G1 [G2 [HT [HZ _]]]]]]].
  fold unloading_snapshot in E, Hc.
  destruct Hc as [_ [_ [_ [Hd [_ [_ [_ [Hr _]]]]]]]].
  destruct (init_shear_stress zeros33 eye3 zeros33 false false) as [_ [_ [Hr0 _]]].
  exists sp'. split; [|exact HT].
  unfold Li2002.check_unload. rewrite E. cbn [bind]. rewrite HT. cbn [bind].
  rewrite Hd. change (StateParameters.dstrain unloading_snapshot) with eye3.
  rewrite (@Rltb_true _ 0.0) by (pose proof sheared_Tij_volumetric; lra).
  rewrite HZ. cbn [bind]. rewrite ddot_zeros_l.
  rewrite (@Rltb_false 0 0.0) by lra.
  rewrite Hr. change (StateParameters.rij unloading_snapshot)
    with (StateParameters.rij (StateParameters.init zeros33 shear_stress eye3 zeros33
                                 false false)).
  rewrite Hr0. reflexivity.
Qed.

(** The unload check after a compression: mechanism 1 keeps loading and
    [alpha] stays where it was. *)
Lemma check_unload_sheared_sand_loads :
  exists sp' : StateParameters.t,
    Li2002.check_unload brentq sheared_sand loading_snapshot
    = Ok (Li2002.set_H1 sheared_H1 sheared_sand, sp', (false, false))
    /\ StateParameters.matr "Tij" sp' = Ok sheared_Tij.
Proof.
  destruct (evaluate_sheared_sand (mscale (-1) eye3) zeros33)
    as [sp' [E [Hc [G1 [G2 [HT [HZ _]]]]]]].
  fold loading_snapshot in E, Hc.
  destruct Hc as [_ [_ [_ [Hd _]]]].
  exists sp'. split; [|exact HT].
  unfold Li2002.check_unload. rewrite E. cbn [bind]. rewrite HT. cbn [bind].
  rewrite Hd. change (StateParameters.dstrain loading_snapshot) with (mscale (-1) eye3).
  rewrite ddot_mscale_r.
  rewrite (@Rltb_false _ 0.0) by (pose proof sheared_Tij_volumetric; lra).
  rewrite HZ. cbn [bind]. rewrite ddot_zeros_l.
  rewrite (@Rltb_false 0 0.0) by lra.
  reflexivity.
Qed.

(** The update after an expansion: mechanism 1 is plastic and the negative
    loading index is added to [L1]. *)
Lemma update_parameters_sheared_sand_unloads :
  exists (self' : Li2002.t) (sp' : StateParameters.t),
    Li2002.update_parameters brentq sheared_sand unloading_snapshot = Ok (self', sp')
    /\ StateParameters.elastic_flag1 sp' = false
    /\ StateParameters.matr "Tij" sp' = Ok sheared_Tij.
Proof.
  destruct (evaluate_sheared_sand eye3 zeros33)
    as [sp' [E [Hc [G1 [G2 [HT [HZ [k HK]]]]]]]].
  fold unloading_snapshot in E, Hc.
  unfold Li2002.update_parameters. rewrite E. cbn [bind]. rewrite HT. cbn [bind].
  rewrite HZ. cbn [bind]. rewrite G1, G2. cbn [negb bind]. rewrite HK. cbn [bind].
  do 2 eexists. split; [reflexivity|]. split; [exact G1 | exact HT].
Qed.

End ShearedSand.

Lemma persistent_scalars_updates_witness :
  exists (self' : Li2002.t) (sp' : StateParameters.t),
    Li2002.update_parameters no_root sheared_sand unloading_snapshot = Ok (self', sp')
    /\ StateParameters.elastic_flag1 sp' = false
    /\ Li2002.L1 self' < Li2002.L1 sheared_sand
    /\ exists (self1 : Li2002.t) (Tij Zij : mat3),
         Li2002.evaluate no_root sheared_sand unloading_snapshot = Ok (self1, sp')
         /\ Li2002.L1 self1 = Li2002.L1 sheared_sand
         /\ Li2002.H2 sheared_sand <= Li2002.H2 self1
         /\ StateParameters.matr "Tij" sp' = Ok Tij
         /\ StateParameters.matr "Zij" sp' = Ok Zij
         /\ Li2002.L1 self'
            = (if StateParameters.elastic_flag1 sp' then Li2002.L1 sheared_sand
               else Li2002.L1 sheared_sand
                    + ddot Tij (StateParameters.dstrain unloading_snapshot))
         /\ (Li2002.L1 sheared_sand <= Li2002.L1 self' <->
             StateParameters.elastic_flag1 sp' = true
             \/ 0 <= ddot Tij (StateParameters.dstrain unloading_snapshot))
         /\ (if StateParameters.elastic_flag2 sp'
             then Li2002.H2 self' = Li2002.H2 self1
             else exists Kp2_b : R,
                 StateParameters.num "Kp2_b" sp' = Ok Kp2_b
                 /\ Li2002.H2 self'
                    = Li2002.H2 self1
                      + Kp2_b * ddot Zij (StateParameters.dstrain unloading_snapshot)).
Proof.
  destruct (update_parameters_sheared_sand_unloads no_root) as [self' [sp' [Hrun [G1 HT]]]].
  exists self', sp'. split; [exact Hrun|]. split; [exact G1|].
  pose proof (@persistent_scalars_updates no_root sheared_sand self' unloading_snapshot sp'
                Hrun) as Hthm.
  split; [|exact Hthm].
  destruct Hthm as [self1 [Tij [Zij [_ [_ [_ [HT' [_ [HL _]]]]]]]]].
  assert (ET : Tij = sheared_Tij) by congruence. subst Tij.
  rewrite HL, G1.
  change (StateParameters.dstrain unloading_snapshot) with eye3.
  pose proof sheared_Tij_volumetric. lra.
Defined.

Lemma check_unload_mechanism1_witness :
  (StateParameters.elastic_flag1 unloading_snapshot = false
   /\ exists (self' : Li2002.t) (sp' : StateParameters.t) (Tij : mat3),
        Li2002.check_unload no_root sheared_sand unloading_snapshot
          = Ok (self', sp', (true, false))
        /\ StateParameters.matr "Tij" sp' = Ok Tij
        /\ ddot Tij (StateParameters.dstrain unloading_snapshot) < 0
        /\ Li2002.alpha self' = StateParameters.rij unloading_snapshot
        /\ Li2002.alpha self' <> Li2002.alpha sheared_sand)
  /\ (StateParameters.elastic_flag1 loading_snapshot = false
      /\ exists (self' : Li2002.t) (sp' : StateParameters.t) (Tij : mat3),
           Li2002.check_unload no_root sheared_sand loading_snapshot
             = Ok (self', sp', (false, false))
           /\ StateParameters.matr "Tij" sp' = Ok Tij
           /\ 0 <= ddot Tij (StateParameters.dstrain loading_snapshot)
           /\ Li2002.alpha self' = Li2002.alpha sheared_sand
           /\ Li2002.alpha self' <> StateParameters.rij loading_snapshot).
Proof.
  pose proof sheared_Tij_volumetric as Hsign.
  destruct (init_shear_stress zeros33 eye3 zeros33 false false) as [_ [_ [Hr1 _]]].
  destruct (init_shear_stress zeros33 (mscale (-1) eye3) zeros33 false false)
    as [_ [_ [Hr2 _]]].
  split.
  - split; [reflexivity|].
    destruct (check_unload_sheared_sand_unloads no_root) as [sp' [Hrun HT]].
    destruct (@check_unload_mechanism1 no_root sheared_sand _ unloading_snapshot _ _ _
                eq_refl Hrun) as [Tij [HT' [Hneg _]]].
    assert (ET : Tij = sheared_Tij) by congruence. subst Tij.
    assert (Hd : ddot sheared_Tij (StateParameters.dstrain unloading_snapshot) < 0)
      by exact Hsign.
    destruct (Hneg Hd) as [_ Ha].
    eexists. exists sp', sheared_Tij.
    split; [exact Hrun|]. split; [exact HT|]. split; [exact Hd|]. split; [exact Ha|].
    rewrite Ha.
    change (StateParameters.rij unloading_snapshot)
      with (StateParameters.rij (StateParameters.init zeros33 shear_stress eye3 zeros33
                                   false false)).
    rewrite Hr1. exact pure_shear_not_zeros.
  - split; [reflexivity|].
    destruct (check_unload_sheared_sand_loads no_root) as [sp' [Hrun HT]].
    destruct (@check_unload_mechanism1 no_root sheared_sand _ loading_snapshot _ _ _
                eq_refl Hrun) as [Tij [HT' [_ Hpos]]].
    assert (ET : Tij = sheared_Tij) by congruence. subst Tij.
    assert (Hd : 0 <= ddot sheared_Tij (StateParameters.dstrain loading_snapshot)).
    { change (StateParameters.dstrain loading_snapshot) with (mscale (-1) eye3).
      rewrite ddot_mscale_r. lra. }
    destruct (Hpos Hd) as [_ Ha].
    eexists. exists sp', sheared_Tij.
    split; [exact Hrun|]. split; [exact HT|]. split; [exact Hd|]. split; [exact Ha|].
    rewrite Ha.
    change (StateParameters.rij loading_snapshot)
      with (StateParameters.rij (StateParameters.init zeros33 shear_stress
                                   (mscale (-1) eye3) zeros33 false false)).
    rewrite Hr2. change (Li2002.alpha sheared_sand) with zeros33.
    intros H. apply pure_shear_not_zeros. symmetry. exact H.
Defined.

Section UnloadingStep.

Variable brentq : (R -> R) -> R -> R -> res R.

(** A step of the engine from that state, with every component
    strain-prescribed: the check finds mechanism 1 unloading, [alpha] moves to
    the current ratio, and the rest of the step is elastic.  The root finder
    is not called. *)
Lemma plastic_deformation_sheared_sand_unloads (dstrain_given dstress_given : mat3) :
  exists (self' : Li2002.t) (out : mat3 * mat3 * StateParameters.t),
    Li2002.plastic_deformation brentq sheared_sand dstrain_given dstress_given
      (all_mask false) unloading_snapshot = Ok (self', out)
    /\ Li2002.alpha self' = pure_shear 0.1
    /\ Li2002.beta self' = Li2002.beta sheared_sand.
Proof.
  destruct (check_unload_sheared_sand_unloads brentq) as [sp1 [HC _]].
  unfold Li2002.plastic_deformation. rewrite HC. cbn [bind].
  set (self1 := Li2002.set_alpha (pure_shear 0.1)
                  (Li2002.set_H1 sheared_H1 sheared_sand)).
  change (Li2002.strain self1) with zeros33.
  change (Li2002.stress self1) with shear_stress.
  destruct (init_shear_stress zeros33 dstrain_given dstress_given true false)
    as [Hp [_ [Hr _]]].
  remember (StateParameters.init zeros33 shear_stress dstrain_given dstress_given
              true false) as sp eqn:Hsp.
  assert (Hg1 : StateParameters.elastic_flag1 sp = true) by (subst sp; reflexivity).
  assert (Hg2 : StateParameters.elastic_flag2 sp = false) by (subst sp; reflexivity).
  clear Hsp.
  destruct (@plastic_stiffness_elastic brentq self1 sp 0.75) as [sp' [Ep HP]].
  - reflexivity.
  - rewrite recentred_alpha, Hg1, norm_msub_self. lra.
  - rewrite recentred_beta, Hg2, Hp. change (Li2002.beta self1) with 101000.
    replace (101000 - 101000) with 0 by lra. apply Rabs_R0.
  - rewrite HP. cbn [bind].
    rewrite solve_all_strain_prescribed. cbn [bind].
    assert (Hre : recentred self1 sp = self1).
    { unfold recentred. rewrite Hg1, Hg2, Hr. reflexivity. }
    rewrite Hre.
    change (Li2002.strain self1) with zeros33.
    change (Li2002.stress self1) with shear_stress.
    destruct (init_shear_stress zeros33 dstrain_given (contract Ep dstrain_given)
                false false) as [Hp2 [_ [Hr2 _]]].
    remember (StateParameters.init zeros33 shear_stress dstrain_given
                (contract Ep dstrain_given) false false) as sp2 eqn:Hsp2.
    assert (Hk1 : StateParameters.elastic_flag1 sp2 = false) by (subst sp2; reflexivity).
    assert (Hk2 : StateParameters.elastic_flag2 sp2 = false) by (subst sp2; reflexivity).
    clear Hsp2.
    assert (Hre2 : recentred self1 sp2 = self1).
    { unfold recentred. rewrite Hk1, Hk2. reflexivity. }
    destruct (@update_parameters_elastic brentq self1 sp2 0.75) as [sp2' HU].
    + reflexivity.
    + rewrite Hre2, Hr2. change (Li2002.alpha self1) with (pure_shear 0.1).
      rewrite norm_msub_self. lra.
    + rewrite Hre2, Hp2. change (Li2002.beta self1) with 101000.
      replace (101000 - 101000) with 0 by lra. apply Rabs_R0.
    + rewrite Hre2 in HU. rewrite HU. cbn [bind].
      do 2 eexists. split; [reflexivity|]. split; reflexivity.
Qed.

End UnloadingStep.

Lemma mapping_centers_move_only_on_unload_witness :
  StateParameters.elastic_flag1 unloading_snapshot = false
  /\ StateParameters.elastic_flag2 unloading_snapshot = false
  /\ exists (self' : Li2002.t) (out : mat3 * mat3 * StateParameters.t),
       Li2002.plastic_deformation no_root sheared_sand eye3 zeros33 (all_mask false)
         unloading_snapshot = Ok (self', out)
       /\ Li2002.alpha self' <> Li2002.alpha sheared_sand
       /\ exists (self1 : Li2002.t) (sp1 : StateParameters.t) (Tij Zij : mat3)
                 (ef1 ef2 : bool),
           Li2002.check_unload no_root sheared_sand unloading_snapshot
             = Ok (self1, sp1, (ef1, ef2))
           /\ StateParameters.matr "Tij" sp1 = Ok Tij
           /\ StateParameters.matr "Zij" sp1 = Ok Zij
           /\ ef1 = Rltb (ddot Tij (StateParameters.dstrain unloading_snapshot)) 0
           /\ ef2 = Rltb (ddot Zij (StateParameters.dstrain unloading_snapshot)) 0
           /\ ef1 = true
           /\ ef2 = false
           /\ Li2002.alpha self'
              = (if ef1
                 then StateParameters.rij
                        (StateParameters.init (Li2002.strain sheared_sand)
                           (Li2002.stress sheared_sand) eye3 zeros33 ef1 ef2)
                 else Li2002.alpha sheared_sand)
           /\ Li2002.beta self'
              = (if ef2
                 then StateParameters.p
                        (StateParameters.init (Li2002.strain sheared_sand)
                           (Li2002.stress sheared_sand) eye3 zeros33 ef1 ef2)
                 else Li2002.beta sheared_sand).
Proof.
  split; [reflexivity|]. split; [reflexivity|].
  destruct (plastic_deformation_sheared_sand_unloads no_root eye3 zeros33)
    as [self' [out [Hrun [Ha _]]]].
  exists self', out. split; [exact Hrun|].
  split.
  { rewrite Ha. change (Li2002.alpha sheared_sand) with zeros33.
    exact pure_shear_not_zeros. }
  destruct (@mapping_centers_move_only_on_unload no_root sheared_sand self'
              eye3 zeros33 (all_mask false) unloading_snapshot out eq_refl eq_refl Hrun)
    as [self1 [sp1 [Tij [Zij [ef1 [ef2 [HC [HT [HZ [H1 [H2 [HA HB]]]]]]]]]]]].
  destruct (check_unload_sheared_sand_unloads no_root) as [sp1' [HC' _]].
  rewrite HC' in HC. injection HC as <- <- <- <-.
  do 6 eexists.
  split; [exact HC'|]. split; [exact HT|]. split; [exact HZ|].
  split; [exact H1|]. split; [exact H2|].
  split; [reflexivity|]. split; [reflexivity|].
  split; [exact HA | exact HB].
Defined.

(** ** C8: the shape function and its derivative at the branch boundary *)

Lemma radicand_positive (c st : R) :
  0 < c < 1 -> Rabs st < 1 / 2 ->
  0 < (1 + c ^ 2) ^ 2 + 4 * c * (1 - c ^ 2) * st.
Proof.
  intros Hc Hst.
  assert (Hid : (1 + c ^ 2) ^ 2 - 4 * c * (1 - c ^ 2) = (c ^ 2 + 2 * c - 1) ^ 2) by ring.
  assert (Hsq : 0 <= (c ^ 2 + 2 * c - 1) ^ 2) by apply pow2_ge_0.
  assert (Hb : 0 < 4 * c * (1 - c ^ 2)) by nra.
  assert (Ha : 1 < (1 + c ^ 2) ^ 2) by nra.
  apply Rabs_def2 in Hst. nra.
Qed.

Lemma regular_is_smooth (c st : R) :
  0 < c < 1 -> st <> 0 -> Rabs st < 1 / 2 ->
  g_regular c st = g_smooth c st /\ dg_regular c st = dg_smooth c st.
Proof.
  intros Hc Hst Hsmall.
  pose proof (@radicand_positive c st Hc Hsmall) as Hrad.
  unfold g_regular, dg_regular, g_smooth, dg_smooth.
  set (a := 1 + c ^ 2) in *. set (b := 4 * c * (1 - c ^ 2)) in *.
  set (S := sqrt (a ^ 2 + b * st)).
  assert (HS : 0 < S) by (apply sqrt_lt_R0; exact Hrad).
  assert (HSS : S * S = a ^ 2 + b * st) by (apply sqrt_sqrt; lra).
  assert (Ha : 0 < a) by (unfold a; nra).
  assert (Hb : 0 < b) by (unfold b; nra).
  assert (Hst' : st = (S * S - a ^ 2) / b) by (rewrite HSS; field; lra).
  assert (HSa : S - a <> 0).
  { intros H0. apply Hst. rewrite Hst'. replace S with a by lra. field. lra. }
  clearbody S. rewrite Hst'. unfold b in *.
  split; field; repeat split; try lra; nra.
Qed.

Lemma smooth_at_zero (c : R) :
  0 < c < 1 ->
  g_smooth c 0 = g_degenerate c /\ dg_smooth c 0 = dg_degenerate c.
Proof.
  intros Hc. unfold g_smooth, dg_smooth, g_degenerate, dg_degenerate.
  replace ((1 + c ^ 2) ^ 2 + 4 * c * (1 - c ^ 2) * 0) with ((1 + c ^ 2) * (1 + c ^ 2))
    by ring.
  rewrite sqrt_square by nra.
  split; field; nra.
Qed.

Lemma smooth_continuous (c : R) :
  0 < c < 1 ->
  continuity_pt (g_smooth c) 0 /\ continuity_pt (dg_smooth c) 0.
Proof.
  intros Hc.
  assert (Hr : sqrt ((1 + c ^ 2) ^ 2 + 4 * c * (1 - c ^ 2) * 0) = 1 + c ^ 2).
  { replace ((1 + c ^ 2) ^ 2 + 4 * c * (1 - c ^ 2) * 0) with ((1 + c ^ 2) * (1 + c ^ 2))
      by ring.
    apply sqrt_square. nra. }
  split; unfold g_smooth, dg_smooth; reg; rewrite ?Hr; nra.
Qed.

(** The limit of a regular branch as [st] tends to 0, from the continuity
    of its smooth form. *)
Lemma regular_limit (c : R) (f h : R -> R) (l : R) :
  0 < c < 1 ->
  (forall st, st <> 0 -> Rabs st < 1 / 2 -> f st = h st) ->
  continuity_pt h 0 -> h 0 = l ->
  forall eps, 0 < eps ->
    exists delta, 0 < delta /\
      forall st, st <> 0 -> Rabs st < delta -> Rabs (f st - l) < eps.
Proof.
  intros Hc Hfh Hcont Hl eps Heps.
  destruct (Hcont eps Heps) as [alp [Halp Hlim]].
  exists (Rmin alp (1 / 2)). split; [apply Rmin_pos; lra|].
  intros st Hst Hd.
  assert (Hd1 : Rabs st < alp) by (eapply Rlt_le_trans; [exact Hd | apply Rmin_l]).
  assert (Hd2 : Rabs st < 1 / 2) by (eapply Rlt_le_trans; [exact Hd | apply Rmin_r]).
  rewrite (Hfh st Hst Hd2), <- Hl.
  apply (Hlim st). split.
  - split; [exact I | intros H0; apply Hst; symmetry; exact H0].
  - simpl. unfold R_dist. rewrite Rminus_0_r. exact Hd1.
Qed.

(** The Lode angle of the zero tensor is 0. *)
Lemma Lode_angle_zeros : Li2002.Lode_angle zeros33 = 0.
Proof.
  unfold Li2002.Lode_angle. cbv zeta.
  replace (0.5 * sumsq zeros33) with 0 by (mat_compute; lra).
  rewrite (@Reqb_true 0 0 eq_refl), asin_0. lra.
Qed.

(** In exact arithmetic, for a shape constant [0 < c < 1]: as [sin(3 theta)]
    tends to 0 the regular branch of [g_theta] tends to [c(1+c)/(1+c^2)] and
    the regular branch of [dg_theta] to [-c^2(1-c)(1+c)^2/(1+c^2)^3]; and
    where the Lode angle is 0 both functions return exactly those closed
    forms.  The formulas are continuous: what the program computes near the
    boundary, below, is an effect of rounding. *)
Lemma shape_functions_continuous_at_branch (self : Li2002.t) :
  0 < Li2002.c self < 1 ->
  (forall eps, 0 < eps ->
     exists delta, 0 < delta /\
       forall dev : mat3,
         sin (3 * Li2002.Lode_angle dev) <> 0 ->
         Rabs (sin (3 * Li2002.Lode_angle dev)) < delta ->
         Rabs (Li2002.g_theta self dev - g_degenerate (Li2002.c self)) < eps)
  /\ (forall eps, 0 < eps ->
       exists delta, 0 < delta /\
         forall theta : R,
           sin (3 * theta) <> 0 ->
           Rabs (sin (3 * theta)) < delta ->
           Rabs (Li2002.dg_theta self theta - dg_degenerate (Li2002.c self)) < eps)
  /\ (forall dev : mat3,
       Li2002.Lode_angle dev = 0 ->
       Li2002.g_theta self dev = g_degenerate (Li2002.c self))
  /\ Li2002.dg_theta self 0 = dg_degenerate (Li2002.c self).
Proof.
  intros Hc.
  destruct (@smooth_continuous (Li2002.c self) Hc) as [Hcg Hcd].
  destruct (@smooth_at_zero (Li2002.c self) Hc) as [Hg0 Hd0].
  assert (Hsin0 : sin (3 * 0) = 0) by (rewrite Rmult_0_r; apply sin_0).
  split; [|split; [|split]].
  - intros eps Heps.
    destruct (@regular_limit (Li2002.c self) (g_regular (Li2002.c self))
                (g_smooth (Li2002.c self)) _ Hc
                (fun st H1 H2 => proj1 (@regular_is_smooth _ st Hc H1 H2))
                Hcg Hg0 eps Heps) as [delta [Hdelta Hlim]].
    exists delta. split; [exact Hdelta|].
    intros dev Hst Hsmall.
    replace (Li2002.g_theta self dev)
      with (g_regular (Li2002.c self) (sin (3 * Li2002.Lode_angle dev))).
    + apply Hlim; assumption.
    + unfold Li2002.g_theta, g_regular. cbv zeta.
      rewrite (@Reqb_false _ 0 Hst). reflexivity.
  - intros eps Heps.
    destruct (@regular_limit (Li2002.c self) (dg_regular (Li2002.c self))
                (dg_smooth (Li2002.c self)) _ Hc
                (fun st H1 H2 => proj2 (@regular_is_smooth _ st Hc H1 H2))
                Hcd Hd0 eps Heps) as [delta [Hdelta Hlim]].
    exists delta. split; [exact Hdelta|].
    intros theta Hst Hsmall.
    replace (Li2002.dg_theta self theta)
      with (dg_regular (Li2002.c self) (sin (3 * theta))).
    + apply Hlim; assumption.
    + unfold Li2002.dg_theta, dg_regular. cbv zeta.
      rewrite (@Reqb_false _ 0 Hst). reflexivity.
  - intros dev H0. unfold Li2002.g_theta, g_degenerate. cbv zeta.
    rewrite H0, Hsin0, (@Reqb_true 0 0 eq_refl). reflexivity.
  - unfold Li2002.dg_theta, dg_degenerate. cbv zeta.
    rewrite Hsin0, (@Reqb_true 0 0 eq_refl). reflexivity.
Qed.

Section Binary64.

Import PrimFloat.
Local Open Scope float_scope.

(** C8 (the code near the branch boundary).  In binary64, with the default
    [c = 0.75]: at [st = 0] [g_theta] returns 0.84 and [dg_theta] -0.112896,
    the closed forms.  On the regular branch [g_theta] returns 0.0 at
    [st = 1e-16], at [st = 2^-53] and at [st = 0x1.df42ae21df728p-56] (about
    2.6e-17, the value of [s3] in [Lode_angle] for the deviator
    [diag(1, -1, 1e-17)]), and a value above 2 at [st = 1.8e-16];
    [dg_theta] returns a value below -2 at [st = 1e-8] and one above 8000 at
    [st = 1e-10]: in [sqrt(a^2 + b st) - a] the term [b st] is rounded away or
    leaves a few bits only.  With [c = 1], which the constructor accepts, the
    regular branches return NaN.  The decimal values of [st] are given by the
    binary64 numbers nearest to them. *)
Theorem shape_functions_jump_at_branch :
  let c := 0.75 in
  let st_1e16 := 0x1.cd2b297d889bcp-54 in
  let st_18e17 := 0x1.9f0d3ef0faf29p-53 in
  let st_1e8 := 0x1.5798ee2308c3ap-27 in
  let st_1e10 := 0x1.b7cdfd9d7bdbbp-34 in
  ((0.75 <? Float64.g_theta c 0) && (Float64.g_theta c 0 <? 0.875) = true)%bool
  /\ Float64.g_theta c st_1e16 = 0
  /\ Float64.g_theta c 0x1p-53 = 0
  /\ Float64.g_theta c 0x1.df42ae21df728p-56 = 0
  /\ (2 <? Float64.g_theta c st_18e17) = true
  /\ ((-0.125 <? Float64.dg_theta c 0) && (Float64.dg_theta c 0 <? -0.0625) = true)%bool
  /\ (Float64.dg_theta c st_1e8 <? -2) = true
  /\ (8000 <? Float64.dg_theta c st_1e10) = true
  /\ is_nan (Float64.g_theta 1 0.5) = true
  /\ is_nan (Float64.dg_theta 1 0.5) = true.
Proof.
  cbv zeta.
  repeat match goal with |- _ /\ _ => split end;
    vm_compute; reflexivity.
Qed.

End Binary64.

(** ** C10: what [np.copy] buys a snapshot *)

Lemma heap_read_app_l (h t : heap) (r : ref) :
  (r < length h)%nat -> heap_read (h ++ t) r = heap_read h r.
Proof. intros H. unfold heap_read. apply app_nth1. exact H. Qed.

Lemma heap_read_new (h : heap) (v : mat3) : heap_read (h ++ [v]) (length h) = v.
Proof. unfold heap_read. rewrite app_nth2, Nat.sub_diag by lia. reflexivity. Qed.

Lemma heap_write_other (h : heap) :
  forall (f r : ref) (v : mat3), r <> f -> heap_read (heap_write h f v) r = heap_read h r.
Proof.
  unfold heap_read.
  induction h as [|a h IH]; intros [|f] [|r] v Hne; simpl; try reflexivity.
  - contradiction.
  - apply IH. lia.
Qed.

(** C10.  The constructor of [StateParameters] copies its four array
    arguments: the snapshot's arrays are new objects that hold the values
    of the arguments; constructing the snapshot changes no array that
    existed before (the model's persistent stress and strain among them);
    no later in-place write through an array attribute of the snapshot
    changes an array that existed before; and no in-place write to an array
    that existed before (such as [self.stress += dstress]) changes what the
    snapshot holds. *)
Theorem snapshot_owns_its_arrays
    (h : heap) (strain stress dstrain dstress : ref) :
  (strain < length h)%nat -> (stress < length h)%nat ->
  (dstrain < length h)%nat -> (dstress < length h)%nat ->
  let '(h', sp) := StateParameters_new h strain stress dstrain dstress in
  (forall r : ref, (r < length h)%nat -> heap_read h' r = heap_read h r)
  /\ heap_read h' (strain_ref sp) = heap_read h strain
  /\ heap_read h' (stress_ref sp) = heap_read h stress
  /\ heap_read h' (dstress_ref sp) = heap_read h dstress
  /\ heap_read h' (dstrain_ref sp) = heap_read h dstrain
  /\ (forall (f r : ref) (v : mat3),
        In f (snapshot_arrays sp) -> (r < length h)%nat ->
        heap_read (heap_write h' f v) r = heap_read h r)
  /\ (forall (f r : ref) (v : mat3),
        In f (snapshot_arrays sp) -> (r < length h)%nat ->
        heap_read (heap_write h' r v) f = heap_read h' f).
Proof.
  intros V1 V2 V3 V4.
  unfold StateParameters_new, np_copy, heap_alloc.
  set (h1 := h ++ [heap_read h strain]).
  set (h2 := h1 ++ [heap_read h1 stress]).
  set (h3 := h2 ++ [heap_read h2 dstress]).
  set (h4 := h3 ++ [heap_read h3 dstrain]).
  set (sp := StateParameters.init _ _ _ _ false false).
  set (h5 := h4 ++ [StateParameters.sij sp]).
  set (h6 := h5 ++ [StateParameters.rij sp]).
  cbv beta iota zeta.
  assert (L1 : length h1 = S (length h)) by (unfold h1; rewrite length_app; simpl; lia).
  assert (L2 : length h2 = S (length h1)) by (unfold h2; rewrite length_app; simpl; lia).
  assert (L3 : length h3 = S (length h2)) by (unfold h3; rewrite length_app; simpl; lia).
  assert (L4 : length h4 = S (length h3)) by (unfold h4; rewrite length_app; simpl; lia).
  assert (L5 : length h5 = S (length h4)) by (unfold h5; rewrite length_app; simpl; lia).
  assert (R1 : forall r : ref, (r < length h)%nat -> heap_read h1 r = heap_read h r)
    by (intros r Hr; apply heap_read_app_l; exact Hr).
  assert (R2 : forall r : ref, (r < length h1)%nat -> heap_read h2 r = heap_read h1 r)
    by (intros r Hr; apply heap_read_app_l; exact Hr).
  assert (R3 : forall r : ref, (r < length h2)%nat -> heap_read h3 r = heap_read h2 r)
    by (intros r Hr; apply heap_read_app_l; exact Hr).
  assert (R4 : forall r : ref, (r < length h3)%nat -> heap_read h4 r = heap_read h3 r)
    by (intros r Hr; apply heap_read_app_l; exact Hr).
  assert (R5 : forall r : ref, (r < length h4)%nat -> heap_read h5 r = heap_read h4 r)
    by (intros r Hr; apply heap_read_app_l; exact Hr).
  assert (R6 : forall r : ref, (r < length h5)%nat -> heap_read h6 r = heap_read h5 r)
    by (intros r Hr; apply heap_read_app_l; exact Hr).
  assert (Hold : forall r : ref, (r < length h)%nat -> heap_read h6 r = heap_read h r).
  { intros r Hr. rewrite R6, R5, R4, R3, R2, R1 by lia. reflexivity. }
  assert (Hfresh : forall f, In f [length h; length h1; length h2; length h3;
                                   length h4; length h5] ->
                             (length h <= f)%nat).
  { intros f Hf. simpl in Hf. lia. }
  split; [exact Hold|].
  split; [|split; [|split; [|split; [|split]]]].
  - cbn [strain_ref]. rewrite R6, R5, R4, R3, R2 by lia. apply heap_read_new.
  - cbn [stress_ref]. rewrite R6, R5, R4, R3 by lia.
    unfold h2. rewrite heap_read_new. apply R1. exact V2.
  - cbn [dstress_ref]. rewrite R6, R5, R4 by lia.
    unfold h3. rewrite heap_read_new. rewrite R2, R1 by lia. reflexivity.
  - cbn [dstrain_ref]. rewrite R6, R5 by lia.
    unfold h4. rewrite heap_read_new. rewrite R3, R2, R1 by lia. reflexivity.
  - intros f r v Hf Hr. rewrite heap_write_other; [apply Hold; exact Hr|].
    apply Hfresh in Hf. lia.
  - intros f r v Hf Hr. apply heap_write_other. apply Hfresh in Hf. lia.
Qed.

Lemma snapshot_owns_its_arrays_witness :
  ((0 < length example_heap)%nat /\ (1 < length example_heap)%nat
   /\ (2 < length example_heap)%nat /\ (3 < length example_heap)%nat)
  /\ let '(h', sp) := StateParameters_new example_heap 0%nat 1%nat 2%nat 3%nat in
     (forall r : ref, (r < length example_heap)%nat ->
                      heap_read h' r = heap_read example_heap r)
     /\ heap_read h' (strain_ref sp) = heap_read example_heap 0%nat
     /\ heap_read h' (stress_ref sp) = heap_read example_heap 1%nat
     /\ heap_read h' (dstress_ref sp) = heap_read example_heap 3%nat
     /\ heap_read h' (dstrain_ref sp) = heap_read example_heap 2%nat
     /\ (forall (f r : ref) (v : mat3),
           In f (snapshot_arrays sp) -> (r < length example_heap)%nat ->
           heap_read (heap_write h' f v) r = heap_read example_heap r)
     /\ (forall (f r : ref) (v : mat3),
           In f (snapshot_arrays sp) -> (r < length example_heap)%nat ->
           heap_read (heap_write h' r v) f = heap_read h' f).
Proof.
  assert (V : (0 < length example_heap)%nat /\ (1 < length example_heap)%nat
              /\ (2 < length example_heap)%nat /\ (3 < length example_heap)%nat)
    by (simpl; lia).
  split; [exact V|].
  destruct V as [V1 [V2 [V3 V4]]].
  exact (@snapshot_owns_its_arrays example_heap 0%nat 1%nat 2%nat 3%nat V1 V2 V3 V4).
Defined.

(** ** C3: the two pressure floors *)

(** C3 (the code at an input between the floors).  For the stress
    [diag(30, 60, 30)], of mean 40, [StateParameters.set_stress_variable]
    divides the deviatoric stress by [max(40, 1.0) = 40] and finds
    [R = 3/4], while [Li2002.set_stress_variable] divides the same
    deviatoric stress by [max(40, 100.0) = 100] and finds [R = 3/10]: the
    two floors are different constants. *)
Theorem pressure_floors_differ :
  StateParameters.pmin
    (StateParameters.init zeros33 low_stress zeros33 zeros33 false false) = 1
  /\ Li2002.pmin Li2002.default = 100
  /\ StateParameters.R_
       (StateParameters.init zeros33 low_stress zeros33 zeros33 false false) = 3 / 4
  /\ snd (Li2002.set_stress_variable Li2002.default low_stress) = 3 / 10.
Proof.
  assert (Hp : (30 + 60 + 30) / 3 = 40) by lra.
  split; [simpl; lra|]. split; [simpl; lra|]. split.
  - unfold StateParameters.init, StateParameters.set_stress_increment,
      StateParameters.set_stress_variable.
    sp_simpl. unfold low_stress. mat_compute. rewrite Hp.
    unfold py_max. rewrite (@Rltb_false 40 1.0) by lra.
    replace (1.5 * _) with ((3 / 4) * (3 / 4)) by lra.
    apply sqrt_square. lra.
  - unfold Li2002.set_stress_variable. cbn [snd].
    unfold low_stress. mat_compute. rewrite Hp.
    change (Li2002.pmin Li2002.default) with 100.0.
    unfold py_max. rewrite (@Rltb_true 40 100.0) by lra.
    replace (1.5 * _) with ((3 / 10) * (3 / 10)) by lra.
    apply sqrt_square. lra.
Qed.

(** The third place: when mechanism 1 is plastic, [update_parameters]
    divides by the mean stress of the snapshot as it is, with no floor. *)
Lemma update_parameters_divides_by_p
    (brentq : (R -> R) -> R -> R -> res R)
    (self self' : Li2002.t) (sp sp' : StateParameters.t) :
  Li2002.update_parameters brentq self sp = Ok (self', sp') ->
  StateParameters.elastic_flag1 sp' = false ->
  exists (self1 : Li2002.t) (Tij : mat3) (Kp1_b : R),
    Li2002.evaluate brentq self sp = Ok (self1, sp')
    /\ StateParameters.matr "Tij" sp' = Ok Tij
    /\ StateParameters.num "Kp1_b" sp' = Ok Kp1_b
    /\ Li2002.H1 self'
       = Li2002.H1 self1
         + Kp1_b * ddot Tij (StateParameters.dstrain sp) / StateParameters.p sp.
Proof.
  intros H Hf.
  apply update_parameters_inv in H.
  destruct H as [self1 [Tij [Zij [EE [ET [_ [_ [_ [_ [_ [HH1 _]]]]]]]]]]].
  rewrite Hf in HH1. destruct HH1 as [Kp1_b [HK HH1]].
  pose proof EE as HX. apply evaluate_frame in HX.
  destruct HX as [_ [_ [_ [_ [_ Hc]]]]].
  destruct Hc as [_ [_ [_ [Hds [_ [Hp _]]]]]].
  rewrite Hds, Hp in HH1.
  exists self1, Tij, Kp1_b. repeat split; assumption.
Qed.

(* ================================================================== *)
(** * Further properties of the code *)

(** ** Voigt vectors and symmetric matrices *)

(** X1.  [matrix_to_vector] undoes [vector_to_matrix] on every vector of six
    components, and the matrix that [vector_to_matrix] builds is symmetric. *)
Theorem matrix_to_vector_to_matrix (vec : list R) :
  length vec = 6%nat ->
  exists m : mat3,
    Li2002.vector_to_matrix vec = Ok m
    /\ Li2002.matrix_to_vector m = vec
    /\ symmetric m.
Proof.
  intros H.
  do 6 (destruct vec as [|? vec]; [discriminate H|]).
  destruct vec; [|discriminate H].
  eexists. split; [reflexivity|].
  split; [reflexivity|]. intros [] []; reflexivity.
Qed.

Lemma matrix_to_vector_to_matrix_witness :
  length [1; 2; 3; 4; 5; 6] = 6%nat
  /\ exists m : mat3,
       Li2002.vector_to_matrix [1; 2; 3; 4; 5; 6] = Ok m
       /\ Li2002.matrix_to_vector m = [1; 2; 3; 4; 5; 6]
       /\ symmetric m.
Proof.
  split; [reflexivity|].
  exact (@matrix_to_vector_to_matrix [1; 2; 3; 4; 5; 6] eq_refl).
Defined.

(** X2.  [vector_to_matrix] undoes [matrix_to_vector] exactly on the
    symmetric matrices: the vector keeps [mat[0,1]], [mat[1,2]] and
    [mat[2,0]] and the three other off-diagonal components are lost. *)
Theorem vector_to_matrix_to_vector (m : mat3) :
  Li2002.vector_to_matrix (Li2002.matrix_to_vector m) = Ok m <-> symmetric m.
Proof.
  destruct m as [[m00 m01 m02] [m10 m11 m12] [m20 m21 m22]].
  unfold Li2002.vector_to_matrix, Li2002.matrix_to_vector. cbn [mget at3 a0 a1 a2].
  split.
  - intros H. injection H as H02 H10 H12.
    intros [] []; cbn [mget at3 a0 a1 a2]; congruence.
  - intros H.
    pose proof (H I0 I1) as H01. pose proof (H I0 I2) as H02. pose proof (H I1 I2) as H12.
    cbn [mget at3 a0 a1 a2] in H01, H02, H12. subst. reflexivity.
Qed.

(** ** Strain and stress invariants *)

(** X3.  [set_strain_variable] splits a strain into a volumetric and a
    deviatoric measure: adding an isotropic strain [k * eye(3)] adds [3 k] to
    [ev] and leaves [gamma] as it was; [gamma] is never negative, and it is
    zero for an isotropic strain. *)
Theorem set_strain_variable_split (strain_mat : mat3) (k : R) :
  fst (Li2002.set_strain_variable (madd strain_mat (mscale k eye3)))
  = fst (Li2002.set_strain_variable strain_mat) + 3 * k
  /\ snd (Li2002.set_strain_variable (madd strain_mat (mscale k eye3)))
     = snd (Li2002.set_strain_variable strain_mat)
  /\ 0 <= snd (Li2002.set_strain_variable strain_mat)
  /\ snd (Li2002.set_strain_variable (mscale k eye3)) = 0.
Proof.
  destruct strain_mat as [[x00 x01 x02] [x10 x11 x12] [x20 x21 x22]].
  unfold Li2002.set_strain_variable. cbn [fst snd]. mat_compute.
  split; [ring|]. split; [f_equal; field|]. split; [apply sqrt_pos|].
  rewrite <- sqrt_0. f_equal. field.
Qed.

(** X4.  A snapshot's deviator [sij] and ratio [rij] are traceless, [sij]
    and [p] give the stress back, [R] is not negative, and [dp] is the mean
    of the normal components of [dstress], whatever the stress is. *)
Theorem snapshot_stress_variables
    (strain stress dstrain dstress : mat3) (ef1 ef2 : bool) :
  let sp := StateParameters.init strain stress dstrain dstress ef1 ef2 in
  trace (StateParameters.sij sp) = 0
  /\ trace (StateParameters.rij sp) = 0
  /\ madd (StateParameters.sij sp) (mscale (StateParameters.p sp) eye3) = stress
  /\ 0 <= StateParameters.R_ sp
  /\ StateParameters.dp sp = trace dstress / 3.
Proof.
  destruct stress as [[s00 s01 s02] [s10 s11 s12] [s20 s21 s22]].
  destruct dstress as [[d00 d01 d02] [d10 d11 d12] [d20 d21 d22]].
  unfold StateParameters.init, StateParameters.set_stress_increment,
    StateParameters.set_stress_variable.
  sp_simpl. cbv zeta. sp_simpl.
  set (q := py_max _ 1.0). clearbody q.
  mat_compute.
  split; [field|]. split.
  { match goal with
    | |- ?a / q + ?b / q + ?c / q = 0 =>
        replace (a / q + b / q + c / q) with ((a + b + c) * / q) by (unfold Rdiv; ring);
        replace (a + b + c) with 0 by field; ring
    end. }
  split; [arr_eq; field|]. split; [apply sqrt_pos | field].
Qed.

(** X5.  At a mean stress that neither floor reaches (at least 1.0, the
    floor of the snapshot, and at least the model's [pmin]), the snapshot and
    [Li2002.set_stress_variable] compute the same [p] and the same [R]. *)
Theorem stress_variables_agree
    (self : Li2002.t) (strain stress dstrain dstress : mat3) (ef1 ef2 : bool) :
  1 <= trace stress / 3 ->
  Li2002.pmin self <= trace stress / 3 ->
  Li2002.set_stress_variable self stress
  = (StateParameters.p (StateParameters.init strain stress dstrain dstress ef1 ef2),
     StateParameters.R_ (StateParameters.init strain stress dstrain dstress ef1 ef2)).
Proof.
  intros H1 Hp.
  unfold StateParameters.init, StateParameters.set_stress_increment,
    StateParameters.set_stress_variable, Li2002.set_stress_variable.
  sp_simpl. cbv zeta. sp_simpl.
  change ((stress.[I0,I0] + stress.[I1,I1] + stress.[I2,I2]) / 3) with (trace stress / 3).
  unfold py_max.
  rewrite (@Rltb_false (trace stress / 3) 1.0) by lra.
  rewrite (@Rltb_false (trace stress / 3) (Li2002.pmin self)) by lra.
  reflexivity.
Qed.

Lemma stress_variables_agree_witness :
  1 <= trace compressed_stress / 3
  /\ Li2002.pmin Li2002.default <= trace compressed_stress / 3
  /\ Li2002.set_stress_variable Li2002.default compressed_stress
     = (StateParameters.p
          (StateParameters.init zeros33 compressed_stress zeros33 zeros33 false false),
        StateParameters.R_
          (StateParameters.init zeros33 compressed_stress zeros33 zeros33 false false)).
Proof.
  assert (H1 : 1 <= trace compressed_stress / 3)
    by (unfold compressed_stress; mat_compute; lra).
  assert (H2 : Li2002.pmin Li2002.default <= trace compressed_stress / 3)
    by (unfold compressed_stress; cbn [Li2002.default Li2002.init Li2002.par Li2002.pmin];
        mat_compute; lra).
  split; [exact H1|]. split; [exact H2|].
  exact (@stress_variables_agree Li2002.default zeros33 compressed_stress zeros33 zeros33
           false false H1 H2).
Defined.

(** ** The Lode angle and the shape function *)

Lemma sumsq_nonneg (a : mat3) : 0 <= sumsq a.
Proof.
  destruct a as [[a00 a01 a02] [a10 a11 a12] [a20 a21 a22]]. mat_compute. nra.
Qed.

Lemma sumsq_mscale (k : R) (a : mat3) : sumsq (mscale k a) = k * k * sumsq a.
Proof.
  destruct a as [[a00 a01 a02] [a10 a11 a12] [a20 a21 a22]]. mat_compute. ring.
Qed.

Lemma det_mscale (k : R) (a : mat3) : det (mscale k a) = k * k * k * det a.
Proof.
  destruct a as [[a00 a01 a02] [a10 a11 a12] [a20 a21 a22]]. mat_compute. ring.
Qed.

(** [(1/k^2) ** 1.5 = 1/k^3] for a positive [k]. *)
Lemma Rpower_inv_square (k : R) : 0 < k -> Rpower (/ (k * k)) 1.5 = / (k * k * k).
Proof.
  intros Hk.
  assert (H2 : / (k * k) = Rpower k (Ropp 2)).
  { rewrite Rpower_Ropp. f_equal.
    change 2 with (INR 2). rewrite Rpower_pow by exact Hk. simpl. ring. }
  rewrite H2, Rpower_mult.
  replace (Ropp 2 * 1.5) with (Ropp 3) by lra.
  rewrite Rpower_Ropp. f_equal.
  replace 3 with (INR 3) by (simpl; lra). rewrite Rpower_pow by exact Hk. simpl. ring.
Qed.

(** X6.  The Lode angle lies between -pi/6 and pi/6 for every deviator, and
    it does not change when the deviator is multiplied by a positive number:
    the stress deviator [sij] and the ratio [rij = sij / max(p, pmin)] give
    the same angle whenever the divisor is positive. *)
Theorem Lode_angle_range_and_scale (dev_stress : mat3) (k : R) :
  0 < k ->
  - (PI / 6) <= Li2002.Lode_angle dev_stress <= PI / 6
  /\ Li2002.Lode_angle (mscale k dev_stress) = Li2002.Lode_angle dev_stress
  /\ Li2002.Lode_angle (mdiv dev_stress k) = Li2002.Lode_angle dev_stress.
Proof.
  intros Hk.
  assert (Hscale : forall (q : R) (s : mat3),
             0 < q -> Li2002.Lode_angle (mscale q s) = Li2002.Lode_angle s).
  { intros q s Hq. unfold Li2002.Lode_angle.
    rewrite sumsq_mscale, det_mscale.
    pose proof (sumsq_nonneg s) as Hs.
    assert (Hqq : 0 < q * q) by nra.
    destruct (Req_dec_T (sumsq s) 0) as [Hz | Hnz].
    - rewrite Hz.
      rewrite (@Reqb_true (0.5 * (q * q * 0)) 0) by lra.
      rewrite (@Reqb_true (0.5 * 0) 0) by lra. reflexivity.
    - assert (HJ : 0 < sumsq s) by lra.
      assert (HqJ : 0 < q * q * sumsq s) by (apply Rmult_lt_0_compat; assumption).
      rewrite (@Reqb_false (0.5 * (q * q * sumsq s)) 0) by lra.
      rewrite (@Reqb_false (0.5 * sumsq s) 0) by lra.
      do 3 f_equal.
      assert (Hpos : 0 < 3 / (0.5 * sumsq s))
        by (apply Rdiv_lt_0_compat; lra).
      unfold np_power.
      replace (3 / (0.5 * (q * q * sumsq s))) with (3 / (0.5 * sumsq s) * / (q * q))
        by (field; lra).
      assert (Hinv : 0 < / (q * q)) by (apply Rinv_0_lt_compat; exact Hqq).
      assert (Hprod : 0 < 3 / (0.5 * sumsq s) * / (q * q))
        by (apply Rmult_lt_0_compat; assumption).
      rewrite (@Reqb_false (3 / (0.5 * sumsq s) * / (q * q)) 0) by lra.
      rewrite (@Reqb_false (3 / (0.5 * sumsq s)) 0) by lra.
      rewrite <- Rpower_mult_distr by assumption.
      rewrite Rpower_inv_square by exact Hq.
      f_equal. field. lra. }
  split.
  - unfold Li2002.Lode_angle.
    match goal with |- _ <= asin ?x / 3 <= _ => pose proof (asin_bound x) end.
    lra.
  - split; [apply Hscale; exact Hk|].
    replace (mdiv dev_stress k) with (mscale (/ k) dev_stress).
    + apply Hscale. apply Rinv_0_lt_compat. exact Hk.
    + destruct dev_stress as [[a00 a01 a02] [a10 a11 a12] [a20 a21 a22]].
      mat_compute. unfold Rdiv. arr_eq; ring.
Qed.

Lemma Lode_angle_range_and_scale_witness :
  0 < 2
  /\ - (PI / 6) <= Li2002.Lode_angle compressed_stress <= PI / 6
  /\ Li2002.Lode_angle (mscale 2 compressed_stress) = Li2002.Lode_angle compressed_stress
  /\ Li2002.Lode_angle (mdiv compressed_stress 2) = Li2002.Lode_angle compressed_stress.
Proof.
  assert (H : 0 < 2) by lra.
  split; [exact H|]. exact (@Lode_angle_range_and_scale compressed_stress 2 H).
Defined.

(** ** The linear solver *)

(** What elimination returns is the only solution of the system. *)
Lemma gauss_unique (n : nat) :
  forall sys x,
    well_formed n sys -> gauss n sys = Ok x ->
    forall y, length y = n -> (forall r, In r sys -> dot (fst r) y = snd r) -> y = x.
Proof.
  induction n as [|n IH]; intros sys x [Hlen Hrows] H y Hy Hsol; simpl in H.
  - injection H as <-. destruct y; [reflexivity | discriminate Hy].
  - destruct sys as [|r rest]; [discriminate H|].
    destruct (select_pivot r rest) as [p others] eqn:E.
    destruct (select_pivot_spec _ _ E) as [Hin [Hlo _]].
    destruct (Reqb (lead p) 0) eqn:Hz; [discriminate H|].
    assert (Hlead : lead p <> 0).
    { intros Heq. rewrite (Reqb_true Heq) in Hz. discriminate Hz. }
    destruct (gauss n (map (eliminate p) others)) as [x'|] eqn:G; [|discriminate H].
    simpl in H. injection H as <-.
    assert (Hp : length (fst p) = S n) by (apply Hrows, Hin; left; reflexivity).
    assert (Ho : forall r0, In r0 others -> length (fst r0) = S n)
      by (intros r0 H0; apply Hrows, Hin; right; exact H0).
    assert (Hwf : well_formed n (map (eliminate p) others)).
    { apply eliminate_well_formed; auto. simpl in Hlen. lia. }
    destruct y as [|y0 y']; [discriminate Hy|].
    assert (Hy' : length y' = n) by (simpl in Hy; lia).
    assert (Hprow : dot (fst p) (y0 :: y') = snd p) by (apply Hsol, Hin; left; reflexivity).
    assert (Htail : y' = x').
    { apply (IH _ _ Hwf G y' Hy').
      intros r1 Hr1. apply in_map_iff in Hr1. destruct Hr1 as [r0 [<- Hr0]].
      assert (Hr0row : dot (fst r0) (y0 :: y') = snd r0)
        by (apply Hsol, Hin; right; exact Hr0).
      specialize (Ho _ Hr0). unfold eliminate, lead in *.
      destruct (fst p) as [|lp tp]; [discriminate Hp|].
      destruct (fst r0) as [|lr tr]; [discriminate Ho|].
      simpl in *. rewrite dot_axpy by lia.
      replace (dot tr y') with (snd r0 - lr * y0) by lra.
      replace (dot tp y') with (snd p - lp * y0) by lra.
      field. exact Hlead. }
    subst y'. f_equal. unfold lead in *.
    destruct (fst p) as [|lp tp]; [discriminate Hp|]. simpl in *.
    field_simplify_eq; [lra | exact Hlead].
Qed.

Lemma np_dot_rows (x : list R) :
  forall (A : list (list R)) (b : list R),
    np_dot A x = b ->
    forall r, In r (combine A b) -> dot (fst r) x = snd r.
Proof.
  induction A as [|row A IH]; intros [|v b] H r Hr; simpl in *;
    try contradiction; try discriminate H.
  injection H as Hv Hb. destruct Hr as [<- | Hr]; [exact Hv|].
  exact (IH _ Hb _ Hr).
Qed.

Lemma contract_madd (E : ten4) (x y : mat3) :
  contract E (madd x y) = madd (contract E x) (contract E y).
Proof.
  destruct x as [[x00 x01 x02] [x10 x11 x12] [x20 x21 x22]].
  destruct y as [[y00 y01 y02] [y10 y11 y12] [y20 y21 y22]].
  mat_compute. arr_eq; ring.
Qed.

Lemma madd_cancel (x z : mat3) : madd x z = x -> z = zeros33.
Proof.
  destruct x as [[x00 x01 x02] [x10 x11 x12] [x20 x21 x22]].
  destruct z as [[z00 z01 z02] [z10 z11 z12] [z20 z21 z22]].
  mat_compute. intros H. injection H as H0 H1 H2 H3 H4 H5 H6 H7 H8.
  arr_eq; lra.
Qed.

Lemma madd_zeros_r (b : mat3) : madd b zeros33 = b.
Proof.
  destruct b as [[b00 b01 b02] [b10 b11 b12] [b20 b21 b22]].
  mat_compute. arr_eq; ring.
Qed.

(** When [solve_strain] returns, its result is the only strain whose stress
    is [b], and the stiffness is invertible. *)
Lemma solve_strain_unique (b : mat3) (E : ten4) (x : mat3) :
  Li2002.solve_strain b E = Ok x ->
  contract E x = b
  /\ (forall y : mat3, contract E y = b -> y = x)
  /\ nonsingular E.
Proof.
  intros H. unfold Li2002.solve_strain in H.
  destruct (linalg_solve (reshape99 E) (flatten b)) as [l|] eqn:Hs; [|discriminate H].
  cbn [bind] in H. injection H as <-.
  destruct (linalg_solve_sound _ _ Hs) as [Hlen Hsol].
  assert (Huniq : forall y : mat3, contract E y = b -> y = reshape33 l).
  { intros y Hy. unfold linalg_solve in Hs. rewrite flatten_length in Hs.
    apply flatten_inj. rewrite (flatten_reshape33 l Hlen).
    apply (gauss_unique (combine_well_formed E b) Hs); [reflexivity|].
    apply np_dot_rows. rewrite np_dot_contract, Hy. reflexivity. }
  split; [exact Hsol|]. split; [exact Huniq|].
  intros z Hz.
  apply (@madd_cancel (reshape33 l)). apply Huniq.
  rewrite contract_madd, Hsol, Hz. apply madd_zeros_r.
Qed.

(** ** Elastic response *)

(** X9.  [elastic_deformation] is Hooke's law in both directions.  With every
    component strain-prescribed it returns the given strain and the stress
    [2 G strain + lambda tr(strain) I], with [lambda = 2 G nu / (1 - 2 nu)];
    with every component stress-prescribed, for [G] and the bulk factor
    [2 G + 3 lambda] non-zero, it returns the given stress and the strain
    [(stress - lambda tr(stress) / (2 G + 3 lambda) I) / (2 G)]. *)
Theorem elastic_deformation_hooke (self : Li2002.t) (dstrain dstress : mat3) (Ge : R) :
  Ge <> 0 ->
  2 * Ge + 3 * rlambda_of self Ge <> 0 ->
  Li2002.elastic_deformation self dstrain dstress Ge (all_mask false)
  = Ok (dstrain,
        madd (mscale (rlambda_of self Ge * trace dstrain) eye3) (mscale (2 * Ge) dstrain))
  /\ Li2002.elastic_deformation self dstrain dstress Ge (all_mask true)
     = Ok (mdiv (msub dstress
                   (mscale (rlambda_of self Ge * trace dstress
                            / (2 * Ge + 3 * rlambda_of self Ge)) eye3))
                (2 * Ge),
           dstress).
Proof.
  intros HG Hbulk. unfold Li2002.elastic_deformation. split.
  - rewrite solve_all_strain_prescribed, elastic_stiffness_contract. reflexivity.
  - rewrite solve_all_stress_prescribed.
    pose proof (@elastic_stiffness_nonsingular self Ge HG Hbulk) as Hns.
    destruct (linalg_solve_complete dstress Hns) as [l Hl].
    assert (Hrun : Li2002.solve_strain dstress (Li2002.elastic_stiffness self Ge)
                   = Ok (reshape33 l))
      by (unfold Li2002.solve_strain; rewrite Hl; reflexivity).
    destruct (@solve_strain_unique _ _ _ Hrun) as [Hsol [Huniq _]].
    rewrite Hrun. cbn [bind]. rewrite Hsol.
    f_equal. f_equal. symmetry. apply Huniq.
    rewrite elastic_stiffness_contract.
    set (lam := rlambda_of self Ge) in *. clearbody lam.
    destruct dstress as [[b00 b01 b02] [b10 b11 b12] [b20 b21 b22]].
    mat_compute. arr_eq; field; split; assumption.
Qed.

Lemma elastic_deformation_hooke_witness :
  1 <> 0
  /\ 2 * 1 + 3 * rlambda_of Li2002.default 1 <> 0
  /\ Li2002.elastic_deformation Li2002.default eye3 eye3 1 (all_mask false)
     = Ok (eye3,
           madd (mscale (rlambda_of Li2002.default 1 * trace eye3) eye3)
                (mscale (2 * 1) eye3))
  /\ Li2002.elastic_deformation Li2002.default eye3 eye3 1 (all_mask true)
     = Ok (mdiv (msub eye3
                   (mscale (rlambda_of Li2002.default 1 * trace eye3
                            / (2 * 1 + 3 * rlambda_of Li2002.default 1)) eye3))
                (2 * 1),
           eye3).
Proof.
  assert (H1 : 1 <> 0) by lra.
  assert (H2 : 2 * 1 + 3 * rlambda_of Li2002.default 1 <> 0)
    by (unfold rlambda_of; cbn [Li2002.default Li2002.init Li2002.par Li2002.nu]; lra).
  split; [exact H1|]. split; [exact H2|].
  exact (@elastic_deformation_hooke Li2002.default eye3 eye3 1 H1 H2).
Defined.

(** ** The mixed-control solver under any mask *)

Lemma mask_select_length {A} (d : list bool) :
  forall l : list A, length l = length d -> length (mask_select d l) = ntrue d.
Proof.
  induction d as [|b d IH]; intros [|a l] H; try discriminate H; [reflexivity|].
  destruct b; simpl; unfold ntrue in *; simpl; rewrite IH by (simpl in H; lia);
    reflexivity.
Qed.

Lemma mask_select_In {A} (d : list bool) :
  forall (l : list A) (x : A), In x (mask_select d l) -> In x l.
Proof.
  induction d as [|b d IH]; intros [|a l] x H; simpl in H; try contradiction.
  - destruct b; contradiction.
  - destruct b.
    + destruct H as [<- | H]; [left; reflexivity | right; exact (IH _ _ H)].
    + right. exact (IH _ _ H).
Qed.

Lemma dot_nil_r (u : list R) : dot u [] = 0.
Proof. destruct u; reflexivity. Qed.

(** A row applied to the assembled strain: the unknowns contribute through
    the masked row, the prescribed components through the zero-filled
    strain. *)
Lemma mask_assign_dot (d : list bool) :
  forall (g vals s row : list R),
    mask_assign d (mask_fill d g 0.0) vals = Ok s ->
    dot row s = dot (mask_select d row) vals + dot row (mask_fill d g 0.0).
Proof.
  induction d as [|b d IH]; intros g vals s row H.
  - simpl in H. destruct g; destruct vals; try discriminate H;
      injection H as <-; destruct row; simpl; ring.
  - destruct b, g as [|a g]; simpl in H.
    + destruct vals; [|discriminate H]. injection H as <-.
      destruct row; simpl; ring.
    + destruct vals as [|v vals]; [discriminate H|].
      destruct (mask_assign d (mask_fill d g 0.0) vals) as [r|] eqn:Hr; [|discriminate H].
      simpl in H. injection H as <-.
      destruct row as [|c row]; simpl; [ring|].
      rewrite (IH _ _ _ row Hr). lra.
    + destruct vals; [|discriminate H]. injection H as <-.
      rewrite !dot_nil_r. ring.
    + destruct (mask_assign d (mask_fill d g 0.0) vals) as [r|] eqn:Hr; [|discriminate H].
      simpl in H. injection H as <-.
      destruct row as [|c row]; simpl; [ring|].
      rewrite (IH _ _ _ row Hr). lra.
Qed.

(** The assembled strain keeps the given value wherever the mask is
    [False], and has the length of the given strain. *)
Lemma mask_assign_keeps (d : list bool) :
  forall (g vals s : list R),
    mask_assign d (mask_fill d g 0.0) vals = Ok s ->
    length s = length g
    /\ forall k, nth k d true = false -> nth k s 0 = nth k g 0.
Proof.
  induction d as [|b d IH]; intros g vals s H.
  - simpl in H. destruct g; destruct vals; try discriminate H; injection H as <-;
      (split; [reflexivity|]); intros [|k] Hk; discriminate Hk.
  - destruct b, g as [|a g]; simpl in H.
    + destruct vals; [|discriminate H]. injection H as <-.
      split; [reflexivity|]. intros k _. reflexivity.
    + destruct vals as [|v vals]; [discriminate H|].
      destruct (mask_assign d (mask_fill d g 0.0) vals) as [r|] eqn:Hr; [|discriminate H].
      simpl in H. injection H as <-.
      destruct (IH _ _ _ Hr) as [Hlen Hk]. split; [simpl; lia|].
      intros [|k] Hd; [discriminate Hd|]. simpl in *. apply Hk. exact Hd.
    + destruct vals; [|discriminate H]. injection H as <-.
      split; [reflexivity|]. intros k _. reflexivity.
    + destruct (mask_assign d (mask_fill d g 0.0) vals) as [r|] eqn:Hr; [|discriminate H].
      simpl in H. injection H as <-.
      destruct (IH _ _ _ Hr) as [Hlen Hk]. split; [simpl; lia|].
      intros [|k] Hd; [reflexivity|]. simpl in *. apply Hk. exact Hd.
Qed.

(** The equations of the reduced system are the equations of the rows that
    the mask selects. *)
Lemma selected_rows {A B C} (f : A -> C) (P : C * B -> Prop) (dA : A) (dB : B) :
  forall (dr : list bool) (rows : list A) (t : list B),
    length rows = length dr -> length t = length dr ->
    (forall r, In r (combine (map f (mask_select dr rows)) (mask_select dr t)) -> P r) ->
    forall k, nth k dr false = true -> P (f (nth k rows dA), nth k t dB).
Proof.
  induction dr as [|b dr IH]; intros rows t Hr Ht H k Hk.
  - destruct k; discriminate Hk.
  - destruct rows as [|a rows]; [discriminate Hr|].
    destruct t as [|v t]; [discriminate Ht|].
    simpl in Hr, Ht. destruct b; simpl in H.
    + destruct k as [|k]; simpl.
      * apply H. left. reflexivity.
      * apply IH; try lia; [|exact Hk]. intros r Hin. apply H. right. exact Hin.
    + destruct k as [|k]; [discriminate Hk|]. simpl.
      apply IH; try lia; [|exact Hk]. exact H.
Qed.

Lemma nth_np_dot (A : list (list R)) (x : list R) (k : nat) :
  (k < length A)%nat -> nth k (np_dot A x) 0 = dot (nth k A []) x.
Proof.
  intros H. unfold np_dot.
  rewrite (nth_indep _ 0 (dot [] x)) by (rewrite length_map; exact H).
  apply (map_nth (fun row => dot row x)).
Qed.

Lemma nth_sub (u v : list R) (k : nat) :
  (k < length u)%nat -> (k < length v)%nat ->
  nth k (map (fun ab => fst ab - snd ab) (combine u v)) 0 = nth k u 0 - nth k v 0.
Proof.
  revert v k. induction u as [|a u IH]; intros [|b v] k Hu Hv; simpl in *; try lia.
  destruct k; [reflexivity|]. apply IH; lia.
Qed.

Lemma mget_flatten {A} (m : mat A) (i j : ix) (dflt : A) :
  m.[i,j] = nth (pos i j) (flatten m) dflt.
Proof. destruct m as [[? ? ?] [? ? ?] [? ? ?]], i, j; reflexivity. Qed.

Lemma mget_reshape33 (l : list R) (i j : ix) :
  (reshape33 l).[i,j] = nth (pos i j) l 0.
Proof. destruct i, j; reflexivity. Qed.

Lemma pos_bound (i j : ix) : (pos i j < 9)%nat.
Proof. destruct i, j; simpl; lia. Qed.

(** X10.  Whatever the mask, when [solve_strain_with_consttain] returns a
    pair [(strain, stress)], the stress is the stiffness applied to the
    strain; a component whose mask is [True] has the given stress, and a
    component whose mask is [False] has the given strain. *)
Theorem solve_strain_with_consttain_mixed
    (strain_given stress_given : mat3) (E : ten4) (deformation : mat bool)
    (strain stress : mat3) :
  Li2002.solve_strain_with_consttain strain_given stress_given E deformation
  = Ok (strain, stress) ->
  stress = contract E strain
  /\ forall i j : ix,
       if deformation.[i,j] then stress.[i,j] = stress_given.[i,j]
       else strain.[i,j] = strain_given.[i,j].
Proof.
  intros H. unfold Li2002.solve_strain_with_consttain in H.
  assert (Hget : forall i j, deformation.[i,j] = nth (pos i j) (flatten deformation) false)
    by (intros i j; apply mget_flatten).
  assert (Hd : length (flatten deformation) = 9%nat) by reflexivity.
  remember (flatten deformation) as d eqn:Ed. clear Ed.
  destruct (reshape99_shape E) as [HlenA HrowsA].
  pose proof (np_dot_contract E) as HA.
  remember (reshape99 E) as A eqn:EA. clear EA.
  assert (Hg : length (flatten strain_given) = 9%nat) by reflexivity.
  assert (Hgget : forall i j, strain_given.[i,j] = nth (pos i j) (flatten strain_given) 0)
    by (intros i j; apply mget_flatten).
  remember (flatten strain_given) as g eqn:Eg. clear Eg.
  assert (Ht : length (flatten stress_given) = 9%nat) by reflexivity.
  assert (Htget : forall i j, stress_given.[i,j] = nth (pos i j) (flatten stress_given) 0)
    by (intros i j; apply mget_flatten).
  remember (flatten stress_given) as t eqn:Et. clear Et.
  remember (mask_fill d g 0.0) as s0 eqn:Es0.
  assert (Hc : length (np_dot A s0) = 9%nat)
    by (unfold np_dot; rewrite length_map; exact HlenA).
  remember (map (fun ab => fst ab - snd ab) (combine t (np_dot A s0))) as rhs eqn:Erhs.
  assert (Hrhs : length rhs = 9%nat).
  { subst rhs. rewrite length_map. etransitivity; [apply length_combine|].
    rewrite Ht, Hc. reflexivity. }
  destruct (linalg_solve (map (mask_select d) (mask_select d A)) (mask_select d rhs))
    as [x|] eqn:Hx; [|discriminate H].
  cbn [bind] in H.
  destruct (mask_assign d s0 x) as [s|] eqn:Hs; [|discriminate H].
  cbn [bind] in H. injection H as <- <-.
  rewrite Es0 in Hs.
  destruct (@mask_assign_keeps d _ _ _ Hs) as [Hlens Hkeep].
  rewrite Hg in Hlens.
  assert (Hstress : reshape33 (np_dot A s) = contract E (reshape33 s)).
  { rewrite <- (flatten_reshape33 s Hlens) at 1.
    rewrite HA. apply reshape33_flatten. }
  split; [exact Hstress|].
  (* the reduced system *)
  unfold linalg_solve in Hx.
  assert (Hwf : well_formed (length (mask_select d rhs))
                  (combine (map (mask_select d) (mask_select d A)) (mask_select d rhs))).
  { rewrite (mask_select_length d rhs) by lia. split.
    - etransitivity; [apply length_combine|].
      rewrite length_map.
      rewrite (mask_select_length d A), (mask_select_length d rhs) by lia.
      apply Nat.min_id.
    - intros [row v] Hr. apply in_combine_l in Hr. simpl.
      apply in_map_iff in Hr. destruct Hr as [row0 [<- Hr0]].
      apply mask_select_length.
      pose proof (mask_select_In _ _ _ Hr0) as Hin.
      rewrite Forall_forall in HrowsA. rewrite (HrowsA _ Hin). lia. }
  destruct (gauss_sound Hwf Hx) as [_ Hsol].
  assert (Hrow : forall k, nth k d false = true ->
                           dot (mask_select d (nth k A [])) x = nth k rhs 0).
  { intros k Hk.
    apply (@selected_rows _ _ _ (mask_select d)
             (fun r : list R * R => dot (fst r) x = snd r) [] 0 d A rhs);
      [lia | lia | exact Hsol | exact Hk]. }
  intros i j. rewrite Hget, Hgget, Htget, !mget_reshape33.
  pose proof (pos_bound i j) as Hpos.
  generalize dependent (pos i j). intros k Hpos.
  destruct (nth k d false) eqn:Hk.
  - rewrite nth_np_dot by lia.
    rewrite (@mask_assign_dot d _ _ _ (nth k A []) Hs).
    rewrite (Hrow k Hk), Erhs.
    rewrite nth_sub by lia.
    rewrite nth_np_dot by lia. rewrite Es0. lra.
  - apply Hkeep.
    rewrite (nth_indep d true false) by lia. exact Hk.
Qed.

Lemma solve_strain_with_consttain_mixed_witness :
  exists strain stress : mat3,
    Li2002.solve_strain_with_consttain eye3 zeros33 Ee_unit shear01_mask
    = Ok (strain, stress)
    /\ stress = contract Ee_unit strain
    /\ forall i j : ix,
         if shear01_mask.[i,j] then stress.[i,j] = zeros33.[i,j]
         else strain.[i,j] = eye3.[i,j].
Proof.
  assert (Hrun : exists p : mat3 * mat3,
             Li2002.solve_strain_with_consttain eye3 zeros33 Ee_unit shear01_mask = Ok p).
  { cbv [Li2002.solve_strain_with_consttain shear01_mask Ee_unit
         Li2002.elastic_stiffness flatten flatten3 reshape99 mask_fill mask_select
         mask_assign np_dot map combine linalg_solve gauss select_pivot lead hd fst
         snd tl length bind app a0 a1 a2 mtab tab3 mget at3 eye3 zeros33].
    match goal with
    | |- context [Reqb ?a 0] => rewrite (@Reqb_false a 0)
    end.
    - eexists. reflexivity.
    - cbv [Li2002.default Li2002.init Li2002.par Li2002.nu]. lra. }
  destruct Hrun as [[strain stress] Hrun].
  exists strain, stress. split; [exact Hrun|].
  exact (@solve_strain_with_consttain_mixed eye3 zeros33 Ee_unit shear01_mask
           strain stress Hrun).
Defined.

(** ** Mechanism 1 elastic, mechanism 2 plastic *)

(** Assigning a named attribute changes none of the attributes of
    [__init__]. *)
Lemma set_num_core (k : string) (v : R) (sp : StateParameters.t) :
  StateParameters.elastic_flag1 (StateParameters.set_num k v sp)
  = StateParameters.elastic_flag1 sp
  /\ StateParameters.elastic_flag2 (StateParameters.set_num k v sp)
     = StateParameters.elastic_flag2 sp
  /\ StateParameters.R_ (StateParameters.set_num k v sp) = StateParameters.R_ sp
  /\ StateParameters.p (StateParameters.set_num k v sp) = StateParameters.p sp
  /\ StateParameters.sij (StateParameters.set_num k v sp) = StateParameters.sij sp
  /\ StateParameters.rij (StateParameters.set_num k v sp) = StateParameters.rij sp
  /\ StateParameters.dp (StateParameters.set_num k v sp) = StateParameters.dp sp.
Proof. repeat split. Qed.

Lemma set_mat_core (k : string) (v : mat3) (sp : StateParameters.t) :
  StateParameters.elastic_flag1 (StateParameters.set_mat k v sp)
  = StateParameters.elastic_flag1 sp
  /\ StateParameters.elastic_flag2 (StateParameters.set_mat k v sp)
     = StateParameters.elastic_flag2 sp
  /\ StateParameters.R_ (StateParameters.set_mat k v sp) = StateParameters.R_ sp
  /\ StateParameters.rij (StateParameters.set_mat k v sp) = StateParameters.rij sp.
Proof. repeat split. Qed.

Ltac core_simpl :=
  repeat first
    [ rewrite (proj1 (set_num_core _ _ _))
    | rewrite (proj1 (proj2 (set_num_core _ _ _)))
    | rewrite (proj1 (proj2 (proj2 (set_num_core _ _ _))))
    | rewrite (proj1 (proj2 (proj2 (proj2 (set_num_core _ _ _)))))
    | rewrite (proj1 (proj2 (proj2 (proj2 (proj2 (set_num_core _ _ _))))))
    | rewrite (proj1 (proj2 (proj2 (proj2 (proj2 (proj2 (set_num_core _ _ _)))))))
    | rewrite (proj2 (proj2 (proj2 (proj2 (proj2 (proj2 (set_num_core _ _ _)))))))
    | rewrite (proj1 (set_mat_core _ _ _))
    | rewrite (proj1 (proj2 (set_mat_core _ _ _)))
    | rewrite (proj1 (proj2 (proj2 (set_mat_core _ _ _))))
    | rewrite (proj2 (proj2 (proj2 (set_mat_core _ _ _)))) ].

Section MissingAttribute.

Variable brentq : (R -> R) -> R -> R -> res R.

(** The mapping when mechanism 1 is found elastic and mechanism 2 is loaded
    away from its centre: only [p_bar] and [rho2_ratio] are assigned. *)
Lemma set_mapping_stress_elastic1_plastic2
    (self : Li2002.t) (sp : StateParameters.t) (ec : R) :
  Li2002.e self = Some ec ->
  StateParameters.elastic_flag2 sp = false ->
  norm (msub (StateParameters.rij sp) (Li2002.alpha (recentred self sp))) < 1e-6 ->
  (0 < StateParameters.dp sp /\ Li2002.beta self < StateParameters.p sp)
  \/ (StateParameters.dp sp < 0 /\ StateParameters.p sp < Li2002.beta self) ->
  exists (self1 : Li2002.t) (rho2_ratio p_bar : R),
    Li2002.set_mapping_stress brentq self sp
    = Ok (self1,
          StateParameters.set_num "rho2_ratio" rho2_ratio
            (StateParameters.set_num "p_bar" p_bar
               (StateParameters.set_elastic_flag1 true sp)))
    /\ Li2002.e self1 = Some ec.
Proof.
  intros He Hf2 Hn Hcase.
  unfold Li2002.set_mapping_stress. fold (recentred self sp).
  assert (Hb : Li2002.beta (recentred self sp) = Li2002.beta self)
    by (rewrite recentred_beta, Hf2; reflexivity).
  assert (He' : Li2002.e (recentred self sp) = Some ec).
  { destruct (recentred_rest self sp) as [[_ [_ [_ [-> _]]]] _]. exact He. }
  set (s := recentred self sp) in *. clearbody s.
  rewrite (@Rltb_true _ _ Hn). cbn [bind]. sp_simpl.
  assert (Hne : Rabs (StateParameters.p sp - Li2002.beta s) <> 0.0).
  { rewrite Hb. intros H0. replace 0.0 with 0 in H0 by lra.
    assert (StateParameters.p sp - Li2002.beta self <> 0) by lra.
    apply Rabs_no_R0 in H. contradiction. }
  rewrite (@Reqb_false _ _ Hne).
  set (s2 := if Rltb (Li2002.H2 s) (StateParameters.p sp)
             then Li2002.set_H2 (StateParameters.p sp) s else s).
  assert (Hb2 : Li2002.beta s2 = Li2002.beta self)
    by (unfold s2; destruct (Rltb (Li2002.H2 s) (StateParameters.p sp)); exact Hb).
  assert (He2 : Li2002.e s2 = Some ec)
    by (unfold s2; destruct (Rltb (Li2002.H2 s) (StateParameters.p sp)); exact He').
  clearbody s2. rewrite Hb2.
  destruct Hcase as [[Hdp Hp] | [Hdp Hp]].
  - rewrite (@Rltb_true 0.0 _) by lra. rewrite (@Rleb_false _ _ Hp).
    do 3 eexists. split; [reflexivity | exact He2].
  - rewrite (@Rltb_false 0.0 _) by lra. rewrite (@Rltb_true _ 0.0) by lra.
    rewrite (@Rleb_false _ _ Hp).
    do 3 eexists. split; [reflexivity | exact He2].
Qed.

(** With mechanism 1 elastic and mechanism 2 plastic, [set_parameter_TZ]
    reads [sp.D1], which [set_parameters] assigns only when mechanism 1 is
    plastic. *)
Lemma evaluate_elastic1_plastic2 (self : Li2002.t) (sp : StateParameters.t) (ec : R) :
  Li2002.e self = Some ec ->
  StateParameters.elastic_flag2 sp = false ->
  StateParameters.num "D1" sp = Raise (AttributeError "D1") ->
  norm (msub (StateParameters.rij sp) (Li2002.alpha (recentred self sp))) < 1e-6 ->
  (0 < StateParameters.dp sp /\ Li2002.beta self < StateParameters.p sp)
  \/ (StateParameters.dp sp < 0 /\ StateParameters.p sp < Li2002.beta self) ->
  Li2002.evaluate brentq self sp = Raise (AttributeError "D1").
Proof.
  intros He Hf2 HD1 Hn Hcase.
  destruct (@set_mapping_stress_elastic1_plastic2 self sp ec He Hf2 Hn Hcase)
    as [self1 [rho [pb [Hmap He1]]]].
  unfold Li2002.evaluate. rewrite Hmap. cbn [bind].
  remember (StateParameters.set_num "rho2_ratio" rho _) as sp1 eqn:Hsp1.
  assert (H1f1 : StateParameters.elastic_flag1 sp1 = true) by (subst sp1; reflexivity).
  assert (H1f2 : StateParameters.elastic_flag2 sp1 = false) by (subst sp1; exact Hf2).
  assert (H1D : StateParameters.num "D1" sp1 = Raise (AttributeError "D1"))
    by (subst sp1; attr_simpl; exact HD1).
  assert (H1r : StateParameters.num "rho2_ratio" sp1 = Ok rho)
    by (subst sp1; attr_simpl; reflexivity).
  clear Hsp1 Hmap.
  unfold Li2002.set_parameters, Li2002.get_e. rewrite He1. cbn [bind].
  destruct (Li2002.elastic_modulus self1 ec (StateParameters.p sp1)) as [Ge Ke].
  core_simpl. rewrite H1f1. cbn [bind]. core_simpl. rewrite H1f2. cbn [orb].
  match goal with
  | |- bind ?c _ = _ =>
      assert (Hpar : exists sp2 : StateParameters.t,
                 c = Ok sp2
                 /\ StateParameters.elastic_flag1 sp2 = true
                 /\ StateParameters.elastic_flag2 sp2 = false
                 /\ StateParameters.num "D1" sp2 = Raise (AttributeError "D1")
                 /\ StateParameters.num "Ke" sp2 = Ok Ke)
  end.
  { destruct (Reqb (StateParameters.R_ sp1) 0.0).
    - eexists. split; [reflexivity|]. core_simpl. attr_simpl.
      repeat split; assumption.
    - attr_simpl. rewrite H1r. cbn [bind].
      destruct (Li2002.plastic_modulus2 self1 Ge _ rho _) as [Kp2 Kp2_b].
      eexists. split; [reflexivity|]. core_simpl. attr_simpl.
      repeat split; assumption. }
  destruct Hpar as [sp2 [-> [H2f1 [H2f2 [H2D H2K]]]]]. cbn [bind].
  destruct (@set_parameter_nm_elastic self1 sp2 H2f1) as [mij ->]. cbn [bind].
  unfold Li2002.set_parameter_TZ.
  core_simpl. rewrite H2f1. cbn [orb bind]. core_simpl. rewrite H2f1. cbn [bind].
  core_simpl. rewrite H2f2. attr_simpl. rewrite H2K. cbn [bind]. rewrite H2D.
  reflexivity.
Qed.

(** X11.  A snapshot built with [ef2=False] on which mechanism 1 is found
    elastic (the stress ratio is at the mapping centre) while mechanism 2
    loads away from [beta]: the evaluation raises [AttributeError] for
    [sp.D1], and so do the three methods that start with it.  No case of
    this kind returns. *)
Theorem evaluation_raises_without_D1
    (self : Li2002.t) (strain stress dstrain dstress : mat3) (ef1 : bool) (ec : R) :
  let sp := StateParameters.init strain stress dstrain dstress ef1 false in
  Li2002.e self = Some ec ->
  norm (msub (StateParameters.rij sp) (Li2002.alpha (recentred self sp))) < 1e-6 ->
  (0 < StateParameters.dp sp /\ Li2002.beta self < StateParameters.p sp)
  \/ (StateParameters.dp sp < 0 /\ StateParameters.p sp < Li2002.beta self) ->
  Li2002.check_unload brentq self sp = Raise (AttributeError "D1")
  /\ Li2002.plastic_stiffness brentq self sp = Raise (AttributeError "D1")
  /\ Li2002.update_parameters brentq self sp = Raise (AttributeError "D1").
Proof.
  intros sp He Hn Hcase.
  assert (Hev : Li2002.evaluate brentq self sp = Raise (AttributeError "D1")).
  { apply (@evaluate_elastic1_plastic2 self sp ec He); try assumption; reflexivity. }
  unfold Li2002.check_unload, Li2002.plastic_stiffness, Li2002.update_parameters.
  rewrite Hev. repeat split.
Qed.

End MissingAttribute.

(** The isotropic stress [diag(200, 200, 200)] with a compressive increment. *)
Lemma evaluation_raises_without_D1_witness :
  let sp := StateParameters.init zeros33 (mscale 200 eye3) zeros33 eye3 false false in
  Li2002.e sand_at_rest = Some 0.75
  /\ norm (msub (StateParameters.rij sp) (Li2002.alpha (recentred sand_at_rest sp))) < 1e-6
  /\ ((0 < StateParameters.dp sp /\ Li2002.beta sand_at_rest < StateParameters.p sp)
      \/ (StateParameters.dp sp < 0 /\ StateParameters.p sp < Li2002.beta sand_at_rest))
  /\ Li2002.check_unload no_root sand_at_rest sp = Raise (AttributeError "D1")
  /\ Li2002.plastic_stiffness no_root sand_at_rest sp = Raise (AttributeError "D1")
  /\ Li2002.update_parameters no_root sand_at_rest sp = Raise (AttributeError "D1").
Proof.
  intros sp.
  assert (Hp : StateParameters.p sp = 200).
  { unfold sp, StateParameters.init, StateParameters.set_stress_increment,
      StateParameters.set_stress_variable.
    sp_simpl. mat_compute. lra. }
  assert (Hdp : StateParameters.dp sp = 1).
  { unfold sp, StateParameters.init, StateParameters.set_stress_increment,
      StateParameters.set_stress_variable.
    sp_simpl. mat_compute. lra. }
  assert (Hrij : StateParameters.rij sp = zeros33).
  { unfold sp, StateParameters.init, StateParameters.set_stress_increment,
      StateParameters.set_stress_variable.
    sp_simpl. mat_compute.
    replace ((200 * 1 + 200 * 1 + 200 * 1) / 3) with 200 by lra.
    unfold py_max. rewrite (@Rltb_false 200 1.0) by lra. arr_eq; lra. }
  assert (H1 : Li2002.e sand_at_rest = Some 0.75) by reflexivity.
  assert (H2 : norm (msub (StateParameters.rij sp)
                       (Li2002.alpha (recentred sand_at_rest sp))) < 1e-6).
  { change (Li2002.alpha (recentred sand_at_rest sp)) with zeros33.
    rewrite Hrij, norm_msub_self. lra. }
  assert (H3 : (0 < StateParameters.dp sp
                /\ Li2002.beta sand_at_rest < StateParameters.p sp)
               \/ (StateParameters.dp sp < 0
                   /\ StateParameters.p sp < Li2002.beta sand_at_rest)).
  { left. rewrite Hdp, Hp. change (Li2002.beta sand_at_rest) with 0.0. lra. }
  split; [exact H1|]. split; [exact H2|]. split; [exact H3|].
  exact (@evaluation_raises_without_D1 no_root sand_at_rest zeros33 (mscale 200 eye3)
           zeros33 eye3 false 0.75 H1 H2 H3).
Defined.

(** ** The load history of the cyclic shear test *)

(** X12.  The increments that [cycle_load] returns (what
    [cyclic_shear_test] applies from its sixth pass on, after the ramp of the
    first five) telescope: over the steps [a] to
    [a + k - 1] they add up to the difference of the sine wave
    [amp sin(4 pi i / nstep)] between [a + k] and [a].  From step 0 the
    accumulated load is the wave itself, and over the [nstep] steps of one
    pass of the inner loop (two periods) it returns to zero. *)
Theorem cycle_load_telescopes (nstep : nat) (amp : R) (a k : nat) :
  (0 < nstep)%nat ->
  accumulated_load nstep amp a k
  = amp * sin (INR (a + k) / INR nstep * 2 * PI * 2)
    - amp * sin (INR a / INR nstep * 2 * PI * 2)
  /\ accumulated_load nstep amp 0 k = amp * sin (INR k / INR nstep * 2 * PI * 2)
  /\ accumulated_load nstep amp 0 nstep = 0.
Proof.
  intros Hn.
  assert (Htel : forall k a,
             accumulated_load nstep amp a k
             = amp * sin (INR (a + k) / INR nstep * 2 * PI * 2)
               - amp * sin (INR a / INR nstep * 2 * PI * 2)).
  { clear a k. unfold accumulated_load.
    induction k as [|k IH]; intros a.
    - rewrite Nat.add_0_r. simpl. ring.
    - cbn [seq map fold_right]. rewrite IH. unfold Li2002.cycle_load.
      replace (a + S k)%nat with (S a + k)%nat by lia.
      rewrite S_INR. replace (INR a + 0) with (INR a) by ring. ring. }
  assert (H0 : forall k, accumulated_load nstep amp 0 k
                         = amp * sin (INR k / INR nstep * 2 * PI * 2)).
  { intros k'. rewrite Htel. simpl (0 + k')%nat. simpl (INR 0).
    replace (0 / INR nstep * 2 * PI * 2) with 0 by (unfold Rdiv; ring).
    rewrite sin_0. ring. }
  split; [apply Htel|]. split; [apply H0|].
  rewrite H0.
  assert (HN : INR nstep <> 0) by (apply not_0_INR; lia).
  replace (INR nstep / INR nstep * 2 * PI * 2) with (0 + 2 * INR 2 * PI)
    by (simpl; field; exact HN).
  rewrite sin_period, sin_0. ring.
Qed.

Lemma cycle_load_telescopes_witness :
  (0 < 1000)%nat
  /\ accumulated_load 1000 15000 250 500
     = 15000 * sin (INR (250 + 500) / INR 1000 * 2 * PI * 2)
       - 15000 * sin (INR 250 / INR 1000 * 2 * PI * 2)
  /\ accumulated_load 1000 15000 0 500
     = 15000 * sin (INR 500 / INR 1000 * 2 * PI * 2)
  /\ accumulated_load 1000 15000 0 1000 = 0.
Proof.
  assert (H : (0 < 1000)%nat) by lia.
  split; [exact H|]. exact (@cycle_load_telescopes 1000 15000 250 500 H).
Defined.

(** ** The consolidation driver *)

Lemma isotropic_compression_step_frame (e0 : R) (dstress : mat3) (self self' : Li2002.t) :
  Li2002.isotropic_compression_step e0 dstress self = Ok self' ->
  Li2002.stress self' = madd (Li2002.stress self) dstress
  /\ Li2002.par self' = Li2002.par self
  /\ Li2002.e0 self' = Li2002.e0 self
  /\ same_surfaces self self'
  /\ exists e' : R, Li2002.e self' = Some e'.
Proof.
  intros H. unfold Li2002.isotropic_compression_step in H.
  crunch H. unfold same_surfaces. sp_simpl. repeat split. eexists. reflexivity.
Qed.

Lemma madd_zeros_scale (a d : mat3) : madd a (mscale (INR 0) d) = a.
Proof.
  destruct a as [[? ? ?] [? ? ?] [? ? ?]], d as [[? ? ?] [? ? ?] [? ? ?]].
  mat_compute. simpl. arr_eq; ring.
Qed.

Lemma madd_step_scale (a d : mat3) (k : nat) :
  madd (madd a d) (mscale (INR k) d) = madd a (mscale (INR (S k)) d).
Proof.
  destruct a as [[? ? ?] [? ? ?] [? ? ?]], d as [[? ? ?] [? ? ?] [? ? ?]].
  rewrite S_INR. mat_compute. arr_eq; ring.
Qed.

Lemma isotropic_compression_loop_frame (e0 : R) (dstress : mat3) (k : nat) :
  forall self self' : Li2002.t,
    Li2002.isotropic_compression_loop k e0 dstress self = Ok self' ->
    Li2002.stress self' = madd (Li2002.stress self) (mscale (INR k) dstress)
    /\ Li2002.par self' = Li2002.par self
    /\ Li2002.e0 self' = Li2002.e0 self
    /\ same_surfaces self self'.
Proof.
  induction k as [|k IH]; intros self self' H; cbn [Li2002.isotropic_compression_loop] in H.
  - injection H as <-. rewrite madd_zeros_scale. unfold same_surfaces. repeat split.
  - destruct (Li2002.isotropic_compression_step e0 dstress self) as [self1|] eqn:E;
      [|discriminate H].
    cbn [bind] in H.
    destruct (isotropic_compression_step_frame _ _ _ E) as [Hs [Hp [He0 [Hb _]]]].
    destruct (IH _ _ H) as [Hs' [Hp' [He0' Hb']]].
    rewrite Hs', Hs, madd_step_scale.
    unfold same_surfaces in *. intuition congruence.
Qed.

Lemma isotropic_compression_loop_sets_e (e0 : R) (dstress : mat3) (k : nat) :
  forall self self' : Li2002.t,
    Li2002.isotropic_compression_loop (S k) e0 dstress self = Ok self' ->
    exists e' : R, Li2002.e self' = Some e'.
Proof.
  induction k as [|k IH]; intros s s' E; cbn [Li2002.isotropic_compression_loop] in E.
  - destruct (Li2002.isotropic_compression_step e0 dstress s) as [s1|] eqn:E1;
      [|discriminate E].
    cbn [bind] in E. injection E as <-.
    apply isotropic_compression_step_frame in E1. apply E1.
  - destruct (Li2002.isotropic_compression_step e0 dstress s) as [s1|] eqn:E1;
      [|discriminate E].
    cbn [bind] in E. exact (IH _ _ E).
Qed.

(** X13.  When [isotropic_compression] returns: for a positive [nstep] the
    stress has grown by [diag(c, 2c, c)] for [c = compression_stress] (the
    increments are in the ratio 1:2:1); for a negative [nstep] the loop has no
    pass, the stress is as before and [self.e] is [e0].  In both cases the
    strain has been cleared, [self.e] is assigned, and the material
    constants, [e0] and the bounding-surface state ([alpha], [beta], [H1],
    [H2], [L1]) are as before the call. *)
Theorem isotropic_compression_frame
    (self self' : Li2002.t) (e0 compression_stress : R) (nstep : Z) :
  Li2002.isotropic_compression self e0 compression_stress nstep = Ok self' ->
  ((0 < nstep)%Z ->
   Li2002.stress self'
   = madd (Li2002.stress self)
          (Arr3 (Arr3 compression_stress 0 0)
                (Arr3 0 (2 * compression_stress) 0)
                (Arr3 0 0 compression_stress)))
  /\ ((nstep < 0)%Z ->
      Li2002.stress self' = Li2002.stress self /\ Li2002.e self' = Some e0)
  /\ Li2002.strain self' = zeros33
  /\ (exists e' : R, Li2002.e self' = Some e')
  /\ Li2002.par self' = Li2002.par self
  /\ Li2002.e0 self' = Li2002.e0 self
  /\ same_surfaces self self'.
Proof.
  intros H. unfold Li2002.isotropic_compression in H.
  destruct (Z.eqb nstep 0) eqn:Hn; [discriminate H|].
  apply Z.eqb_neq in Hn.
  cbv zeta in H. cbn [Li2002.vector_to_matrix bind] in H.
  destruct (Li2002.isotropic_compression_loop (Z.to_nat nstep) e0 _ _) as [self1|] eqn:E;
    [|discriminate H].
  cbn [bind] in H. injection H as <-.
  pose proof E as Hfr. apply isotropic_compression_loop_frame in Hfr.
  destruct Hfr as [Hs [Hp [He0 Hb]]].
  unfold Li2002.clear_strain. sp_simpl.
  split; [|split; [|split; [reflexivity|split; [|split; [exact Hp|split; [exact He0|]]]]]].
  - intros Hpos. rewrite Hs. sp_simpl.
    assert (HN : INR (Z.to_nat nstep) = IZR nstep)
      by (rewrite INR_IZR_INZ, Z2Nat.id by lia; reflexivity).
    assert (HZ : IZR nstep <> 0) by (apply not_0_IZR; exact Hn).
    rewrite HN.
    destruct (Li2002.stress self) as [[? ? ?] [? ? ?] [? ? ?]].
    mat_compute. arr_eq; field; exact HZ.
  - intros Hneg.
    assert (H0 : Z.to_nat nstep = 0%nat) by lia.
    rewrite H0 in E. cbn [Li2002.isotropic_compression_loop] in E.
    injection E as <-. split; reflexivity.
  - destruct (Z.to_nat nstep) as [|k] eqn:Hk.
    + cbn [Li2002.isotropic_compression_loop] in E. injection E as <-.
      eexists. reflexivity.
    + exact (isotropic_compression_loop_sets_e _ _ _ _ E).
  - unfold same_surfaces in *. sp_simpl. exact Hb.
Qed.

Lemma isotropic_compression_frame_witness :
  (exists self' : Li2002.t,
     Li2002.isotropic_compression Li2002.default 0.75 20000 (-1) = Ok self'
     /\ Li2002.stress self' = Li2002.stress Li2002.default
     /\ Li2002.e self' = Some 0.75)
  /\ exists self' : Li2002.t,
    Li2002.isotropic_compression Li2002.default 0.75 20000 1000 = Ok self'
    /\ ((0 < 1000)%Z ->
        Li2002.stress self'
        = madd (Li2002.stress Li2002.default)
               (Arr3 (Arr3 20000 0 0) (Arr3 0 (2 * 20000) 0) (Arr3 0 0 20000)))
    /\ ((1000 < 0)%Z ->
        Li2002.stress self' = Li2002.stress Li2002.default
        /\ Li2002.e self' = Some 0.75)
    /\ Li2002.strain self' = zeros33
    /\ (exists e' : R, Li2002.e self' = Some e')
    /\ Li2002.par self' = Li2002.par Li2002.default
    /\ Li2002.e0 self' = Li2002.e0 Li2002.default
    /\ same_surfaces Li2002.default self'.
Proof.
  split.
  - assert (Hrun : exists self' : Li2002.t,
               Li2002.isotropic_compression Li2002.default 0.75 20000 (-1) = Ok self')
      by (eexists; reflexivity).
    destruct Hrun as [self' Hrun]. exists self'. split; [exact Hrun|].
    destruct (@isotropic_compression_frame Li2002.default self' 0.75 20000 (-1) Hrun)
      as [_ [Hneg _]].
    apply Hneg. reflexivity.
  - destruct isotropic_compression_run as [self' [Hrun _]].
    exists self'. split; [exact Hrun|].
    exact (@isotropic_compression_frame Li2002.default self' 0.75 20000 1000 Hrun).
Defined.

(** ** The elastic regime *)

(** With both mechanisms elastic the tangent stiffness that [set_tensor_Ep]
    assembles is the elastic stiffness. *)
Lemma set_tensor_Ep_elastic_value (self : Li2002.t) (sp : StateParameters.t) (Ge : R) :
  StateParameters.elastic_flag1 sp = true ->
  StateParameters.elastic_flag2 sp = true ->
  StateParameters.num "Ge" sp = Ok Ge ->
  Li2002.set_tensor_Ep self sp
  = Ok (StateParameters.set_Ep (Li2002.elastic_stiffness self Ge) sp).
Proof.
  intros H1 H2 HG. unfold Li2002.set_tensor_Ep.
  rewrite H1, H2. cbn [bind]. rewrite HG. cbn [bind].
  do 2 f_equal.
  unfold Li2002.elastic_stiffness.
  set (l := 2 * Ge * Li2002.nu self / (1 - 2 * Li2002.nu self)). clearbody l.
  mat_compute. arr_eq; ring.
Qed.

Section ElasticRegime.

Variable brentq : (R -> R) -> R -> R -> res R.

Lemma plastic_stiffness_elastic_value
    (self : Li2002.t) (sp : StateParameters.t) (ec : R) :
  Li2002.e self = Some ec ->
  norm (msub (StateParameters.rij sp) (Li2002.alpha (recentred self sp))) < 1e-6 ->
  Rabs (StateParameters.p sp - Li2002.beta (recentred self sp)) = 0 ->
  exists sp' : StateParameters.t,
    Li2002.plastic_stiffness brentq self sp
    = Ok (recentred self sp, sp',
          Li2002.elastic_stiffness (recentred self sp)
            (fst (Li2002.elastic_modulus (recentred self sp) ec (StateParameters.p sp)))).
Proof.
  intros He H1 H2.
  destruct (@evaluate_elastic brentq self sp ec He H1 H2)
    as [sp' [E [_ [Hf1 [Hf2 [_ [_ HG]]]]]]].
  eexists. unfold Li2002.plastic_stiffness. rewrite E. cbn [bind].
  rewrite (@set_tensor_Ep_elastic_value (recentred self sp) sp' _ Hf1 Hf2 HG).
  reflexivity.
Qed.

(** X14.  A step of the engine in the elastic regime.  For a model whose
    stress ratio is at the centre [alpha] and whose mean stress is [beta],
    and the snapshot that [cyclic_shear_test] passes (built from the model's
    own strain and stress), [plastic_deformation] does exactly what
    [elastic_deformation] does at the shear modulus [Ge] of the current
    state: it returns the same increments or raises the same exception, and
    it leaves the model as it was. *)
Theorem plastic_deformation_elastic_regime
    (self : Li2002.t) (dstrain_given dstress_given dstrain0 dstress0 : mat3)
    (deformation : mat bool) (ec : R) :
  let sp0 := StateParameters.init (Li2002.strain self) (Li2002.stress self)
               dstrain0 dstress0 false false in
  let Ge := fst (Li2002.elastic_modulus self ec (StateParameters.p sp0)) in
  Li2002.e self = Some ec ->
  norm (msub (StateParameters.rij sp0) (Li2002.alpha self)) < 1e-6 ->
  Rabs (StateParameters.p sp0 - Li2002.beta self) = 0 ->
  match Li2002.elastic_deformation self dstrain_given dstress_given Ge deformation with
  | Ok (dstrain, dstress) =>
      exists sp2 : StateParameters.t,
        Li2002.plastic_deformation brentq self dstrain_given dstress_given
          deformation sp0
        = Ok (self, (dstrain, dstress, sp2))
  | Raise err =>
      Li2002.plastic_deformation brentq self dstrain_given dstress_given
        deformation sp0
      = Raise err
  end.
Proof.
  intros sp0 Ge He Hn Hp.
  assert (Hel : forall d1 d2 : mat3,
             let sp := StateParameters.init (Li2002.strain self) (Li2002.stress self)
                         d1 d2 false false in
             recentred self sp = self
             /\ norm (msub (StateParameters.rij sp) (Li2002.alpha (recentred self sp)))
                < 1e-6
             /\ Rabs (StateParameters.p sp - Li2002.beta (recentred self sp)) = 0
             /\ StateParameters.p sp = StateParameters.p sp0).
  { intros d1 d2 sp.
    assert (Hre : recentred self sp = self) by reflexivity.
    rewrite Hre. repeat split; assumption. }
  unfold Li2002.plastic_deformation.
  destruct (Hel dstrain0 dstress0) as [Hre [Hn0 [Hp0 _]]]. fold sp0 in Hre, Hn0, Hp0.
  destruct (@check_unload_elastic brentq self sp0 ec He Hn0 Hp0) as [sp1 [HC _]].
  rewrite Hre in HC. rewrite HC. cbn [bind].
  destruct (Hel dstrain_given dstress_given) as [Hre2 [Hn2 [Hp2 Hpp]]].
  destruct (@plastic_stiffness_elastic_value self _ ec He Hn2 Hp2) as [sp' HP].
  rewrite Hre2, Hpp in HP. fold Ge in HP.
  rewrite HP. cbn [bind].
  unfold Li2002.elastic_deformation.
  destruct (Li2002.solve_strain_with_consttain dstrain_given dstress_given
              (Li2002.elastic_stiffness self Ge) deformation)
    as [[dstrain dstress]|err]; cbn [bind]; [|reflexivity].
  destruct (Hel dstrain dstress) as [Hre3 [Hn3 [Hp3 _]]].
  destruct (@update_parameters_elastic brentq self _ ec He Hn3 Hp3) as [sp2' HU].
  rewrite Hre3 in HU. rewrite HU. cbn [bind].
  eexists. reflexivity.
Qed.

End ElasticRegime.

Lemma plastic_deformation_elastic_regime_witness :
  let sp0 := StateParameters.init (Li2002.strain sand_at_rest) (Li2002.stress sand_at_rest)
               zeros33 zeros33 false false in
  let Ge := fst (Li2002.elastic_modulus sand_at_rest 0.75 (StateParameters.p sp0)) in
  Li2002.e sand_at_rest = Some 0.75
  /\ norm (msub (StateParameters.rij sp0) (Li2002.alpha sand_at_rest)) < 1e-6
  /\ Rabs (StateParameters.p sp0 - Li2002.beta sand_at_rest) = 0
  /\ match Li2002.elastic_deformation sand_at_rest eye3 zeros33 Ge (all_mask false) with
     | Ok (dstrain, dstress) =>
         exists sp2 : StateParameters.t,
           Li2002.plastic_deformation no_root sand_at_rest eye3 zeros33
             (all_mask false) sp0
           = Ok (sand_at_rest, (dstrain, dstress, sp2))
     | Raise err =>
         Li2002.plastic_deformation no_root sand_at_rest eye3 zeros33
           (all_mask false) sp0
         = Raise err
     end.
Proof.
  intros sp0 Ge.
  destruct (init_zero_stress zeros33 zeros33 zeros33 false false) as [Hr Hp].
  assert (H1 : Li2002.e sand_at_rest = Some 0.75) by reflexivity.
  assert (H2 : norm (msub (StateParameters.rij sp0) (Li2002.alpha sand_at_rest)) < 1e-6).
  { unfold sp0. change (Li2002.strain sand_at_rest) with zeros33.
    change (Li2002.stress sand_at_rest) with zeros33.
    rewrite Hr. change (Li2002.alpha sand_at_rest) with zeros33.
    rewrite norm_msub_self. lra. }
  assert (H3 : Rabs (StateParameters.p sp0 - Li2002.beta sand_at_rest) = 0).
  { unfold sp0. change (Li2002.strain sand_at_rest) with zeros33.
    change (Li2002.stress sand_at_rest) with zeros33.
    rewrite Hp. change (Li2002.beta sand_at_rest) with 0.0.
    replace (0 - 0.0) with 0 by lra. apply Rabs_R0. }
  split; [exact H1|]. split; [exact H2|]. split; [exact H3|].
  exact (@plastic_deformation_elastic_regime no_root sand_at_rest eye3 zeros33
           zeros33 zeros33 (all_mask false) 0.75 H1 H2 H3).
Defined.

(** ** The elastic flags of a snapshot *)

Section Flags.

Variable brentq : (R -> R) -> R -> R -> res R.

Lemma set_mapping_stress_flags (self self' : Li2002.t) (sp sp' : StateParameters.t) :
  Li2002.set_mapping_stress brentq self sp = Ok (self', sp') ->
  (StateParameters.elastic_flag1 sp = true -> StateParameters.elastic_flag1 sp' = true)
  /\ (StateParameters.elastic_flag2 sp = true -> StateParameters.elastic_flag2 sp' = true).
Proof.
  intros H. unfold Li2002.set_mapping_stress in H.
  fold (recentred self sp) in H.
  set (s := recentred self sp) in *. clearbody s.
  crunch H;
    repeat match goal with
           | |- context [if Rltb ?a ?b then _ else _] => destruct (Rltb a b)
           end;
    sp_simpl; split; intros; try assumption; reflexivity.
Qed.

(** X15.  The evaluation never clears an elastic flag, and a flag that the
    snapshot was constructed with decides the outcome: a snapshot that
    enters with [elastic_flag1 = True] leaves with it, with [alpha] moved to
    its [rij]; one that enters with [elastic_flag2 = True] leaves with it,
    with [beta] moved to its [p]. *)
Theorem evaluate_keeps_flags (self self' : Li2002.t) (sp sp' : StateParameters.t) :
  Li2002.evaluate brentq self sp = Ok (self', sp') ->
  (StateParameters.elastic_flag1 sp = true ->
   StateParameters.elastic_flag1 sp' = true
   /\ Li2002.alpha self' = StateParameters.rij sp)
  /\ (StateParameters.elastic_flag2 sp = true ->
      StateParameters.elastic_flag2 sp' = true
      /\ Li2002.beta self' = StateParameters.p sp).
Proof.
  intros H.
  destruct (@evaluate_frame brentq _ _ _ _ H) as [Ha [Hb _]].
  rewrite recentred_alpha in Ha. rewrite recentred_beta in Hb.
  unfold Li2002.evaluate in H.
  destruct (Li2002.set_mapping_stress brentq self sp) as [[self1 sp1]|] eqn:E1;
    [|discriminate H].
  cbn [bind] in H.
  destruct (Li2002.set_parameters self1 sp1) as [sp2|] eqn:E2; [|discriminate H].
  cbn [bind] in H.
  destruct (Li2002.set_parameter_nm self1 sp2) as [sp3|] eqn:E3; [|discriminate H].
  cbn [bind] in H.
  destruct (Li2002.set_parameter_TZ self1 sp3) as [sp4|] eqn:E4; [|discriminate H].
  cbn [bind] in H. injection H as <- <-.
  destruct (@set_mapping_stress_flags _ _ _ _ E1) as [F1 F2].
  destruct (@set_parameters_frame _ _ _ E2) as [_ [G1 G2]].
  destruct (@set_parameter_nm_frame _ _ _ E3) as [_ [K1 K2]].
  destruct (@set_parameter_TZ_frame _ _ _ E4) as [_ [M1 M2]].
  split; intros Hf.
  - split; [rewrite M1, K1, G1; exact (F1 Hf) | rewrite Ha, Hf; reflexivity].
  - split; [rewrite M2, K2, G2; exact (F2 Hf) | rewrite Hb, Hf; reflexivity].
Qed.

End Flags.

Lemma evaluate_keeps_flags_witness :
  let sp := StateParameters.init zeros33 sheared_stress eye3 zeros33 true true in
  exists (self' : Li2002.t) (sp' : StateParameters.t),
    Li2002.evaluate no_root sand_at_rest sp = Ok (self', sp')
    /\ (StateParameters.elastic_flag1 sp = true ->
        StateParameters.elastic_flag1 sp' = true
        /\ Li2002.alpha self' = StateParameters.rij sp)
    /\ (StateParameters.elastic_flag2 sp = true ->
        StateParameters.elastic_flag2 sp' = true
        /\ Li2002.beta self' = StateParameters.p sp).
Proof.
  intros sp.
  destruct (@evaluate_elastic no_root sand_at_rest sp 0.75) as [sp' [E _]].
  - reflexivity.
  - rewrite recentred_alpha.
    change (StateParameters.elastic_flag1 sp) with true. cbv iota.
    rewrite norm_msub_self. lra.
  - rewrite recentred_beta.
    change (StateParameters.elastic_flag2 sp) with true. cbv iota.
    replace (StateParameters.p sp - StateParameters.p sp) with 0 by ring.
    apply Rabs_R0.
  - exists (recentred sand_at_rest sp), sp'. split; [exact E|].
    exact (@evaluate_keeps_flags no_root sand_at_rest _ sp sp' E).
Defined.

(** ** The moduli *)

(** X16.  The elastic moduli and the state parameter see the mean stress
    only through [max(p, pmin)]: at or below the floor they take their value
    at [pmin].  For positive [G0], [pr], [pmin] and a void ratio between -1
    and 2.97 the shear modulus is positive, and the bulk modulus is
    [2 (1 + nu) / (3 (1 - 2 nu))] times it. *)
Theorem moduli_floor_and_sign (self : Li2002.t) (e p : R) :
  0 < Li2002.G0 self -> 0 < Li2002.pr self -> 0 < Li2002.pmin self ->
  -1 < e < 2.97 ->
  (p <= Li2002.pmin self ->
   Li2002.elastic_modulus self e p = Li2002.elastic_modulus self e (Li2002.pmin self)
   /\ Li2002.state_parameter self e p = Li2002.state_parameter self e (Li2002.pmin self))
  /\ 0 < fst (Li2002.elastic_modulus self e p)
  /\ snd (Li2002.elastic_modulus self e p)
     = fst (Li2002.elastic_modulus self e p)
       * (2 * (1 + Li2002.nu self) / (3 * (1 - 2 * Li2002.nu self))).
Proof.
  intros HG Hpr Hmin He. split; [|split].
  - intros Hp.
    assert (Hmax : py_max p (Li2002.pmin self)
                   = py_max (Li2002.pmin self) (Li2002.pmin self)).
    { unfold py_max. rewrite (@Rltb_false (Li2002.pmin self) (Li2002.pmin self)) by lra.
      destruct (Rltb p (Li2002.pmin self)) eqn:B; [reflexivity|].
      destruct (Rlt_dec p (Li2002.pmin self)) as [Hlt|Hge].
      - rewrite (@Rltb_true _ _ Hlt) in B. discriminate B.
      - lra. }
    unfold Li2002.elastic_modulus, Li2002.state_parameter. rewrite Hmax. split; reflexivity.
  - unfold Li2002.elastic_modulus. cbn [fst].
    pose proof (py_max_lower p (Li2002.pmin self)) as Hlow.
    apply Rmult_lt_0_compat.
    + apply Rdiv_lt_0_compat; [|lra].
      apply Rmult_lt_0_compat; [exact HG|]. apply pow_lt. lra.
    + apply sqrt_lt_R0. apply Rmult_lt_0_compat; lra.
  - unfold Li2002.elastic_modulus. cbn [fst snd]. unfold Rdiv. ring.
Qed.

Lemma moduli_floor_and_sign_witness :
  0 < Li2002.G0 Li2002.default /\ 0 < Li2002.pr Li2002.default
  /\ 0 < Li2002.pmin Li2002.default /\ -1 < 0.75 < 2.97
  /\ (40 <= Li2002.pmin Li2002.default ->
      Li2002.elastic_modulus Li2002.default 0.75 40
      = Li2002.elastic_modulus Li2002.default 0.75 (Li2002.pmin Li2002.default)
      /\ Li2002.state_parameter Li2002.default 0.75 40
         = Li2002.state_parameter Li2002.default 0.75 (Li2002.pmin Li2002.default))
  /\ 0 < fst (Li2002.elastic_modulus Li2002.default 0.75 40)
  /\ snd (Li2002.elastic_modulus Li2002.default 0.75 40)
     = fst (Li2002.elastic_modulus Li2002.default 0.75 40)
       * (2 * (1 + Li2002.nu Li2002.default) / (3 * (1 - 2 * Li2002.nu Li2002.default))).
Proof.
  assert (H1 : 0 < Li2002.G0 Li2002.default)
    by (cbn [Li2002.default Li2002.init Li2002.par Li2002.G0]; lra).
  assert (H2 : 0 < Li2002.pr Li2002.default)
    by (cbn [Li2002.default Li2002.init Li2002.par Li2002.pr]; lra).
  assert (H3 : 0 < Li2002.pmin Li2002.default)
    by (cbn [Li2002.default Li2002.init Li2002.par Li2002.pmin]; lra).
  assert (H4 : -1 < 0.75 < 2.97) by lra.
  split; [exact H1|]. split; [exact H2|]. split; [exact H3|]. split; [exact H4|].
  exact (@moduli_floor_and_sign Li2002.default 0.75 40 H1 H2 H3 H4).
Defined.

(** X17.  The stiffness of the consolidation driver is an isotropic elastic
    stiffness at a reduced shear modulus [G2], strictly between 0 and the
    elastic [G], for positive [G0], [pr], [pmin], [h4], [d2], a Poisson ratio
    between -1 and 1/2 and a void ratio between -1 and 2.97.  It is
    invertible, so [solve_strain] returns for every stress increment. *)
Theorem isotropic_compression_stiffness_invertible (self : Li2002.t) (e p : R) (b : mat3) :
  0 < Li2002.G0 self -> 0 < Li2002.pr self -> 0 < Li2002.pmin self ->
  0 < Li2002.h4 self -> 0 < Li2002.d2 self ->
  -1 < Li2002.nu self < 1 / 2 ->
  -1 < e < 2.97 ->
  Li2002.isotropic_compression_stiffness self e p
  = Li2002.elastic_stiffness self (G2_of self e p)
  /\ 0 < G2_of self e p < fst (Li2002.elastic_modulus self e p)
  /\ exists x : mat3,
       Li2002.solve_strain b (Li2002.isotropic_compression_stiffness self e p) = Ok x
       /\ contract (Li2002.isotropic_compression_stiffness self e p) x = b.
Proof.
  intros HG0 Hpr Hmin Hh4 Hd2 Hnu He.
  assert (HG : 0 < fst (Li2002.elastic_modulus self e p)).
  { unfold Li2002.elastic_modulus. cbn [fst].
    pose proof (py_max_lower p (Li2002.pmin self)) as Hlow.
    apply Rmult_lt_0_compat.
    - apply Rdiv_lt_0_compat; [|lra].
      apply Rmult_lt_0_compat; [exact HG0|]. apply pow_lt. lra.
    - apply sqrt_lt_R0. apply Rmult_lt_0_compat; lra. }
  rewrite isotropic_compression_stiffness_eq.
  split; [reflexivity|].
  assert (Hfn : 0 < 2 * (1 + Li2002.nu self) / (3 * (1 - 2 * Li2002.nu self)))
    by (apply Rdiv_lt_0_compat; lra).
  assert (Hs : 0 < sqrt (2 / 3)) by (apply sqrt_lt_R0; lra).
  assert (HG2 : 0 < G2_of self e p < fst (Li2002.elastic_modulus self e p)).
  { unfold G2_of. cbv zeta.
    set (G := fst (Li2002.elastic_modulus self e p)) in *. clearbody G.
    set (fn := 2 * (1 + Li2002.nu self) / (3 * (1 - 2 * Li2002.nu self))) in *.
    clearbody fn.
    set (s := sqrt (2 / 3)) in *. clearbody s.
    set (h := Li2002.h4 self) in *. set (d := Li2002.d2 self) in *. clearbody h d.
    assert (Hsfd : 0 < s * fn * d) by (repeat apply Rmult_lt_0_compat; assumption).
    replace (G * fn * h / (h + s * fn * d) / fn) with (G * (h / (h + s * fn * d)))
      by (field; lra).
    assert (Hq : 0 < h / (h + s * fn * d) < 1).
    { split; [apply Rdiv_lt_0_compat; lra|].
      apply (Rmult_lt_reg_r (h + s * fn * d)); [lra|].
      unfold Rdiv. rewrite Rmult_assoc, Rinv_l by lra. lra. }
    nra. }
  split; [exact HG2|].
  assert (Hns : nonsingular (Li2002.elastic_stiffness self (G2_of self e p))).
  { apply elastic_stiffness_nonsingular; [lra|].
    unfold rlambda_of. set (G2 := G2_of self e p) in *. clearbody G2.
    replace (2 * G2 + 3 * (2 * G2 * Li2002.nu self / (1 - 2 * Li2002.nu self)))
      with (2 * G2 * ((1 + Li2002.nu self) / (1 - 2 * Li2002.nu self)))
      by (field; lra).
    assert (0 < (1 + Li2002.nu self) / (1 - 2 * Li2002.nu self))
      by (apply Rdiv_lt_0_compat; lra).
    nra. }
  destruct (linalg_solve_complete b Hns) as [l Hl].
  destruct (linalg_solve_sound _ _ Hl) as [_ Hsol].
  exists (reshape33 l). unfold Li2002.solve_strain. rewrite Hl. split; [reflexivity|].
  exact Hsol.
Qed.

Lemma isotropic_compression_stiffness_invertible_witness :
  0 < Li2002.G0 Li2002.default /\ 0 < Li2002.pr Li2002.default
  /\ 0 < Li2002.pmin Li2002.default
  /\ 0 < Li2002.h4 Li2002.default /\ 0 < Li2002.d2 Li2002.default
  /\ -1 < Li2002.nu Li2002.default < 1 / 2
  /\ -1 < 0.75 < 2.97
  /\ Li2002.isotropic_compression_stiffness Li2002.default 0.75 0
     = Li2002.elastic_stiffness Li2002.default (G2_of Li2002.default 0.75 0)
  /\ 0 < G2_of Li2002.default 0.75 0 < fst (Li2002.elastic_modulus Li2002.default 0.75 0)
  /\ exists x : mat3,
       Li2002.solve_strain eye3 (Li2002.isotropic_compression_stiffness Li2002.default 0.75 0)
       = Ok x
       /\ contract (Li2002.isotropic_compression_stiffness Li2002.default 0.75 0) x = eye3.
Proof.
  assert (H1 : 0 < Li2002.G0 Li2002.default)
    by (cbn [Li2002.default Li2002.init Li2002.par Li2002.G0]; lra).
  assert (H2 : 0 < Li2002.pr Li2002.default)
    by (cbn [Li2002.default Li2002.init Li2002.par Li2002.pr]; lra).
  assert (H3 : 0 < Li2002.pmin Li2002.default)
    by (cbn [Li2002.default Li2002.init Li2002.par Li2002.pmin]; lra).
  assert (H4 : 0 < Li2002.h4 Li2002.default)
    by (cbn [Li2002.default Li2002.init Li2002.par Li2002.h4]; lra).
  assert (H5 : 0 < Li2002.d2 Li2002.default)
    by (cbn [Li2002.default Li2002.init Li2002.par Li2002.d2]; lra).
  assert (H6 : -1 < Li2002.nu Li2002.default < 1 / 2)
    by (cbn [Li2002.default Li2002.init Li2002.par Li2002.nu]; lra).
  assert (H7 : -1 < 0.75 < 2.97) by lra.
  split; [exact H1|]. split; [exact H2|]. split; [exact H3|]. split; [exact H4|].
  split; [exact H5|]. split; [exact H6|]. split; [exact H7|].
  exact (@isotropic_compression_stiffness_invertible Li2002.default 0.75 0 eye3
           H1 H2 H3 H4 H5 H6 H7).
Defined.

(** ** The flow directions *)

Lemma norm_mdiv_self (a : mat3) : norm a <> 0 -> norm (mdiv a (norm a)) = 1.
Proof.
  intros Hn. unfold norm in *.
  assert (Hs : 0 <= sumsq a).
  { destruct a as [[a00 a01 a02] [a10 a11 a12] [a20 a21 a22]]. mat_compute. nra. }
  assert (Hsq : sqrt (sumsq a) * sqrt (sumsq a) = sumsq a) by (apply sqrt_sqrt; exact Hs).
  set (q := sqrt (sumsq a)) in *.
  replace (sumsq (mdiv a q)) with (sumsq a / (q * q)).
  - rewrite Hsq. replace (sumsq a / sumsq a) with 1; [apply sqrt_1|].
    field. intros H0. apply Hn. unfold q. rewrite H0. apply sqrt_0.
  - clearbody q. destruct a as [[a00 a01 a02] [a10 a11 a12] [a20 a21 a22]].
    mat_compute. field. exact Hn.
Qed.

Lemma trace_deviator_direction (dF1 : mat3) (q : R) :
  trace (mdiv (msub dF1 (mdiv (mscale (trace dF1) eye3) 3.0)) q) = 0.
Proof.
  destruct dF1 as [[a00 a01 a02] [a10 a11 a12] [a20 a21 a22]].
  mat_compute. replace 3.0 with 3 by lra.
  match goal with
  | |- ?a / q + ?b / q + ?c / q = 0 =>
      replace (a / q + b / q + c / q) with ((a + b + c) * / q) by (unfold Rdiv; ring);
      replace (a + b + c) with 0 by field; ring
  end.
Qed.

Lemma trace_deviator (dF1 : mat3) :
  trace (msub dF1 (mdiv (mscale (trace dF1) eye3) 3.0)) = 0.
Proof.
  destruct dF1 as [[a00 a01 a02] [a10 a11 a12] [a20 a21 a22]].
  mat_compute. replace 3.0 with 3 by lra. field.
Qed.

(** X18.  What [set_parameter_nm] stores when it returns: [mij] is the zero
    tensor when [rij] is zero and otherwise has unit norm (it is
    [rij / |rij|]); and when mechanism 1 is plastic, [nij] is a traceless
    tensor [D] divided by its norm, so that it is traceless with unit norm
    unless [D] is zero. *)
Theorem set_parameter_nm_directions (self : Li2002.t) (sp sp' : StateParameters.t) :
  Li2002.set_parameter_nm self sp = Ok sp' ->
  (exists mij : mat3,
     StateParameters.matr "mij" sp' = Ok mij
     /\ (norm (StateParameters.rij sp) = 0 -> mij = zeros33)
     /\ (norm (StateParameters.rij sp) <> 0 ->
         mij = mdiv (StateParameters.rij sp) (norm (StateParameters.rij sp))
         /\ norm mij = 1))
  /\ (StateParameters.elastic_flag1 sp = false ->
      exists D nij : mat3,
        StateParameters.matr "nij" sp' = Ok nij
        /\ trace D = 0
        /\ nij = mdiv D (norm D)
        /\ (norm D <> 0 -> trace nij = 0 /\ norm nij = 1)).
Proof.
  intros H. unfold Li2002.set_parameter_nm in H.
  destruct (StateParameters.elastic_flag1 sp) eqn:F1; cbn [negb bind] in H.
  - split; [|intros Hf; discriminate Hf].
    destruct (Reqb (norm (StateParameters.rij sp)) 0.0) eqn:B; injection H as <-;
      eexists; (split; [reflexivity|]).
    + split; [reflexivity|]. intros Hne. exfalso. apply Hne.
      apply Reqb_spec in B. lra.
    + split; [|intros Hne; split; [reflexivity | apply norm_mdiv_self; exact Hne]].
      intros H0. rewrite (@Reqb_true _ 0.0) in B by lra. discriminate B.
  - destruct (StateParameters.matr "rij_bar" sp) as [rb|]; [|discriminate H].
    cbn [bind] in H.
    destruct (StateParameters.num "R_bar" sp) as [Rb|]; [|discriminate H].
    cbn [bind] in H.
    destruct (StateParameters.num "g_bar" sp) as [gb|]; [|discriminate H].
    cbn [bind] in H.
    change (StateParameters.rij (StateParameters.set_mat "nij" _ sp))
      with (StateParameters.rij sp) in H.
    destruct (Reqb (norm (StateParameters.rij sp)) 0.0) eqn:B; injection H as <-.
    + split.
      * eexists. split; [reflexivity|]. split; [reflexivity|].
        intros Hne. exfalso. apply Hne. apply Reqb_spec in B. lra.
      * intros _. do 2 eexists. split; [reflexivity|].
        split; [apply trace_deviator|]. split; [reflexivity|].
        intros Hne. split; [apply trace_deviator_direction | apply norm_mdiv_self; exact Hne].
    + split.
      * eexists. split; [reflexivity|].
        split; [|intros Hne; split; [reflexivity | apply norm_mdiv_self; exact Hne]].
        intros H0. rewrite (@Reqb_true _ 0.0) in B by lra. discriminate B.
      * intros _. do 2 eexists. split; [reflexivity|].
        split; [apply trace_deviator|]. split; [reflexivity|].
        intros Hne. split; [apply trace_deviator_direction | apply norm_mdiv_self; exact Hne].
Qed.

Lemma set_parameter_nm_directions_witness :
  exists sp' : StateParameters.t,
    Li2002.set_parameter_nm sand_at_rest flagged_snapshot = Ok sp'
    /\ (exists mij : mat3,
          StateParameters.matr "mij" sp' = Ok mij
          /\ (norm (StateParameters.rij flagged_snapshot) = 0 -> mij = zeros33)
          /\ (norm (StateParameters.rij flagged_snapshot) <> 0 ->
              mij = mdiv (StateParameters.rij flagged_snapshot)
                      (norm (StateParameters.rij flagged_snapshot))
              /\ norm mij = 1))
    /\ (StateParameters.elastic_flag1 flagged_snapshot = false ->
        exists D nij : mat3,
          StateParameters.matr "nij" sp' = Ok nij
          /\ trace D = 0
          /\ nij = mdiv D (norm D)
          /\ (norm D <> 0 -> trace nij = 0 /\ norm nij = 1)).
Proof.
  destruct (@set_parameter_nm_elastic sand_at_rest flagged_snapshot eq_refl) as [mij Hrun].
  eexists. split; [exact Hrun|].
  exact (@set_parameter_nm_directions sand_at_rest flagged_snapshot _ Hrun).
Defined.

(** ** The unload check of mechanism 2 *)

Section Unload2.

Variable brentq : (R -> R) -> R -> R -> res R.

(** X19.  The unload check of mechanism 2, for a snapshot that enters with
    [elastic_flag2 = False]: when [check_unload] returns, it returns
    [elastic_flag2 = True] and has moved [beta] to the snapshot's mean stress
    [p] if the loading index [Zij:dstrain] is negative, and it returns
    [elastic_flag2 = False] and leaves [beta] as it was otherwise. *)
Theorem check_unload_mechanism2
    (self self' : Li2002.t) (sp sp' : StateParameters.t) (ef1 ef2 : bool) :
  StateParameters.elastic_flag2 sp = false ->
  Li2002.check_unload brentq self sp = Ok (self', sp', (ef1, ef2)) ->
  exists Zij : mat3,
    StateParameters.matr "Zij" sp' = Ok Zij
    /\ (ddot Zij (StateParameters.dstrain sp) < 0 ->
        ef2 = true /\ Li2002.beta self' = StateParameters.p sp)
    /\ (0 <= ddot Zij (StateParameters.dstrain sp) ->
        ef2 = false /\ Li2002.beta self' = Li2002.beta self).
Proof.
  intros Hflag H.
  destruct (@check_unload_inv brentq _ _ _ _ _ _ H)
    as [self1 [Tij [Zij [E [ET [EZ [H1 [H2 Hs]]]]]]]].
  destruct (@evaluate_frame brentq _ _ _ _ E) as [_ [Hb [_ [_ [_ Hc]]]]].
  rewrite recentred_beta, Hflag in Hb.
  destruct Hc as [_ [_ [_ [Hds [_ [Hp _]]]]]].
  rewrite Hds, Hp in *.
  exists Zij. split; [exact EZ|].
  replace 0.0 with 0 in H2 by lra.
  split; intros Hd.
  - rewrite (@Rltb_true _ _ Hd) in H2. subst ef2 self'. split; reflexivity.
  - rewrite (@Rltb_false _ _ Hd) in H2. subst ef2 self'. split; [reflexivity|].
    cbv zeta. destruct ef1; exact Hb.
Qed.

End Unload2.

(** ** Both mechanisms plastic *)

Section Plastic12.

Variable brentq : (R -> R) -> R -> R -> res R.

Lemma set_mapping_stress_plastic12
    (self : Li2002.t) (sp : StateParameters.t) (rij_bar : mat3) (R_bar g_bar : R) :
  StateParameters.elastic_flag1 sp = false ->
  StateParameters.elastic_flag2 sp = false ->
  1e-6 <= norm (msub (StateParameters.rij sp) (Li2002.alpha self)) ->
  Li2002.mapping_r self 1.0 (StateParameters.rij sp) (Li2002.alpha self)
  = (rij_bar, R_bar, g_bar) ->
  0 < R_bar - Li2002.H1 self * g_bar ->
  0 < StateParameters.dp sp ->
  Li2002.beta self < StateParameters.p sp ->
  StateParameters.p sp <= Li2002.H2 self ->
  Li2002.set_mapping_stress brentq self sp
  = Ok (Li2002.set_H1 (R_bar / g_bar) self,
        StateParameters.set_num "rho2_ratio"
          (Rabs (Li2002.H2 self - Li2002.beta self)
           / Rabs (StateParameters.p sp - Li2002.beta self))
          (StateParameters.set_num "p_bar" (Li2002.H2 self)
             (StateParameters.set_num "rho1_ratio" 1.0
                (StateParameters.set_num "g_bar" g_bar
                   (StateParameters.set_num "R_bar" R_bar
                      (StateParameters.set_mat "rij_bar" rij_bar sp)))))).
Proof.
  intros Hf1 Hf2 Hn Hm HF Hdp Hb HH.
  unfold Li2002.set_mapping_stress. rewrite Hf1, Hf2.
  rewrite (@Rltb_false _ 1e-6 Hn).
  unfold Li2002.F1_boundary_surface. rewrite Hm.
  rewrite (@Rltb_true 0.0 _) by lra.
  cbn [bind]. sp_simpl.
  change (Li2002.beta (Li2002.set_H1 (R_bar / g_bar) self)) with (Li2002.beta self).
  change (Li2002.H2 (Li2002.set_H1 (R_bar / g_bar) self)) with (Li2002.H2 self).
  rewrite (@Reqb_false _ 0.0)
    by (rewrite Rabs_pos_eq by lra; lra).
  rewrite (@Rltb_false _ _ HH).
  rewrite (@Rltb_true 0.0 _) by lra.
  change (Li2002.beta (Li2002.set_H1 (R_bar / g_bar) self)) with (Li2002.beta self).
  rewrite (@Rleb_false _ _ Hb).
  reflexivity.
Qed.

Lemma set_parameters_plastic12
    (self : Li2002.t) (sp : StateParameters.t)
    (ec rho1_ratio R_bar g_bar rho2_ratio : R) :
  Li2002.e self = Some ec ->
  StateParameters.elastic_flag1 sp = false ->
  StateParameters.elastic_flag2 sp = false ->
  StateParameters.R_ sp <> 0 ->
  StateParameters.num "rho1_ratio" sp = Ok rho1_ratio ->
  StateParameters.num "R_bar" sp = Ok R_bar ->
  StateParameters.num "g_bar" sp = Ok g_bar ->
  StateParameters.num "rho2_ratio" sp = Ok rho2_ratio ->
  let Ge := fst (Li2002.elastic_modulus self ec (StateParameters.p sp)) in
  let Ke := snd (Li2002.elastic_modulus self ec (StateParameters.p sp)) in
  let psi := Li2002.state_parameter self ec (StateParameters.p sp) in
  let g := Li2002.g_theta self (StateParameters.sij sp) in
  let h := (Li2002.h1 self - Li2002.h2 self * ec)
           * ((1.0 / rho1_ratio) ^ 10
              + Li2002.h3 self * Li2002.accumulated_load_index self (Li2002.L1 self)
                * (1 - (1.0 / rho1_ratio) ^ 10)) in
  let Kp := Li2002.plastic_modulus1 self Ge R_bar g_bar rho1_ratio h psi in
  let D1 := Li2002.dilatancy1 self (StateParameters.R_ sp) g rho1_ratio psi in
  let sign := StateParameters.dp sp / Rabs (StateParameters.dp sp) in
  let Mg_R := Li2002.M self * g / StateParameters.R_ sp in
  let Kp2 := Li2002.plastic_modulus2 self Ge Mg_R rho2_ratio sign in
  let D2 := Li2002.dilatancy2 self Mg_R sign in
  Li2002.set_parameters self sp
  = Ok (StateParameters.set_num "D2" D2
          (StateParameters.set_num "Kp2_b" (snd Kp2)
             (StateParameters.set_num "Kp2" (fst Kp2)
                (StateParameters.set_num "D1" D1
                   (StateParameters.set_num "Kp1_b" (snd Kp)
                      (StateParameters.set_num "Kp1" (fst Kp)
                         (StateParameters.set_num "h" h
                            (StateParameters.set_num "g" g
                               (StateParameters.set_num "psi" psi
                                  (StateParameters.set_num "Ke" Ke
                                     (StateParameters.set_num "Ge" Ge sp))))))))))).
Proof.
  intros He Hf1 Hf2 HR0 Hrho HR Hg Hrho2 Ge Ke psi g h Kp D1 sign Mg_R Kp2 D2.
  unfold Li2002.set_parameters, Li2002.get_e. rewrite He. cbn [bind].
  subst Ge Ke.
  destruct (Li2002.elastic_modulus self ec (StateParameters.p sp)) as [Ge Ke].
  cbn [fst snd] in *.
  change (StateParameters.elastic_flag1 (StateParameters.set_num "g" _ _))
    with (StateParameters.elastic_flag1 sp).
  change (StateParameters.p (StateParameters.set_num "Ke" _ _))
    with (StateParameters.p sp).
  change (StateParameters.sij (StateParameters.set_num "psi" _ _))
    with (StateParameters.sij sp).
  fold psi. fold g.
  rewrite Hf1. attr_simpl. rewrite Hrho. cbn [bind].
  unfold Li2002.scaling_factor, Li2002.get_e. rewrite He. cbn [bind].
  attr_simpl. rewrite HR. cbn [bind]. attr_simpl. rewrite Hg. cbn [bind].
  fold h. fold Kp.
  destruct Kp as [Kp1 Kp1_b] eqn:HKp.
  cbn [bind fst snd].
  change (StateParameters.R_ (StateParameters.set_num "Kp1_b" _ _))
    with (StateParameters.R_ sp).
  fold D1.
  change (StateParameters.elastic_flag2 (StateParameters.set_num "D1" _ _))
    with (StateParameters.elastic_flag2 sp).
  change (StateParameters.R_ (StateParameters.set_num "D1" _ _))
    with (StateParameters.R_ sp).
  change (StateParameters.dp (StateParameters.set_num "D1" _ _))
    with (StateParameters.dp sp).
  rewrite Hf2. rewrite (@Reqb_false _ 0.0) by lra. cbn [orb].
  attr_simpl. rewrite Hrho2. cbn [bind].
  fold sign. fold Mg_R. fold Kp2.
  destruct Kp2 as [Kp2v Kp2_b] eqn:HKp2.
  cbn [bind fst snd]. reflexivity.
Qed.

Lemma set_parameter_nm_plastic12
    (self : Li2002.t) (sp : StateParameters.t) (rij_bar : mat3) (R_bar g_bar : R) :
  StateParameters.elastic_flag1 sp = false ->
  norm (StateParameters.rij sp) <> 0 ->
  StateParameters.matr "rij_bar" sp = Ok rij_bar ->
  StateParameters.num "R_bar" sp = Ok R_bar ->
  StateParameters.num "g_bar" sp = Ok g_bar ->
  Li2002.set_parameter_nm self sp
  = Ok (StateParameters.set_mat "mij"
          (mdiv (StateParameters.rij sp) (norm (StateParameters.rij sp)))
          (StateParameters.set_mat "nij"
             (flow_direction self (StateParameters.sij sp) rij_bar R_bar g_bar) sp)).
Proof.
  intros Hf1 Hn0 Hr HR Hg. unfold Li2002.set_parameter_nm.
  rewrite Hf1. cbn [negb]. rewrite Hr. cbn [bind]. rewrite HR. cbn [bind].
  rewrite Hg. cbn [bind].
  fold (flow_direction self (StateParameters.sij sp) rij_bar R_bar g_bar).
  change (StateParameters.rij (StateParameters.set_mat "nij" _ sp))
    with (StateParameters.rij sp).
  rewrite (@Reqb_false _ 0.0) by lra. reflexivity.
Qed.

Lemma set_parameter_TZ_plastic12
    (self : Li2002.t) (sp : StateParameters.t) (nij mij : mat3)
    (Ge Ke D1 Kp1 D2 Kp2 : R) :
  StateParameters.elastic_flag1 sp = false ->
  StateParameters.elastic_flag2 sp = false ->
  StateParameters.R_ sp <> 0 ->
  StateParameters.matr "nij" sp = Ok nij ->
  StateParameters.matr "mij" sp = Ok mij ->
  StateParameters.num "Ge" sp = Ok Ge ->
  StateParameters.num "Ke" sp = Ok Ke ->
  StateParameters.num "D1" sp = Ok D1 ->
  StateParameters.num "Kp1" sp = Ok Kp1 ->
  StateParameters.num "D2" sp = Ok D2 ->
  StateParameters.num "Kp2" sp = Ok Kp2 ->
  let B := B_plastic12 nij mij (StateParameters.rij sp) Ge Ke D2 Kp2 in
  let Tij := Tij_plastic12 nij (StateParameters.rij sp) Ge Ke D1 Kp1 B in
  Li2002.set_parameter_TZ self sp
  = Ok (StateParameters.set_mat "Zij" (Zij_plastic12 Tij Ke D1 D2 Kp2)
          (StateParameters.set_mat "Tij" Tij
             (StateParameters.set_num "B" B sp))).
Proof.
  intros Hf1 Hf2 HR0 Hn Hmi HGe HKe HD1 HKp1 HD2 HKp2 B Tij.
  unfold Li2002.set_parameter_TZ.
  rewrite Hf1, Hf2. rewrite (@Reqb_false _ 0.0) by lra. cbn [orb bind].
  rewrite Hn. cbn [bind]. rewrite Hmi. cbn [bind]. rewrite HGe. cbn [bind].
  rewrite HKe. cbn [bind]. rewrite HD2. cbn [bind]. rewrite HKp2. cbn [bind].
  fold (B_plastic12 nij mij (StateParameters.rij sp) Ge Ke D2 Kp2). fold B.
  change (StateParameters.elastic_flag1 (StateParameters.set_num "B" B sp))
    with (StateParameters.elastic_flag1 sp).
  rewrite Hf1. attr_simpl. rewrite Hn. cbn [bind]. rewrite HGe. cbn [bind].
  rewrite HKe. cbn [bind].
  rewrite HD1. cbn [bind]. rewrite HKp1. cbn [bind].
  change (StateParameters.rij (StateParameters.set_num "B" B sp))
    with (StateParameters.rij sp).
  fold (Tij_plastic12 nij (StateParameters.rij sp) Ge Ke D1 Kp1 B). fold Tij.
  change (StateParameters.elastic_flag2 (StateParameters.set_mat "Tij" _ _))
    with (StateParameters.elastic_flag2 sp).
  rewrite Hf2. attr_simpl. rewrite HKe. cbn [bind]. rewrite HD1. cbn [bind].
  change (StateParameters.R_ (StateParameters.set_mat "Tij" _ _))
    with (StateParameters.R_ sp).
  rewrite (@Reqb_false _ 0.0) by lra.
  attr_simpl. rewrite HD2. cbn [bind]. rewrite HKp2. cbn [bind].
  reflexivity.
Qed.

(** The evaluation when both mechanisms are plastic: the stress ratio is
    outside the surface of mechanism 1, and the mean stress is above [beta]
    and rising. *)
Lemma evaluate_plastic12
    (self : Li2002.t) (sp : StateParameters.t) (ec : R)
    (rij_bar : mat3) (R_bar g_bar : R) :
  Li2002.e self = Some ec ->
  StateParameters.elastic_flag1 sp = false ->
  StateParameters.elastic_flag2 sp = false ->
  1e-6 <= norm (msub (StateParameters.rij sp) (Li2002.alpha self)) ->
  Li2002.mapping_r self 1.0 (StateParameters.rij sp) (Li2002.alpha self)
  = (rij_bar, R_bar, g_bar) ->
  0 < R_bar - Li2002.H1 self * g_bar ->
  0 < StateParameters.dp sp ->
  Li2002.beta self < StateParameters.p sp ->
  StateParameters.p sp <= Li2002.H2 self ->
  StateParameters.R_ sp <> 0 ->
  norm (StateParameters.rij sp) <> 0 ->
  let Ge := fst (Li2002.elastic_modulus self ec (StateParameters.p sp)) in
  let Ke := snd (Li2002.elastic_modulus self ec (StateParameters.p sp)) in
  let psi := Li2002.state_parameter self ec (StateParameters.p sp) in
  let g := Li2002.g_theta self (StateParameters.sij sp) in
  let h := (Li2002.h1 self - Li2002.h2 self * ec)
           * ((1.0 / 1.0) ^ 10
              + Li2002.h3 self * Li2002.accumulated_load_index self (Li2002.L1 self)
                * (1 - (1.0 / 1.0) ^ 10)) in
  let Kp := Li2002.plastic_modulus1 self Ge R_bar g_bar 1.0 h psi in
  let D1 := Li2002.dilatancy1 self (StateParameters.R_ sp) g 1.0 psi in
  let rho2_ratio := Rabs (Li2002.H2 self - Li2002.beta self)
                    / Rabs (StateParameters.p sp - Li2002.beta self) in
  let sign := StateParameters.dp sp / Rabs (StateParameters.dp sp) in
  let Mg_R := Li2002.M self * g / StateParameters.R_ sp in
  let Kp2 := Li2002.plastic_modulus2 self Ge Mg_R rho2_ratio sign in
  let D2 := Li2002.dilatancy2 self Mg_R sign in
  let nij := flow_direction self (StateParameters.sij sp) rij_bar R_bar g_bar in
  let mij := mdiv (StateParameters.rij sp) (norm (StateParameters.rij sp)) in
  let B := B_plastic12 nij mij (StateParameters.rij sp) Ge Ke D2 (fst Kp2) in
  let Tij := Tij_plastic12 nij (StateParameters.rij sp) Ge Ke D1 (fst Kp) B in
  let Zij := Zij_plastic12 Tij Ke D1 D2 (fst Kp2) in
  exists sp' : StateParameters.t,
    Li2002.evaluate brentq self sp = Ok (Li2002.set_H1 (R_bar / g_bar) self, sp')
    /\ same_core sp sp'
    /\ StateParameters.elastic_flag1 sp' = false
    /\ StateParameters.elastic_flag2 sp' = false
    /\ StateParameters.matr "Tij" sp' = Ok Tij
    /\ StateParameters.matr "Zij" sp' = Ok Zij
    /\ StateParameters.num "Kp2_b" sp' = Ok (snd Kp2).
Proof.
  intros He Hf1 Hf2 Hn Hm HF Hdp Hb HH HR0 Hn0 Ge Ke psi g h Kp D1 rho2_ratio sign Mg_R
    Kp2 D2 nij mij B Tij Zij.
  unfold Li2002.evaluate.
  rewrite (@set_mapping_stress_plastic12 self sp rij_bar R_bar g_bar
             Hf1 Hf2 Hn Hm HF Hdp Hb HH).
  cbn [bind]. fold rho2_ratio.
  set (self1 := Li2002.set_H1 (R_bar / g_bar) self).
  set (sp1 := StateParameters.set_num "rho2_ratio" rho2_ratio _).
  rewrite (@set_parameters_plastic12 self1 sp1 ec 1.0 R_bar g_bar rho2_ratio
             He Hf1 Hf2 HR0 eq_refl eq_refl eq_refl eq_refl).
  cbn [bind].
  set (sp2 := StateParameters.set_num "D2" _ _).
  rewrite (@set_parameter_nm_plastic12 self1 sp2 rij_bar R_bar g_bar
             Hf1 Hn0 eq_refl eq_refl eq_refl).
  cbn [bind].
  set (sp3 := StateParameters.set_mat "mij" _ _).
  rewrite (@set_parameter_TZ_plastic12 self1 sp3 nij mij Ge Ke D1 (fst Kp) D2 (fst Kp2)
             Hf1 Hf2 HR0 eq_refl eq_refl eq_refl eq_refl eq_refl eq_refl eq_refl eq_refl).
  cbn [bind].
  eexists. split; [reflexivity|].
  split; [repeat split|].
  split; [exact Hf1|]. split; [exact Hf2|].
  split; [reflexivity|]. split; [reflexivity|]. reflexivity.
Qed.

End Plastic12.

Lemma ddot_mdiv_r (a b : mat3) (k : R) : ddot a (mdiv b k) = ddot a b / k.
Proof.
  destruct a as [[? ? ?] [? ? ?] [? ? ?]], b as [[? ? ?] [? ? ?] [? ? ?]].
  mat_compute. unfold Rdiv. ring.
Qed.

(** With both mechanisms plastic, [nr + B] is a quotient by [Bd]. *)
Lemma B_plastic12_sum (nij mij rij : mat3) (Ge Ke D2 Kp2 : R) :
  sqrt (2 / 3) * Ke * D2 + Kp2 <> 0 ->
  ddot nij rij + B_plastic12 nij mij rij Ge Ke D2 Kp2
  = (2 * Ge * ddot nij mij + Kp2 * ddot nij rij) / (sqrt (2 / 3) * Ke * D2 + Kp2).
Proof. intros H. unfold B_plastic12. cbv zeta. field. exact H. Qed.

(** The loading indices of a unit volumetric strain increment: for a
    traceless flow direction only the bulk terms are left. *)
Lemma Tij_plastic12_volumetric (nij rij : mat3) (Ge Ke D1 Kp1 B : R) :
  trace nij = 0 ->
  ddot (Tij_plastic12 nij rij Ge Ke D1 Kp1 B) eye3
  = - (3 * (Ke * (ddot nij rij + B)))
    / (2 * Ge - sqrt (2 / 3) * Ke * D1 * (ddot nij rij + B) + Kp1).
Proof.
  intros Htr. unfold Tij_plastic12. cbv zeta.
  set (nr := ddot nij rij). clearbody nr.
  set (Td := 2 * Ge - sqrt (2 / 3) * Ke * D1 * (nr + B) + Kp1). clearbody Td.
  destruct nij as [[n00 n01 n02] [n10 n11 n12] [n20 n21 n22]].
  mat_compute_in Htr. mat_compute.
  replace n22 with (- n00 - n11) by lra.
  unfold Rdiv. ring.
Qed.

Lemma Zij_plastic12_volumetric (nij rij : mat3) (Ge Ke D1 Kp1 B D2 Kp2 : R) :
  trace nij = 0 ->
  2 * Ge - sqrt (2 / 3) * Ke * D1 * (ddot nij rij + B) + Kp1 <> 0 ->
  ddot (Zij_plastic12 (Tij_plastic12 nij rij Ge Ke D1 Kp1 B) Ke D1 D2 Kp2) eye3
  = 3 * Ke * (2 * Ge + Kp1)
    / (2 * Ge - sqrt (2 / 3) * Ke * D1 * (ddot nij rij + B) + Kp1)
    / (sqrt (2 / 3) * Ke * D2 + Kp2).
Proof.
  intros Htr HTd.
  pose proof (@Tij_plastic12_volumetric nij rij Ge Ke D1 Kp1 B Htr) as HT.
  unfold Zij_plastic12. cbv zeta.
  set (T := Tij_plastic12 nij rij Ge Ke D1 Kp1 B) in *. clearbody T.
  set (nrB := ddot nij rij + B) in *. clearbody nrB.
  set (s := sqrt (2 / 3)) in *. clearbody s.
  set (Zd := s * Ke * D2 + Kp2). clearbody Zd.
  assert (E : ddot (mdiv (msub (mscale Ke eye3) (mscale (s * Ke * D1) T)) Zd) eye3
              = (3 * Ke - s * Ke * D1 * ddot T eye3) / Zd).
  { destruct T as [[? ? ?] [? ? ?] [? ? ?]]. mat_compute. unfold Rdiv. ring. }
  rewrite E, HT. apply (f_equal (fun x => x / Zd)). field. exact HTd.
Qed.

Lemma init_shear_stress_dp (strain dstrain : mat3) (f1 f2 : bool) :
  StateParameters.dp (StateParameters.init strain shear_stress dstrain eye3 f1 f2) = 1.
Proof.
  unfold StateParameters.init, StateParameters.set_stress_increment,
    StateParameters.set_stress_variable.
  sp_simpl. unfold shear_stress. mat_compute. lra.
Qed.

(** The signs of the two loading indices of a unit volumetric strain
    increment at a pure-shear stress ratio, with both mechanisms plastic. *)
Lemma plastic12_indices (nij : mat3) (Ge Ke D1 Kp1 D2 Kp2 : R) :
  trace nij = 0 ->
  0 < ddot nij (pure_shear 0.1) <= 0.2 ->
  0 < Ge -> Ke = Ge * (5 / 3) ->
  D1 <= 0.41 -> - (Ge * 0.8625) <= Kp1 ->
  0 <= D2 -> Ge * 14 <= Kp2 ->
  let rij := pure_shear 0.1 in
  let mij := mdiv rij (norm rij) in
  let B := B_plastic12 nij mij rij Ge Ke D2 Kp2 in
  let Tij := Tij_plastic12 nij rij Ge Ke D1 Kp1 B in
  ddot Tij eye3 < 0 /\ 0 < ddot (Zij_plastic12 Tij Ke D1 D2 Kp2) eye3.
Proof.
  intros Htr Hnr HG HK HD1 HKp1 HD2 HKp2 rij mij B Tij.
  pose proof sqrt_two_thirds as Hs.
  assert (HKe : 0 < Ke) by lra.
  assert (HsK : 0 <= sqrt (2 / 3) * Ke * D2).
  { apply Rmult_le_pos; [apply Rmult_le_pos|]; lra. }
  assert (HBd : 0 < sqrt (2 / 3) * Ke * D2 + Kp2) by lra.
  assert (HN : 0.1 <= norm rij).
  { unfold rij, norm. rewrite sumsq_pure_shear.
    rewrite <- (sqrt_square 0.1) at 1 by lra.
    apply sqrt_le_1_alt. lra. }
  assert (Hnm : 0 < ddot nij mij <= 2).
  { unfold mij. rewrite ddot_mdiv_r. fold rij in Hnr.
    set (nr := ddot nij rij) in *. clearbody nr.
    set (N := norm rij) in *. clearbody N.
    assert (HNi : 0 < / N) by (apply Rinv_0_lt_compat; lra).
    split.
    - apply Rmult_lt_0_compat; lra.
    - apply (Rmult_le_reg_r N); [lra|].
      unfold Rdiv. rewrite Rmult_assoc, Rinv_l by lra. lra. }
  assert (HnrB : 0 < ddot nij rij + B <= 0.5).
  { unfold B. rewrite B_plastic12_sum by lra. fold rij in Hnr.
    set (nr := ddot nij rij) in *. clearbody nr.
    set (nm := ddot nij mij) in *. clearbody nm.
    set (Bd := sqrt (2 / 3) * Ke * D2 + Kp2) in *.
    assert (HBdK : Kp2 <= Bd) by (unfold Bd; lra).
    clearbody Bd.
    assert (Hnum : 0 < 2 * Ge * nm + Kp2 * nr <= 0.5 * Bd).
    { assert (0 < Ge * nm) by (apply Rmult_lt_0_compat; lra).
      assert (0 < Kp2 * nr) by (apply Rmult_lt_0_compat; lra).
      assert (Ge * nm <= Ge * 2) by (apply Rmult_le_compat_l; lra).
      assert (Kp2 * nr <= Kp2 * 0.2) by (apply Rmult_le_compat_l; lra).
      lra. }
    assert (HBi : 0 < / Bd) by (apply Rinv_0_lt_compat; lra).
    split.
    - apply Rmult_lt_0_compat; lra.
    - apply (Rmult_le_reg_r Bd); [lra|].
      unfold Rdiv. rewrite Rmult_assoc, Rinv_l by lra. lra. }
  assert (HTd : 0 < 2 * Ge - sqrt (2 / 3) * Ke * D1 * (ddot nij rij + B) + Kp1).
  { set (nrB := ddot nij rij + B) in *. clearbody nrB.
    set (s := sqrt (2 / 3)) in *. clearbody s.
    replace (s * Ke * D1 * nrB) with (D1 * (s * Ke * nrB)) by ring.
    assert (Ht : 0 <= s * Ke * nrB <= Ke * 0.5).
    { assert (0 <= s * Ke) by (apply Rmult_le_pos; lra).
      assert (s * Ke <= Ke) by nra.
      split; [apply Rmult_le_pos; lra|]. nra. }
    set (t := s * Ke * nrB) in *. clearbody t.
    assert (D1 * t <= 0.41 * t) by (apply Rmult_le_compat_r; lra).
    subst Ke. lra. }
  split.
  - unfold Tij. rewrite (@Tij_plastic12_volumetric nij rij Ge Ke D1 Kp1 B Htr).
    set (Td := 2 * Ge - sqrt (2 / 3) * Ke * D1 * (ddot nij rij + B) + Kp1) in *.
    clearbody Td.
    assert (0 < Ke * (ddot nij rij + B)) by (apply Rmult_lt_0_compat; lra).
    assert (0 < / Td) by (apply Rinv_0_lt_compat; lra).
    unfold Rdiv. nra.
  - unfold Tij. rewrite (@Zij_plastic12_volumetric nij rij Ge Ke D1 Kp1 B D2 Kp2 Htr)
      by lra.
    apply Rdiv_lt_0_compat; [|exact HBd].
    apply Rdiv_lt_0_compat; [|exact HTd].
    apply Rmult_lt_0_compat; lra.
Qed.

Lemma R_bar_pure_shear_upper : sqrt (1.5 * sumsq (pure_shear 0.1)) <= 0.2.
Proof.
  rewrite sumsq_pure_shear.
  replace 0.2 with (sqrt (0.2 * 0.2)) by (apply sqrt_square; lra).
  apply sqrt_le_1_alt. lra.
Qed.

Section YieldingSand.

Variable brentq : (R -> R) -> R -> R -> res R.

(** The evaluation of a fresh snapshot of the yielding sand with a rising
    mean stress: both mechanisms are plastic, the root finder is not called,
    and a unit volumetric strain increment has a negative loading index in
    mechanism 1 and a positive one in mechanism 2. *)
Lemma evaluate_yielding_sand (dstrain : mat3) :
  let sp := StateParameters.init (Li2002.strain yielding_sand)
              (Li2002.stress yielding_sand) dstrain eye3 false false in
  exists (sp' : StateParameters.t) (Tij Zij : mat3),
    Li2002.evaluate brentq yielding_sand sp
    = Ok (Li2002.set_H1 sheared_H1 yielding_sand, sp')
    /\ same_core sp sp'
    /\ StateParameters.elastic_flag1 sp' = false
    /\ StateParameters.elastic_flag2 sp' = false
    /\ StateParameters.matr "Tij" sp' = Ok Tij
    /\ StateParameters.matr "Zij" sp' = Ok Zij
    /\ ddot Tij eye3 < 0
    /\ 0 < ddot Zij eye3.
Proof.
  intros sp.
  change (Li2002.strain yielding_sand) with zeros33 in sp.
  change (Li2002.stress yielding_sand) with shear_stress in sp.
  destruct (init_shear_stress zeros33 dstrain eye3 false false)
    as [Hp [Hs [Hr HR]]].
  pose proof (init_shear_stress_dp zeros33 dstrain false false) as Hdp.
  fold sp in Hp, Hs, Hr, HR, Hdp.
  pose proof R_bar_pure_shear as HRb.
  pose proof R_bar_pure_shear_upper as HRu.
  pose proof (g_bar_loaded_sand 0.1) as Hgb.
  pose proof (g_bar_loaded_sand 10100) as Hg.
  assert (Hpar : Li2002.par yielding_sand = Li2002.par Li2002.default) by reflexivity.
  assert (Hnorm : 0.1 <= norm (pure_shear 0.1)).
  { unfold norm. rewrite sumsq_pure_shear.
    rewrite <- (sqrt_square 0.1) at 1 by lra.
    apply sqrt_le_1_alt. lra. }
  destruct (@evaluate_plastic12 brentq yielding_sand sp 0.75 (pure_shear 0.1)
              (sqrt (1.5 * sumsq (pure_shear 0.1)))
              (Li2002.g_theta yielding_sand (pure_shear 0.1)))
    as [sp' [E [Hc [G1 [G2 [HT [HZ _]]]]]]].
  - reflexivity.
  - reflexivity.
  - reflexivity.
  - rewrite Hr. change (Li2002.alpha yielding_sand) with zeros33.
    replace (msub (pure_shear 0.1) zeros33) with (pure_shear 0.1)
      by (unfold pure_shear; mat_compute; arr_eq; lra).
    lra.
  - rewrite Hr. change (Li2002.alpha yielding_sand) with zeros33.
    unfold Li2002.mapping_r.
    replace (madd zeros33 (mscale 1.0 (msub (pure_shear 0.1) zeros33)))
      with (pure_shear 0.1)
      by (unfold pure_shear; mat_compute; arr_eq; lra).
    reflexivity.
  - change (Li2002.H1 yielding_sand) with 0.0.
    change (Li2002.g_theta yielding_sand (pure_shear 0.1))
      with (Li2002.g_theta loaded_sand (pure_shear 0.1)).
    lra.
  - rewrite Hdp. lra.
  - rewrite Hp. change (Li2002.beta yielding_sand) with 100000. lra.
  - rewrite Hp. change (Li2002.H2 yielding_sand) with 101000. lra.
  - rewrite HR. lra.
  - rewrite Hr. lra.
  - rewrite Hp, Hs, Hr, HR, Hdp in HT, HZ.
    change (Li2002.H2 yielding_sand) with 101000 in HT, HZ.
    change (Li2002.beta yielding_sand) with 100000 in HT, HZ.
    change (Li2002.g_theta yielding_sand) with (Li2002.g_theta loaded_sand) in HT, HZ.
    destruct (@default_moduli yielding_sand 0.75 101000 Hpar) as [HGe HKe]; [lra|].
    set (Ge := fst (Li2002.elastic_modulus yielding_sand 0.75 101000)) in *.
    set (Ke := snd (Li2002.elastic_modulus yielding_sand 0.75 101000)) in *.
    clearbody Ge Ke.
    rewrite (@state_parameter_at_reference yielding_sand Hpar) in HT, HZ.
    set (R_bar := sqrt (1.5 * sumsq (pure_shear 0.1))) in *.
    set (g_bar := Li2002.g_theta loaded_sand (pure_shear 0.1)) in *.
    assert (Hgv : Li2002.g_theta loaded_sand (pure_shear 10100) = 0.84).
    { rewrite g_theta_pure_shear. change (Li2002.c loaded_sand) with 0.75. lra. }
    set (g := Li2002.g_theta loaded_sand (pure_shear 10100)) in *.
    destruct (@flow_direction_pure_shear yielding_sand (pure_shear 10100) 0.1 R_bar g_bar)
      as [D HD].
    { apply Lode_angle_pure_shear. }
    { change (Li2002.eps yielding_sand) with 1e-6. rewrite Rabs_pos_eq; lra. }
    rewrite HD in HT, HZ. clear HD.
    set (X := 1.5 / (R_bar * g_bar) ^ 2 * (R_bar * g_bar * 0.1)) in *.
    assert (HX : 0 < X).
    { unfold X. apply Rmult_lt_0_compat.
      - apply Rdiv_lt_0_compat; [lra|]. apply pow_lt. apply Rmult_lt_0_compat; lra.
      - apply Rmult_lt_0_compat; [apply Rmult_lt_0_compat|]; lra. }
    assert (HR0 : 0 <= R_bar) by lra.
    clearbody X g_bar.
    destruct (@shear_form_direction D X 0.1 HX) as [Htr Hnr]; [lra|].
    set (nij := mdiv (shear_form D X) (norm (shear_form D X))) in *. clearbody nij.
    set (h := (Li2002.h1 yielding_sand - Li2002.h2 yielding_sand * 0.75)
              * ((1.0 / 1.0) ^ 10
                 + Li2002.h3 yielding_sand
                   * Li2002.accumulated_load_index yielding_sand (Li2002.L1 yielding_sand)
                   * (1 - (1.0 / 1.0) ^ 10))) in *.
    assert (Hh : h = 0.8625).
    { unfold h. replace (1.0 / 1.0) with 1 by lra. rewrite pow1.
      change (Li2002.h1 yielding_sand) with 3.15.
      change (Li2002.h2 yielding_sand) with 3.05. lra. }
    clearbody h. subst h.
    pose proof (@plastic_modulus1_lower yielding_sand Ge R_bar g_bar 0.8625 (-0.165)) as HKp.
    pose proof (@dilatancy1_upper yielding_sand R_bar g (-0.165) Hpar HR0 Hg) as HD1.
    set (Kp := Li2002.plastic_modulus1 yielding_sand Ge R_bar g_bar 1.0 0.8625 (-0.165)) in *.
    set (D1 := Li2002.dilatancy1 yielding_sand R_bar g 1.0 (-0.165)) in *.
    clearbody Kp D1.
    assert (HKp' : - (Ge * 0.8625) <= fst Kp).
    { apply HKp; try lra. change (Li2002.M yielding_sand) with 1.25. lra. }
    assert (HD1' : D1 <= 0.41) by (apply HD1; lra).
    clear HKp HD1.
    (* mechanism 2 *)
    replace (Rabs (101000 - 100000) / Rabs (101000 - 100000)) with 1 in HT, HZ
      by (rewrite Rabs_pos_eq by lra; lra).
    replace (1 / Rabs 1) with 1 in HT, HZ
      by (rewrite Rabs_pos_eq by lra; lra).
    change (Li2002.M yielding_sand) with 1.25 in HT, HZ.
    set (Mg_R := 1.25 * g / R_bar) in *.
    assert (HMg : 5 <= Mg_R).
    { unfold Mg_R. rewrite Hgv.
      assert (0 < / R_bar) by (apply Rinv_0_lt_compat; lra).
      apply (Rmult_le_reg_r R_bar); [lra|].
      unfold Rdiv. rewrite Rmult_assoc, Rinv_l by lra. lra. }
    clearbody Mg_R.
    assert (HKp2 : fst (Li2002.plastic_modulus2 yielding_sand Ge Mg_R 1 1)
                   = Ge * 3.5 * Mg_R).
    { unfold Li2002.plastic_modulus2. cbn [fst].
      change (Li2002.h4 yielding_sand) with 3.5.
      change (Li2002.a yielding_sand) with 1.
      unfold np_power. rewrite (@Reqb_false 1 0) by lra.
      rewrite Rpower_1 by lra. ring. }
    assert (HD2 : Li2002.dilatancy2 yielding_sand Mg_R 1 = Mg_R - 1).
    { unfold Li2002.dilatancy2. rewrite (@Rleb_true 1.0 Mg_R) by lra.
      change (Li2002.d2 yielding_sand) with 1. lra. }
    rewrite HKp2, HD2 in HT, HZ.
    destruct (@plastic12_indices nij Ge Ke D1 (fst Kp) (Mg_R - 1) (Ge * 3.5 * Mg_R))
      as [HsT HsZ]; try assumption; try lra.
    { nra. }
    exists sp'. do 2 eexists.
    split.
    { exact E. }
    split; [exact Hc|]. split; [exact G1|]. split; [exact G2|].
    split; [exact HT|]. split; [exact HZ|].
    split; [exact HsT | exact HsZ].
Qed.

(** The unload check after a compression with a rising mean stress:
    mechanism 2 keeps loading and [beta] stays where it was; mechanism 1
    unloads. *)
Lemma check_unload_yielding_sand_loads :
  exists (sp' : StateParameters.t) (Zij : mat3),
    Li2002.check_unload brentq yielding_sand compressing_snapshot
    = Ok (Li2002.set_alpha (pure_shear 0.1) (Li2002.set_H1 sheared_H1 yielding_sand),
          sp', (true, false))
    /\ StateParameters.elastic_flag2 sp' = false
    /\ StateParameters.matr "Zij" sp' = Ok Zij
    /\ 0 < ddot Zij eye3.
Proof.
  destruct (evaluate_yielding_sand eye3)
    as [sp' [Tij [Zij [E [Hc [G1 [G2 [HT [HZ [HsT HsZ]]]]]]]]]].
  fold compressing_snapshot in E, Hc.
  destruct Hc as [_ [_ [_ [Hd [_ [_ [_ [Hr _]]]]]]]].
  destruct (init_shear_stress zeros33 eye3 eye3 false false) as [_ [_ [Hr0 _]]].
  exists sp', Zij. split; [|split; [exact G2 | split; [exact HZ | exact HsZ]]].
  unfold Li2002.check_unload. rewrite E. cbn [bind]. rewrite HT. cbn [bind].
  rewrite Hd. change (StateParameters.dstrain compressing_snapshot) with eye3.
  rewrite (@Rltb_true _ 0.0) by lra.
  rewrite HZ. cbn [bind].
  rewrite (@Rltb_false _ 0.0) by lra.
  rewrite Hr. change (StateParameters.rij compressing_snapshot)
    with (StateParameters.rij (StateParameters.init zeros33 shear_stress eye3 eye3
                                 false false)).
  rewrite Hr0. reflexivity.
Qed.

(** The unload check after a volumetric expansion with a rising mean stress:
    mechanism 2 unloads and [beta] moves to the mean stress; mechanism 1
    keeps loading. *)
Lemma check_unload_yielding_sand_unloads :
  exists (sp' : StateParameters.t) (Zij : mat3),
    Li2002.check_unload brentq yielding_sand swelling_snapshot
    = Ok (Li2002.set_beta 101000 (Li2002.set_H1 sheared_H1 yielding_sand),
          sp', (false, true))
    /\ StateParameters.elastic_flag2 sp' = false
    /\ StateParameters.matr "Zij" sp' = Ok Zij
    /\ 0 < ddot Zij eye3.
Proof.
  destruct (evaluate_yielding_sand (mscale (-1) eye3))
    as [sp' [Tij [Zij [E [Hc [G1 [G2 [HT [HZ [HsT HsZ]]]]]]]]]].
  fold swelling_snapshot in E, Hc.
  destruct Hc as [_ [_ [_ [Hd [_ [Hp _]]]]]].
  destruct (init_shear_stress zeros33 (mscale (-1) eye3) eye3 false false)
    as [Hp0 _].
  exists sp', Zij. split; [|split; [exact G2 | split; [exact HZ | exact HsZ]]].
  unfold Li2002.check_unload. rewrite E. cbn [bind]. rewrite HT. cbn [bind].
  rewrite Hd. change (StateParameters.dstrain swelling_snapshot) with (mscale (-1) eye3).
  rewrite !ddot_mscale_r.
  rewrite (@Rltb_false _ 0.0) by lra.
  rewrite HZ. cbn [bind]. rewrite ddot_mscale_r.
  rewrite (@Rltb_true _ 0.0) by lra.
  rewrite Hp. change (StateParameters.p swelling_snapshot)
    with (StateParameters.p (StateParameters.init zeros33 shear_stress (mscale (-1) eye3)
                               eye3 false false)).
  rewrite Hp0. reflexivity.
Qed.

End YieldingSand.

Lemma check_unload_mechanism2_witness :
  (StateParameters.elastic_flag2 swelling_snapshot = false
   /\ exists (self' : Li2002.t) (sp' : StateParameters.t) (Zij : mat3),
        Li2002.check_unload no_root yielding_sand swelling_snapshot
          = Ok (self', sp', (false, true))
        /\ StateParameters.elastic_flag2 sp' = false
        /\ StateParameters.matr "Zij" sp' = Ok Zij
        /\ ddot Zij (StateParameters.dstrain swelling_snapshot) < 0
        /\ Li2002.beta self' = StateParameters.p swelling_snapshot
        /\ Li2002.beta self' <> Li2002.beta yielding_sand)
  /\ (StateParameters.elastic_flag2 compressing_snapshot = false
      /\ exists (self' : Li2002.t) (sp' : StateParameters.t) (Zij : mat3),
           Li2002.check_unload no_root yielding_sand compressing_snapshot
             = Ok (self', sp', (true, false))
           /\ StateParameters.elastic_flag2 sp' = false
           /\ StateParameters.matr "Zij" sp' = Ok Zij
           /\ 0 <= ddot Zij (StateParameters.dstrain compressing_snapshot)
           /\ Li2002.beta self' = Li2002.beta yielding_sand
           /\ Li2002.beta self' <> StateParameters.p compressing_snapshot).
Proof.
  destruct (init_shear_stress zeros33 eye3 eye3 false false) as [Hp1 _].
  destruct (init_shear_stress zeros33 (mscale (-1) eye3) eye3 false false) as [Hp2 _].
  split.
  - split; [reflexivity|].
    destruct (check_unload_yielding_sand_unloads no_root) as [sp' [Zij [Hrun [G2 [HZ Hs]]]]].
    destruct (@check_unload_mechanism2 no_root yielding_sand _ swelling_snapshot _ _ _
                eq_refl Hrun) as [Zij' [HZ' [Hneg _]]].
    assert (EZ : Zij' = Zij) by congruence. subst Zij'.
    assert (Hd : ddot Zij (StateParameters.dstrain swelling_snapshot) < 0).
    { change (StateParameters.dstrain swelling_snapshot) with (mscale (-1) eye3).
      rewrite ddot_mscale_r. lra. }
    destruct (Hneg Hd) as [_ Hb].
    eexists. exists sp', Zij.
    split; [exact Hrun|]. split; [exact G2|]. split; [exact HZ|].
    split; [exact Hd|]. split; [exact Hb|].
    rewrite Hb.
    change (StateParameters.p swelling_snapshot)
      with (StateParameters.p (StateParameters.init zeros33 shear_stress
                                 (mscale (-1) eye3) eye3 false false)).
    rewrite Hp2. change (Li2002.beta yielding_sand) with 100000. lra.
  - split; [reflexivity|].
    destruct (check_unload_yielding_sand_loads no_root) as [sp' [Zij [Hrun [G2 [HZ Hs]]]]].
    destruct (@check_unload_mechanism2 no_root yielding_sand _ compressing_snapshot _ _ _
                eq_refl Hrun) as [Zij' [HZ' [_ Hpos]]].
    assert (EZ : Zij' = Zij) by congruence. subst Zij'.
    assert (Hd : 0 <= ddot Zij (StateParameters.dstrain compressing_snapshot)).
    { change (StateParameters.dstrain compressing_snapshot) with eye3. lra. }
    destruct (Hpos Hd) as [_ Hb].
    eexists. exists sp', Zij.
    split; [exact Hrun|]. split; [exact G2|]. split; [exact HZ|].
    split; [exact Hd|]. split; [exact Hb|].
    rewrite Hb.
    change (StateParameters.p compressing_snapshot)
      with (StateParameters.p (StateParameters.init zeros33 shear_stress eye3 eye3
                                 false false)).
    rewrite Hp1. change (Li2002.beta yielding_sand) with 100000. lra.
Defined.

(** ** The mapping rule *)

Section Mapping.

Variable brentq : (R -> R) -> R -> R -> res R.

(** X20.  When [set_mapping_stress] asks for a root.  If the stress ratio is
    within 1e-6 of the centre, or outside the surface ([F1 > 0] at [t = 1]),
    the result does not depend on the root finder; otherwise [brentq] is
    called on the bracket [1.0, 1e6] and an exception it raises is the
    exception of the call. *)
Theorem set_mapping_stress_root_finder (self : Li2002.t) (sp : StateParameters.t) :
  let s := recentred self sp in
  (norm (msub (StateParameters.rij sp) (Li2002.alpha s)) < 1e-6
   \/ 0 < Li2002.F1_boundary_surface s 1.0 (StateParameters.rij sp) (Li2002.alpha s) ->
   forall brentq' : (R -> R) -> R -> R -> res R,
     Li2002.set_mapping_stress brentq self sp = Li2002.set_mapping_stress brentq' self sp)
  /\ (1e-6 <= norm (msub (StateParameters.rij sp) (Li2002.alpha s)) ->
      Li2002.F1_boundary_surface s 1.0 (StateParameters.rij sp) (Li2002.alpha s) <= 0 ->
      forall err : pyexn,
        brentq (fun t0 => Li2002.F1_boundary_surface s t0 (StateParameters.rij sp)
                            (Li2002.alpha s)) 1.0 1e6
        = Raise err ->
        Li2002.set_mapping_stress brentq self sp = Raise err).
Proof.
  intros s. split.
  - intros Hcase brentq'. unfold Li2002.set_mapping_stress.
    fold (recentred self sp). fold s.
    destruct (Rltb (norm (msub (StateParameters.rij sp) (Li2002.alpha s))) 1e-6) eqn:B;
      [reflexivity|].
    destruct Hcase as [Hn | HF].
    + rewrite (@Rltb_true _ _ Hn) in B. discriminate B.
    + rewrite (@Rltb_true 0.0 _) by lra. reflexivity.
  - intros Hn HF err Hraise. unfold Li2002.set_mapping_stress.
    fold (recentred self sp). fold s.
    rewrite (@Rltb_false _ _ Hn). rewrite (@Rltb_false 0.0 _) by lra.
    rewrite Hraise. reflexivity.
Qed.


Lemma set_mapping_stress_halves (self : Li2002.t) (sp : StateParameters.t) :
  Li2002.set_mapping_stress brentq self sp
  = (' (s1, sp1) <- mapping_mechanism1 brentq (recentred self sp) sp ;;
     mapping_mechanism2 s1 sp1).
Proof. reflexivity. Qed.

(** Mechanism 2 under compression. *)
Lemma mapping_mechanism2_part
    (s1 : Li2002.t) (sp1 : StateParameters.t) (self' : Li2002.t) (sp' : StateParameters.t) :
  mapping_mechanism2 s1 sp1 = Ok (self', sp') ->
  0 < StateParameters.dp sp1 ->
  Li2002.beta s1 < StateParameters.p sp1 ->
  Li2002.H2 self' = py_max (Li2002.H2 s1) (StateParameters.p sp1)
  /\ Li2002.H1 self' = Li2002.H1 s1
  /\ Li2002.alpha self' = Li2002.alpha s1
  /\ Li2002.par self' = Li2002.par s1
  /\ StateParameters.elastic_flag2 sp' = StateParameters.elastic_flag2 sp1
  /\ StateParameters.num "p_bar" sp' = Ok (Li2002.H2 self')
  /\ exists r : R, StateParameters.num "rho2_ratio" sp' = Ok r /\ 1 <= r.
Proof.
  intros H Hdp Hp. unfold mapping_mechanism2 in H.
  assert (Hne : Rabs (StateParameters.p sp1 - Li2002.beta s1) <> 0.0).
  { intros H0. replace 0.0 with 0 in H0 by lra.
    assert (Hd : StateParameters.p sp1 - Li2002.beta s1 <> 0) by lra.
    apply Rabs_no_R0 in Hd. contradiction. }
  rewrite (@Reqb_false _ _ Hne) in H. cbv zeta in H.
  rewrite (@Rltb_true 0.0 _) in H by lra.
  unfold py_max.
  destruct (Rltb (Li2002.H2 s1) (StateParameters.p sp1)) eqn:B.
  - sp_simpl_in H. rewrite (@Rleb_false _ _ Hp) in H. injection H as <- <-.
    repeat split. eexists. split; [reflexivity|].
    apply div_lower; [apply Rabs_pos_lt; lra | lra].
  - change (Li2002.beta s1) with (Li2002.beta s1) in H.
    rewrite (@Rleb_false _ _ Hp) in H. injection H as <- <-.
    repeat split. eexists. split; [reflexivity|].
    assert (HH : StateParameters.p sp1 <= Li2002.H2 s1).
    { destruct (Rlt_dec (Li2002.H2 s1) (StateParameters.p sp1)) as [Hlt|]; [|lra].
      rewrite (@Rltb_true _ _ Hlt) in B. discriminate B. }
    change (StateParameters.p (StateParameters.set_num "p_bar" (Li2002.H2 s1) sp1))
      with (StateParameters.p sp1).
    apply div_lower; [apply Rabs_pos_lt; lra|].
    rewrite !Rabs_pos_eq by lra. lra.
Qed.

Lemma mapping_mechanism1_part
    (s : Li2002.t) (sp : StateParameters.t) (s1 : Li2002.t) (sp1 : StateParameters.t) :
  mapping_mechanism1 brentq s sp = Ok (s1, sp1) ->
  Li2002.beta s1 = Li2002.beta s
  /\ Li2002.H2 s1 = Li2002.H2 s
  /\ StateParameters.p sp1 = StateParameters.p sp
  /\ StateParameters.dp sp1 = StateParameters.dp sp
  /\ StateParameters.elastic_flag2 sp1 = StateParameters.elastic_flag2 sp.
Proof.
  intros H. unfold mapping_mechanism1 in H. crunch H; repeat split.
Qed.

(** X21.  Mechanism 2 under compression.  For a snapshot that enters with
    [elastic_flag2 = False], a positive [dp] and a mean stress above [beta]:
    when [set_mapping_stress] returns, mechanism 2 is plastic, [H2] is
    [max(H2, p)], the image stress [p_bar] is that [H2], and the ratio
    [rho2_ratio] is at least 1. *)
Theorem set_mapping_stress_compression
    (self self' : Li2002.t) (sp sp' : StateParameters.t) :
  Li2002.set_mapping_stress brentq self sp = Ok (self', sp') ->
  StateParameters.elastic_flag2 sp = false ->
  0 < StateParameters.dp sp ->
  Li2002.beta self < StateParameters.p sp ->
  StateParameters.elastic_flag2 sp' = false
  /\ Li2002.H2 self' = py_max (Li2002.H2 self) (StateParameters.p sp)
  /\ StateParameters.num "p_bar" sp' = Ok (Li2002.H2 self')
  /\ exists r : R, StateParameters.num "rho2_ratio" sp' = Ok r /\ 1 <= r.
Proof.
  intros H Hf2 Hdp Hp.
  rewrite set_mapping_stress_halves in H.
  assert (Hb : Li2002.beta (recentred self sp) = Li2002.beta self)
    by (rewrite recentred_beta, Hf2; reflexivity).
  destruct (recentred_rest self sp) as [_ [_ [HH2 _]]].
  set (s := recentred self sp) in *. clearbody s.
  destruct (mapping_mechanism1 brentq s sp) as [[s1 sp1]|] eqn:E1; [|discriminate H].
  cbn [bind] in H.
  destruct (@mapping_mechanism1_part s sp s1 sp1 E1) as [Hb1 [HH1 [Hp1 [Hdp1 Hf1]]]].
  destruct (@mapping_mechanism2_part s1 sp1 self' sp' H)
    as [G1 [_ [_ [_ [G2 [G3 G4]]]]]].
  - rewrite Hdp1. exact Hdp.
  - rewrite Hb1, Hb, Hp1. exact Hp.
  - rewrite G2, Hf1, Hf2, G1, HH1, HH2, Hp1. repeat split; [|exact G4].
    rewrite G3, G1, HH1, HH2, Hp1. reflexivity.
Qed.

End Mapping.

Lemma isotropic_snapshot_p : StateParameters.p isotropic_snapshot = 200.
Proof.
  unfold isotropic_snapshot, StateParameters.init, StateParameters.set_stress_increment,
    StateParameters.set_stress_variable.
  sp_simpl. mat_compute. lra.
Qed.

Lemma isotropic_snapshot_dp : StateParameters.dp isotropic_snapshot = 1.
Proof.
  unfold isotropic_snapshot, StateParameters.init, StateParameters.set_stress_increment,
    StateParameters.set_stress_variable.
  sp_simpl. mat_compute. lra.
Qed.

Lemma isotropic_snapshot_rij : StateParameters.rij isotropic_snapshot = zeros33.
Proof.
  unfold isotropic_snapshot, StateParameters.init, StateParameters.set_stress_increment,
    StateParameters.set_stress_variable.
  sp_simpl. mat_compute.
  replace ((200 * 1 + 200 * 1 + 200 * 1) / 3) with 200 by lra.
  unfold py_max. rewrite (@Rltb_false 200 1.0) by lra. arr_eq; lra.
Qed.

Lemma isotropic_snapshot_regime :
  norm (msub (StateParameters.rij isotropic_snapshot)
          (Li2002.alpha (recentred sand_at_rest isotropic_snapshot))) < 1e-6
  /\ ((0 < StateParameters.dp isotropic_snapshot
       /\ Li2002.beta sand_at_rest < StateParameters.p isotropic_snapshot)
      \/ (StateParameters.dp isotropic_snapshot < 0
          /\ StateParameters.p isotropic_snapshot < Li2002.beta sand_at_rest)).
Proof.
  split.
  - change (Li2002.alpha (recentred sand_at_rest isotropic_snapshot)) with zeros33.
    rewrite isotropic_snapshot_rij, norm_msub_self. lra.
  - left. rewrite isotropic_snapshot_dp, isotropic_snapshot_p.
    change (Li2002.beta sand_at_rest) with 0.0. lra.
Qed.

Lemma set_mapping_stress_compression_witness :
  exists (self' : Li2002.t) (sp' : StateParameters.t),
    Li2002.set_mapping_stress no_root sand_at_rest isotropic_snapshot = Ok (self', sp')
    /\ StateParameters.elastic_flag2 isotropic_snapshot = false
    /\ 0 < StateParameters.dp isotropic_snapshot
    /\ Li2002.beta sand_at_rest < StateParameters.p isotropic_snapshot
    /\ StateParameters.elastic_flag2 sp' = false
    /\ Li2002.H2 self' = py_max (Li2002.H2 sand_at_rest) (StateParameters.p isotropic_snapshot)
    /\ StateParameters.num "p_bar" sp' = Ok (Li2002.H2 self')
    /\ exists r : R, StateParameters.num "rho2_ratio" sp' = Ok r /\ 1 <= r.
Proof.
  destruct isotropic_snapshot_regime as [Hn Hcase].
  destruct (@set_mapping_stress_elastic1_plastic2 no_root sand_at_rest isotropic_snapshot
              0.75 eq_refl eq_refl Hn Hcase) as [self1 [rho [pb [Hrun _]]]].
  assert (Hdp : 0 < StateParameters.dp isotropic_snapshot)
    by (rewrite isotropic_snapshot_dp; lra).
  assert (Hp : Li2002.beta sand_at_rest < StateParameters.p isotropic_snapshot)
    by (rewrite isotropic_snapshot_p; change (Li2002.beta sand_at_rest) with 0.0; lra).
  do 2 eexists. split; [exact Hrun|]. split; [reflexivity|].
  split; [exact Hdp|]. split; [exact Hp|].
  exact (@set_mapping_stress_compression no_root sand_at_rest _ isotropic_snapshot _
           Hrun eq_refl Hdp Hp).
Defined.

Section Expansion.

Variable brentq : (R -> R) -> R -> R -> res R.

(** The mapping of mechanism 2 returns in every case, and writes nothing of
    mechanism 1. *)
Lemma mapping_mechanism2_returns (s1 : Li2002.t) (sp1 : StateParameters.t) :
  exists (self' : Li2002.t) (sp' : StateParameters.t),
    mapping_mechanism2 s1 sp1 = Ok (self', sp')
    /\ Li2002.H1 self' = Li2002.H1 s1
    /\ Li2002.alpha self' = Li2002.alpha s1
    /\ Li2002.par self' = Li2002.par s1
    /\ StateParameters.num "rho1_ratio" sp' = StateParameters.num "rho1_ratio" sp1
    /\ StateParameters.num "g_bar" sp' = StateParameters.num "g_bar" sp1
    /\ StateParameters.num "R_bar" sp' = StateParameters.num "R_bar" sp1
    /\ StateParameters.matr "rij_bar" sp' = StateParameters.matr "rij_bar" sp1.
Proof.
  unfold mapping_mechanism2. cbv zeta.
  repeat match goal with
         | |- context [if ?b then _ else _] => destruct b
         end;
    do 2 eexists; (split; [reflexivity|]); repeat split.
Qed.

(** X22.  Outside the surface the mapping moves the surface onto the stress
    ratio.  For a stress ratio at least 1e-6 away from the centre and outside
    the bounding surface ([F1 > 0] at [t = 1]), [set_mapping_stress] returns
    without the root finder: it records the image
    [rij_bar, R_bar, g_bar = mapping_r(1.0, rij, alpha)] and
    [rho1_ratio = 1.0] in the snapshot and assigns [H1 = R_bar / g_bar]; when
    [g_bar] is positive, the new [H1] is not below the old one. *)
Theorem set_mapping_stress_expands_surface
    (self : Li2002.t) (sp : StateParameters.t) (rij_bar : mat3) (R_bar g_bar : R) :
  let s := recentred self sp in
  1e-6 <= norm (msub (StateParameters.rij sp) (Li2002.alpha s)) ->
  0 < Li2002.F1_boundary_surface s 1.0 (StateParameters.rij sp) (Li2002.alpha s) ->
  Li2002.mapping_r s 1.0 (StateParameters.rij sp) (Li2002.alpha s)
  = (rij_bar, R_bar, g_bar) ->
  exists (self' : Li2002.t) (sp' : StateParameters.t),
    Li2002.set_mapping_stress brentq self sp = Ok (self', sp')
    /\ StateParameters.matr "rij_bar" sp' = Ok rij_bar
    /\ StateParameters.num "R_bar" sp' = Ok R_bar
    /\ StateParameters.num "g_bar" sp' = Ok g_bar
    /\ StateParameters.num "rho1_ratio" sp' = Ok 1.0
    /\ Li2002.H1 self' = R_bar / g_bar
    /\ (0 < g_bar -> Li2002.H1 self <= Li2002.H1 self').
Proof.
  intros s Hn HF Hm.
  rewrite set_mapping_stress_halves. fold s.
  destruct (recentred_rest self sp) as [_ [HH1 _]]. fold s in HH1.
  clearbody s.
  unfold mapping_mechanism1.
  rewrite (@Rltb_false _ _ Hn). rewrite (@Rltb_true 0.0 _) by lra.
  unfold Li2002.F1_boundary_surface in HF. rewrite Hm in HF. rewrite Hm.
  cbn [bind].
  destruct (mapping_mechanism2_returns (Li2002.set_H1 (R_bar / g_bar) s)
              (StateParameters.set_num "rho1_ratio" 1.0
                 (StateParameters.set_num "g_bar" g_bar
                    (StateParameters.set_num "R_bar" R_bar
                       (StateParameters.set_mat "rij_bar" rij_bar sp)))))
    as [self' [sp' [Hrun [G1 [_ [_ [G4 [G5 [G6 G7]]]]]]]]].
  exists self', sp'. split; [exact Hrun|].
  cbn [Li2002.H1 Li2002.set_H1] in G1.
  split; [rewrite G7; reflexivity|].
  split; [rewrite G6; reflexivity|].
  split; [rewrite G5; reflexivity|].
  split; [rewrite G4; reflexivity|].
  split; [exact G1|].
  intros Hg. rewrite G1, <- HH1. left.
  apply (Rmult_lt_reg_r g_bar); [exact Hg|].
  unfold Rdiv. rewrite Rmult_assoc, Rinv_l by lra. lra.
Qed.

End Expansion.

Lemma set_mapping_stress_expands_surface_witness :
  let s := recentred loaded_sand reversal_snapshot in
  let R_bar := sqrt (1.5 * sumsq (pure_shear 0.1)) in
  let g_bar := Li2002.g_theta loaded_sand (pure_shear 0.1) in
  1e-6 <= norm (msub (StateParameters.rij reversal_snapshot) (Li2002.alpha s))
  /\ 0 < Li2002.F1_boundary_surface s 1.0 (StateParameters.rij reversal_snapshot)
           (Li2002.alpha s)
  /\ Li2002.mapping_r s 1.0 (StateParameters.rij reversal_snapshot) (Li2002.alpha s)
     = (pure_shear 0.1, R_bar, g_bar)
  /\ 0 < g_bar
  /\ exists (self' : Li2002.t) (sp' : StateParameters.t),
       Li2002.set_mapping_stress no_root loaded_sand reversal_snapshot = Ok (self', sp')
       /\ StateParameters.matr "rij_bar" sp' = Ok (pure_shear 0.1)
       /\ StateParameters.num "R_bar" sp' = Ok R_bar
       /\ StateParameters.num "g_bar" sp' = Ok g_bar
       /\ StateParameters.num "rho1_ratio" sp' = Ok 1.0
       /\ Li2002.H1 self' = R_bar / g_bar
       /\ (0 < g_bar -> Li2002.H1 loaded_sand <= Li2002.H1 self').
Proof.
  intros s R_bar g_bar.
  assert (Hs : s = loaded_sand) by reflexivity.
  assert (Hsub : msub (pure_shear 0.1) zeros33 = pure_shear 0.1)
    by (unfold pure_shear; mat_compute; arr_eq; lra).
  assert (Hmap : madd zeros33 (mscale 1.0 (msub (pure_shear 0.1) zeros33))
                 = pure_shear 0.1)
    by (unfold pure_shear; mat_compute; arr_eq; lra).
  assert (H3 : Li2002.mapping_r s 1.0 (StateParameters.rij reversal_snapshot)
                 (Li2002.alpha s) = (pure_shear 0.1, R_bar, g_bar)).
  { rewrite Hs, reversal_snapshot_rij. change (Li2002.alpha loaded_sand) with zeros33.
    unfold Li2002.mapping_r. rewrite Hmap. reflexivity. }
  assert (H1 : 1e-6 <= norm (msub (StateParameters.rij reversal_snapshot) (Li2002.alpha s))).
  { rewrite Hs, reversal_snapshot_rij. change (Li2002.alpha loaded_sand) with zeros33.
    rewrite Hsub. unfold norm. rewrite sumsq_pure_shear.
    replace 1e-6 with (sqrt (1e-6 * 1e-6)) by (apply sqrt_square; lra).
    apply sqrt_le_1_alt. lra. }
  assert (H2 : 0 < Li2002.F1_boundary_surface s 1.0 (StateParameters.rij reversal_snapshot)
                     (Li2002.alpha s)).
  { unfold Li2002.F1_boundary_surface. rewrite H3. rewrite Hs.
    change (Li2002.H1 loaded_sand) with 0.0.
    pose proof R_bar_pure_shear. fold R_bar in H. lra. }
  split; [exact H1|]. split; [exact H2|]. split; [exact H3|].
  split; [exact (g_bar_loaded_sand 0.1)|].
  exact (@set_mapping_stress_expands_surface no_root loaded_sand reversal_snapshot
           (pure_shear 0.1) R_bar g_bar H1 H2 H3).
Defined.

(** ** The tangent stiffness *)

Lemma contract_compose (E L : ten4) (x : mat3) :
  contract (compose E L) x = contract E (contract L x).
Proof.
  destruct x as [[x00 x01 x02] [x10 x11 x12] [x20 x21 x22]].
  unfold compose. mat_compute. arr_eq; ring.
Qed.

Lemma contract_identity4 (x : mat3) : contract identity4 x = x.
Proof.
  destruct x as [[x00 x01 x02] [x10 x11 x12] [x20 x21 x22]].
  unfold identity4. mat_compute. arr_eq; ring.
Qed.

Lemma contract_outer (a b x : mat3) : contract (outer a b) x = mscale (ddot b x) a.
Proof.
  destruct x as [[x00 x01 x02] [x10 x11 x12] [x20 x21 x22]].
  mat_compute. arr_eq; ring.
Qed.

Lemma contract_tsub (a b : ten4) (x : mat3) :
  contract (tsub a b) x = msub (contract a x) (contract b x).
Proof.
  destruct x as [[x00 x01 x02] [x10 x11 x12] [x20 x21 x22]].
  mat_compute. arr_eq; ring.
Qed.

Lemma mscale_zeros (k : R) : mscale k zeros33 = zeros33.
Proof. mat_compute. arr_eq; ring. Qed.

(** The tangent stiffness for two given plastic directions. *)
Lemma tangent_of_directions (Ee : ten4) (P1 T P2 Z x : mat3) :
  contract (compose Ee (tsub (tsub identity4 (outer P1 T)) (outer P2 Z))) x
  = contract Ee (msub (msub x (mscale (ddot T x) P1)) (mscale (ddot Z x) P2)).
Proof.
  rewrite contract_compose, !contract_tsub, contract_identity4, !contract_outer.
  reflexivity.
Qed.

(** X23.  The tangent stiffness that [set_tensor_Ep] stores is the elastic
    stiffness applied after the two plastic strain increments are taken off:
    [Ep : x = Ee : (x - (Tij:x) P1 - (Zij:x) P2)], where [P1] is
    [nij + sqrt(2/27) D1 I] and [P2] is [mij + sqrt(2/27) D2 I] (or
    [sqrt(2/27) I] when [R] is zero), and a mechanism that is elastic
    contributes nothing. *)
Theorem set_tensor_Ep_tangent (self : Li2002.t) (sp sp' : StateParameters.t) :
  Li2002.set_tensor_Ep self sp = Ok sp' ->
  exists (Ge : R) (Ep : ten4) (P1 T P2 Z : mat3),
    StateParameters.num "Ge" sp = Ok Ge
    /\ StateParameters.Ep sp' = Some Ep
    /\ (forall x : mat3,
          contract Ep x
          = contract (Li2002.elastic_stiffness self Ge)
              (msub (msub x (mscale (ddot T x) P1)) (mscale (ddot Z x) P2)))
    /\ (if StateParameters.elastic_flag1 sp then P1 = zeros33 /\ T = zeros33
        else exists (nij : mat3) (D1 : R),
            StateParameters.matr "nij" sp = Ok nij
            /\ StateParameters.num "D1" sp = Ok D1
            /\ StateParameters.matr "Tij" sp = Ok T
            /\ P1 = madd nij (mscale (sqrt (2 / 27) * D1) eye3))
    /\ (if StateParameters.elastic_flag2 sp then P2 = zeros33 /\ Z = zeros33
        else StateParameters.matr "Zij" sp = Ok Z
             /\ (if Reqb (StateParameters.R_ sp) 0
                 then P2 = mscale (sqrt (2 / 27)) eye3
                 else exists (mij : mat3) (D2 : R),
                     StateParameters.matr "mij" sp = Ok mij
                     /\ StateParameters.num "D2" sp = Ok D2
                     /\ P2 = madd mij (mscale (sqrt (2 / 27) * D2) eye3))).
Proof.
  intros H. unfold Li2002.set_tensor_Ep in H.
  crunch H;
    do 6 eexists;
    (split; [reflexivity|]);
    (split; [reflexivity|]);
    (split; [intros x; exact (tangent_of_directions _ _ _ _ _ x)|]);
    repeat (first [split | eexists]); reflexivity.
Qed.

Lemma set_tensor_Ep_tangent_witness :
  exists (sp' : StateParameters.t),
    Li2002.set_tensor_Ep sand_at_rest plastic1_snapshot = Ok sp'
    /\ exists (Ge : R) (Ep : ten4) (P1 T P2 Z : mat3),
      StateParameters.num "Ge" plastic1_snapshot = Ok Ge
      /\ StateParameters.Ep sp' = Some Ep
      /\ (forall x : mat3,
            contract Ep x
            = contract (Li2002.elastic_stiffness sand_at_rest Ge)
                (msub (msub x (mscale (ddot T x) P1)) (mscale (ddot Z x) P2)))
      /\ (exists (nij : mat3) (D1 : R),
            StateParameters.matr "nij" plastic1_snapshot = Ok nij
            /\ StateParameters.num "D1" plastic1_snapshot = Ok D1
            /\ StateParameters.matr "Tij" plastic1_snapshot = Ok T
            /\ P1 = madd nij (mscale (sqrt (2 / 27) * D1) eye3))
      /\ P2 = zeros33 /\ Z = zeros33.
Proof.
  eexists. split; [reflexivity|].
  exact (@set_tensor_Ep_tangent sand_at_rest plastic1_snapshot _ eq_refl).
Defined.

Section Assigned.

Variable brentq : (R -> R) -> R -> R -> res R.

Lemma mapping_mechanism1_assigns
    (s : Li2002.t) (sp : StateParameters.t) (s1 : Li2002.t) (sp1 : StateParameters.t) :
  mapping_mechanism1 brentq s sp = Ok (s1, sp1) ->
  StateParameters.elastic_flag1 sp1 = false ->
  exists (rij_bar : mat3) (R_bar g_bar rho1_ratio : R),
    StateParameters.matr "rij_bar" sp1 = Ok rij_bar
    /\ StateParameters.num "R_bar" sp1 = Ok R_bar
    /\ StateParameters.num "g_bar" sp1 = Ok g_bar
    /\ StateParameters.num "rho1_ratio" sp1 = Ok rho1_ratio.
Proof.
  intros H Hf. unfold mapping_mechanism1 in H.
  crunch H; try discriminate Hf; do 4 eexists; repeat split.
Qed.

Lemma mapping_mechanism2_assigns
    (s1 : Li2002.t) (sp1 : StateParameters.t) (self' : Li2002.t) (sp' : StateParameters.t) :
  mapping_mechanism2 s1 sp1 = Ok (self', sp') ->
  (StateParameters.elastic_flag1 sp' = StateParameters.elastic_flag1 sp1
   /\ StateParameters.matr "rij_bar" sp' = StateParameters.matr "rij_bar" sp1
   /\ StateParameters.num "R_bar" sp' = StateParameters.num "R_bar" sp1
   /\ StateParameters.num "g_bar" sp' = StateParameters.num "g_bar" sp1
   /\ StateParameters.num "rho1_ratio" sp' = StateParameters.num "rho1_ratio" sp1)
  /\ (StateParameters.elastic_flag2 sp' = false ->
      StateParameters.dp sp1 <> 0
      /\ StateParameters.p sp1 <> Li2002.beta self'
      /\ exists p_bar rho2_ratio : R,
           StateParameters.num "p_bar" sp' = Ok p_bar
           /\ StateParameters.num "rho2_ratio" sp' = Ok rho2_ratio).
Proof.
  intros H. unfold mapping_mechanism2 in H. cbv zeta in H.
  destruct (Reqb (Rabs (StateParameters.p sp1 - Li2002.beta s1)) 0.0) eqn:B0.
  { injection H as <- <-. split; [repeat split|]. intros Hf. discriminate Hf. }
  assert (Hb : forall b : bool,
             Li2002.beta (if b then Li2002.set_H2 (StateParameters.p sp1) s1 else s1)
             = Li2002.beta s1) by (intros []; reflexivity).
  rewrite !Hb in H.
  set (s2 := if Rltb (Li2002.H2 s1) (StateParameters.p sp1)
             then Li2002.set_H2 (StateParameters.p sp1) s1 else s1) in *.
  assert (Hb2 : Li2002.beta s2 = Li2002.beta s1) by apply Hb.
  clearbody s2.
  destruct (Rltb 0.0 (StateParameters.dp sp1)) eqn:B1.
  - apply Rltb_spec in B1.
    destruct (Rleb (StateParameters.p sp1) (Li2002.beta s1)) eqn:B2; injection H as <- <-.
    + split; [repeat split|]. intros Hf. discriminate Hf.
    + split; [repeat split|]. intros _. rewrite Hb2.
      split; [lra|]. split; [|do 2 eexists; split; reflexivity].
      intros Heq. rewrite (@Rleb_true _ _ (Req_le _ _ Heq)) in B2. discriminate B2.
  - destruct (Rltb (StateParameters.dp sp1) 0.0) eqn:B3.
    + apply Rltb_spec in B3.
      destruct (Rleb (Li2002.beta s1) (StateParameters.p sp1)) eqn:B2; injection H as <- <-.
      * split; [repeat split|]. intros Hf. discriminate Hf.
      * split; [repeat split|]. intros _. rewrite Hb2.
        split; [lra|]. split; [|do 2 eexists; split; reflexivity].
        intros Heq. rewrite (@Rleb_true (Li2002.beta s1) _) in B2 by lra. discriminate B2.
    + injection H as <- <-. split; [repeat split|]. intros Hf. discriminate Hf.
Qed.

(** X24.  What the mapping leaves behind for the methods that follow.  When
    [set_mapping_stress] returns with mechanism 1 plastic, it has assigned
    [rij_bar], [R_bar], [g_bar] and [rho1_ratio]; when it returns with
    mechanism 2 plastic, [dp] is not zero (so [dp / |dp|] is a sign), the mean
    stress differs from [beta], and [p_bar] and [rho2_ratio] are assigned. *)
Theorem set_mapping_stress_assigns
    (self self' : Li2002.t) (sp sp' : StateParameters.t) :
  Li2002.set_mapping_stress brentq self sp = Ok (self', sp') ->
  (StateParameters.elastic_flag1 sp' = false ->
   exists (rij_bar : mat3) (R_bar g_bar rho1_ratio : R),
     StateParameters.matr "rij_bar" sp' = Ok rij_bar
     /\ StateParameters.num "R_bar" sp' = Ok R_bar
     /\ StateParameters.num "g_bar" sp' = Ok g_bar
     /\ StateParameters.num "rho1_ratio" sp' = Ok rho1_ratio)
  /\ (StateParameters.elastic_flag2 sp' = false ->
      StateParameters.dp sp <> 0
      /\ StateParameters.p sp <> Li2002.beta self'
      /\ exists p_bar rho2_ratio : R,
           StateParameters.num "p_bar" sp' = Ok p_bar
           /\ StateParameters.num "rho2_ratio" sp' = Ok rho2_ratio).
Proof.
  intros H. rewrite set_mapping_stress_halves in H.
  destruct (mapping_mechanism1 brentq (recentred self sp) sp) as [[s1 sp1]|] eqn:E1;
    [|discriminate H].
  cbn [bind] in H.
  destruct (@mapping_mechanism1_part brentq _ _ _ _ E1) as [_ [_ [Hp1 [Hdp1 _]]]].
  destruct (@mapping_mechanism2_assigns _ _ _ _ H) as [[F1 [A1 [A2 [A3 A4]]]] Hm2].
  split.
  - intros Hf. rewrite F1 in Hf. rewrite A1, A2, A3, A4.
    exact (@mapping_mechanism1_assigns _ _ _ _ E1 Hf).
  - intros Hf. rewrite <- Hp1, <- Hdp1. exact (Hm2 Hf).
Qed.

End Assigned.

Lemma set_mapping_stress_assigns_witness :
  exists (self' : Li2002.t) (sp' : StateParameters.t),
    Li2002.set_mapping_stress no_root sand_at_rest isotropic_snapshot = Ok (self', sp')
    /\ (StateParameters.elastic_flag1 sp' = false ->
        exists (rij_bar : mat3) (R_bar g_bar rho1_ratio : R),
          StateParameters.matr "rij_bar" sp' = Ok rij_bar
          /\ StateParameters.num "R_bar" sp' = Ok R_bar
          /\ StateParameters.num "g_bar" sp' = Ok g_bar
          /\ StateParameters.num "rho1_ratio" sp' = Ok rho1_ratio)
    /\ (StateParameters.elastic_flag2 sp' = false ->
        StateParameters.dp isotropic_snapshot <> 0
        /\ StateParameters.p isotropic_snapshot <> Li2002.beta self'
        /\ exists p_bar rho2_ratio : R,
             StateParameters.num "p_bar" sp' = Ok p_bar
             /\ StateParameters.num "rho2_ratio" sp' = Ok rho2_ratio).
Proof.
  destruct isotropic_snapshot_regime as [Hn Hcase].
  destruct (@set_mapping_stress_elastic1_plastic2 no_root sand_at_rest isotropic_snapshot
              0.75 eq_refl eq_refl Hn Hcase) as [self1 [rho [pb [Hrun _]]]].
  do 2 eexists. split; [exact Hrun|].
  exact (@set_mapping_stress_assigns no_root sand_at_rest _ isotropic_snapshot _ Hrun).
Defined.

(** ** A model without a void ratio *)

Section VoidRatio.

Variable brentq : (R -> R) -> R -> R -> res R.

(** [Li2002.__init__] does not assign [self.e]; the drivers do.  Until then
    the evaluation stops at the first line of [set_parameters]. *)
Lemma evaluate_needs_e (self : Li2002.t) (sp : StateParameters.t) :
  Li2002.e self = None ->
  match Li2002.set_mapping_stress brentq self sp with
  | Ok _ => Li2002.evaluate brentq self sp = Raise (AttributeError "e")
  | Raise err => Li2002.evaluate brentq self sp = Raise err
  end.
Proof.
  intros He. unfold Li2002.evaluate.
  destruct (Li2002.set_mapping_stress brentq self sp) as [[self' sp']|err] eqn:E;
    cbn [bind]; [|reflexivity].
  destruct (@set_mapping_stress_frame brentq _ _ _ _ E)
    as [_ [_ [_ [_ [[_ [_ [_ [He' _]]]] _]]]]].
  unfold Li2002.set_parameters, Li2002.get_e. rewrite He', He. reflexivity.
Qed.

(** X25.  A model as [Li2002()] constructs it has no void ratio: [self.e] is
    first assigned by [isotropic_compression].  On such a model none of
    [check_unload], [update_parameters], [plastic_stiffness] and
    [plastic_deformation] returns: when the mapping returns they raise
    [AttributeError] for [self.e], and otherwise the exception of the
    mapping. *)
Theorem evaluation_needs_void_ratio
    (self : Li2002.t) (sp : StateParameters.t)
    (dstrain_given dstress_given : mat3) (deformation : mat bool) :
  Li2002.e self = None ->
  exists err : pyexn,
    match Li2002.set_mapping_stress brentq self sp with
    | Ok _ => err = AttributeError "e"
    | Raise err' => err = err'
    end
    /\ Li2002.check_unload brentq self sp = Raise err
    /\ Li2002.update_parameters brentq self sp = Raise err
    /\ Li2002.plastic_stiffness brentq self sp = Raise err
    /\ Li2002.plastic_deformation brentq self dstrain_given dstress_given deformation sp
       = Raise err.
Proof.
  intros He. pose proof (@evaluate_needs_e self sp He) as H.
  unfold Li2002.plastic_deformation, Li2002.check_unload,
    Li2002.update_parameters, Li2002.plastic_stiffness.
  destruct (Li2002.set_mapping_stress brentq self sp) as [[self' sp']|err'];
    rewrite H; cbn [bind]; eexists; repeat split; reflexivity.
Qed.

End VoidRatio.

Lemma evaluation_needs_void_ratio_witness :
  Li2002.e Li2002.default = None
  /\ exists err : pyexn,
       match Li2002.set_mapping_stress no_root Li2002.default snapshot_at_rest with
       | Ok _ => err = AttributeError "e"
       | Raise err' => err = err'
       end
       /\ Li2002.check_unload no_root Li2002.default snapshot_at_rest = Raise err
       /\ Li2002.update_parameters no_root Li2002.default snapshot_at_rest = Raise err
       /\ Li2002.plastic_stiffness no_root Li2002.default snapshot_at_rest = Raise err
       /\ Li2002.plastic_deformation no_root Li2002.default eye3 zeros33
            (all_mask false) snapshot_at_rest
          = Raise err.
Proof.
  split; [reflexivity|].
  exact (@evaluation_needs_void_ratio no_root Li2002.default snapshot_at_rest
           eye3 zeros33 (all_mask false) eq_refl).
Defined.
